(* ===== verification/_CoqProject ===== *)
-Q . S2P
Prelude.v
En29lv640.v
NorChip.v
BiffNor.v
BiffNorSpec.v
BiffNorFile.v
BiffNorSafe.v
BiffBoot.v
BiffUpgrade.v
Md5.v
BiffConfig.v
R6040.v
R6040Spec.v
R6040Type.v
LinuxR6040.v
LinuxR6040Spec.v
RdcGpio.v
Southbridge.v
SouthbridgeSpec.v
RdcWdt.v
Crc32.v
Crc32Be.v
LinuxR6040Dev.v
LinuxR6040DevSpec.v
LinuxR6040Rx.v
LinuxR6040Duplex.v
PortIO.v
BiffProp.v
BiffPropSpec.v
Jtag.v
BiffJtag.v
JtagSpec.v
BiffJtagSpec.v
Python.v
ConfigTools.v
ConfigToolsSpec.v
UdpUpload.v
UdpUploadSpec.v
Panel.v
PanelSpec.v
PanelLcd.v
PanelGpio.v
RawEth.v
RawEthSpec.v
Applets.v
AppletsSpec.v
Heating.v
HeatingSpec.v
Tftp.v
TftpSpec.v
HostJtag.v
HostJtagSpec.v
GpioCustom.v
GpioCustomSpec.v
RtaiLed.v
Sound.v
SerialUpload.v
