(* ===== verification/Prelude.v ===== *)
(** * Bifferboard: flash, network, GPIO, watchdog and tools

    The Bifferboard is a small x86 board with an EN29LV640 NOR flash, an R6040
    Ethernet controller and an RDC321x southbridge.  The repository holds an
    emulation of the board (devices added to QEMU), the Linux drivers it runs,
    programs for the board that drive its pins and its serial port, and tools
    for the host that flash and configure it.  This library models those parts,
    composes the drivers with the emulated devices and the tools with what they
    talk to, and proves what makes each of them correct.

    ** The parts and their files

    Flash.
    - En29lv640.v: the emulated chip (qemu/hw/en29lv640.c): the command state
      machine, erase, CFI query, accesses of every width, loading and saving the
      backing file.
    - NorChip.v: the interface between driver and chip: [NorBus] (accesses),
      [NorChip] and [Nor640] (what erase, program and read do).  The emulated
      chip is an instance.
    - BiffNor.v: the driver drivers/biffnor.c: polling, programming, the chunk
      permutation, and the file operations of /dev/biffkernel and /dev/biffboot,
      on any [NorBus].
    - BiffNorSpec.v, BiffNorFile.v, BiffNorSafe.v, BiffBoot.v: its theorems, on
      any [Nor640]: the flash routines, the round trip through /dev/biffkernel,
      arbitrary sequences of calls, the replacement of the boot sector.
    - BiffUpgrade.v: drivers/biffupgrade.c, which maps only the boot sector
      ([BootWindow]; the emulated chip behind a window is an instance).

    Configuration.
    - Md5.v: md5.c of the biffconfig package, and RFC 1321 as its specification.
    - BiffConfig.v: biffconfig.c: [main] as a function of the arguments, of how
      the calls on the flash device turn out and of the flash contents.
    - Python.v: what the host's tools use of Python: little-endian packing,
      padding, indexing from either end, slices.
    - ConfigTools.v, ConfigToolsSpec.v: the host's tools make_config_block.py,
      read_config_block.py and the form of bb_eth_setconfig.py; with biffconfig
      they agree on the block.

    Network.
    - R6040.v, R6040Spec.v: the emulated controller (qemu/hw/r6040.c): registers,
      PHY, descriptor rings in guest memory, interrupt line.  Which addresses are
      memory is a parameter of transmission ([is_ram]): a write elsewhere is lost.
    - R6040Type.v: what its operations keep true of every state: the widths of
      its registers, and the bounds of what reception writes.
    - LinuxR6040.v, LinuxR6040Spec.v: the data path of drivers/net/r6040.c, on
      any [Nic]; the emulated controller is the instance.
    - LinuxR6040Rx.v: the receive ring of driver and controller as a queue.
    - LinuxR6040Duplex.v: both rings together, with the rest of the kernel
      writing to its own memory, as a pair of queues; bringing the interface up.
    - Crc32.v: the little-endian half of lib/crc32.c and its table generator.
    - Crc32Be.v: the big-endian half, lib/bitrev.c, and the unit test at the end
      of lib/crc32.c.
    - LinuxR6040Dev.v, LinuxR6040DevSpec.v: the rest of the network driver: the
      multicast filter, link changes, open, close, probe and remove.

    Southbridge.
    - RdcGpio.v: the emulated configuration space and pins (qemu/hw/rdc-gpio.c);
      what the panel's socket will do is part of the state.
    - Southbridge.v: drivers/mfd/rdc321x-southbridge.c and
      drivers/gpio/rdc321x-gpio.c, on any [PciConfig]; the emulated southbridge
      is an instance.
    - SouthbridgeSpec.v: theorems of the two together.
    - RdcWdt.v: drivers/watchdog/rdc321x_wdt.c as a state machine, with its
      theorems.

    The panel.
    - Panel.v: the server that joins the emulator's pins to simulated hardware
      (qemu/panel.py) and its clients: the LED (led.py), the button (button.py),
      the display (hd44780.py) and the program that writes to it (lcdwrite.py).
    - PanelSpec.v: the server with any number of clients: arbitration, that it
      keeps serving, and that its subscribers are up to date.
    - PanelLcd.v: lcdwrite.py, the server and the display together.
    - PanelGpio.v: the Linux driver, the emulated southbridge, the server and
      the LED or the button together.

    Programs over port I/O.
    - PortIO.v: the interface [Ports] and the monad [io] of programs that may
      wait forever.
    - BiffProp.v, BiffPropSpec.v: the Propeller loader biffprop.c; the chip at
      the other end of the line is the interface [Serial].
    - Jtag.v: the assembler routines of jtag.S, each macro a definition; [JtagOps]
      is the interface of jtag.h, [asm_jtag] the routines as its instance.
    - BiffJtag.v: rdc.c and biffjtag.c on any [JtagOps] and [Files].
    - JtagSpec.v: the routines against the state machine of the test access port
      ([TapPins]), and the whole program over them.
    - BiffJtagSpec.v: programming and dumping against a chip with the documented
      Eon command set, write cycle by write cycle ([eon_write], [eon_read]), behind
      a debug port ([EonFlash]).

    Flashing over the network.
    - UdpUpload.v, UdpUploadSpec.v: the client bb_udp_upload.py and the board's
      stand-in bb_fake_udp_server.py, joined by a network that loses datagrams.
    - RawEth.v, RawEthSpec.v: the conversation over raw Ethernet of
      bb_eth_setconfig.py, bb_eth_upload8.py and bb_eth_gpio.py, on any
      [RawSocket], and the window of bb_eth_setconfig.py with its polling threads
      as a step relation.

    Applets.
    - Applets.v, AppletsSpec.v: the BusyBox applets button, buttondsr and buzzer,
      from what the system calls give to the list of what they do.
    - Sound.v: the applets wavplay and mixer, likewise, with their theorems.

    Other tools of the host.
    - Tftp.v, TftpSpec.v: the boot server tools/bootp_server.py: a TFTP connection
      as a state machine on datagrams, against a client and any network, and the
      BOOTP reply.
    - HostJtag.v, HostJtagSpec.v: tools/jtag: the parallel-port cable (class
      Xilinx of rdc.py) as an instance of [TapOps], the debug port (class RDC) on
      any [TapOps], and the scripts; the cable and jtag.S on the same wires
      ([Wiring]), and the scripts against the instructions the head of rdc.py
      documents ([DebugPort], from which [EonFlash] follows).
    - SerialUpload.v: bb_upload8.py and bb_upload.py: packets, and the
      conversation with the boot loader's menu, with their theorems.

    Projects, packages and modules.
    - Heating.v, HeatingSpec.v: the central heating controller
      (projects/central_heating): the monitor and the web pages of main.cpp, the
      Arduino of arduino.ino, and the two joined by the serial line.
    - GpioCustom.v, GpioCustomSpec.v: the modules w1-, pwm-, rotary- and
      i2c-gpio-custom.c and the calls they make of drivers/base/platform.c.
    - RtaiLed.v: rtai-led-demo.c: its tasks, and its threads as a step relation,
      with their theorems.

    ** Modelling

    A C integer is a [Z] kept in the range of its type: [u8], [u16], [u32] and
    [s32] are written where an assignment wraps.  Memories, flash arrays and
    register files are functions from addresses to bytes or words ([mem]).
    Stateful code passes its state explicitly, mostly through the small state
    monad [ST]; error codes are returned as in the source.  A call into code
    that is not modelled (an allocation, a registration, a socket, a fork, a
    rename) is an argument of the operation that makes it: what it returns.  Locks and delays
    have no counterpart: an operation is one step, except where the source
    itself splits it (interrupt and poll, timer and file operations).

    Loops with an exit are [nloop] or, with a large bound, [ploop].  Polling
    loops have the source's own bound; [polling_terminates] shows that the
    model's bound is never what ends them.  The loops over a user's buffer have
    its length as fuel, since every round takes at least one byte.  The
    controller's transmit loop has no bound in the source; the bound here
    exceeds the number of owner bits in 4 GiB of memory, and
    [transmit_terminates] shows that the loop ends before when the descriptors
    it visits are in memory, and that a descriptor elsewhere can keep it going
    for ever.  The emulator's wait
    for its panel has one more than the number of socket events left;
    [panel_wait_complete] shows that more never helps.  biffprop and biffjtag
    wait on hardware without a bound: their [fuel] is the number of looks they
    are given, running out is [None], and the theorems say how many looks are
    enough ([fl_polls], the lag of the serial line) and that the programs then
    end.  The scan of read_config_block.py for the end of the command line
    visits at most 2049 indices.  How often a network client looks for an
    answer (it counts down a floating-point number) is the parameter [rounds],
    and how often bb_eth_upload8.py asks for attention in its ten seconds is
    [tries].  The button applets poll for ever: their runs are over the samples
    taken so far.  The host's wait for a JTAG status ends after a million rounds
    by its own count; its waits on the flash have a number of looks as biffjtag's
    have.  A web page's decoding has the size of the buffer as fuel, since every
    round moves on; leaving the buffer is [None].  A TFTP connection gives up
    after [retries] silent waits, as in the source.  wavplay reads at most once
    for each byte of the file and once more.

    ** What is shown

    - Round trips: an image written to /dev/biffkernel in any pieces reads back
      ([biffkernel_roundtrip]); a parameter set by one run of biffconfig is
      printed by the next ([set_then_get]); an image sent by biffprop is the one
      the chip decodes ([biffprop_uploads]); a boot loader programmed over JTAG
      is the one dumped ([jtag_program_dump]), also with the host's scripts
      ([host_program_dump]); an image cut into serial packets is put together
      again ([packets_roundtrip]); flash images saved and loaded, PHY registers,
      configuration space.
    - Refinement and equivalence: network driver and emulated controller
      together are a pair of queues, whatever the interleaving of transmission,
      reception and interrupts ([duplex_refined]), and are so once the interface
      is up ([up_ready]); the GPIO driver and the emulated southbridge show
      the last level asked for on every pin ([gpio_drives_panel]), which is what
      the panel's server then publishes and the LED shows
      ([driver_lights_led]), and the driver reads the button
      ([driver_reads_button]); text of up to 32 characters sent to an attached
      display is the text it shows ([lcd_shows_text]); what the
      graphical tool writes, biffconfig and the host's reader show
      ([config_tools_agree]); incremental MD5 is RFC 1321 ([md5_any_split]);
      table-driven CRC-32 is bitwise CRC-32 in both bit orders
      ([crc32_le_is_bitwise], [crc32_be_is_bitwise]), and the kernel's own test
      of it cannot fail ([crc32_unittest_passes]); the host's JTAG cable does on
      its wires what the board's pins do ([host_cable_same]); the relay of the
      heating follows the thermostat with its hysteresis ([heating_follows]).
    - The panel: a pin has the strongest level driven ([panel_arbitration]),
      nothing a client sends stops the server while nobody drives high
      ([panel_serves]), and subscribers hold the current levels
      ([panel_notifies]).
    - Types and bounds: every register of the controller keeps its width
      ([nic_well_typed]) and reception never writes outside the buffer it was
      given ([receive_in_bounds]).
    - The test access port is in the state every JTAG routine expects, whatever
      the command and the data; a run that does not return waits for a status or
      for an erase that never comes ([tap_discipline]).
    - Over a lossy network only verified chunks are written
      ([udp_upload_safe]), and the upload succeeds when one of five attempts
      gets through ([udp_upload_live]).  Over raw Ethernet, whatever else is on
      the wire, nothing is written that the board has not confirmed
      ([config_write_verified], [eth_upload_verified]), and the Write button
      needs a socket ([write_button_has_socket]).  A TFTP client holds the
      beginning of its file whatever the network does ([tftp_safe]) and all of it
      when enough attempts get through ([tftp_completes]).  Whatever the boot
      loader answers on the serial console, what is typed is the beginning of the
      script ([upload_types]).
    - The button applet runs its helper once per pressed sample, with the right
      count ([button_runs_helper]); wavplay plays what follows the header
      ([wavplay_plays]); the heating's message page stores the decoded text, and
      the monitor sends it to the display ([message_decoded]); a platform-data module registers one device for each
      bus ([custom_probe_spec]); the pulsating LED keeps to its duty cycle
      ([pulsate_keeps], [duty_cycle]).
    - Safety: only a complete command sequence changes the flash
      ([data_change_needs_unlock]); no use of /dev/biffkernel changes the boot
      sector ([kernel_ops_never_touch_boot]); the boot sector is replaced by a
      whole valid image or not at all ([biffboot_all_or_nothing],
      [upgrade_all_or_nothing]); probing and opening release what they acquired
      ([init_one_resources], [open_close_balanced]).
    - The watchdog: fed in time it never expires, unfed it expires after exactly
      its period, expired it stays so, and removal ends.
    - Behaviour the source does not intend: the lost last byte of an odd image,
      the write past the end of the last chunk, the wait for a panel that has
      gone, the configuration programmed at the wrong address over JTAG
      ([programconfig_misplaced]), the block the host's reader cannot show
      ([empty_cmdline_unreadable]), the minus sign that switches the heating off
      ([frost_switches_off]), the end of a longer message that stays behind a
      shorter one ([message_old_tail]), the datagram that ends a TFTP connection
      with an exception ([data_on_read_dies]), the descriptor outside memory that
      is sent for ever ([rom_loop_forever]), the text a reset display keeps showing
      ([reset_not_drawn]), the last block of a TFTP transfer that nobody
      repeats ([last_block_lost]), the devices that stay registered when their
      module is unloaded ([unload_keeps], [reload_refused]), the signal that makes
      the LED demonstration wait for ever ([signal_hangs]), the unknown mixer that
      is the first one ([mixer_unknown]), and further lemmas next to the
      definitions they are about.

    ** What is not modelled

    The third-party projects the repository vendors (Linux, BusyBox, QEMU,
    SeaBIOS, OpenWrt) except for the files above; the emulator's debugging output
    and board wiring, which only call into QEMU.  Of the heating controller, the
    waiting for the serial port and its terminal settings; of the LED
    demonstration, RTAI's scheduler, which is not in the sources; of the host's
    JTAG tools, the assembler and the machine code stubs that reach the port; of
    the uploads over the serial console, the boot loader, which is not in the
    sources, the terminal library and the power switch; the older
    bb_eth_upload.py, which differs from bb_eth_upload8.py in the order of its
    checks and in erasing first; and the
    layout of the widgets of the graphical ones.  Collecting bytes into lines,
    sockets, option parsing and daemonizing are the libraries'.  Messages printed
    for the user are modelled for biffconfig, read_config_block.py, the CRC test
    and the LED only.  In UdpUpload.v the network may lose datagrams but neither
    delays an answer past the wait for it nor duplicates one; in RawEth.v it may
    deliver anything. *)
From Stdlib Require Import ZArith Lia.
From stdpp Require Import base list numbers strings.

#[global] Open Scope Z_scope.

(** ** Machine integers

    A C integer of width [w] is a [Z]; the wrap-around of an unsigned
    assignment is the reduction below. *)

Definition u8 (z : Z) : Z := z mod 0x100.

Definition u16 (z : Z) : Z := z mod 0x10000.

Definition u32 (z : Z) : Z := z mod 0x100000000.

(** Conversion to a 32-bit signed [int]. *)
Definition s32 (z : Z) : Z :=
  let v := z mod 0x100000000 in if v <? 0x80000000 then v else v - 0x100000000.

(** Conversion to a 64-bit signed [loff_t]. *)
Definition s64 (z : Z) : Z :=
  let v := z mod 0x10000000000000000 in if v <? 0x8000000000000000 then v else v - 0x10000000000000000.

(** The C test [if (x & mask)]. *)
Definition anyset (x mask : Z) : bool := negb (Z.land x mask =? 0).

(** Clearing bits: [x & ~mask]. *)
Definition clear (x mask : Z) : Z := Z.land x (Z.lnot mask).

(** ** Byte memories

    An array or an address space is a total map from addresses to bytes; two
    memories are compared address by address. *)

Definition mem : Type := Z -> Z.

Definition mem_eq (m1 m2 : mem) : Prop := forall a, m1 a = m2 a.

Definition bytes_ok (m : mem) : Prop := forall a, 0 <= m a < 0x100.

Definition store (m : mem) (a v : Z) : mem :=
  fun x => if x =? a then v else m x.

(** [memset(&m[base], v, len)] *)
Definition fill (m : mem) (base len v : Z) : mem :=
  fun x => if (base <=? x) && (x <? base + len) then v else m x.

(** [memcpy(&m[base], bs, length bs)] *)
Definition store_bytes (m : mem) (base : Z) (bs : list Z) : mem :=
  fun x => if (base <=? x) && (x <? base + Z.of_nat (length bs))
           then nth (Z.to_nat (x - base)) bs 0 else m x.

(** [memcpy(dst, &m[base], n)] *)
Definition load_bytes (m : mem) (base n : Z) : list Z :=
  map (fun i => m (base + Z.of_nat i)) (seq 0 (Z.to_nat n)).

(** Little-endian halfword and word accesses. *)
Definition load16 (m : mem) (a : Z) : Z := m a + 0x100 * m (a + 1).

Definition load32 (m : mem) (a : Z) : Z := load16 m a + 0x10000 * load16 m (a + 2).

Definition store16 (m : mem) (a v : Z) : mem :=
  store (store m a (u8 v)) (a + 1) (u8 (v / 0x100)).

Definition store32 (m : mem) (a v : Z) : mem :=
  store16 (store16 m a (u16 v)) (a + 2) (u16 (v / 0x10000)).

(** ** C strings

    A string is the list of its characters, without the terminator. *)

Definition str (s : String.string) : list Z :=
  map (fun a => Z.of_N (Ascii.N_of_ascii a)) (String.list_ascii_of_string s).

Definition hex_digit (v : Z) : Z := if v <? 10 then 48 + v else 87 + v.

(** Bytes printed with "%02x". *)
Definition hex (bs : list Z) : list Z :=
  flat_map (fun b => [hex_digit (b / 16); hex_digit (b mod 16)]) bs.

(** The string in the [n] bytes of memory from [a]. *)
Fixpoint cstr (m : mem) (a : Z) (n : nat) : list Z :=
  match n with
  | O => []
  | Datatypes.S n' => if m a =? 0 then [] else m a :: cstr m (a + 1) n'
  end.

(** ** Loops

    [nloop n body s] runs a loop body at most [n] times; the body either
    continues with a new loop state ([inl]) or leaves the loop ([inr]).
    [ploop] is the same loop with its bound in binary, so that a bound of a
    million iterations costs nothing when the loop leaves early. *)

Fixpoint nloop {S R : Type} (n : nat) (body : S -> S + R) (s : S) : S + R :=
  match n with
  | O => inl s
  | Datatypes.S n' =>
      match body s with
      | inl s' => nloop n' body s'
      | inr r => inr r
      end
  end.

Fixpoint ploop {S R : Type} (p : positive) (body : S -> S + R) (s : S) : S + R :=
  let twice q s0 :=
    match ploop q body s0 with
    | inl s1 => ploop q body s1
    | inr r => inr r
    end in
  match p with
  | xH => body s
  | xO q => twice q s
  | xI q =>
      match body s with
      | inl s0 => twice q s0
      | inr r => inr r
      end
  end.

(** ** State-passing computations *)

Definition ST (S A : Type) : Type := S -> A * S.

Definition ret {S A : Type} (a : A) : ST S A := fun s => (a, s).

Definition bind {S A B : Type} (m : ST S A) (k : A -> ST S B) : ST S B :=
  fun s => k (fst (m s)) (snd (m s)).

Declare Scope biff_scope.
Delimit Scope biff_scope with biff.
Notation "'let!' x ':=' m 'in' k" := (bind m (fun x => k))
  (at level 10, x pattern, m at level 100, k at level 200) : biff_scope.
Notation "m1 '>>' m2" := (bind m1 (fun _ => m2))
  (at level 60, right associativity) : biff_scope.
#[global] Open Scope biff_scope.

(** ** Lemmas *)

Create HintDb biff.
Create Rewrite HintDb biff.

Lemma mem_eq_refl m : mem_eq m m.
Proof. intros a. reflexivity. Qed.

#[export] Instance mem_eq_equiv : Equivalence mem_eq.
Proof.
  split; [intros m a; reflexivity | intros m1 m2 H a; symmetry; apply H |].
  intros m1 m2 m3 H1 H2 a. rewrite H1. apply H2.
Qed.

#[export] Instance store_proper : Proper (mem_eq ==> eq ==> eq ==> mem_eq) store.
Proof. intros m1 m2 H a ? <- v ? <- x. unfold store. destruct (x =? a); auto. Qed.

#[export] Instance fill_proper :
  Proper (mem_eq ==> eq ==> eq ==> eq ==> mem_eq) fill.
Proof. intros m1 m2 H b ? <- l ? <- v ? <- x. unfold fill. case_match; auto. Qed.

#[export] Instance load16_proper : Proper (mem_eq ==> eq ==> eq) load16.
Proof. intros m1 m2 H a ? <-. unfold load16. rewrite !H. reflexivity. Qed.

#[export] Instance load32_proper : Proper (mem_eq ==> eq ==> eq) load32.
Proof. intros m1 m2 H a ? <-. unfold load32. rewrite !H. reflexivity. Qed.

(** Case analysis on the integer comparisons a definition performs. *)
Ltac zcase :=
  match goal with
  | |- context [Z.eqb ?a ?b] => destruct (Z.eqb_spec a b)
  | |- context [Z.ltb ?a ?b] => destruct (Z.ltb_spec a b)
  | |- context [Z.leb ?a ?b] => destruct (Z.leb_spec a b)
  end; cbn [andb orb negb].

Ltac zcases := repeat (zcase; try lia; try reflexivity).

Ltac zcase_in H :=
  match type of H with
  | context [Z.eqb ?a ?b] => destruct (Z.eqb_spec a b)
  | context [Z.ltb ?a ?b] => destruct (Z.ltb_spec a b)
  | context [Z.leb ?a ?b] => destruct (Z.leb_spec a b)
  end; cbn [andb orb negb] in H.

Lemma store_eq m a v : store m a v a = v.
Proof. unfold store. now rewrite Z.eqb_refl. Qed.

Lemma store_ne m a v x : x <> a -> store m a v x = m x.
Proof. intros H. unfold store. zcases. Qed.

Lemma fill_in m b l v x : b <= x < b + l -> fill m b l v x = v.
Proof. intros H. unfold fill. zcases. Qed.

Lemma fill_out m b l v x : ~ (b <= x < b + l) -> fill m b l v x = m x.
Proof. intros H. unfold fill. zcases. Qed.

Lemma store_bytes_in m b bs x :
  b <= x < b + Z.of_nat (length bs) ->
  store_bytes m b bs x = nth (Z.to_nat (x - b)) bs 0.
Proof. intros H. unfold store_bytes. zcases. Qed.

Lemma store_bytes_out m b bs x :
  ~ (b <= x < b + Z.of_nat (length bs)) -> store_bytes m b bs x = m x.
Proof. intros H. unfold store_bytes. zcases. Qed.

#[export] Hint Rewrite store_eq : biff.
#[export] Hint Rewrite store_ne fill_in fill_out store_bytes_in store_bytes_out
  using lia : biff.

Lemma u8_range z : 0 <= u8 z < 0x100.
Proof. apply Z.mod_pos_bound. lia. Qed.

Lemma u16_range z : 0 <= u16 z < 0x10000.
Proof. apply Z.mod_pos_bound. lia. Qed.

Lemma u32_range z : 0 <= u32 z < 0x100000000.
Proof. apply Z.mod_pos_bound. lia. Qed.

Lemma u8_id z : 0 <= z < 0x100 -> u8 z = z.
Proof. apply Z.mod_small. Qed.

Lemma u16_id z : 0 <= z < 0x10000 -> u16 z = z.
Proof. apply Z.mod_small. Qed.

Lemma u32_id z : 0 <= z < 0x100000000 -> u32 z = z.
Proof. apply Z.mod_small. Qed.

Lemma s32_id z : 0 <= z < 0x80000000 -> s32 z = z.
Proof. intros Hz. unfold s32. rewrite Z.mod_small by lia. zcase; lia. Qed.

Lemma s64_id z : 0 <= z < 0x8000000000000000 -> s64 z = z.
Proof. intros Hz. unfold s64. rewrite Z.mod_small by lia. zcase; lia. Qed.

Lemma u16_u16 v : u16 (u16 v) = u16 v.
Proof. apply u16_id, u16_range. Qed.

#[export] Hint Resolve u8_range u16_range u32_range : biff.
#[export] Hint Rewrite u8_id u16_id u32_id using lia : biff.

(** The two bytes of a halfword. *)
Lemma halves v : 0 <= v < 0x10000 -> u8 v + 0x100 * u8 (v / 0x100) = v.
Proof.
  intros H. unfold u8. rewrite (Z.mod_small (v / 0x100)).
  - pose proof (Z.div_mod v 0x100). lia.
  - split; [apply Z.div_pos; lia | apply Z.div_lt_upper_bound; lia].
Qed.

Lemma store16_lo m a v : store16 m a v a = u8 v.
Proof. unfold store16. rewrite store_ne by lia. apply store_eq. Qed.

Lemma store16_hi m a v : store16 m a v (a + 1) = u8 (v / 0x100).
Proof. apply store_eq. Qed.

Lemma store16_out m a v x : x <> a -> x <> a + 1 -> store16 m a v x = m x.
Proof. intros. unfold store16. now rewrite !store_ne by lia. Qed.

#[export] Hint Rewrite store16_lo store16_hi : biff.
#[export] Hint Rewrite store16_out using lia : biff.

Lemma load16_store16 m a v : 0 <= v < 0x10000 -> load16 (store16 m a v) a = v.
Proof. intros H. unfold load16. autorewrite with biff. now apply halves. Qed.

Lemma load16_range m a : 0 <= m a < 0x100 -> 0 <= m (a + 1) < 0x100 ->
  0 <= load16 m a < 0x10000.
Proof. unfold load16. lia. Qed.

(** The bytes a halfword was loaded from. *)
Lemma load16_bytes m a : 0 <= m a < 0x100 -> 0 <= m (a + 1) < 0x100 ->
  u8 (load16 m a) = m a /\ u8 (load16 m a / 0x100) = m (a + 1).
Proof.
  unfold u8, load16. intros H1 H2. rewrite (Z.mul_comm 0x100).
  rewrite Z.mod_add, Z.div_add by lia.
  rewrite (Z.div_small (m a)), Z.add_0_l, !Z.mod_small by lia. auto.
Qed.

(** A word is all ones exactly when its four bytes are. *)
Lemma load32_ones m a :
  (forall x, a <= x < a + 4 -> 0 <= m x < 0x100) ->
  (load32 m a = 0xffffffff <-> forall x, a <= x < a + 4 -> m x = 0xff).
Proof.
  intros H. unfold load32, load16. rewrite <- !Z.add_assoc.
  cbn [Z.add Pos.add]. change (2 + 1) with 3.
  pose proof (H a ltac:(lia)). pose proof (H (a + 1) ltac:(lia)).
  pose proof (H (a + 2) ltac:(lia)). pose proof (H (a + 3) ltac:(lia)).
  split; intros E.
  - intros x Hx.
    assert (x = a \/ x = a + 1 \/ x = a + 2 \/ x = a + 3)
      as [-> | [-> | [-> | ->]]] by lia; lia.
  - rewrite !E by lia. reflexivity.
Qed.

Lemma length_load_bytes m b n : length (load_bytes m b n) = Z.to_nat n.
Proof. unfold load_bytes. now rewrite length_map, length_seq. Qed.

Lemma nth_load_bytes m b n i :
  (i < Z.to_nat n)%nat -> nth i (load_bytes m b n) 0 = m (b + Z.of_nat i).
Proof.
  intros H. unfold load_bytes.
  rewrite (nth_indep _ 0 (m (b + Z.of_nat 0))) by (rewrite length_map, length_seq; lia).
  rewrite (map_nth (fun k => m (b + Z.of_nat k))). now rewrite seq_nth.
Qed.

Lemma load_bytes_ext m1 m2 b1 b2 n :
  (forall i, 0 <= i < n -> m1 (b1 + i) = m2 (b2 + i)) ->
  load_bytes m1 b1 n = load_bytes m2 b2 n.
Proof.
  intros H. unfold load_bytes. apply map_ext_in. intros i Hi.
  apply in_seq in Hi. apply H. lia.
Qed.

Lemma load_bytes_app m b n1 n2 : 0 <= n1 -> 0 <= n2 ->
  load_bytes m b (n1 + n2) = load_bytes m b n1 ++ load_bytes m (b + n1) n2.
Proof.
  intros H1 H2. apply (nth_ext _ _ 0 0).
  - rewrite length_app, !length_load_bytes. lia.
  - intros i Hi. rewrite length_load_bytes in Hi. rewrite nth_load_bytes by lia.
    destruct (Nat.lt_ge_cases i (Z.to_nat n1)).
    + rewrite app_nth1 by (rewrite length_load_bytes; lia). now rewrite nth_load_bytes.
    + rewrite app_nth2; rewrite length_load_bytes; [| lia].
      rewrite nth_load_bytes by lia. f_equal. lia.
Qed.

(** Copying a word keeps its bytes. *)
Lemma store32_load32 m a m' off x :
  (forall i, 0 <= i < 4 -> 0 <= m (a + i) < 0x100) ->
  store32 m' off (load32 m a) x =
    if (off <=? x) && (x <? off + 4) then m (a + (x - off)) else m' x.
Proof.
  intros H. pose proof (H 0 ltac:(lia)) as H0. pose proof (H 1 ltac:(lia)) as H1.
  pose proof (H 2 ltac:(lia)) as H2. pose proof (H 3 ltac:(lia)) as H3.
  rewrite Z.add_0_r in H0. clear H. unfold store32, load32, store16, load16, store, u8, u16.
  replace (a + 2 + 1) with (a + 3) by lia.
  repeat zcase; try lia; try done;
    match goal with |- _ = m ?t => first [ replace t with a by lia | replace t with (a + 1) by lia
      | replace t with (a + 2) by lia | replace t with (a + 3) by lia ] end;
    Z.div_mod_to_equations; lia.
Qed.

Lemma load32_store32 m a v : 0 <= v < 2 ^ 32 -> load32 (store32 m a v) a = v.
Proof.
  intros Hv. unfold load32, store32.
  rewrite load16_store16 by apply u16_range.
  replace (load16 (store16 (store16 m a (u16 v)) (a + 2) (u16 (v / 0x10000))) a)
    with (load16 (store16 m a (u16 v)) a)
    by (unfold load16; rewrite !(store16_out _ (a + 2)) by lia; done).
  rewrite load16_store16 by apply u16_range. unfold u16. Z.div_mod_to_equations. lia.
Qed.

Lemma store32_out m a v x : ~ (a <= x < a + 4) -> store32 m a v x = m x.
Proof. intros Hx. unfold store32. now rewrite !store16_out by lia. Qed.

Lemma load16_ext m m' a : m' a = m a -> m' (a + 1) = m (a + 1) -> load16 m' a = load16 m a.
Proof. unfold load16. congruence. Qed.

Lemma load32_ext m m' a : (forall x, a <= x < a + 4 -> m' x = m x) -> load32 m' a = load32 m a.
Proof.
  intros E. unfold load32. rewrite (load16_ext m m' a), (load16_ext m m' (a + 2)); [done | | | |];
    apply E; lia.
Qed.

Lemma load32_range m a : bytes_ok m -> 0 <= load32 m a < 2 ^ 32.
Proof.
  intros Hb. unfold load32, load16. pose proof (Hb a). pose proof (Hb (a + 1)).
  pose proof (Hb (a + 2)). pose proof (Hb (a + 2 + 1)). lia.
Qed.

Lemma bytes_ok_store16 m a v : bytes_ok m -> bytes_ok (store16 m a v).
Proof.
  intros H x. unfold store16, store. repeat zcase; [apply u8_range | apply u8_range | apply H].
Qed.

Lemma bytes_ok_store32 m a v : bytes_ok m -> bytes_ok (store32 m a v).
Proof. intros H. unfold store32. now repeat apply bytes_ok_store16. Qed.

Lemma bytes_ok_store_bytes m a l : bytes_ok m -> Forall (fun b => 0 <= b < 0x100) l ->
  bytes_ok (store_bytes m a l).
Proof.
  intros Hb Hl x. destruct (decide (a <= x < a + Z.of_nat (length l))).
  - rewrite store_bytes_in by lia. rewrite List.Forall_forall in Hl. apply Hl, nth_In. lia.
  - rewrite store_bytes_out by lia. apply Hb.
Qed.

Lemma load_bytes_ok m a n : bytes_ok m -> Forall (fun b => 0 <= b < 0x100) (load_bytes m a n).
Proof.
  intros Hb. rewrite List.Forall_forall. intros b Hin. apply (In_nth _ _ 0) in Hin as (i & Hi & <-).
  rewrite length_load_bytes in Hi. rewrite nth_load_bytes by lia. apply Hb.
Qed.

(** A list is what is read back after storing it. *)
Lemma list_of_bytes m b bs :
  (forall i, (i < length bs)%nat -> m (b + Z.of_nat i) = nth i bs 0) ->
  load_bytes m b (Z.of_nat (length bs)) = bs.
Proof.
  intros H. apply (nth_ext _ _ 0 0); rewrite length_load_bytes, Nat2Z.id; [done |].
  intros i Hi. rewrite nth_load_bytes by lia. now apply H.
Qed.

Lemma load_store_bytes m b bs :
  load_bytes (store_bytes m b bs) b (Z.of_nat (length bs)) = bs.
Proof.
  apply list_of_bytes. intros i Hi. rewrite store_bytes_in by lia.
  f_equal. lia.
Qed.

(** The binary and the unary loop agree. *)
Lemma nloop_add {S R} (body : S -> S + R) n1 n2 s :
  nloop (n1 + n2) body s =
  match nloop n1 body s with inl s' => nloop n2 body s' | inr r => inr r end.
Proof.
  revert s. induction n1 as [|n1 IH]; intros s; [done |].
  cbn. destruct (body s); auto.
Qed.

Lemma ploop_nloop {S R} (body : S -> S + R) p s :
  ploop p body s = nloop (Pos.to_nat p) body s.
Proof.
  revert s. induction p as [q IH | q IH |]; intros s.
  - rewrite Pos2Nat.inj_xI. replace (2 * Pos.to_nat q)%nat
      with (Pos.to_nat q + Pos.to_nat q)%nat by lia.
    cbn [nloop ploop]. destruct (body s) as [s0 | r]; [| done].
    rewrite nloop_add, <- IH. destruct (ploop q body s0); [apply IH | done].
  - rewrite Pos2Nat.inj_xO. replace (2 * Pos.to_nat q)%nat
      with (Pos.to_nat q + Pos.to_nat q)%nat by lia.
    cbn [ploop]. rewrite nloop_add, <- IH.
    destruct (ploop q body s); [apply IH | done].
  - change (Pos.to_nat 1) with 1%nat. cbn. now destruct (body s).
Qed.

(** A loop invariant and the condition every exit establishes. *)
Lemma nloop_ind {S R} (body : S -> S + R) (I : nat -> S -> Prop) (Q : R -> Prop) :
  (forall k s, I k s -> match body s with inl s' => I (Datatypes.S k) s' | inr r => Q r end) ->
  forall n k s, I k s ->
  match nloop n body s with inl s' => I (k + n)%nat s' | inr r => Q r end.
Proof.
  intros H n. induction n as [|n IH]; intros k s Hs; cbn.
  - now rewrite Nat.add_0_r.
  - specialize (H k s Hs). destruct (body s) as [s' | r]; [| done].
    rewrite Nat.add_succ_r. apply (IH (Datatypes.S k)). done.
Qed.

Lemma bind_eq {S A B} (m : ST S A) (k : A -> ST S B) s a s' :
  m s = (a, s') -> bind m k s = k a s'.
Proof. intros H. unfold bind. now rewrite H. Qed.

(** ** Masks as division and remainder *)

Lemma land_himask a k n :
  0 <= k <= n -> 0 <= a < 2 ^ n -> Z.land a (2 ^ n - 2 ^ k) = a - a mod 2 ^ k.
Proof.
  intros Hk Ha. replace (2 ^ n - 2 ^ k) with (Z.ldiff (Z.ones n) (Z.ones k)).
  - assert (Z.land a (Z.ldiff (Z.ones n) (Z.ones k)) = Z.ldiff (Z.land a (Z.ones n)) (Z.ones k)) as ->.
    { apply Z.bits_inj'. intros i _. rewrite !Z.land_spec, !Z.ldiff_spec, Z.land_spec.
      apply andb_assoc. }
    rewrite Z.land_ones, Z.mod_small by lia.
    rewrite Z.ldiff_ones_r, Z.shiftl_mul_pow2, Z.shiftr_div_pow2 by lia.
    pose proof (Z.div_mod a (2 ^ k)). lia.
  - rewrite Z.ldiff_ones_r, Z.shiftl_mul_pow2, Z.shiftr_div_pow2, Z.ones_equiv by lia.
    replace n with (n - k + k) at 1 by lia. rewrite Z.pow_add_r by lia.
    replace (Z.pred (2 ^ (n - k) * 2 ^ k)) with ((2 ^ (n - k) - 1) * 2 ^ k + (2 ^ k - 1)) by lia.
    rewrite Z.div_add_l, (Z.div_small (2 ^ k - 1)) by lia.
    rewrite Z.add_0_r, Z.mul_sub_distr_r, <- Z.pow_add_r by lia.
    f_equal; [f_equal; lia | lia].
Qed.

Lemma land_lomask a k : 0 <= k -> Z.land a (Z.ones k) = a mod 2 ^ k.
Proof. apply Z.land_ones. Qed.

(** A loop whose continuing steps decrease a measure leaves within it. *)
Lemma nloop_measure {S R} (body : S -> S + R) (I : S -> Prop) (f : S -> nat) (Q : R -> Prop) :
  (forall s s', I s -> body s = inl s' -> I s' /\ (f s' < f s)%nat) ->
  (forall s r, I s -> body s = inr r -> Q r) ->
  forall n s, I s -> (f s < n)%nat -> exists r, nloop n body s = inr r /\ Q r.
Proof.
  intros Hstep Hleave. induction n as [| n IH]; intros s Hs Hn; [lia |]. cbn [nloop].
  destruct (body s) as [s' | r] eqn:E.
  - destruct (Hstep s s' Hs E). apply IH; [done | lia].
  - exists r. split; [done | now apply (Hleave s)].
Qed.

(** ** Bits *)

Lemma clear_sub v m : clear v m = v - Z.land v m.
Proof.
  unfold clear. rewrite <- Z.ldiff_land.
  pose proof (Z.add_lor_land (Z.ldiff v m) (Z.land v m)) as E.
  rewrite Z.lor_ldiff_and in E. rewrite Z.land_comm, <- Z.land_assoc in E.
  rewrite (Z.land_comm m), Z.land_ldiff, Z.land_0_r in E. lia.
Qed.

(** One bit. *)
Lemma land_bit v k : 0 <= k -> Z.land v (2 ^ k) = 2 ^ k * Z.b2z (Z.testbit v k).
Proof.
  intros Hk. apply Z.bits_inj'. intros n Hn. rewrite Z.land_spec, Z.pow2_bits_eqb by lia.
  destruct (Z.eqb_spec k n) as [<- |].
  - rewrite andb_true_r. destruct (Z.testbit v k); cbn [Z.b2z]; rewrite ?Z.mul_1_r, ?Z.mul_0_r.
    + now rewrite Z.pow2_bits_true.
    + now rewrite Z.bits_0.
  - rewrite andb_false_r. destruct (Z.testbit v k); cbn [Z.b2z]; rewrite ?Z.mul_1_r, ?Z.mul_0_r.
    + now rewrite Z.pow2_bits_false by lia.
    + now rewrite Z.bits_0.
Qed.

Lemma testbit_div v k : 0 <= k -> Z.b2z (Z.testbit v k) = (v / 2 ^ k) mod 2.
Proof. intros Hk. rewrite Z.testbit_spec' by lia. reflexivity. Qed.

(** Joining disjoint bit fields. *)
Lemma lor_disjoint a b k : 0 <= k -> 0 <= a < 2 ^ k -> Z.lor a (Z.shiftl b k) = a + 2 ^ k * b.
Proof.
  intros Hk Ha.
  assert (E : Z.land a (Z.shiftl b k) = 0).
  { apply Z.bits_inj'. intros n Hn. rewrite Z.land_spec, Z.bits_0.
    destruct (Z.lt_ge_cases n k).
    - rewrite Z.shiftl_spec_low by lia. apply andb_false_r.
    - rewrite <- (Z.mod_small a (2 ^ k)) by lia. rewrite Z.mod_pow2_bits_high by lia. done. }
  pose proof (Z.add_lor_land a (Z.shiftl b k)) as E2. rewrite E, Z.shiftl_mul_pow2 in E2 by lia.
  rewrite Z.shiftl_mul_pow2 by lia. lia.
Qed.

Lemma land_le_r a b : 0 <= b -> 0 <= Z.land a b <= b.
Proof.
  intros Hb. split; [apply Z.land_nonneg; auto |].
  pose proof (clear_sub b a) as E. unfold clear in E.
  assert (0 <= Z.land b (Z.lnot a)) by (apply Z.land_nonneg; auto). rewrite Z.land_comm. lia.
Qed.

Lemma lor_range a b k : 0 <= k -> 0 <= a < 2 ^ k -> 0 <= b < 2 ^ k -> 0 <= Z.lor a b < 2 ^ k.
Proof.
  intros Hk Ha Hb. replace (Z.lor a b) with (Z.lor a b mod 2 ^ k) by
    (rewrite <- Z.land_ones, Z.land_lor_distr_l, !Z.land_ones, !Z.mod_small by lia; done).
  apply Z.mod_pos_bound. lia.
Qed.

Lemma lor_clear v m : Z.lor (clear v m) m = Z.lor v m.
Proof.
  apply Z.bits_inj'. intros n Hn. unfold clear. rewrite !Z.lor_spec, Z.land_spec, Z.lnot_spec by lia.
  destruct (Z.testbit v n), (Z.testbit m n); reflexivity.
Qed.

(** A property of a small range, by evaluation. *)
Lemma forall_range (P : Z -> bool) n :
  forallb (fun k => P (Z.of_nat k)) (seq 0 n) = true -> forall z, 0 <= z < Z.of_nat n -> P z = true.
Proof.
  intros Hf z Hz. rewrite forallb_forall in Hf. specialize (Hf (Z.to_nat z)).
  rewrite Z2Nat.id in Hf by lia. apply Hf, in_seq. lia.
Qed.
