(* ===== verification/En29lv640.v ===== *)
(** The emulated EN29LV640 NOR flash chip (src/qemu/hw/en29lv640.c).

    State: the 8 MiB backing array and the command-cycle state.  Operations:
    the byte, halfword and word accesses the bus makes, sector erase, and the
    load and save of the backing file.  The chip powers up in read mode; data
    changes only in the program and erase cycles, which an unlock sequence has
    to reach.  The bus maps the device below [FLASH_DEV_LEN] only. *)
From Stdlib Require Import ZArith Lia.
From stdpp Require Import base list numbers.
From S2P Require Import Prelude.

Definition FLASH_SIZE : Z := 0x800000.

Definition FLASH_BASE : Z := 0xff800000.

Definition FLASH_DEV_LEN : Z := FLASH_SIZE - 0x10000.

Definition ADDR_TO_SECLEN (addr : Z) : Z :=
  if addr <? 0x10000 then 0x2000 else 0x10000.

Definition ADDR_TO_SECBASE (addr : Z) : Z :=
  if addr <? 0x10000 then Z.land addr 0xffffe000 else Z.land addr 0xffff0000.

Inductive FLASH_STATE : Type :=
| CYCLE_READ | CYCLE_1 | CYCLE_2 | CYCLE_3 | CYCLE_4
| CYCLE_AUTOSELECT | CYCLE_PROGRAM | CYCLE_ERASE | CYCLE_CFI.

#[export] Instance FLASH_STATE_eq_dec : EqDecision FLASH_STATE.
Proof. solve_decision. Defined.

Record flash : Type := mkFlash { g_backing : mem; g_state : FLASH_STATE }.

Definition set_state (st : FLASH_STATE) (f : flash) : flash :=
  mkFlash (g_backing f) st.

Definition EraseSector (addr : Z) (f : flash) : flash :=
  let len := ADDR_TO_SECLEN addr in
  let base := ADDR_TO_SECBASE addr in
  mkFlash (fill (g_backing f) base len 0xff) (g_state f).

(** Chip erase only prints a warning. *)
Definition ChipErase (f : flash) : flash := f.

(** Byte-width write. *)
Definition write_w1 (addr val : Z) (f : flash) : flash :=
  match g_state f with
  | CYCLE_READ =>
      if (addr =? 0xaaa) && (val =? 0xaa) then set_state CYCLE_1 f
      else if (addr =? 0x55) && (val =? 0x98) then set_state CYCLE_CFI f
      else f
  | CYCLE_1 =>
      if (addr =? 0x555) && (val =? 0x55) then set_state CYCLE_2 f else f
  | CYCLE_2 =>
      if addr =? 0xaaa then
        if val =? 0x90 then set_state CYCLE_AUTOSELECT f
        else if val =? 0xa0 then set_state CYCLE_PROGRAM f
        else if val =? 0x80 then set_state CYCLE_3 f
        else f
      else f
  | CYCLE_3 =>
      if (addr =? 0xaaa) && (val =? 0xaa) then set_state CYCLE_4 f else f
  | CYCLE_4 =>
      if (addr =? 0x555) && (val =? 0x55) then set_state CYCLE_ERASE f else f
  | CYCLE_ERASE =>
      if val =? 0x30 then EraseSector addr f
      else if val =? 0x10 then ChipErase f
      else f
  | CYCLE_AUTOSELECT => f
  | CYCLE_PROGRAM => mkFlash (store (g_backing f) addr (u8 val)) (g_state f)
  | CYCLE_CFI => f
  end.

(** Halfword-width write: the unlock addresses and the ways into CFI query
    mode differ from the byte-width ones. *)
Definition write_w2 (addr val : Z) (f : flash) : flash :=
  match g_state f with
  | CYCLE_READ =>
      if (addr =? 0xaaa) && (val =? 0xaa) then set_state CYCLE_1 f
      else if (addr =? 0xaa) && (val =? 0x9898) then set_state CYCLE_CFI f
      else if (addr =? 0xaa) && (val =? 0x98) then set_state CYCLE_CFI f
      else if (addr =? 0xaaa) && (val =? 0x98) then set_state CYCLE_CFI f
      else f
  | CYCLE_1 =>
      if (addr =? 0x554) && (val =? 0x55) then set_state CYCLE_2 f else f
  | CYCLE_2 =>
      if addr =? 0xaaa then
        if val =? 0x90 then set_state CYCLE_AUTOSELECT f
        else if val =? 0xa0 then set_state CYCLE_PROGRAM f
        else if val =? 0x80 then set_state CYCLE_3 f
        else f
      else f
  | CYCLE_3 =>
      if (addr =? 0xaaa) && (val =? 0xaa) then set_state CYCLE_4 f else f
  | CYCLE_4 =>
      if (addr =? 0x554) && (val =? 0x55) then set_state CYCLE_ERASE f else f
  | CYCLE_ERASE =>
      if val =? 0x30 then EraseSector addr f
      else if val =? 0x10 then ChipErase f
      else f
  | CYCLE_AUTOSELECT => f
  | CYCLE_PROGRAM => mkFlash (store16 (g_backing f) addr (u16 val)) (g_state f)
  | CYCLE_CFI => f
  end.

(** Any write that does not advance the command sequence returns the chip to
    read mode; a word-wide write never advances it. *)
Definition flash_write_width (addr value width : Z) (f : flash) : flash :=
  let before := g_state f in
  let f' :=
    if width =? 1 then write_w1 addr value f
    else if width =? 2 then write_w2 addr value f
    else f in
  if decide (before = g_state f') then set_state CYCLE_READ f' else f'.

Definition flash_writeb (addr value : Z) : flash -> flash := flash_write_width addr value 1.

Definition flash_writew (addr value : Z) : flash -> flash := flash_write_width addr value 2.

Definition flash_writel (addr value : Z) : flash -> flash := flash_write_width addr value 4.

(** The common flash interface table, an array of 16-bit entries. *)
Definition g_CFI : list Z :=
  [0;0;0;0;0;0;0;0;0;0;0;0;0;0;0;0;
   0x51; 0x52; 0x59;
   2; 0;
   0x40; 0;
   0; 0;
   0; 0;
   0x27;
   0x36;
   0; 0;
   4; 0; 0xa; 0; 5; 0; 4; 0;
   0x17;
   2; 0;
   0; 0;
   2;
   7; 0; 0x20; 0;
   0x7e;0;0;1;
   0;0;0;0;
   0;0;0;0;
   0;0;0;
   0x50; 0x52; 0x49;
   0x31; 0x31;
   0; 2; 4; 1; 4; 0; 0; 0; 0xa5; 0xc5; 2].

(** [sizeof(g_CFI)] in bytes, and the array as bytes. *)
Definition sizeof_g_CFI : Z := 2 * Z.of_nat (length g_CFI).

Definition g_CFI_bytes : mem := fun a =>
  let e := nth (Z.to_nat (a / 2)) g_CFI 0 in
  if Z.even a then u8 e else u8 (e / 0x100).

(** A read of [width] bytes at [a] of an array of [len] bytes; a read that
    leaves the array has no defined result.  A width that is not 1, 2 or 4
    returns 0 without reading. *)
Definition read_array (arr : mem) (len a width : Z) : option Z :=
  if width =? 1 then if a + 1 <=? len then Some (arr a) else None
  else if width =? 2 then if a + 2 <=? len then Some (load16 arr a) else None
  else if width =? 4 then if a + 4 <=? len then Some (load32 arr a) else None
  else Some 0.

Definition flash_read_width (addr width : Z) (f : flash) : option Z :=
  match g_state f with
  | CYCLE_AUTOSELECT =>
      Some (if addr =? 0x000 then 0x7f
            else if (addr =? 0x100) || (addr =? 0x200) then 0x1c
            else if (Z.land addr 0x0ff =? 0x01) || (Z.land addr 0x0ff =? 0x02) then 0x22cb
            else 0)
  | CYCLE_CFI =>
      if addr <? sizeof_g_CFI then read_array g_CFI_bytes sizeof_g_CFI addr width
      else read_array (g_backing f) FLASH_SIZE addr width
  | _ => read_array (g_backing f) FLASH_SIZE addr width
  end.

Definition flash_readb (addr : Z) : flash -> option Z := flash_read_width addr 1.

Definition flash_readw (addr : Z) : flash -> option Z := flash_read_width addr 2.

Definition flash_readl (addr : Z) : flash -> option Z := flash_read_width addr 4.

(** The static array before anything is loaded. *)
Definition backing_init : mem := fun _ => 0.

(** The image file is absent ([None]) or a list of bytes; [read] returns the
    whole file or as much as fits. *)
Definition flash_load_image (file : option (list Z)) (m : mem) : mem :=
  match file with
  | None => fill m 0 FLASH_SIZE 0xff
  | Some bs =>
      let len := Z.of_nat (length bs) in
      let available := FLASH_SIZE in
      let got := Z.min len available in
      let m1 := store_bytes m 0 (take (Z.to_nat got) bs) in
      if negb (got =? len) then
        if len <? available then fill m1 len (available - len) 0xff else m1
      else m1
  end.

(** The device part of the array is written over the start of the file; with
    no file to open nothing is written. *)
Definition en29lv640_save_image (file : option (list Z)) (f : flash) : option (list Z) :=
  match file with
  | None => None
  | Some old =>
      let towrite := FLASH_DEV_LEN in
      Some (load_bytes (g_backing f) 0 towrite ++ drop (Z.to_nat towrite) old)
  end.

Definition en29lv640_register (file : option (list Z)) : flash :=
  mkFlash (flash_load_image file backing_init) CYCLE_READ.

(** ** Sequences of bus writes *)

(** One bus write: address, value, width. *)
Record bus_write : Type := W { w_addr : Z; w_val : Z; w_width : Z }.

Definition step_write (f : flash) (w : bus_write) : flash :=
  flash_write_width (w_addr w) (w_val w) (w_width w) f.

Definition run_writes (ws : list bus_write) (f : flash) : flash :=
  fold_left step_write ws f.

(** The cycles of the unlock sequence, byte wide or halfword wide. *)
Definition unlock1 (w : bus_write) : Prop :=
  w_addr w = 0xaaa /\ w_val w = 0xaa.

Definition unlock2 (w : bus_write) : Prop :=
  (w_addr w = 0x555 \/ w_addr w = 0x554) /\ w_val w = 0x55.

Definition command (v : Z) (w : bus_write) : Prop :=
  w_addr w = 0xaaa /\ w_val w = v.

(** The last writes of [ws] satisfy the predicates [Ps], in order. *)
Definition ends_with (ws : list bus_write) (Ps : list (bus_write -> Prop)) : Prop :=
  exists pre suf, ws = pre ++ suf /\ Forall2 (fun P w => P w) Ps suf.

Definition program_unlock : list (bus_write -> Prop) :=
  [unlock1; unlock2; command 0xa0].

Definition erase_unlock : list (bus_write -> Prop) :=
  [unlock1; unlock2; command 0x80; unlock1; unlock2].

(** What the writes so far must have been for the chip to be in a state. *)
Definition history (st : FLASH_STATE) (ws : list bus_write) : Prop :=
  match st with
  | CYCLE_1 => ends_with ws [unlock1]
  | CYCLE_2 => ends_with ws [unlock1; unlock2]
  | CYCLE_3 => ends_with ws [unlock1; unlock2; command 0x80]
  | CYCLE_4 => ends_with ws [unlock1; unlock2; command 0x80; unlock1]
  | CYCLE_PROGRAM => ends_with ws program_unlock
  | CYCLE_ERASE => ends_with ws erase_unlock
  | _ => True
  end.

Lemma ends_with_snoc ws Ps w P :
  ends_with ws Ps -> P w -> ends_with (ws ++ [w]) (Ps ++ [P]).
Proof.
  intros (pre & suf & -> & HF) Hw. exists pre, (suf ++ [w]). split.
  - now rewrite <- app_assoc.
  - apply Forall2_app; auto.
Qed.

Lemma ends_with_nil ws : ends_with ws [].
Proof. exists ws, []. split; [now rewrite app_nil_r | constructor]. Qed.

(** One more unlock or command cycle. *)
Ltac snoc_cycle :=
  first
    [ apply (ends_with_snoc _ [] _ unlock1)
    | apply (ends_with_snoc _ [unlock1] _ unlock2)
    | apply (ends_with_snoc _ [unlock1; unlock2] _ (command _))
    | apply (ends_with_snoc _ [unlock1; unlock2; command 0x80] _ unlock1)
    | apply (ends_with_snoc _ [unlock1; unlock2; command 0x80; unlock1] _ unlock2) ];
  first [assumption | apply ends_with_nil | unfold unlock1, unlock2, command; cbn; auto].

(** Every state of the command machine records the writes that led to it. *)
Lemma history_step ws f w :
  history (g_state f) ws -> history (g_state (step_write f w)) (ws ++ [w]).
Proof.
  intros H. destruct f as [m st], w as [a v k].
  unfold step_write, flash_write_width, write_w1, write_w2, EraseSector, ChipErase, set_state.
  cbn [w_addr w_val w_width g_state g_backing] in *.
  destruct st; repeat zcase; case_decide; cbn [g_state history] in *;
    try congruence; try exact I; subst; snoc_cycle.
Qed.

Lemma history_run ws m :
  history (g_state (run_writes ws (mkFlash m CYCLE_READ))) ws.
Proof.
  induction ws as [|w ws IH] using rev_ind; [exact I |].
  unfold run_writes. rewrite fold_left_app. cbn [fold_left].
  now apply history_step.
Qed.

(** The only cycles in which a write touches the data. *)
Lemma step_write_data f w x :
  g_backing (step_write f w) x <> g_backing f x ->
  g_state f = CYCLE_PROGRAM \/ (g_state f = CYCLE_ERASE /\ w_val w = 0x30).
Proof.
  destruct f as [m st], w as [a v k].
  unfold step_write, flash_write_width, write_w1, write_w2, EraseSector, ChipErase, set_state.
  cbn [w_addr w_val w_width g_state g_backing].
  destruct st; repeat zcase; case_decide; cbn [g_backing g_state]; subst; auto; congruence.
Qed.

Lemma SECBASE_div addr : 0 <= addr < FLASH_SIZE ->
  ADDR_TO_SECBASE addr = addr - addr mod ADDR_TO_SECLEN addr.
Proof.
  unfold FLASH_SIZE, ADDR_TO_SECBASE, ADDR_TO_SECLEN. intros H. zcase.
  - apply (land_himask addr 13 32); lia.
  - apply (land_himask addr 16 32); lia.
Qed.

(** The sector of an address contains it and lies inside the device part or
    inside the boot sector. *)
Lemma sector_bounds addr : 0 <= addr < FLASH_SIZE ->
  0 <= ADDR_TO_SECBASE addr <= addr /\
  addr < ADDR_TO_SECBASE addr + ADDR_TO_SECLEN addr <= FLASH_SIZE /\
  (addr < FLASH_DEV_LEN -> ADDR_TO_SECBASE addr + ADDR_TO_SECLEN addr <= FLASH_DEV_LEN).
Proof.
  intros H. rewrite SECBASE_div by done. unfold FLASH_DEV_LEN, FLASH_SIZE, ADDR_TO_SECLEN in *.
  zcase; Z.div_mod_to_equations; lia.
Qed.

(** ** Properties *)

(** C24: no accidental flash modification.  From read mode, a bus write changes
    a byte of the array only if the writes just before it were the complete
    unlock-and-program sequence, or the complete unlock-and-erase sequence with
    the confirming value 0x30. *)
Theorem data_change_needs_unlock m ws w x :
  g_backing (step_write (run_writes ws (mkFlash m CYCLE_READ)) w) x <>
    g_backing (run_writes ws (mkFlash m CYCLE_READ)) x ->
  ends_with ws program_unlock \/ (ends_with ws erase_unlock /\ w_val w = 0x30).
Proof.
  intros H. apply step_write_data in H. pose proof (history_run ws m) as Hh.
  destruct H as [E | [E V]]; rewrite E in Hh; auto.
Qed.

Lemma data_change_needs_unlock_witness :
  ends_with [W 0xaaa 0xaa 1; W 0x555 0x55 1; W 0xaaa 0xa0 1] program_unlock \/
  (ends_with [W 0xaaa 0xaa 1; W 0x555 0x55 1; W 0xaaa 0xa0 1] erase_unlock /\ 0x42 = 0x30).
Proof.
  apply (data_change_needs_unlock (fun _ => 0xff)
    [W 0xaaa 0xaa 1; W 0x555 0x55 1; W 0xaaa 0xa0 1] (W 0x1000 0x42 1) 0x1000).
  vm_compute. discriminate.
Defined.

(** The erase command as the drivers issue it. *)
Definition erase_command (addr : Z) : list bus_write :=
  [W 0xaaa 0xaa 1; W 0x555 0x55 1; W 0xaaa 0x80 1; W 0xaaa 0xaa 1; W 0x555 0x55 1;
   W addr 0x30 1].

(** The program command: byte-wide unlock, then the data write. *)
Definition program_command (addr val width : Z) : list bus_write :=
  [W 0xaaa 0xaa 1; W 0x555 0x55 1; W 0xaaa 0xa0 1; W addr val width].

(** The sector-erase command, issued in read mode, sets every byte of the
    sector that contains the address to 0xff, leaves every other byte alone and
    ends in read mode. *)
Theorem erase_command_erases f addr x :
  g_state f = CYCLE_READ ->
  g_state (run_writes (erase_command addr) f) = CYCLE_READ /\
  g_backing (run_writes (erase_command addr) f) x =
    if (ADDR_TO_SECBASE addr <=? x) && (x <? ADDR_TO_SECBASE addr + ADDR_TO_SECLEN addr)
    then 0xff else g_backing f x.
Proof. destruct f as [m st]. cbn [g_state]. intros ->. split; reflexivity. Qed.

Lemma erase_command_erases_witness :
  g_backing (run_writes (erase_command 0x12345) (mkFlash (fun _ => 7) CYCLE_READ)) 0x1ffff = 0xff.
Proof.
  destruct (erase_command_erases (mkFlash (fun _ => 7) CYCLE_READ) 0x12345 0x1ffff eq_refl)
    as [_ ->]. reflexivity.
Defined.

Lemma program_command_word f addr val :
  g_state f = CYCLE_READ ->
  run_writes (program_command addr val 2) f =
    mkFlash (store16 (g_backing f) addr (u16 val)) CYCLE_READ.
Proof. destruct f as [m st]. cbn [g_state]. intros ->. reflexivity. Qed.

Lemma erase_command_eq f addr :
  g_state f = CYCLE_READ ->
  run_writes (erase_command addr) f =
    mkFlash (fill (g_backing f) (ADDR_TO_SECBASE addr) (ADDR_TO_SECLEN addr) 0xff) CYCLE_READ.
Proof. destruct f as [m st]. cbn [g_state]. intros ->. reflexivity. Qed.

(** A bus access inside the device window, halfwords aligned. *)
Definition window_write (w : bus_write) : Prop :=
  0 <= w_addr w < FLASH_DEV_LEN /\ (w_width w = 2 -> Z.even (w_addr w) = true).

Lemma step_write_window f w x :
  window_write w -> FLASH_DEV_LEN <= x -> g_backing (step_write f w) x = g_backing f x.
Proof.
  intros [Ha He] Hx. destruct f as [m st], w as [a v k].
  cbn [w_addr w_val w_width] in *.
  destruct (sector_bounds a) as (_ & _ & Hb); [unfold FLASH_DEV_LEN in Ha; lia |].
  specialize (Hb ltac:(lia)).
  unfold step_write, flash_write_width, write_w1, write_w2, EraseSector, ChipErase, set_state.
  cbn [w_addr w_val w_width g_state g_backing].
  assert (k = 2 -> a + 1 < FLASH_DEV_LEN) as Hodd.
  { intros E. specialize (He E). destruct (Z.eq_dec (a + 1) FLASH_DEV_LEN); [| lia].
    assert (a = FLASH_DEV_LEN - 1) as -> by lia. discriminate. }
  destruct st; repeat zcase; case_decide; cbn [g_backing g_state];
    autorewrite with biff; reflexivity.
Qed.

(** C39: the boot loader is safe.  Whatever the guest writes through the mapped
    window with aligned accesses, the top 64 KiB of the array never change. *)
Theorem boot_sector_never_written ws f x :
  Forall window_write ws -> FLASH_DEV_LEN <= x ->
  g_backing (run_writes ws f) x = g_backing f x.
Proof.
  intros HF Hx. revert f. induction HF as [|w ws Hw _ IH]; intros f; [done |].
  cbn [run_writes fold_left]. fold (run_writes ws (step_write f w)).
  rewrite IH. now apply step_write_window.
Qed.

Lemma boot_sector_never_written_witness :
  g_backing (run_writes (erase_command 0x7effff) (mkFlash (fun _ => 0x5a) CYCLE_READ)) 0x7f0000
  = 0x5a.
Proof.
  apply (boot_sector_never_written (erase_command 0x7effff) (mkFlash (fun _ => 0x5a) CYCLE_READ)).
  - repeat constructor; cbn; try lia; discriminate.
  - vm_compute. discriminate.
Defined.

(** ** The CFI table as a guest decodes it *)

(** Table entry [i], read as a halfword at twice its index in query mode. *)
Definition cfi_entry (f : flash) (i : Z) : Z := default 0 (flash_readw (2 * i) f).

(** Erase block region [k]: number of sectors and sector length. *)
Definition cfi_region (f : flash) (k : Z) : Z * Z :=
  let at_ i := cfi_entry f (0x2d + 4 * k + i) in
  (at_ 0 + 0x100 * at_ 1 + 1, 0x100 * (at_ 2 + 0x100 * at_ 3)).

Definition cfi_regions (f : flash) : list (Z * Z) :=
  map (fun k => cfi_region f (Z.of_nat k)) (seq 0 (Z.to_nat (cfi_entry f 0x2c))).

(** The sector of [addr] in a device made of [regions] from [base] up. *)
Fixpoint sector_of (regions : list (Z * Z)) (base addr : Z) : option (Z * Z) :=
  match regions with
  | [] => None
  | (n, len) :: rest =>
      if addr <? base + n * len
      then Some (base + (addr - base) / len * len, len)
      else sector_of rest (base + n * len) addr
  end.

Definition in_cfi (m : mem) : flash := mkFlash m CYCLE_CFI.

Lemma cfi_regions_eq m : cfi_regions (in_cfi m) = [(8, 0x2000); (127, 0x10000)].
Proof. vm_compute. reflexivity. Qed.

(** The erase geometry a guest reads out of the CFI table in query mode is
    the geometry sector erase uses, for every address of the array. *)
Theorem cfi_geometry_is_erase_geometry m addr :
  0 <= addr < FLASH_SIZE ->
  sector_of (cfi_regions (in_cfi m)) 0 addr = Some (ADDR_TO_SECBASE addr, ADDR_TO_SECLEN addr).
Proof.
  intros H. rewrite SECBASE_div, cfi_regions_eq by done.
  unfold FLASH_SIZE, ADDR_TO_SECLEN in *. cbn -[Z.div Z.modulo].
  repeat zcase; try lia; do 2 f_equal; Z.div_mod_to_equations; lia.
Qed.

Lemma cfi_geometry_is_erase_geometry_witness :
  sector_of (cfi_regions (in_cfi (fun _ => 0))) 0 0x15432 = Some (0x10000, 0x10000).
Proof.
  rewrite (cfi_geometry_is_erase_geometry (fun _ => 0) 0x15432); [reflexivity |].
  unfold FLASH_SIZE. lia.
Defined.

(** Entering query mode from read mode with any of the four command forms
    makes the guest read the signature "QRY" and the size exponent of the
    8 MiB device. *)
Lemma cfi_query_identifies f a v k :
  g_state f = CYCLE_READ ->
  In (a, v, k) [(0x55, 0x98, 1); (0xaa, 0x9898, 2); (0xaa, 0x98, 2); (0xaaa, 0x98, 2)] ->
  let f' := flash_write_width a v k f in
  map (cfi_entry f') [0x10; 0x11; 0x12] = [0x51; 0x52; 0x59] /\
  2 ^ cfi_entry f' 0x27 = FLASH_SIZE /\ g_backing f' = g_backing f.
Proof.
  destruct f as [m st]. cbn [g_state]. intros -> Hin.
  repeat (destruct Hin as [[= <- <- <-] | Hin]; [repeat split; reflexivity |]).
  contradiction.
Qed.

Lemma cfi_query_identifies_witness :
  2 ^ cfi_entry (flash_write_width 0x55 0x98 1 (mkFlash (fun _ => 0) CYCLE_READ)) 0x27 = 0x800000.
Proof.
  apply (cfi_query_identifies (mkFlash (fun _ => 0) CYCLE_READ) 0x55 0x98 1); [reflexivity |].
  now left.
Defined.

(** ** The backing file *)

Lemma load_image_full bs m x :
  Z.of_nat (length bs) = FLASH_SIZE -> 0 <= x < FLASH_SIZE ->
  flash_load_image (Some bs) m x = nth (Z.to_nat x) bs 0.
Proof.
  intros Hl Hx. unfold flash_load_image. rewrite Hl, Z.min_id, Z.eqb_refl. cbn [negb].
  rewrite store_bytes_in by (rewrite length_take; lia).
  rewrite take_ge by lia. now rewrite Z.sub_0_r.
Qed.

(** Saving the flash to an 8 MiB image file and loading that file into a
    new machine restores every byte of the device window, and keeps the file's
    own boot sector. *)
Theorem save_load_roundtrip f old m x :
  Z.of_nat (length old) = FLASH_SIZE -> 0 <= x < FLASH_SIZE ->
  flash_load_image (en29lv640_save_image (Some old) f) m x =
    if x <? FLASH_DEV_LEN then g_backing f x else nth (Z.to_nat x) old 0.
Proof.
  intros Hl Hx. unfold en29lv640_save_image.
  assert (0 <= FLASH_DEV_LEN <= FLASH_SIZE) by (unfold FLASH_DEV_LEN, FLASH_SIZE; lia).
  rewrite load_image_full; [| rewrite length_app, length_load_bytes, length_drop; lia | done].
  zcase.
  - rewrite app_nth1 by (rewrite length_load_bytes; lia).
    rewrite nth_load_bytes by lia. f_equal. lia.
  - rewrite app_nth2; rewrite length_load_bytes; [| lia].
    rewrite nth_skipn. f_equal. lia.
Qed.

Lemma save_load_roundtrip_witness :
  let old := repeat 3 (Z.to_nat FLASH_SIZE) in
  flash_load_image (en29lv640_save_image (Some old) (mkFlash (fun a => u8 a) CYCLE_READ))
    backing_init 0x1234 = 0x34.
Proof.
  cbv zeta.
  rewrite (save_load_roundtrip (mkFlash (fun a => u8 a) CYCLE_READ)
             (repeat 3 (Z.to_nat FLASH_SIZE)) backing_init 0x1234).
  - reflexivity.
  - rewrite repeat_length, Z2Nat.id by (unfold FLASH_SIZE; lia). reflexivity.
  - unfold FLASH_SIZE. lia.
Defined.

(** An image file shorter than the device is not padded.  The branch that
    would fill the rest of the array with 0xff sits under a test that [read]
    came up short of the file's own length, which a short file never does, so
    the tail keeps the zeroes of the static array. *)
Lemma short_image_not_padded bs x :
  Z.of_nat (length bs) <= x < FLASH_SIZE ->
  g_backing (en29lv640_register (Some bs)) x = 0.
Proof.
  intros H. unfold en29lv640_register, flash_load_image. cbn [g_backing].
  rewrite Z.min_l, Z.eqb_refl by lia. cbn [negb].
  rewrite store_bytes_out by (rewrite length_take; lia). reflexivity.
Qed.

Lemma short_image_not_padded_witness :
  g_backing (en29lv640_register (Some [0xea; 0x5b])) 0x400000 = 0.
Proof. apply (short_image_not_padded [0xea; 0x5b]). unfold FLASH_SIZE. cbn. lia. Defined.
