(* ===== verification/NorChip.v ===== *)
(** The interface between the flash drivers and the flash chip.

    [NorBus] is what a driver can do to a mapped chip: byte, halfword and word
    accesses, reads included since reading a busy chip may change it.
    [NorChip] is what the drivers rely on: a chip that is ready reads its
    array; the erase command sets one sector to 0xff; the program command
    stores a halfword into erased cells.  The emulated EN29LV640 is an
    instance.  The drivers' theorems are proved against the interface. *)
From Stdlib Require Import ZArith Lia.
From stdpp Require Import base list numbers.
From S2P Require Import Prelude En29lv640.

Class NorBus (C : Type) : Type := {
  bus_write8 : Z -> Z -> C -> C;
  bus_write16 : Z -> Z -> C -> C;
  bus_read8 : Z -> C -> Z * C;
  bus_read16 : Z -> C -> Z * C;
  bus_read32 : Z -> C -> Z * C
}.

Class NorChip (C : Type) `{NorBus C} : Type := {
  nor_size : Z;
  nor_ready : C -> Prop;
  nor_mem : C -> mem;
  nor_sec_base : Z -> Z;
  nor_sec_len : Z -> Z;

  nor_bytes : forall c a, nor_ready c -> 0 <= a < nor_size -> 0 <= nor_mem c a < 0x100;
  nor_read8 : forall c a, nor_ready c -> 0 <= a < nor_size ->
    bus_read8 a c = (nor_mem c a, c);
  nor_read16 : forall c a, nor_ready c -> 0 <= a -> a + 2 <= nor_size ->
    bus_read16 a c = (load16 (nor_mem c) a, c);
  nor_read32 : forall c a, nor_ready c -> 0 <= a -> a + 4 <= nor_size ->
    bus_read32 a c = (load32 (nor_mem c) a, c);

  (** The sector-erase command. *)
  nor_erase : forall c a, nor_ready c -> 0 <= a < nor_size ->
    let c' := bus_write8 a 0x30 (bus_write8 0x555 0x55 (bus_write8 0xaaa 0xaa
                (bus_write8 0xaaa 0x80 (bus_write8 0x555 0x55 (bus_write8 0xaaa 0xaa c))))) in
    nor_ready c' /\
    forall x, 0 <= x < nor_size ->
      nor_mem c' x = fill (nor_mem c) (nor_sec_base a) (nor_sec_len a) 0xff x;

  (** The program command touches one halfword, and stores the value when the
      halfword was erased. *)
  nor_program : forall c a v, nor_ready c -> 0 <= a -> a + 2 <= nor_size ->
    0 <= v < 0x10000 ->
    let c' := bus_write16 a v (bus_write8 0xaaa 0xa0 (bus_write8 0x555 0x55
                (bus_write8 0xaaa 0xaa c))) in
    nor_ready c' /\
    (forall x, 0 <= x < nor_size -> x <> a -> x <> a + 1 -> nor_mem c' x = nor_mem c x) /\
    (nor_mem c a = 0xff -> nor_mem c (a + 1) = 0xff ->
     nor_mem c' a = u8 v /\ nor_mem c' (a + 1) = u8 (v / 0x100))
}.

(** The 8 MiB bottom-boot part: eight 8 KiB sectors, then 64 KiB sectors. *)
Class Nor640 (C : Type) `{NorChip C} : Prop := {
  nor640_size : nor_size = 0x800000;
  nor640_len : forall a, 0 <= a < 0x800000 ->
    nor_sec_len a = if a <? 0x10000 then 0x2000 else 0x10000;
  nor640_base : forall a, 0 <= a < 0x800000 -> nor_sec_base a = a - a mod nor_sec_len a
}.

(** ** The emulated chip implements the interface

    The array is the whole 8 MiB device, as the byte functions of the emulator
    address it; reads do not change the emulator's state. *)

#[export] Instance en29lv640_bus : NorBus flash := {
  bus_write8 a v f := flash_writeb a v f;
  bus_write16 a v f := flash_writew a v f;
  bus_read8 a f := (default 0 (flash_readb a f), f);
  bus_read16 a f := (default 0 (flash_readw a f), f);
  bus_read32 a f := (default 0 (flash_readl a f), f)
}.

Definition flash_ready (f : flash) : Prop :=
  g_state f = CYCLE_READ /\ bytes_ok (g_backing f).

Lemma read_array_in arr len a width v :
  0 <= a -> a + width <= len ->
  (width = 1 /\ v = arr a) \/ (width = 2 /\ v = load16 arr a) \/
    (width = 4 /\ v = load32 arr a) ->
  read_array arr len a width = Some v.
Proof.
  intros H1 H2 [[-> ->] | [[-> ->] | [-> ->]]]; unfold read_array; cbn [Z.eqb Pos.eqb];
    now rewrite (proj2 (Z.leb_le _ _)).
Qed.

Lemma bytes_ok_fill m b l : bytes_ok m -> bytes_ok (fill m b l 0xff).
Proof. intros H a. unfold fill. case_match; [lia | apply H]. Qed.

Lemma flash_read_ready f a width v :
  flash_ready f -> 0 <= a -> a + width <= FLASH_SIZE ->
  (width = 1 /\ v = g_backing f a) \/ (width = 2 /\ v = load16 (g_backing f) a) \/
    (width = 4 /\ v = load32 (g_backing f) a) ->
  flash_read_width a width f = Some v.
Proof.
  intros [Hs _] H1 H2 Hw. unfold flash_read_width. rewrite Hs. now apply read_array_in.
Qed.

(** The commands of the interface, as the emulator's write sequences. *)
#[local] Strategy opaque [flash_write_width].

Lemma flash_erase_seq f a :
  bus_write8 a 0x30 (bus_write8 0x555 0x55 (bus_write8 0xaaa 0xaa
    (bus_write8 0xaaa 0x80 (bus_write8 0x555 0x55 (bus_write8 0xaaa 0xaa f))))) =
  run_writes (erase_command a) f.
Proof. reflexivity. Qed.

Lemma flash_program_seq f a v :
  bus_write16 a v (bus_write8 0xaaa 0xa0 (bus_write8 0x555 0x55 (bus_write8 0xaaa 0xaa f))) =
  run_writes (program_command a v 2) f.
Proof. reflexivity. Qed.

Lemma flash_erase_ready f a :
  flash_ready f ->
  flash_ready (run_writes (erase_command a) f) /\
  g_backing (run_writes (erase_command a) f) =
    fill (g_backing f) (ADDR_TO_SECBASE a) (ADDR_TO_SECLEN a) 0xff.
Proof.
  intros [Hs Hb]. rewrite erase_command_eq by exact Hs. unfold flash_ready. cbn [g_state g_backing].
  auto using bytes_ok_fill.
Qed.

Lemma flash_program_ready f a v :
  flash_ready f -> 0 <= v < 0x10000 ->
  flash_ready (run_writes (program_command a v 2) f) /\
  g_backing (run_writes (program_command a v 2) f) = store16 (g_backing f) a v.
Proof.
  intros [Hs Hb] Hv. rewrite program_command_word, u16_id by assumption.
  unfold flash_ready. cbn [g_state g_backing]. auto using bytes_ok_store16.
Qed.

#[export] Instance en29lv640_chip : NorChip flash.
Proof.
  refine {| nor_size := FLASH_SIZE; nor_ready := flash_ready; nor_mem := g_backing;
            nor_sec_base := ADDR_TO_SECBASE; nor_sec_len := ADDR_TO_SECLEN |}.
  - intros c a [_ H] _. apply H.
  - intros c a H Ha. unfold bus_read8, en29lv640_bus, flash_readb.
    rewrite (flash_read_ready c a 1 (g_backing c a)) by (auto; lia). reflexivity.
  - intros c a H H1 H2. unfold bus_read16, en29lv640_bus, flash_readw.
    rewrite (flash_read_ready c a 2 (load16 (g_backing c) a)) by (auto; lia). reflexivity.
  - intros c a H H1 H2. unfold bus_read32, en29lv640_bus, flash_readl.
    rewrite (flash_read_ready c a 4 (load32 (g_backing c) a)) by (auto; lia). reflexivity.
  - intros c a H Ha. cbv zeta. rewrite flash_erase_seq.
    destruct (flash_erase_ready c a H) as [H1 ->]. auto.
  - intros c a v H H1 H2 Hv. cbv zeta. rewrite flash_program_seq.
    destruct (flash_program_ready c a v H Hv) as [H3 ->].
    split; [exact H3 |]. split; intros; autorewrite with biff; auto.
Defined.

#[export] Instance en29lv640_640 : Nor640 flash.
Proof. split; [reflexivity | reflexivity | intros a Ha; now apply SECBASE_div]. Qed.
