(* ===== verification/BiffNor.v ===== *)
(** The in-kernel flash driver (src/tiny/linux-2.6.37.6/drivers/biffnor.c):
    the flash map, sector erase and word programming with status polling, the
    chunk permutation, and the two character devices /dev/biffkernel and
    /dev/biffboot.  Every operation runs against a [NorBus]; pointers into a
    buffer are the buffer and an index.  The flash map globals, set once by
    [flashmap_init], are the record [flashmap] the functions take. *)
From Stdlib Require Import ZArith Lia.
From stdpp Require Import base list numbers.
From S2P Require Import Prelude En29lv640 NorChip.

Definition ENOSPC : Z := 28.

Definition EINVAL : Z := 22.

Definition ENOMEM : Z := 12.

Definition EBUSY : Z := 16.

(** ** The flash map *)

Definition FLASHMAP_CHUNK_SIZE : Z := 0x2000.

Definition FLASHMAP_BOOT_SIZE : Z := 0x10000.

Definition FLASH_CODE_EN800 : Z := 0x7f1c225b.

Definition FLASH_CODE_EN320 : Z := 0x7f1c22f9.

Definition FLASH_CODE_EN640 : Z := 0x7f1c22cb.

Record flashmap : Type := mkFlashmap {
  FLASHMAP_DEVICE_SIZE : Z;
  FLASHMAP_BASE : Z;
  FLASHMAP_SIZE : Z;
  FLASHMAP_KERNEL_SIZE : Z;
  FLASHMAP_CHUNK_COUNT : Z
}.

(** The statics before initialisation. *)
Definition flashmap_zero : flashmap := mkFlashmap 0 0 0 0 0.

Definition flashmap_get_detected : Z := FLASH_CODE_EN640.

(** Error code and map for a detected chip code. *)
Definition flashmap_init (detected : Z) : Z * flashmap :=
  let chunks size := (size - FLASHMAP_BOOT_SIZE) / FLASHMAP_CHUNK_SIZE in
  if detected =? FLASH_CODE_EN800 then
    (0, mkFlashmap 1 0xfff00000 0x100000 0xf0000 (chunks 0x100000))
  else if detected =? FLASH_CODE_EN320 then
    (0, mkFlashmap 4 0xffc00000 0x400000 (0x400000 - 0x10000) (chunks 0x400000))
  else if detected =? FLASH_CODE_EN640 then
    (0, mkFlashmap 8 0xff800000 0x800000 (0x800000 - 0x10000) (chunks 0x800000))
  else (1, flashmap_zero).

(** The map the driver runs with. *)
Definition fm640 : flashmap := snd (flashmap_init flashmap_get_detected).

(** Whether an address starts a sector. *)
Definition flashmap_isboundary (fm : flashmap) (addr : Z) : bool :=
  if anyset addr 0x1fff then false
  else if FLASHMAP_SIZE fm <=? addr then false
  else if addr =? 0 then true
  else if 0x10000 <=? addr then negb (anyset addr 0xffff)
  else if FLASHMAP_DEVICE_SIZE fm =? 1 then
    (addr =? 0x4000) || (addr =? 0x6000) || (addr =? 0x8000)
  else true.

Section Driver.
Context {C : Type} `{NorBus C}.

Definition WriteFLASH (addr data : Z) : ST C unit := fun c => (tt, bus_write8 addr (u8 data) c).

Definition WriteFLASH16 (addr data : Z) : ST C unit := fun c => (tt, bus_write16 addr (u16 data) c).

(** The delay loop after the access has no effect on the state. *)
Definition ReadFLASH (addr delay : Z) : ST C Z := fun c => bus_read8 addr c.

Definition ReadFLASH16_FAST (addr : Z) : ST C Z := fun c => bus_read16 addr c.

Definition ReadFLASH32_FAST (addr : Z) : ST C Z := fun c => bus_read32 addr c.

(** The inner loop of [flashmap_iserased]: [n] words from [addr]. *)
Fixpoint chunk_iserased (n : nat) (addr : Z) : ST C bool :=
  match n with
  | O => ret true
  | S n' =>
      let! val := ReadFLASH32_FAST addr in
      if negb (val =? 0xffffffff) then ret false
      else chunk_iserased n' (addr + 4)
  end.

(** The outer loop, one chunk at a time up to the next sector start or the end
    of the flash; [fuel] counts the chunks left. *)
Fixpoint iserased_loop (fm : flashmap) (fuel : nat) (addr : Z) : ST C bool :=
  match fuel with
  | O => ret true
  | S fuel' =>
      if addr <? FLASHMAP_SIZE fm then
        let! ok := chunk_iserased (Z.to_nat (FLASHMAP_CHUNK_SIZE / 4)) addr in
        if negb ok then ret false
        else if flashmap_isboundary fm (addr + FLASHMAP_CHUNK_SIZE) then ret true
        else iserased_loop fm fuel' (addr + FLASHMAP_CHUNK_SIZE)
      else ret true
  end.

Definition flashmap_iserased (fm : flashmap) (addr : Z) : ST C bool :=
  if negb (flashmap_isboundary fm addr) then ret false
  else iserased_loop fm (Z.to_nat ((FLASHMAP_SIZE fm - addr) / FLASHMAP_CHUNK_SIZE) + 1) addr.

(** ** Erase and program *)

(** State of a polling loop: the two last samples of the toggle bit, the count
    of polls and the chip. *)
Record poll : Type := mkPoll { p_prev : Z; p_cur : Z; p_count : Z; p_chip : C }.

(** One iteration of the polling loop of [EON_EraseSector].  The second sample
    is masked to the toggle bit before its error bit is tested. *)
Definition erase_poll_step (addr : Z) (p : poll) : poll + poll :=
  if p_prev p =? p_cur p then inr p
  else
    let '(v1, c1) := ReadFLASH addr 8 (p_chip p) in
    let prev := Z.land v1 0x40 in
    let '(v2, c2) := ReadFLASH addr 8 c1 in
    let cur := Z.land v2 0x40 in
    if anyset cur 0x20 then
      let '(v3, c3) := ReadFLASH addr 8 c2 in
      let prev := Z.land v3 0x40 in
      let '(v4, c4) := ReadFLASH addr 8 c3 in
      let cur := Z.land v4 0x40 in
      inr (mkPoll prev cur (if negb (prev =? cur) then 0xffffff else p_count p) c4)
    else
      let cur := Z.land cur 0x40 in
      let next := mkPoll prev cur (p_count p + 1) c2 in
      if 0x100000 <? p_count p then inr next else inl next.

(** More iterations than the loop's own counter allows. *)
Definition poll_bound : positive := 0x100003.

Definition run_poll (step : poll -> poll + poll) (p : poll) : poll :=
  match ploop poll_bound step p with inl q => q | inr q => q end.

Definition EON_EraseSector (fm : flashmap) (addr : Z) : ST C Z := fun c =>
  if FLASHMAP_SIZE fm <=? addr then (-1, c)
  else
    let '(_, c) := (WriteFLASH 0xAAA 0xAA >> WriteFLASH 0x555 0x55 >> WriteFLASH 0xAAA 0x80 >>
                    WriteFLASH 0xAAA 0xAA >> WriteFLASH 0x555 0x55 >> WriteFLASH addr 0x30) c in
    let '(v1, c) := ReadFLASH addr 8 c in
    let '(v2, c) := ReadFLASH addr 8 c in
    let p := run_poll (erase_poll_step addr) (mkPoll (Z.land v1 0x40) (Z.land v2 0x40) 0 c) in
    (if 0x100000 <? p_count p then -1 else p_count p, p_chip p).

(** One iteration of the polling loop of [EON_ProgramWord]; the error bit is
    tested on the unmasked sample. *)
Definition program_poll_step (addr : Z) (p : poll) : poll + poll :=
  if p_prev p =? p_cur p then inr p
  else
    let '(v1, c1) := ReadFLASH addr 1 (p_chip p) in
    let prev := Z.land v1 0x40 in
    let '(cur, c2) := ReadFLASH addr 1 c1 in
    if anyset cur 0x20 then
      let '(v3, c3) := ReadFLASH addr 1 c2 in
      let prev := Z.land v3 0x40 in
      let '(v4, c4) := ReadFLASH addr 1 c3 in
      let cur := Z.land v4 0x40 in
      inr (mkPoll prev cur (if negb (prev =? cur) then 0xffffff else p_count p) c4)
    else
      let cur := Z.land cur 0x40 in
      let next := mkPoll prev cur (p_count p + 1) c2 in
      if 0x100000 <? p_count p then inr next else inl next.

Definition EON_ProgramWord (fm : flashmap) (addr val : Z) : ST C Z := fun c =>
  if FLASHMAP_SIZE fm <=? addr then (-1, c)
  else
    let '(_, c) := (WriteFLASH 0xAAA 0xAA >> WriteFLASH 0x555 0x55 >> WriteFLASH 0xAAA 0xA0 >>
                    WriteFLASH16 addr val) c in
    let '(v1, c) := ReadFLASH addr 1 c in
    let '(v2, c) := ReadFLASH addr 1 c in
    let p := run_poll (program_poll_step addr) (mkPoll (Z.land v1 0x40) (Z.land v2 0x40) 0 c) in
    (if 0x10000 <? p_count p then -1 else p_count p, p_chip p).

(** [count] halfwords of the buffer [src], from its byte offset [off]. *)
Fixpoint program_words (fm : flashmap) (src : mem) (off dest : Z) (count : nat) : ST C Z :=
  match count with
  | O => ret 0
  | S count' =>
      let! r := EON_ProgramWord fm dest (load16 src off) in
      if r <? 0 then ret (-1)
      else program_words fm src (off + 2) (dest + 2) count'
  end.

Definition EON_ProgramRange (fm : flashmap) (src : mem) (dest count : Z) : ST C Z :=
  program_words fm src 0 dest (Z.to_nat count).

Fixpoint verify_words (src : mem) (off dest : Z) (count : nat) : ST C Z :=
  match count with
  | O => ret 0
  | S count' =>
      let! r := ReadFLASH16_FAST dest in
      if negb (load16 src off =? r) then ret (-1)
      else verify_words src (off + 2) (dest + 2) count'
  end.

Definition EON_VerifyRange (src : mem) (dest count : Z) : ST C Z :=
  verify_words src 0 dest (Z.to_nat count).

(** [count/4] words into the buffer [buf], from its byte offset [off]. *)
Fixpoint read_words (src : Z) (buf : mem) (off : Z) (count : nat) : ST C mem :=
  match count with
  | O => ret buf
  | S count' =>
      let! val := ReadFLASH32_FAST src in
      read_words (src + 4) (store32 buf off val) (off + 4) count'
  end.

Definition EON_ReadRange (src : Z) (dest : mem) (count : Z) : ST C mem :=
  read_words src dest 0 (Z.to_nat (count / 4)).

(** Chunk number to flash block: the first three blocks hold the last three
    chunks. *)
Definition EON_ChunkToSector (fm : flashmap) (chunk : Z) : Z :=
  if u32 chunk <? u32 (FLASHMAP_CHUNK_COUNT fm - 3) then chunk + 3
  else s32 (chunk - (FLASHMAP_CHUNK_COUNT fm - 3)).

Definition flash_write_chunk (fm : flashmap) (src : mem) (dest len : Z) : ST C Z := fun c =>
  if FLASHMAP_SIZE fm - FLASHMAP_BOOT_SIZE <? u32 (dest + len) then (1, c)
  else
    let c :=
      if flashmap_isboundary fm dest then
        let '(erased, c) := flashmap_iserased fm dest c in
        if erased then c else snd (EON_EraseSector fm dest c)
      else c in
    let '(tmp, c) := EON_ProgramRange fm src dest (len / 2) c in
    if tmp <? 0 then (1, c)
    else
      let '(tmp, c) := EON_VerifyRange src dest (len / 2) c in
      if tmp <? 0 then (1, c) else (0, c).

(** ** /dev/biffkernel *)

Record kernel_fp_private : Type := mkKernelFp {
  filepos : Z;
  read_buffer : mem;
  write_buffer : mem;
  write_buffer_pos : Z
}.

Definition write_buffer_reset (priv : kernel_fp_private) : kernel_fp_private :=
  mkKernelFp (filepos priv) (read_buffer priv)
    (fill (write_buffer priv) 0 FLASHMAP_CHUNK_SIZE 0xff) 0.

Definition buffer_read (fm : flashmap) (priv : kernel_fp_private) : ST C kernel_fp_private :=
  let chunk := filepos priv / FLASHMAP_CHUNK_SIZE in
  let sect := EON_ChunkToSector fm chunk * FLASHMAP_CHUNK_SIZE in
  let! buf := EON_ReadRange sect (read_buffer priv) FLASHMAP_CHUNK_SIZE in
  ret (mkKernelFp (filepos priv) buf (write_buffer priv) (write_buffer_pos priv)).

(** The result of the flash write is dropped. *)
Definition buffer_write (fm : flashmap) (priv : kernel_fp_private) : ST C kernel_fp_private :=
  let chunk := filepos priv / FLASHMAP_CHUNK_SIZE in
  let chunk := if filepos priv mod FLASHMAP_CHUNK_SIZE =? 0 then u32 (chunk - 1) else chunk in
  let sect := u32 (EON_ChunkToSector fm chunk * FLASHMAP_CHUNK_SIZE) in
  flash_write_chunk fm (write_buffer priv) sect (write_buffer_pos priv) >>
  ret (write_buffer_reset priv).

Definition is_write_buffer_full (priv : kernel_fp_private) : bool :=
  write_buffer_pos priv =? FLASHMAP_CHUNK_SIZE.

(** [kzalloc] gives a zeroed private structure; [alloc] is whether it did. *)
Definition biffkernel_open (alloc : bool) : Z * option kernel_fp_private :=
  if alloc then
    (0, Some (write_buffer_reset (mkKernelFp 0 (fun _ => 0) (fun _ => 0) 0)))
  else (- ENOMEM, None).

(** The copy loop of [biffkernel_write]; [ubuf] is what the user still has to
    write, [count] the size of the whole request.  Every iteration consumes at
    least one byte, so [fuel] at the length of [ubuf] is enough. *)
Fixpoint kernel_write_loop (fm : flashmap) (fuel : nat) (count : Z) (ubuf : list Z)
    (priv : kernel_fp_private) : ST C (Z * kernel_fp_private) :=
  let remaining := Z.of_nat (length ubuf) in
  match fuel with
  | O => ret (count - remaining, priv)
  | S fuel' =>
      if remaining =? 0 then ret (count - remaining, priv)
      else if FLASHMAP_KERNEL_SIZE fm <=? filepos priv then
        if count =? remaining then ret (- ENOSPC, priv)
        else ret (count - remaining, priv)
      else
        let to_copy := Z.min (FLASHMAP_CHUNK_SIZE - write_buffer_pos priv) remaining in
        let priv1 :=
          mkKernelFp (u32 (filepos priv + to_copy)) (read_buffer priv)
            (store_bytes (write_buffer priv) (write_buffer_pos priv) (take (Z.to_nat to_copy) ubuf))
            (write_buffer_pos priv + to_copy) in
        let! priv2 := (if is_write_buffer_full priv1 then buffer_write fm priv1 else ret priv1) in
        kernel_write_loop fm fuel' count (drop (Z.to_nat to_copy) ubuf) priv2
  end.

Definition biffkernel_write (fm : flashmap) (priv : kernel_fp_private) (ubuf : list Z)
  : ST C (Z * kernel_fp_private) :=
  kernel_write_loop fm (length ubuf) (Z.of_nat (length ubuf)) ubuf priv.

(** The copy loop of [biffkernel_read]; [out] is what the user has received. *)
Fixpoint kernel_read_loop (fm : flashmap) (fuel : nat) (remaining : Z) (out : list Z)
    (priv : kernel_fp_private) : ST C (list Z * kernel_fp_private) :=
  match fuel with
  | O => ret (out, priv)
  | S fuel' =>
      if remaining =? 0 then ret (out, priv)
      else
        let readpos := Z.land (filepos priv) 0x1fff in
        if FLASHMAP_KERNEL_SIZE fm <=? filepos priv then ret (out, priv)
        else
          let! priv1 := buffer_read fm priv in
          let toread := Z.min (FLASHMAP_CHUNK_SIZE - readpos) remaining in
          let got := load_bytes (read_buffer priv1) readpos toread in
          kernel_read_loop fm fuel' (remaining - toread) (out ++ got)
            (mkKernelFp (u32 (filepos priv1 + toread)) (read_buffer priv1)
               (write_buffer priv1) (write_buffer_pos priv1))
  end.

(** The bytes delivered (their number is the value returned). *)
Definition biffkernel_read (fm : flashmap) (priv : kernel_fp_private) (count : Z)
  : ST C (list Z * kernel_fp_private) :=
  kernel_read_loop fm (Z.to_nat count) count [] priv.

Inductive whence : Type := SEEK_SET | SEEK_CUR | SEEK_END | SEEK_OTHER.

(** Offsets are [loff_t], and so is the arithmetic on them. *)
Definition biffkernel_seek (fm : flashmap) (priv : kernel_fp_private) (offset : Z) (w : whence)
  : ST C (Z * kernel_fp_private) :=
  let newpos :=
    match w with
    | SEEK_SET => Some (s64 offset)
    | SEEK_CUR => Some (s64 (filepos priv + s64 offset))
    | SEEK_END => Some (s64 (FLASHMAP_KERNEL_SIZE fm - s64 offset))
    | SEEK_OTHER => None
    end in
  match newpos with
  | None => ret (- EINVAL, priv)
  | Some newpos =>
      if newpos <? 0 then ret (- EINVAL, priv)
      else
        let newpos :=
          if FLASHMAP_KERNEL_SIZE fm <=? newpos then FLASHMAP_KERNEL_SIZE fm else newpos in
        let! priv1 := buffer_read fm
          (mkKernelFp newpos (read_buffer priv) (write_buffer priv) (write_buffer_pos priv)) in
        ret (newpos, write_buffer_reset priv1)
  end.

Definition biffkernel_release (fm : flashmap) (priv : kernel_fp_private) : ST C Z :=
  if negb (write_buffer_pos priv =? 0) then buffer_write fm priv >> ret 0 else ret 0.

(** ** /dev/biffboot *)

Record biffboot_fp_private : Type := mkBootFp {
  b_filepos : Z;
  b_read_buffer : mem;
  b_write_buffer : mem;
  b_write_buffer_pos : Z
}.

Definition biffboot_buffer_read (fm : flashmap) (priv : biffboot_fp_private)
  : ST C biffboot_fp_private :=
  let! buf := EON_ReadRange (FLASHMAP_KERNEL_SIZE fm) (b_read_buffer priv) 0x10000 in
  ret (mkBootFp (b_filepos priv) buf (b_write_buffer priv) (b_write_buffer_pos priv)).

(** "Biffboot" *)
Definition biffboot_magic : list Z := [0x42; 0x69; 0x66; 0x66; 0x62; 0x6f; 0x6f; 0x74].

Definition sanity_check (priv : biffboot_fp_private) : bool :=
  let wb := b_write_buffer priv in
  if negb (bool_decide (load_bytes wb 0xff00 8 = biffboot_magic)) then false
  else if negb (wb 0xfff0 =? 0xe9) then false
  else if negb (wb 0xfff1 =? 0x0a) then false
  else if negb (wb 0xfff2 =? 0xf1) then false
  else if negb (wb 0xffff =? 0xff) then false
  else true.

(** [while (count < write_buffer_pos)], two bytes at a time; the result of each
    programming is dropped. *)
Fixpoint write_sector_loop (fm : flashmap) (wb : mem) (pos : Z) (fuel : nat) (count : Z)
  : ST C unit :=
  match fuel with
  | O => ret tt
  | S fuel' =>
      if count <? pos then
        EON_ProgramWord fm (count + FLASHMAP_KERNEL_SIZE fm) (load16 wb count) >>
        write_sector_loop fm wb pos fuel' (count + 2)
      else ret tt
  end.

Definition WriteSector (fm : flashmap) (priv : biffboot_fp_private) : ST C unit :=
  write_sector_loop fm (b_write_buffer priv) (b_write_buffer_pos priv)
    (Z.to_nat ((b_write_buffer_pos priv + 1) / 2)) 0.

Definition biffboot_open (alloc : bool) : Z * option biffboot_fp_private :=
  if alloc then (0, Some (mkBootFp 0 (fun _ => 0) (fun _ => 0) 0)) else (- ENOMEM, None).

Fixpoint boot_read_loop (fm : flashmap) (fuel : nat) (remaining : Z) (out : list Z)
    (priv : biffboot_fp_private) : ST C (list Z * biffboot_fp_private) :=
  match fuel with
  | O => ret (out, priv)
  | S fuel' =>
      if remaining =? 0 then ret (out, priv)
      else if 0x10000 <=? b_filepos priv then ret (out, priv)
      else
        let! priv1 := biffboot_buffer_read fm priv in
        let toread := Z.min (0x10000 - b_filepos priv1) remaining in
        let got := load_bytes (b_read_buffer priv1) (b_filepos priv1) toread in
        boot_read_loop fm fuel' (remaining - toread) (out ++ got)
          (mkBootFp (b_filepos priv1 + toread) (b_read_buffer priv1)
             (b_write_buffer priv1) (b_write_buffer_pos priv1))
  end.

Definition biffboot_read (fm : flashmap) (priv : biffboot_fp_private) (count : Z)
  : ST C (list Z * biffboot_fp_private) :=
  boot_read_loop fm (Z.to_nat count) count [] priv.

Definition biffboot_write (fm : flashmap) (priv : biffboot_fp_private) (ubuf : list Z)
  : ST C (Z * biffboot_fp_private) := fun c =>
  let count := Z.of_nat (length ubuf) in
  if 0x10000 <? u32 (b_write_buffer_pos priv + count) then ((- EINVAL, priv), c)
  else
    let priv :=
      mkBootFp (b_filepos priv) (b_read_buffer priv)
        (store_bytes (b_write_buffer priv) (b_write_buffer_pos priv) ubuf)
        (u32 (b_write_buffer_pos priv + count)) in
    if b_write_buffer_pos priv =? 0x10000 then
      if negb (sanity_check priv) then ((- EINVAL, priv), c)
      else
        let '(_, c) := EON_EraseSector fm (FLASHMAP_KERNEL_SIZE fm) c in
        let '(_, c) := WriteSector fm priv c in
        ((count, priv), c)
    else ((count, priv), c).

End Driver.

(** Registration of the two devices: [reg_kernel] and [reg_boot] are what
    [misc_register] returned.  The result is the error code, which devices stay
    registered, and the flash map. *)
Definition biffnor_init (reg_kernel reg_boot : Z) : Z * (bool * bool) * flashmap :=
  if negb (reg_kernel =? 0) then (- EBUSY, (false, false), flashmap_zero)
  else if negb (reg_boot =? 0) then (- EBUSY, (false, false), flashmap_zero)
  else (0, (true, true), snd (flashmap_init flashmap_get_detected)).
