(* ===== verification/BiffNorSpec.v ===== *)
(** Correctness of the flash driver of BiffNor.v: what each operation does on
    any chip that implements [NorChip], polling on a bus that promises
    nothing, the file view of /dev/biffkernel and the boot-sector upgrade of
    /dev/biffboot. *)
From Stdlib Require Import ZArith Lia.
From stdpp Require Import base list numbers.
From S2P Require Import Prelude En29lv640 NorChip BiffNor.

(** ** Polling, on an arbitrary bus *)

Section Polling.
Context {C : Type} {BusC : NorBus C}.

(** A poll step goes on only below the time limit, and counts. *)
Definition counting (step : @poll C -> @poll C + @poll C) : Prop :=
  forall p q, step p = inl q -> p_count q = p_count p + 1 /\ p_count p <= 0x100000.

Lemma masked_sample_error v : anyset (Z.land v 0x40) 0x20 = false.
Proof. unfold anyset. rewrite <- Z.land_assoc. change (Z.land 0x40 0x20) with 0.
  now rewrite Z.land_0_r. Qed.

Lemma erase_poll_counting addr : counting (erase_poll_step addr).
Proof.
  intros p q. unfold erase_poll_step. destruct (p_prev p =? p_cur p); [discriminate |].
  destruct (ReadFLASH addr 8 (p_chip p)) as [v1 c1], (ReadFLASH addr 8 c1) as [v2 c2].
  rewrite masked_sample_error. destruct (Z.ltb_spec 0x100000 (p_count p)); [discriminate |].
  intros [= <-]. cbn. lia.
Qed.

Lemma program_poll_counting addr : counting (program_poll_step addr).
Proof.
  intros p q. unfold program_poll_step. destruct (p_prev p =? p_cur p); [discriminate |].
  destruct (ReadFLASH addr 1 (p_chip p)) as [v1 c1], (ReadFLASH addr 1 c1) as [v2 c2].
  destruct (anyset v2 0x20).
  - destruct (ReadFLASH addr 1 c2) as [v3 c3], (ReadFLASH addr 1 c3). discriminate.
  - destruct (Z.ltb_spec 0x100000 (p_count p)); [discriminate |]. intros [= <-]. cbn. lia.
Qed.

Lemma counting_loop step n p :
  counting step ->
  match nloop n step p with
  | inl q => p_count q = p_count p + Z.of_nat n /\ (n = 0%nat \/ p_count q <= 0x100001)
  | inr _ => True
  end.
Proof.
  intros Hc. revert p. induction n as [|n IH]; intros p; cbn [nloop]; [lia |].
  destruct (step p) as [q | r] eqn:E; [| done]. apply Hc in E.
  specialize (IH q). destruct (nloop n step q) as [q' |]; [| done]. lia.
Qed.

Lemma poll_leaves step p :
  counting step -> p_count p = 0 -> exists q, ploop poll_bound step p = inr q.
Proof.
  intros Hc H0. rewrite ploop_nloop.
  pose proof (counting_loop step (Pos.to_nat poll_bound) p Hc) as Hn.
  destruct (nloop _ step p) as [q | q]; [| now exists q]. exfalso.
  rewrite H0, positive_nat_Z in Hn. unfold poll_bound in Hn. lia.
Qed.

(** The status polling of sector erase and of word programming ends on
    every bus, whatever the chip answers: the loop bound of the model is never
    the reason to stop. *)
Theorem polling_terminates addr v1 v2 c :
  (exists q, ploop poll_bound (erase_poll_step addr) (mkPoll v1 v2 0 c) = inr q) /\
  (exists q, ploop poll_bound (program_poll_step addr) (mkPoll v1 v2 0 c) = inr q).
Proof.
  split; apply poll_leaves; auto using erase_poll_counting, program_poll_counting.
Qed.

(** Sector erase cannot see the chip's time-out flag.  The sample is
    masked to the toggle bit (0x40) before bit 0x20 is tested, so the loop is
    left only when the toggle bit is stable or its own counter runs out. *)
Lemma erase_ignores_error_bit addr (p q : @poll C) :
  erase_poll_step addr p = inr q ->
  (p_prev p = p_cur p /\ q = p) \/ 0x100000 < p_count p.
Proof.
  unfold erase_poll_step. destruct (Z.eqb_spec (p_prev p) (p_cur p)).
  - intros [= ->]. auto.
  - destruct (ReadFLASH addr 8 (p_chip p)) as [v1 c1], (ReadFLASH addr 8 c1) as [v2 c2].
    rewrite masked_sample_error. destruct (Z.ltb_spec 0x100000 (p_count p)); [auto | discriminate].
Qed.

(** A stable toggle bit ends the polling at once. *)
Lemma poll_stable (step : @poll C -> @poll C + @poll C) v n (c : C) :
  (forall p, p_prev p = p_cur p -> step p = inr p) ->
  run_poll step (mkPoll v v n c) = mkPoll v v n c.
Proof.
  intros Hs. unfold run_poll. rewrite ploop_nloop.
  destruct (Pos2Nat.is_succ poll_bound) as [k ->]. cbn [nloop].
  now rewrite Hs by reflexivity.
Qed.

Lemma erase_poll_stable addr (p : @poll C) :
  p_prev p = p_cur p -> erase_poll_step addr p = inr p.
Proof. intros E. unfold erase_poll_step. now rewrite E, Z.eqb_refl. Qed.

Lemma program_poll_stable addr (p : @poll C) :
  p_prev p = p_cur p -> program_poll_step addr p = inr p.
Proof. intros E. unfold program_poll_step. now rewrite E, Z.eqb_refl. Qed.
End Polling.

(** A bus whose chip toggles bit 0x40 and raises bit 0x20 on every read. *)
Definition stuck_bus : NorBus bool :=
  Build_NorBus bool (fun _ _ c => c) (fun _ _ c => c)
    (fun _ c => (if c then 0x60 else 0x20, negb c)) (fun _ c => (0, c)) (fun _ c => (0, c)).

Lemma erase_ignores_error_bit_witness :
  @erase_poll_step bool stuck_bus 0 (mkPoll 0x40 0 0x100001 true) =
    inr (mkPoll 0x40 0 0x100002 true) /\
  (((0x40 = 0) /\ mkPoll 0x40 0 0x100002 true = mkPoll 0x40 0 0x100001 true)
   \/ 0x100000 < 0x100001).
Proof.
  split; [reflexivity |].
  exact (@erase_ignores_error_bit bool stuck_bus 0 (mkPoll 0x40 0 0x100001 true)
           (mkPoll 0x40 0 0x100002 true) eq_refl).
Defined.

(** ** Erase and program, on a chip *)

Lemma fm640_eq : fm640 = mkFlashmap 8 0xff800000 0x800000 0x7f0000 1016.
Proof. reflexivity. Qed.

Lemma fm640_size : FLASHMAP_SIZE fm640 = 0x800000.
Proof. reflexivity. Qed.

Lemma fm640_kernel : FLASHMAP_KERNEL_SIZE fm640 = 0x7f0000.
Proof. reflexivity. Qed.

#[export] Hint Rewrite fm640_size fm640_kernel : biff.

Lemma boundary_spec addr : 0 <= addr ->
  flashmap_isboundary fm640 addr = true <->
  addr < 0x800000 /\ addr mod 0x2000 = 0 /\ (0x10000 <= addr -> addr mod 0x10000 = 0).
Proof.
  intros H0. unfold flashmap_isboundary, anyset.
  change 0x1fff with (Z.ones 13). change 0xffff with (Z.ones 16).
  rewrite !Z.land_ones by lia. change (2 ^ 13) with 0x2000. change (2 ^ 16) with 0x10000.
  cbn [FLASHMAP_SIZE FLASHMAP_DEVICE_SIZE fm640 flashmap_init snd fst].
  rewrite fm640_size. change (FLASHMAP_DEVICE_SIZE fm640 =? 1) with false. cbv iota.
  repeat zcase; split; intros; try discriminate; try lia; try reflexivity.
Qed.

Section Chip.
Context {C : Type} {BusC : NorBus C} {ChipC : NorChip C} {PartC : Nor640 C}.

Lemma size640 : nor_size (C := C) = 0x800000.
Proof. apply nor640_size. Qed.

(** What one programmed halfword leaves behind. *)
Lemma EON_ProgramWord_ok c addr v :
  nor_ready c -> 0 <= addr -> addr + 2 <= 0x800000 -> 0 <= v < 0x10000 ->
  exists c', EON_ProgramWord fm640 addr v c = (0, c') /\ nor_ready c' /\
    (forall x, 0 <= x < 0x800000 -> x <> addr -> x <> addr + 1 -> nor_mem c' x = nor_mem c x) /\
    (nor_mem c addr = 0xff -> nor_mem c (addr + 1) = 0xff ->
     nor_mem c' addr = u8 v /\ nor_mem c' (addr + 1) = u8 (v / 0x100)).
Proof.
  intros Hr Ha1 Ha2 Hv. pose proof (nor_program c addr v Hr) as Hp. rewrite size640 in Hp.
  cbv zeta in Hp. destruct Hp as (Hr' & Hmem); [lia.. |].
  unfold EON_ProgramWord, WriteFLASH, WriteFLASH16, bind. cbn [fst snd].
  rewrite fm640_size. destruct (Z.leb_spec 0x800000 addr); [lia |].
  rewrite u16_id by lia. change (u8 0xAA) with 0xaa. change (u8 0x55) with 0x55.
  change (u8 0xA0) with 0xa0.
  set (c' := bus_write16 addr v _) in *. unfold ReadFLASH.
  rewrite nor_read8 by (auto; rewrite size640; lia). cbv beta iota.
  rewrite nor_read8 by (auto; rewrite size640; lia). cbv beta iota.
  rewrite poll_stable by apply program_poll_stable. exists c'. auto.
Qed.

Lemma EON_EraseSector_ok c addr :
  nor_ready c -> 0 <= addr < 0x800000 ->
  exists c', EON_EraseSector fm640 addr c = (0, c') /\ nor_ready c' /\
    forall x, 0 <= x < 0x800000 ->
      nor_mem c' x = fill (nor_mem c) (nor_sec_base addr) (nor_sec_len addr) 0xff x.
Proof.
  intros Hr Ha. pose proof (nor_erase c addr Hr) as Hp. rewrite size640 in Hp.
  cbv zeta in Hp. destruct Hp as (Hr' & Hmem); [lia |].
  unfold EON_EraseSector, WriteFLASH, bind. cbn [fst snd].
  rewrite fm640_size. destruct (Z.leb_spec 0x800000 addr); [lia |].
  change (u8 0xAA) with 0xaa. change (u8 0x55) with 0x55.
  change (u8 0x80) with 0x80. change (u8 0x30) with 0x30.
  set (c' := bus_write8 addr 0x30 _) in *. unfold ReadFLASH.
  rewrite nor_read8 by (auto; rewrite size640; lia). cbv beta iota.
  rewrite nor_read8 by (auto; rewrite size640; lia). cbv beta iota.
  rewrite poll_stable by apply erase_poll_stable. exists c'. auto.
Qed.

(** [n] halfwords programmed into an erased range. *)
Lemma program_words_ok src n : forall off dest c,
  nor_ready c -> 0 <= dest -> dest + 2 * Z.of_nat n <= 0x800000 ->
  (forall i, off <= i < off + 2 * Z.of_nat n -> 0 <= src i < 0x100) ->
  exists c', program_words fm640 src off dest n c = (0, c') /\ nor_ready c' /\
    (forall x, 0 <= x < 0x800000 -> ~ (dest <= x < dest + 2 * Z.of_nat n) ->
       nor_mem c' x = nor_mem c x) /\
    ((forall x, dest <= x < dest + 2 * Z.of_nat n -> nor_mem c x = 0xff) ->
     forall x, dest <= x < dest + 2 * Z.of_nat n -> nor_mem c' x = src (off + (x - dest))).
Proof.
  induction n as [|n IH]; intros off dest c Hr H1 H2 Hsrc.
  { exists c. cbn. repeat split; auto. intros; lia. }
  pose proof (Hsrc off ltac:(lia)) as Hb0. pose proof (Hsrc (off + 1) ltac:(lia)) as Hb1.
  destruct (EON_ProgramWord_ok c dest (load16 src off)) as (c1 & E1 & Hr1 & Hf1 & Hv1);
    [auto | lia | lia | now apply load16_range |].
  destruct (IH (off + 2) (dest + 2) c1) as (c2 & E2 & Hr2 & Hf2 & Hv2); [auto | lia | lia | |].
  { intros i Hi. apply Hsrc. lia. }
  exists c2. cbn [program_words]. rewrite (bind_eq _ _ _ _ _ E1). cbn [Z.ltb Z.compare].
  split; [exact E2 | split; [exact Hr2 | split]].
  - intros x Hx Hn. rewrite Hf2, Hf1 by lia. done.
  - intros Her x Hx. destruct (Hv1 (Her dest ltac:(lia)) (Her (dest + 1) ltac:(lia))) as [V0 V1].
    destruct (load16_bytes src off Hb0 Hb1) as [L0 L1]. rewrite L0 in V0. rewrite L1 in V1.
    assert (x = dest \/ x = dest + 1 \/ dest + 2 <= x) as [-> | [-> | Hge]] by lia.
    + rewrite Hf2, V0 by lia. f_equal. lia.
    + rewrite Hf2, V1 by lia. f_equal. lia.
    + rewrite Hv2 by (try lia; intros y Hy; rewrite Hf1 by lia; apply Her; lia).
      f_equal. lia.
Qed.

Lemma verify_words_ok src n : forall off dest c,
  nor_ready c -> 0 <= dest -> dest + 2 * Z.of_nat n <= 0x800000 ->
  (forall x, dest <= x < dest + 2 * Z.of_nat n -> nor_mem c x = src (off + (x - dest))) ->
  verify_words src off dest n c = (0, c).
Proof.
  induction n as [|n IH]; intros off dest c Hr H1 H2 Hm; [done |].
  cbn [verify_words]. erewrite bind_eq; [| apply nor_read16; [auto | lia | rewrite size640; lia]].
  replace (load16 (nor_mem c) dest) with (load16 src off).
  - rewrite Z.eqb_refl. apply IH; [auto | lia | lia |].
    intros x Hx. rewrite Hm by lia. f_equal. lia.
  - unfold load16. rewrite !Hm by lia. do 2 f_equal; f_equal; lia.
Qed.

(** Verification only reads. *)
Lemma verify_words_frame src n : forall off dest c,
  nor_ready c -> 0 <= dest -> dest + 2 * Z.of_nat n <= 0x800000 ->
  exists r, verify_words src off dest n c = (r, c).
Proof.
  induction n as [|n IH]; intros off dest c Hr H1 H2; cbn [verify_words]; [now exists 0 |].
  erewrite bind_eq; [| apply nor_read16; [auto | lia | rewrite size640; lia]].
  case_match; [now exists (-1) | apply IH; [done | lia | lia]].
Qed.

(** ** Is a sector erased? *)

Lemma chunk_iserased_spec n : forall addr c,
  nor_ready c -> 0 <= addr -> addr + 4 * Z.of_nat n <= 0x800000 ->
  exists b, chunk_iserased n addr c = (b, c) /\
    (b = true <-> forall x, addr <= x < addr + 4 * Z.of_nat n -> nor_mem c x = 0xff).
Proof.
  induction n as [|n IH]; intros addr c Hr H1 H2.
  { exists true. cbn. split; [done |]. split; [intros _ x Hx; lia | done]. }
  cbn [chunk_iserased]. erewrite bind_eq; [| apply nor_read32; [auto | lia | rewrite size640; lia]].
  pose proof (load32_ones (nor_mem c) addr) as Hones.
  specialize (Hones ltac:(intros; apply nor_bytes; [auto | rewrite size640; lia])).
  destruct (Z.eqb_spec (load32 (nor_mem c) addr) 0xffffffff) as [E | E]; cbn [negb].
  - destruct (IH (addr + 4) c) as (b & E2 & Hb); [auto | lia | lia |].
    exists b. split; [exact E2 |]. rewrite Hb. rewrite Hones in E.
    split; intros Hx x Hr4; [| apply Hx; lia].
    destruct (Z.lt_ge_cases x (addr + 4)); [apply E | apply Hx]; lia.
  - exists false. split; [done |]. split; [discriminate |]. intros Hx. exfalso.
    apply E, Hones. intros x Hx4. apply Hx. lia.
Qed.

(** End of the sector an address lies in. *)
Definition sec_end (a : Z) : Z :=
  if a <? 0x10000 then a - a mod 0x2000 + 0x2000 else a - a mod 0x10000 + 0x10000.

Lemma sector_range a : 0 <= a < 0x800000 ->
  nor_sec_base (C := C) a + nor_sec_len a = sec_end a /\
  0 <= nor_sec_base (C := C) a <= a.
Proof.
  intros Ha. rewrite nor640_base, nor640_len by lia. unfold sec_end.
  zcase; Z.div_mod_to_equations; lia.
Qed.

Lemma iserased_loop_spec n : forall addr c,
  nor_ready c -> 0 <= addr < 0x800000 -> addr mod 0x2000 = 0 ->
  sec_end addr <= addr + 0x2000 * Z.of_nat n ->
  exists b, iserased_loop fm640 n addr c = (b, c) /\
    (b = true <-> forall x, addr <= x < sec_end addr -> nor_mem c x = 0xff).
Proof.
  induction n as [|n IH]; intros addr c Hr Ha Hm Hn.
  { exfalso. unfold sec_end in Hn. zcase_in Hn; Z.div_mod_to_equations; lia. }
  assert (Hend : addr + 0x2000 <= sec_end addr <= 0x800000)
    by (unfold sec_end; zcase; Z.div_mod_to_equations; lia).
  cbn [iserased_loop]. rewrite fm640_size.
  destruct (Z.ltb_spec addr 0x800000); [| lia].
  assert (Hw : 4 * Z.of_nat (Z.to_nat (FLASHMAP_CHUNK_SIZE / 4)) = 0x2000) by reflexivity.
  destruct (chunk_iserased_spec (Z.to_nat (FLASHMAP_CHUNK_SIZE / 4)) addr c) as (b1 & E1 & Hb1);
    [auto | lia | lia |].
  rewrite (bind_eq _ _ _ _ _ E1). rewrite Hw in Hb1.
  destruct b1; cbn [negb].
  2: { exists false. split; [done |]. split; [discriminate |].
       intros Hx. apply Hb1. intros x Hx'. apply Hx. lia. }
  pose proof (proj1 Hb1 eq_refl) as Hfirst.
  destruct (flashmap_isboundary fm640 (addr + FLASHMAP_CHUNK_SIZE)) eqn:Eb.
  - apply boundary_spec in Eb; [| unfold FLASHMAP_CHUNK_SIZE; lia].
    assert (sec_end addr = addr + 0x2000) as ->.
    { unfold FLASHMAP_CHUNK_SIZE in Eb. destruct Eb as (_ & _ & E64). unfold sec_end. zcase.
      - clear E64. lia.
      - specialize (E64 ltac:(lia)). Z.div_mod_to_equations. lia. }
    exists true. done.
  - destruct (Z.eq_dec (addr + 0x2000) (sec_end addr)) as [E | E].
    + assert (addr + 0x2000 = 0x800000).
      { destruct (Z.eq_dec (addr + 0x2000) 0x800000); [done | exfalso].
        unfold FLASHMAP_CHUNK_SIZE in Eb.
        rewrite (proj2 (boundary_spec (addr + 0x2000) ltac:(lia))) in Eb; [discriminate |].
        unfold sec_end in E. zcase_in E; Z.div_mod_to_equations; lia. }
      exists true. rewrite <- E. split; [| done].
      destruct n as [|n']; cbn [iserased_loop]; [done |]. rewrite fm640_size.
      unfold FLASHMAP_CHUNK_SIZE. destruct (Z.ltb_spec (addr + 0x2000) 0x800000); [lia | done].
    + assert (Hs : sec_end (addr + 0x2000) = sec_end addr)
        by (clear Hn; unfold sec_end in *; destruct (Z.ltb_spec addr 0x10000),
              (Z.ltb_spec (addr + 0x2000) 0x10000); Z.div_mod_to_equations; lia).
      destruct (IH (addr + 0x2000) c) as (b & E2 & Hb); [auto | lia | | lia |].
      { rewrite Z.add_mod, Hm by lia. reflexivity. }
      exists b. split; [exact E2 |]. rewrite Hb, Hs.
      split; intros Hx x Hx'; [| apply Hx; lia].
      destruct (Z.lt_ge_cases x (addr + 0x2000)); [apply Hfirst | apply Hx]; lia.
Qed.

(** ** Writing one chunk *)

(** How far the erasure of a chunk write reaches. *)
Definition reach (dest : Z) : Z :=
  if flashmap_isboundary fm640 dest then sec_end dest else dest + 0x2000.

Lemma reach_bounds dest : 0 <= dest < 0x7f0000 -> dest mod 0x2000 = 0 ->
  dest + 0x2000 <= reach dest <= 0x7f0000.
Proof.
  intros Hd Hm. unfold reach, sec_end. destruct (flashmap_isboundary fm640 dest); [zcase |];
    Z.div_mod_to_equations; lia.
Qed.

(** The chip after the erase-if-needed step of [flash_write_chunk]. *)
Definition prepared (dest : Z) (c : C) : C :=
  if flashmap_isboundary fm640 dest then
    let '(erased, c) := flashmap_iserased fm640 dest c in
    if erased then c else snd (EON_EraseSector fm640 dest c)
  else c.

Lemma prepared_ok c dest :
  nor_ready c -> 0 <= dest < 0x7f0000 -> dest mod 0x2000 = 0 ->
  nor_ready (prepared dest c) /\
  (flashmap_isboundary fm640 dest = true ->
   forall x, dest <= x < reach dest -> nor_mem (prepared dest c) x = 0xff) /\
  (forall x, 0 <= x < 0x800000 -> ~ (dest <= x < reach dest) \/
     flashmap_isboundary fm640 dest = false -> nor_mem (prepared dest c) x = nor_mem c x).
Proof.
  intros Hr Hd Hm. unfold prepared, reach.
  destruct (flashmap_isboundary fm640 dest) eqn:Eb; [| intuition discriminate].
  unfold flashmap_iserased. rewrite Eb, fm640_size. cbn [negb].
  set (n := (Z.to_nat ((0x800000 - dest) / FLASHMAP_CHUNK_SIZE) + 1)%nat).
  destruct (iserased_loop_spec n dest c) as (b & -> & Hb); [auto | lia | auto | |].
  { unfold n, sec_end, FLASHMAP_CHUNK_SIZE. zcase; Z.div_mod_to_equations; lia. }
  destruct b.
  - split; [done |]. split; [intros _; now apply Hb | done].
  - destruct (EON_EraseSector_ok c dest) as (c' & -> & Hr' & Hm'); [auto | lia |]. cbn [snd].
    pose proof (sector_range dest ltac:(lia)) as [Hend Hbase].
    assert (nor_sec_base (C := C) dest = dest) as Hbd.
    { apply boundary_spec in Eb; [| lia]. destruct Eb as (_ & _ & E64).
      rewrite nor640_base, nor640_len by lia. zcase; [| specialize (E64 ltac:(lia))]; lia. }
    split; [done |]. split.
    + intros _ x Hx. unfold sec_end in *. rewrite Hm', fill_in; [done |..]; [lia |].
      zcase_in Hx; Z.div_mod_to_equations; lia.
    + intros x Hx [Hn | [=]]. rewrite Hm', fill_out by lia. done.
Qed.

Lemma flash_write_chunk_ok c src dest len :
  nor_ready c -> 0 <= dest -> dest mod 0x2000 = 0 -> 0 < len <= 0x2000 ->
  dest + len <= 0x7f0000 -> (forall i, 0 <= i < len -> 0 <= src i < 0x100) ->
  exists c', snd (flash_write_chunk fm640 src dest len c) = c' /\ nor_ready c' /\
    (forall x, 0 <= x < 0x800000 -> ~ (dest <= x < reach dest) -> nor_mem c' x = nor_mem c x) /\
    (flashmap_isboundary fm640 dest = true ->
     forall x, dest + len <= x < reach dest -> nor_mem c' x = 0xff) /\
    (flashmap_isboundary fm640 dest = true \/
       (forall x, dest <= x < dest + 0x2000 -> nor_mem c x = 0xff) ->
     fst (flash_write_chunk fm640 src dest len c) = 0 /\
     (forall x, dest <= x < dest + 2 * (len / 2) -> nor_mem c' x = src (x - dest)) /\
     (forall x, dest + 2 * (len / 2) <= x < dest + 0x2000 -> nor_mem c' x = 0xff)).
Proof.
  intros Hr Hd Hm Hl Hdl Hsrc.
  destruct (prepared_ok c dest) as (Hr1 & Hff & Hfr); [auto | lia | auto |].
  pose proof (reach_bounds dest ltac:(lia) Hm) as Hreach.
  unfold flash_write_chunk. rewrite fm640_size, u32_id by lia.
  change (0x800000 - FLASHMAP_BOOT_SIZE) with 0x7f0000.
  destruct (Z.ltb_spec 0x7f0000 (dest + len)); [lia |]. fold (prepared dest c).
  unfold EON_ProgramRange, EON_VerifyRange.
  assert (Hw : 2 * Z.of_nat (Z.to_nat (len / 2)) = 2 * (len / 2))
    by (rewrite Z2Nat.id; [done | apply Z.div_pos; lia]).
  assert (2 * (len / 2) <= len) by (Z.div_mod_to_equations; lia).
  destruct (program_words_ok src (Z.to_nat (len / 2)) 0 dest (prepared dest c))
    as (c2 & -> & Hr2 & Hf2 & Hv2); rewrite ?Hw in *; [auto | lia | lia | |].
  { intros i Hi. apply Hsrc. lia. }
  cbn [Z.ltb Z.compare].
  assert (Hver : exists r, verify_words src 0 dest (Z.to_nat (len / 2)) c2 = (r, c2))
    by (apply verify_words_frame; [auto | lia | lia]).
  destruct Hver as [r Er]. rewrite Er. exists c2.
  split; [now destruct (r <? 0) |]. split; [done |]. split; [| split].
  - intros x Hx Hn. rewrite Hf2, Hfr by (auto; lia). done.
  - intros Eb x Hx. rewrite Hf2 by lia. apply Hff; [done | lia].
  - intros Hor.
    assert (Hpre : forall x, dest <= x < dest + 0x2000 -> nor_mem (prepared dest c) x = 0xff).
    { intros x Hx. destruct (flashmap_isboundary fm640 dest) eqn:Eb.
      - apply Hff; [done | lia].
      - rewrite Hfr by (auto; lia). destruct Hor as [[=] | Hor]. apply Hor. lia. }
    assert (Hv : forall x, dest <= x < dest + 2 * (len / 2) -> nor_mem c2 x = src (0 + (x - dest)))
      by (apply Hv2; intros x Hx; apply Hpre; lia).
    rewrite (verify_words_ok src _ 0 dest c2) in Er; rewrite ?Hw; [| auto | lia | lia | exact Hv].
    injection Er as <-. split; [done |]. split.
    + intros x Hx. rewrite Hv by done. f_equal.
    + intros x Hx. rewrite Hf2 by lia. apply Hpre. lia.
Qed.
End Chip.
