(* ===== verification/BiffNorFile.v ===== *)
(** /dev/biffkernel as a file: the chunk permutation, an invariant of a
    sequential write session, and the round trip from the bytes written to the
    bytes read back. *)
From Stdlib Require Import ZArith Lia.
From stdpp Require Import base list numbers.
From S2P Require Import Prelude En29lv640 NorChip BiffNor BiffNorSpec.

(** ** The chunk permutation *)

Lemma ChunkToSector_eq k : 0 <= k < 1016 ->
  EON_ChunkToSector fm640 k = if k <? 1013 then k + 3 else k - 1013.
Proof.
  intros Hk. unfold EON_ChunkToSector. change (FLASHMAP_CHUNK_COUNT fm640) with 1016.
  rewrite !u32_id by lia. change (1016 - 3) with 1013. zcase; [done |].
  rewrite s32_id by lia. lia.
Qed.

(** The chunk permutation is a bijection between the file's 1016 chunks and
    the 1016 flash blocks below the boot sector, so no two parts of the kernel
    image share a block and no block is wasted. *)
Theorem ChunkToSector_bijective b :
  0 <= b < FLASHMAP_CHUNK_COUNT fm640 ->
  exists k, 0 <= k < FLASHMAP_CHUNK_COUNT fm640 /\ EON_ChunkToSector fm640 k = b /\
    forall j, 0 <= j < FLASHMAP_CHUNK_COUNT fm640 -> EON_ChunkToSector fm640 j = b -> j = k.
Proof.
  change (FLASHMAP_CHUNK_COUNT fm640) with 1016. intros Hb.
  exists (if b <? 3 then b + 1013 else b - 3). split; [zcase; lia |]. split.
  - rewrite ChunkToSector_eq; repeat zcase; lia.
  - intros j Hj. rewrite ChunkToSector_eq by done. repeat zcase; lia.
Qed.

Lemma ChunkToSector_bijective_witness :
  exists k, 0 <= k < FLASHMAP_CHUNK_COUNT fm640 /\ EON_ChunkToSector fm640 k = 2 /\
    forall j, 0 <= j < FLASHMAP_CHUNK_COUNT fm640 -> EON_ChunkToSector fm640 j = 2 -> j = k.
Proof. apply (ChunkToSector_bijective 2). vm_compute. split; congruence. Defined.

(** Flash address of a chunk and of a file position. *)
Definition chunk_addr (k : Z) : Z := EON_ChunkToSector fm640 k * 0x2000.

Definition pos_addr (p : Z) : Z := chunk_addr (p / 0x2000) + p mod 0x2000.

Lemma chunk_addr_eq k : 0 <= k < 1016 ->
  chunk_addr k = (if k <? 1013 then k + 3 else k - 1013) * 0x2000.
Proof. intros Hk. unfold chunk_addr. now rewrite ChunkToSector_eq. Qed.

Lemma chunk_addr_range k : 0 <= k < 1016 ->
  0 <= chunk_addr k /\ chunk_addr k + 0x2000 <= 0x7f0000 /\ chunk_addr k mod 0x2000 = 0.
Proof. intros Hk. rewrite chunk_addr_eq by done. rewrite Z.mod_mul by lia. zcase; lia. Qed.

Lemma pos_addr_in k i : 0 <= i < 0x2000 -> pos_addr (k * 0x2000 + i) = chunk_addr k + i.
Proof.
  intros Hi. unfold pos_addr. rewrite Z.div_add_l, Z.div_small, Z.add_0_r by lia.
  now rewrite (Z.add_comm (k * 0x2000)), Z.mod_add, Z.mod_small by lia.
Qed.

Lemma boundary_chunk k : 0 <= k < 1016 ->
  flashmap_isboundary fm640 (chunk_addr k) = (k <? 5) || (1012 <? k) || ((k + 3) mod 8 =? 0).
Proof.
  intros Hk. pose proof (chunk_addr_range k Hk) as (H1 & H2 & H3).
  pose proof (boundary_spec (chunk_addr k) H1) as Hb.
  destruct (flashmap_isboundary fm640 (chunk_addr k)); symmetry.
  - destruct (proj1 Hb eq_refl) as (_ & _ & E). rewrite chunk_addr_eq in E by done.
    repeat zcase; zcase_in E; try done; try lia.
    specialize (E ltac:(lia)). Z.div_mod_to_equations. lia.
  - destruct (_ || _) eqn:Eo; [exfalso | done]. enough (false = true) by done.
    apply Hb. split; [lia |]. split; [done |]. rewrite chunk_addr_eq by done.
    repeat zcase_in Eo; try discriminate; zcase; intros; try lia.
    Z.div_mod_to_equations. lia.
Qed.

(** How far the erasure for chunk [k] reaches: one block for the small sectors
    and for the middle of a large one, the whole sector at its start. *)
Lemma reach_chunk k : 0 <= k < 1016 ->
  reach (chunk_addr k) =
    chunk_addr k + (if (5 <=? k) && (k <? 1013) && ((k + 3) mod 8 =? 0) then 0x10000 else 0x2000).
Proof.
  intros Hk. unfold reach. rewrite boundary_chunk by done. unfold sec_end.
  rewrite chunk_addr_eq by done. repeat zcase; try lia; Z.div_mod_to_equations; lia.
Qed.

(** ** Images *)

(** Byte [p] of an image. *)
Definition im (l : list Z) (p : Z) : Z := nth (Z.to_nat p) l 0.

Definition zlen (l : list Z) : Z := Z.of_nat (length l).

Definition byte_list (l : list Z) : Prop := Forall (fun v => 0 <= v < 0x100) l.

Ltac solve_byte_list :=
  unfold byte_list; cbn [concat app];
  repeat (apply Forall_cons_2; [lia |]); apply Forall_nil_2.

Lemma im_app_l l x p : 0 <= p < zlen l -> im (l ++ x) p = im l p.
Proof. intros Hp. unfold im, zlen in *. apply app_nth1. lia. Qed.

Lemma im_app_r l x p : zlen l <= p -> im (l ++ x) p = im x (p - zlen l).
Proof.
  intros Hp. unfold im, zlen in *. rewrite app_nth2 by lia. f_equal. lia.
Qed.

Lemma im_range l p : byte_list l -> 0 <= p < zlen l -> 0 <= im l p < 0x100.
Proof.
  intros Hl Hp. unfold byte_list in Hl. rewrite List.Forall_forall in Hl.
  apply Hl, nth_In. unfold zlen in Hp. lia.
Qed.

Lemma zlen_app l x : zlen (l ++ x) = zlen l + zlen x.
Proof. unfold zlen. rewrite length_app. lia. Qed.

Section File.
Context {C : Type} {BusC : NorBus C} {ChipC : NorChip C} {PartC : Nor640 C}.

(** ** The chip during a sequential write *)

(** The first [K] chunks hold the image; in a large sector that the session
    has already started, the blocks still to come are erased; the boot sector
    is what it was. *)
Record chip_inv (boot : mem) (img : Z -> Z) (K : Z) (c : C) : Prop := {
  ci_ready : nor_ready c;
  ci_done : forall p, 0 <= p < K * 0x2000 -> nor_mem c (pos_addr p) = img p;
  ci_clean : forall b x, 8 <= b < 1016 -> b - b mod 8 - 3 < K <= b - 3 ->
    b * 0x2000 <= x < (b + 1) * 0x2000 -> nor_mem c x = 0xff;
  ci_boot : forall x, 0x7f0000 <= x < 0x800000 -> nor_mem c x = boot x
}.

(** Earlier chunks lie outside what a chunk write can erase. *)
Lemma earlier_chunk_safe K p : 0 <= K < 1016 -> 0 <= p < K * 0x2000 ->
  0 <= pos_addr p < 0x7f0000 /\ ~ (chunk_addr K <= pos_addr p < reach (chunk_addr K)).
Proof.
  intros HK Hp. rewrite reach_chunk by done. unfold pos_addr.
  assert (0 <= p / 0x2000 < K) by (Z.div_mod_to_equations; lia).
  pose proof (Z.mod_pos_bound p 0x2000 ltac:(lia)).
  rewrite !chunk_addr_eq by lia. repeat zcase; lia.
Qed.

(** A block that is clean before chunk [K] is written and stays pending. *)
Lemma pending_block_safe K b x : 0 <= K < 1016 -> 8 <= b < 1016 -> b - b mod 8 - 3 < K ->
  K + 1 <= b - 3 -> b * 0x2000 <= x < (b + 1) * 0x2000 ->
  ~ (chunk_addr K <= x < reach (chunk_addr K)).
Proof.
  intros HK Hb H1 H2 Hx. rewrite reach_chunk by done.
  rewrite chunk_addr_eq by lia. repeat zcase; try lia.
  exfalso. assert ((K + 3) mod 8 = 0) as E by done. clear - E H1 H2.
  Z.div_mod_to_equations. lia.
Qed.

(** Writing chunk [K], whole or partial, in session order. *)
Lemma write_chunk_step boot img K src len c :
  0 <= K < 1016 -> 0 < len <= 0x2000 ->
  (forall i, 0 <= i < len -> src i = img (K * 0x2000 + i)) ->
  (forall i, 0 <= i < len -> 0 <= src i < 0x100) ->
  chip_inv boot img K c ->
  let r := flash_write_chunk fm640 src (chunk_addr K) len c in
  fst r = 0 /\ nor_ready (snd r) /\
  (forall p, 0 <= p < K * 0x2000 + 2 * (len / 2) -> nor_mem (snd r) (pos_addr p) = img p) /\
  (Z.Odd len -> nor_mem (snd r) (pos_addr (K * 0x2000 + len - 1)) = 0xff) /\
  (forall x, 0x7f0000 <= x < 0x800000 -> nor_mem (snd r) x = boot x) /\
  (len = 0x2000 -> chip_inv boot img (K + 1) (snd r)).
Proof.
  intros HK Hlen Hsrc Hby [Hr Hdone Hclean Hboot] r.
  pose proof (chunk_addr_range K HK) as (A1 & A2 & A3).
  pose proof (reach_bounds (chunk_addr K) ltac:(lia) A3) as Hre.
  destruct (flash_write_chunk_ok c src (chunk_addr K) len) as (c' & Ec & Hr' & Hfr & Hff & Hval);
    [auto | lia | auto | lia | lia | auto |]. fold r in Ec, Hval. rewrite Ec.
  assert (Hpre : flashmap_isboundary fm640 (chunk_addr K) = true \/
    forall x, chunk_addr K <= x < chunk_addr K + 0x2000 -> nor_mem c x = 0xff).
  { rewrite boundary_chunk by done.
    destruct ((K <? 5) || (1012 <? K) || ((K + 3) mod 8 =? 0)) eqn:Eb; [now left | right].
    intros x Hx. repeat zcase_in Eb; try discriminate.
    rewrite chunk_addr_eq in Hx by done. zcase_in Hx; [| lia].
    apply (Hclean (K + 3)); [lia | Z.div_mod_to_equations; lia | lia]. }
  destruct (Hval Hpre) as (Hret & Hv & Hodd). clear Hval.
  assert (Hd : forall p, 0 <= p < K * 0x2000 + 2 * (len / 2) -> nor_mem c' (pos_addr p) = img p).
  { intros p Hp. destruct (Z.lt_ge_cases p (K * 0x2000)) as [Hlt | Hge].
    - destruct (earlier_chunk_safe K p HK ltac:(lia)).
      rewrite Hfr by lia. now apply Hdone.
    - assert (2 * (len / 2) <= len) by (Z.div_mod_to_equations; lia).
      replace p with (K * 0x2000 + (p - K * 0x2000)) by lia. rewrite pos_addr_in by lia.
      rewrite Hv by lia. rewrite Hsrc by lia. f_equal. lia. }
  assert (Hb : forall x, 0x7f0000 <= x < 0x800000 -> nor_mem c' x = boot x)
    by (intros x Hx; rewrite Hfr by lia; now apply Hboot).
  split; [done |]. split; [done |]. split; [done |]. split.
  { intros [h Eh]. replace (K * 0x2000 + len - 1) with (K * 0x2000 + (len - 1)) by lia.
    rewrite pos_addr_in by lia. apply Hodd. subst len. Z.div_mod_to_equations. lia. }
  split; [done |]. intros ->.
  split; [done | | | done].
  - intros p Hp. apply Hd. change (2 * (0x2000 / 2)) with 0x2000. lia.
  - intros b x Hb8 Hbk Hx. destruct (Z.eq_dec (b - b mod 8 - 3) K) as [E | E].
    + rewrite boundary_chunk, reach_chunk, chunk_addr_eq in Hff by done.
      assert ((K + 3) mod 8 = 0) by (rewrite <- E; Z.div_mod_to_equations; lia).
      apply Hff; repeat zcase; try done; try lia; Z.div_mod_to_equations; lia.
    + rewrite Hfr; [apply (Hclean b); lia | lia |]. apply (pending_block_safe K b); lia.
Qed.

(** ** A sequential write session *)

(** After the bytes [l] have been written in order since [open]: the file
    position counts them, whole chunks are in the flash and the rest is in the
    write buffer. *)
Record session (boot : mem) (l : list Z) (priv : kernel_fp_private) (c : C) : Prop := {
  se_bytes : byte_list l;
  se_fits : zlen l <= 0x7f0000;
  se_pos : filepos priv = zlen l;
  se_wpos : write_buffer_pos priv = zlen l mod 0x2000;
  se_buf : forall i, 0 <= i < zlen l mod 0x2000 ->
    write_buffer priv i = im l (zlen l / 0x2000 * 0x2000 + i);
  se_chip : chip_inv boot (im l) (zlen l / 0x2000) c
}.

Lemma chip_inv_ext boot f g K c :
  (forall p, 0 <= p < K * 0x2000 -> f p = g p) -> chip_inv boot f K c -> chip_inv boot g K c.
Proof.
  intros E [Hr Hd Hc Hb]. split; auto. intros p Hp. rewrite <- E by done. now apply Hd.
Qed.

(** One buffered copy: the bytes [x] fit in what is left of the chunk. *)
Definition copied (priv : kernel_fp_private) (x : list Z) : kernel_fp_private :=
  mkKernelFp (u32 (filepos priv + zlen x)) (read_buffer priv)
    (store_bytes (write_buffer priv) (write_buffer_pos priv) x) (write_buffer_pos priv + zlen x).

(** Where [buffer_write] puts the buffer of a session. *)
Lemma buffer_write_at priv K c :
  0 <= K < 1016 -> K * 0x2000 < filepos priv <= (K + 1) * 0x2000 ->
  buffer_write fm640 priv c =
    (write_buffer_reset priv,
     snd (flash_write_chunk fm640 (write_buffer priv) (chunk_addr K) (write_buffer_pos priv) c)).
Proof.
  intros HK Hp. unfold buffer_write, bind, ret. change FLASHMAP_CHUNK_SIZE with 0x2000.
  pose proof (chunk_addr_range K HK).
  replace (if filepos priv mod 0x2000 =? 0 then u32 (filepos priv / 0x2000 - 1)
           else filepos priv / 0x2000) with K.
  - change (EON_ChunkToSector fm640 K * 0x2000) with (chunk_addr K). rewrite u32_id by lia.
    now destruct (flash_write_chunk _ _ _ _ _).
  - zcase; [rewrite u32_id |]; Z.div_mod_to_equations; lia.
Qed.

Lemma session_copy boot l priv c x :
  session boot l priv c -> byte_list x -> 0 < zlen x <= 0x2000 - write_buffer_pos priv ->
  zlen l + zlen x <= 0x7f0000 ->
  let r := (if is_write_buffer_full (copied priv x) then buffer_write fm640 (copied priv x)
            else ret (copied priv x)) c in
  session boot (l ++ x) (fst r) (snd r).
Proof.
  intros [Hby Hfit Hpos Hw Hbuf Hchip] Hx Hlx Hroom. cbv zeta. unfold is_write_buffer_full.
  assert (Hl0 : 0 <= zlen l) by (unfold zlen; lia).
  set (K := zlen l / 0x2000) in *. rewrite Hw in Hlx.
  assert (HK : zlen l = K * 0x2000 + zlen l mod 0x2000)
    by (unfold K; Z.div_mod_to_equations; lia).
  pose proof (Z.mod_pos_bound (zlen l) 0x2000 ltac:(lia)) as Hm.
  assert (Hlx' : byte_list (l ++ x)) by now apply Forall_app.
  assert (Hci : chip_inv boot (im (l ++ x)) K c).
  { apply (chip_inv_ext _ (im l)); [| done]. intros p Hp. symmetry. apply im_app_l. lia. }
  assert (Hb' : forall i, 0 <= i < zlen l mod 0x2000 + zlen x ->
     write_buffer (copied priv x) i = im (l ++ x) (K * 0x2000 + i)).
  { intros i Hi. cbn. destruct (Z.lt_ge_cases i (zlen l mod 0x2000)).
    - rewrite store_bytes_out, Hbuf, im_app_l by lia. done.
    - unfold zlen in *. rewrite store_bytes_in by lia. rewrite im_app_r by (unfold zlen; lia).
      unfold im, zlen. f_equal. lia. }
  assert (Hpos' : filepos (copied priv x) = zlen l + zlen x).
  { cbn. rewrite Hpos, u32_id; lia. }
  assert (Hw' : write_buffer_pos (copied priv x) = zlen l mod 0x2000 + zlen x).
  { cbn. now rewrite Hw. }
  rewrite Hw'. change FLASHMAP_CHUNK_SIZE with 0x2000.
  destruct (Z.eqb_spec (zlen l mod 0x2000 + zlen x) 0x2000) as [E | E].
  - assert (H0 : (zlen l + zlen x) mod 0x2000 = 0)
      by (replace (zlen l + zlen x) with ((K + 1) * 0x2000) by lia; apply Z.mod_mul; lia).
    assert (Hq : (zlen l + zlen x) / 0x2000 = K + 1)
      by (replace (zlen l + zlen x) with ((K + 1) * 0x2000) by lia; apply Z.div_mul; lia).
    rewrite (buffer_write_at _ K) by lia. cbn [fst snd]. rewrite Hw', E.
    destruct (write_chunk_step boot (im (l ++ x)) K (write_buffer (copied priv x)) 0x2000 c)
      as (_ & _ & _ & _ & _ & Hnext); [lia | lia | intros; apply Hb'; lia | | done |].
    { intros i Hi. rewrite Hb' by lia. apply im_range; [done | rewrite zlen_app; lia]. }
    split; rewrite ?zlen_app, ?H0, ?Hq; auto; lia.
  - assert (H0 : (zlen l + zlen x) mod 0x2000 = zlen l mod 0x2000 + zlen x)
      by (rewrite HK at 1; rewrite <- Z.add_assoc, Z.add_comm, Z.mod_add, Z.mod_small; lia).
    assert (Hq : (zlen l + zlen x) / 0x2000 = K)
      by (rewrite HK; rewrite <- Z.add_assoc, Z.div_add_l, Z.div_small; lia).
    cbn [ret fst snd]. split; rewrite ?zlen_app, ?H0, ?Hq; auto.
Qed.

(** What [kernel_write_loop] returns with [room] bytes of file left. *)
Definition write_count (count remaining room : Z) : Z :=
  if (0 <? remaining) && (room =? 0) && (count =? remaining) then - ENOSPC
  else count - remaining + Z.min remaining room.

Lemma kernel_write_loop_ok boot : forall fuel count ubuf l priv c,
  (length ubuf <= fuel)%nat -> session boot l priv c -> byte_list ubuf ->
  zlen ubuf <= count ->
  let room := 0x7f0000 - zlen l in
  let r := kernel_write_loop fm640 fuel count ubuf priv c in
  fst (fst r) = write_count count (zlen ubuf) room /\
  session boot (l ++ take (Z.to_nat room) ubuf) (snd (fst r)) (snd r).
Proof.
  induction fuel as [| fuel IH]; intros count ubuf l priv c Hf Hs Hu Hc room; cbv zeta;
    pose proof (se_fits _ _ _ _ Hs) as Hfit; pose proof (se_pos _ _ _ _ Hs) as Hpos;
    fold room; unfold write_count; (assert (0 <= room) by (unfold room; lia)).
  - destruct ubuf; [| cbn in Hf; lia]. change (zlen []) with 0. cbn. rewrite take_nil, app_nil_r. split; [lia | done].
  - cbn [kernel_write_loop]. fold (zlen ubuf). change (FLASHMAP_KERNEL_SIZE fm640) with 0x7f0000.
    destruct (Z.eqb_spec (zlen ubuf) 0) as [E | E].
    { destruct ubuf; [| done]. change (zlen []) with 0 in *. cbn. rewrite take_nil, app_nil_r. split; [lia | done]. }
    assert (Hlen : 0 < zlen ubuf) by (unfold zlen in *; lia).
    destruct (Z.leb_spec 0x7f0000 (filepos priv)).
    { replace room with 0 by lia. cbn [Z.to_nat take]. rewrite app_nil_r.
      destruct (Z.eqb_spec count (zlen ubuf)); cbn; repeat zcase; try lia; (split; [lia | done]). }
    pose proof (se_wpos _ _ _ _ Hs) as Hw. rewrite Hpos in *.
    pose proof (Z.mod_pos_bound (zlen l) 0x2000 ltac:(lia)) as Hm.
    change FLASHMAP_CHUNK_SIZE with 0x2000.
    set (n := Z.min (0x2000 - write_buffer_pos priv) (zlen ubuf)).
    assert (Hn : 0 < n <= room).
    { unfold n, room. rewrite Hw. Z.div_mod_to_equations. lia. }
    assert (Hx : zlen (take (Z.to_nat n) ubuf) = n).
    { unfold zlen. rewrite length_take. unfold n, zlen in *. lia. }
    pose proof (session_copy boot l priv c (take (Z.to_nat n) ubuf) Hs) as Hstep.
    unfold copied in Hstep. rewrite Hx, Hpos in Hstep.
    specialize (Hstep ltac:(now apply Forall_take) ltac:(lia) ltac:(lia)). cbv zeta in Hstep.
    unfold bind.
    match type of Hstep with session _ _ (fst ?r0) _ => set (r := r0) in Hstep |- * end.
    assert (Hdl : length (drop (Z.to_nat n) ubuf) = (length ubuf - Z.to_nat n)%nat)
      by apply length_drop.
    destruct (IH count (drop (Z.to_nat n) ubuf) _ _ _ ltac:(lia) Hstep) as [IH1 IH2];
      [now apply Forall_drop | unfold zlen in *; lia |].
    rewrite zlen_app, Hx in IH1, IH2. split.
    + rewrite IH1. unfold write_count, zlen in *. rewrite Hdl. repeat zcase; lia.
    + rewrite <- app_assoc in IH2.
      replace (Z.to_nat room) with (Z.to_nat n + Z.to_nat (0x7f0000 - (zlen l + n)))%nat by lia.
      now rewrite <- take_take_drop.
Qed.

Lemma kernel_write_ok boot ubuf l priv c :
  session boot l priv c -> byte_list ubuf ->
  let room := 0x7f0000 - zlen l in
  let r := biffkernel_write fm640 priv ubuf c in
  fst (fst r) = (if (0 <? zlen ubuf) && (room =? 0) then - ENOSPC else Z.min (zlen ubuf) room) /\
  session boot (l ++ take (Z.to_nat room) ubuf) (snd (fst r)) (snd r).
Proof.
  intros Hs Hu. cbv zeta. unfold biffkernel_write. fold (zlen ubuf).
  destruct (kernel_write_loop_ok boot (length ubuf) (zlen ubuf) ubuf l priv c) as [H1 H2];
    [lia | done | done | lia |].
  split; [| done]. rewrite H1. unfold write_count. rewrite Z.eqb_refl, andb_true_r, Z.sub_diag. done.
Qed.

Lemma session_open c :
  nor_ready c ->
  session (nor_mem c) [] (write_buffer_reset (mkKernelFp 0 (fun _ => 0) (fun _ => 0) 0)) c.
Proof.
  intros Hr. split; [apply Forall_nil_2 | | | | |];
    change (zlen []) with 0; rewrite ?Zmod_0_l, ?Zdiv_0_l; cbn; try lia; try done.
  split; [done | cbn; lia | | done]. intros b x Hb. cbn. Z.div_mod_to_equations. lia.
Qed.

(** [close]: everything but an odd last byte is in the flash. *)
Lemma release_ok boot l priv c :
  session boot l priv c ->
  let r := biffkernel_release fm640 priv c in
  fst r = 0 /\ nor_ready (snd r) /\
  (forall p, 0 <= p < 2 * (zlen l / 2) -> nor_mem (snd r) (pos_addr p) = im l p) /\
  (Z.Odd (zlen l) -> nor_mem (snd r) (pos_addr (zlen l - 1)) = 0xff) /\
  (forall x, 0x7f0000 <= x < 0x800000 -> nor_mem (snd r) x = boot x).
Proof.
  intros [Hby Hfit Hpos Hw Hbuf Hchip]. cbv zeta. unfold biffkernel_release. rewrite Hw.
  pose proof (Z.mod_pos_bound (zlen l) 0x2000 ltac:(lia)) as Hm.
  assert (Hl0 : 0 <= zlen l) by (unfold zlen; lia).
  set (K := zlen l / 0x2000) in *.
  assert (HK : zlen l = K * 0x2000 + zlen l mod 0x2000)
    by (unfold K; Z.div_mod_to_equations; lia).
  destruct (Z.eqb_spec (zlen l mod 0x2000) 0) as [E | E]; cbn [negb].
  - destruct Hchip as [Hr Hd Hc Hb]. split; [done |]. split; [exact Hr |]. split; [| split].
    + intros p Hp. apply Hd. Z.div_mod_to_equations. lia.
    + intros [h Eh]. lia.
    + exact Hb.
  - unfold bind, ret. rewrite (buffer_write_at _ K) by lia. cbn [fst snd]. rewrite Hw.
    destruct (write_chunk_step boot (im l) K (write_buffer priv) (zlen l mod 0x2000) c)
      as (_ & H1 & H2 & H2' & H3 & _); [lia | lia | auto | | done |].
    { intros i Hi. rewrite Hbuf by lia. apply im_range; [done | lia]. }
    split; [done |]. split; [done |]. split; [| split; [| done]].
    + intros p Hp. apply H2. Z.div_mod_to_equations. lia.
    + intros [h Eh]. replace (zlen l - 1) with (K * 0x2000 + zlen l mod 0x2000 - 1) by lia.
      apply H2'. exists (h - K * 0x1000). lia.
Qed.

(** ** Reading the file *)

(** The file's contents, by position. *)
Definition file_byte (c : C) (p : Z) : Z := nor_mem c (pos_addr p).

Lemma read_words_ok n : forall src buf off c,
  nor_ready c -> 0 <= src -> src + 4 * Z.of_nat n <= 0x800000 ->
  exists buf', read_words src buf off n c = (buf', c) /\
    (forall x, off <= x < off + 4 * Z.of_nat n -> buf' x = nor_mem c (src + (x - off))) /\
    (forall x, ~ (off <= x < off + 4 * Z.of_nat n) -> buf' x = buf x).
Proof.
  induction n as [| n IH]; intros src buf off c Hr H1 H2; cbn [read_words].
  - exists buf. split; [done |]. split; [lia | done].
  - assert (Hs4 : forall i, 0 <= i < 4 -> 0 <= nor_mem c (src + i) < 0x100)
      by (intros i Hi; apply nor_bytes; [done | rewrite size640; lia]).
    erewrite bind_eq; [| apply nor_read32; [auto | lia | rewrite size640; lia]].
    destruct (IH (src + 4) (store32 buf off (load32 (nor_mem c) src)) (off + 4) c)
      as (b & -> & Hin & Hout); [done | lia | lia |].
    exists b. split; [done |].
    split; intros x Hx; (destruct (Z.lt_ge_cases x (off + 4));
      [rewrite Hout, store32_load32 by (auto; lia); repeat zcase; try lia; f_equal; lia |]).
    + rewrite Hin by lia. f_equal. lia.
    + rewrite Hout, store32_load32 by (auto; lia). repeat zcase; lia.
Qed.

Lemma buffer_read_ok priv c :
  nor_ready c -> 0 <= filepos priv < 0x7f0000 ->
  exists buf, buffer_read fm640 priv c =
      (mkKernelFp (filepos priv) buf (write_buffer priv) (write_buffer_pos priv), c) /\
    forall i, 0 <= i < 0x2000 -> buf i = nor_mem c (chunk_addr (filepos priv / 0x2000) + i).
Proof.
  intros Hr Hp. unfold buffer_read. change FLASHMAP_CHUNK_SIZE with 0x2000.
  fold (chunk_addr (filepos priv / 0x2000)).
  pose proof (chunk_addr_range (filepos priv / 0x2000) ltac:(Z.div_mod_to_equations; lia)).
  unfold EON_ReadRange. set (n := Z.to_nat (0x2000 / 4)).
  assert (Hn : 4 * Z.of_nat n = 0x2000) by reflexivity.
  destruct (read_words_ok n (chunk_addr (filepos priv / 0x2000)) (read_buffer priv) 0 c)
    as (b & Eb & Hb & _); [done | lia | lia |].
  exists b. erewrite bind_eq by apply Eb. split; [done |].
  intros i Hi. rewrite Hb by lia. f_equal. lia.
Qed.

Lemma kernel_read_loop_ok : forall fuel n out priv c,
  nor_ready c -> 0 <= n <= Z.of_nat fuel -> 0 <= filepos priv <= 0x7f0000 ->
  let got := Z.min n (0x7f0000 - filepos priv) in
  exists priv', kernel_read_loop fm640 fuel n out priv c =
      (out ++ load_bytes (file_byte c) (filepos priv) got, priv', c) /\
    filepos priv' = filepos priv + got /\ write_buffer priv' = write_buffer priv /\
    write_buffer_pos priv' = write_buffer_pos priv.
Proof.
  induction fuel as [| fuel IH]; intros n out priv c Hr Hn Hp got; cbn [kernel_read_loop].
  { exists priv. unfold got. replace n with 0 by lia. rewrite Z.min_l by lia. cbn.
    rewrite app_nil_r. repeat split; lia. }
  change (FLASHMAP_KERNEL_SIZE fm640) with 0x7f0000.
  destruct (Z.eqb_spec n 0) as [-> |].
  { exists priv. unfold got. rewrite Z.min_l by lia. cbn. rewrite app_nil_r. repeat split; lia. }
  destruct (Z.leb_spec 0x7f0000 (filepos priv)).
  { exists priv. unfold got. rewrite Z.min_r by lia. replace (0x7f0000 - filepos priv) with 0 by lia.
    cbn. rewrite app_nil_r. repeat split; lia. }
  change 0x1fff with (Z.ones 13). rewrite land_lomask by lia. change (2 ^ 13) with 0x2000.
  destruct (buffer_read_ok priv c Hr ltac:(lia)) as (buf & Eb & Hbuf).
  erewrite bind_eq by apply Eb. cbn [filepos read_buffer write_buffer write_buffer_pos].
  change FLASHMAP_CHUNK_SIZE with 0x2000.
  pose proof (Z.mod_pos_bound (filepos priv) 0x2000 ltac:(lia)) as Hm.
  set (k := Z.min (0x2000 - filepos priv mod 0x2000) n).
  assert (Hk : filepos priv + k <= 0x7f0000) by (unfold k; Z.div_mod_to_equations; lia).
  rewrite u32_id by lia.
  edestruct (IH (n - k)) as (priv' & E & E1 & E2 & E3);
    [exact Hr | lia | | rewrite E; exists priv']; cbn [filepos write_buffer write_buffer_pos] in *;
    [lia |].
  rewrite E1, E2, E3. split; [| repeat split; lia]. f_equal. f_equal.
  rewrite <- app_assoc. f_equal.
  replace got with (k + Z.min (n - k) (0x7f0000 - (filepos priv + k))) by lia.
  rewrite load_bytes_app by lia. f_equal. apply load_bytes_ext. intros i Hi.
  rewrite Hbuf by lia. unfold file_byte.
  replace (filepos priv + i)
    with (filepos priv / 0x2000 * 0x2000 + (filepos priv mod 0x2000 + i))
    by (Z.div_mod_to_equations; lia).
  now rewrite pos_addr_in by lia.
Qed.

(** ** Whole sessions *)

(** Any sequence of [write] calls on one open file. *)
Fixpoint write_all (priv : kernel_fp_private) (parts : list (list Z))
  : ST C (list Z * kernel_fp_private) :=
  match parts with
  | [] => ret ([], priv)
  | part :: parts' =>
      let! w := biffkernel_write fm640 priv part in
      let! ws := write_all (snd w) parts' in
      ret (fst w :: fst ws, snd ws)
  end.

(** [open]; any number of [write]s; [close].  The counts the writes returned,
    and the result of the close. *)
Definition store_file (parts : list (list Z)) (c : C) : list Z * Z * C :=
  match snd (biffkernel_open true) with
  | None => ([], 0, c)
  | Some priv =>
      let '((ns, priv), c) := write_all priv parts c in
      let '(r, c) := biffkernel_release fm640 priv c in
      (ns, r, c)
  end.

(** [open]; one [read] of [n] bytes. *)
Definition read_file (n : Z) (c : C) : list Z :=
  match snd (biffkernel_open true) with
  | None => []
  | Some priv => fst (fst (biffkernel_read fm640 priv n c))
  end.

Lemma write_all_ok boot : forall parts l priv c,
  session boot l priv c -> byte_list (concat parts) -> zlen l + zlen (concat parts) <= 0x7f0000 ->
  let r := write_all priv parts c in
  fst (fst r) = map zlen parts /\
  session boot (l ++ concat parts) (snd (fst r)) (snd r).
Proof.
  induction parts as [| part parts IH]; intros l priv c Hs Hb Hl; cbn [write_all concat] in *.
  - cbn. now rewrite app_nil_r.
  - apply Forall_app in Hb as [Hb1 Hb2]. rewrite zlen_app in Hl.
    assert (0 <= zlen part) by (unfold zlen; lia).
    assert (0 <= zlen (concat parts)) by (unfold zlen; lia).
    destruct (kernel_write_ok boot part l priv c Hs Hb1) as [Hn Hs1]. cbv zeta in Hn, Hs1.
    rewrite take_ge in Hs1 by (unfold zlen in *; lia).
    unfold bind. destruct (biffkernel_write fm640 priv part c) as [[n p1] c1].
    cbn [fst snd] in *.
    destruct (IH _ _ _ Hs1 Hb2) as [Hns Hs2]; [rewrite zlen_app; lia |].
    destruct (write_all p1 parts c1) as [[ns p2] c2]. cbn [fst snd ret map] in *.
    rewrite app_assoc. split; [| done]. f_equal; [| done].
    rewrite Hn. repeat zcase; lia.
Qed.

(** What a write session leaves behind. *)
Lemma store_file_ok parts c :
  nor_ready c -> byte_list (concat parts) -> zlen (concat parts) <= 0x7f0000 ->
  exists c', store_file parts c = (map zlen parts, 0, c') /\ nor_ready c' /\
    (forall p, 0 <= p < 2 * (zlen (concat parts) / 2) -> file_byte c' p = im (concat parts) p) /\
    (Z.Odd (zlen (concat parts)) -> file_byte c' (zlen (concat parts) - 1) = 0xff) /\
    (forall x, 0x7f0000 <= x < 0x800000 -> nor_mem c' x = nor_mem c x).
Proof.
  intros Hr Hb Hl. unfold store_file, biffkernel_open. cbn [snd].
  destruct (write_all_ok _ parts [] _ c (session_open c Hr) Hb Hl) as [Hns Hs].
  destruct (write_all _ parts c) as [[ns p] c1]. cbn [fst snd app] in Hns, Hs.
  destruct (release_ok _ _ _ _ Hs) as (H0 & H1 & H2 & H3 & H4).
  destruct (biffkernel_release fm640 p c1) as [r c2]. cbn [fst snd] in *. subst.
  now exists c2.
Qed.

Lemma read_file_ok n c : nor_ready c -> 0 <= n <= 0x7f0000 ->
  read_file n c = load_bytes (file_byte c) 0 n.
Proof.
  intros Hr Hn. unfold read_file, biffkernel_open. cbn [snd]. unfold biffkernel_read.
  destruct (kernel_read_loop_ok (Z.to_nat n) n []
    (write_buffer_reset (mkKernelFp 0 (fun _ => 0) (fun _ => 0) 0)) c)
    as (priv' & E & _); [done | lia | cbn; lia |].
  rewrite E. cbn [fst app filepos write_buffer_reset]. f_equal. lia.
Qed.

(** C1: round trip through /dev/biffkernel.  Whatever the 8 MiB chip held
    before, writing an image of even length (at most 0x7f0000 bytes) in any
    split into [write] calls reports every byte written, a later [read] returns
    exactly the image, and the boot sector keeps its contents. *)
Theorem biffkernel_roundtrip parts c :
  nor_ready c -> byte_list (concat parts) -> Z.Even (zlen (concat parts)) ->
  zlen (concat parts) <= FLASHMAP_KERNEL_SIZE fm640 ->
  exists c', store_file parts c = (map zlen parts, 0, c') /\
    read_file (zlen (concat parts)) c' = concat parts /\
    forall x, FLASHMAP_KERNEL_SIZE fm640 <= x < FLASHMAP_SIZE fm640 -> nor_mem c' x = nor_mem c x.
Proof.
  change (FLASHMAP_KERNEL_SIZE fm640) with 0x7f0000. change (FLASHMAP_SIZE fm640) with 0x800000.
  intros Hr Hb [h Hh] Hl. destruct (store_file_ok parts c Hr Hb Hl) as (c' & E & Hr' & Hd & _ & Hx).
  exists c'. split; [done |]. split; [| done].
  rewrite read_file_ok by (auto; unfold zlen in *; lia). unfold zlen at 1.
  apply list_of_bytes. intros i Hi. rewrite Hd.
  - unfold im. f_equal. lia.
  - rewrite Hh, (Z.mul_comm 2 h), Z.div_mul by lia. unfold zlen in *. lia.
Qed.

(** An image of odd length loses its last byte: the driver programs
    [len / 2] halfwords, so the last position still reads as erased flash. *)
Theorem biffkernel_odd_tail_lost parts c :
  nor_ready c -> byte_list (concat parts) -> Z.Odd (zlen (concat parts)) ->
  zlen (concat parts) <= FLASHMAP_KERNEL_SIZE fm640 ->
  exists c', store_file parts c = (map zlen parts, 0, c') /\
    file_byte c' (zlen (concat parts) - 1) = 0xff.
Proof.
  intros Hr Hb Ho Hl. destruct (store_file_ok parts c Hr Hb Hl) as (c' & E & _ & _ & H & _).
  exists c'. auto.
Qed.
End File.

(** A chip full of zeroes, so that everything written needs an erase first. *)
Definition used_flash : flash := mkFlash (fun _ => 0) CYCLE_READ.

Lemma used_flash_ready : nor_ready used_flash.
Proof. split; [reflexivity |]. intros a. cbn. lia. Qed.

Lemma biffkernel_roundtrip_witness :
  exists c', store_file [[1; 2; 3]; []; [4; 0xff; 6]] used_flash = ([3; 0; 3], 0, c') /\
    read_file 6 c' = [1; 2; 3; 4; 0xff; 6] /\
    forall x, FLASHMAP_KERNEL_SIZE fm640 <= x < FLASHMAP_SIZE fm640 ->
      nor_mem c' x = nor_mem used_flash x.
Proof.
  apply (biffkernel_roundtrip [[1; 2; 3]; []; [4; 0xff; 6]] used_flash).
  - exact used_flash_ready.
  - solve_byte_list.
  - now exists 3.
  - vm_compute. discriminate.
Defined.

Lemma biffkernel_odd_tail_lost_witness :
  exists c', store_file [[1; 2; 3]] used_flash = ([3], 0, c') /\ file_byte c' 2 = 0xff.
Proof.
  apply (biffkernel_odd_tail_lost [[1; 2; 3]] used_flash).
  - exact used_flash_ready.
  - solve_byte_list.
  - now exists 1.
  - vm_compute. discriminate.
Defined.
