(* ===== verification/BiffNorSafe.v ===== *)
(** What no use of the flash devices can do: an arbitrary sequence of reads,
    writes, seeks and closes on /dev/biffkernel leaves the boot sector alone.
    The boot device replaces the sector with a valid image and refuses any
    other. *)
From Stdlib Require Import ZArith Lia.
From stdpp Require Import base list numbers.
From S2P Require Import Prelude En29lv640 NorChip BiffNor BiffNorSpec BiffNorFile.

(** ** Arbitrary use of /dev/biffkernel *)

(** A process's calls; [Reopen] closes the file and opens it again. *)
Inductive kernel_op : Type :=
  | Write (ubuf : list Z)
  | Read (count : Z)
  | Seek (offset : Z) (w : whence)
  | Reopen.

Section Safe.
Context {C : Type} {BusC : NorBus C} {ChipC : NorChip C} {PartC : Nor640 C}.

Definition run_op (op : kernel_op) (st : kernel_fp_private * C) : kernel_fp_private * C :=
  let '(priv, c) := st in
  match op with
  | Write ubuf => let '(_, priv, c) := biffkernel_write fm640 priv ubuf c in (priv, c)
  | Read count => let '(_, priv, c) := biffkernel_read fm640 priv count c in (priv, c)
  | Seek offset w => let '(_, priv, c) := biffkernel_seek fm640 priv offset w c in (priv, c)
  | Reopen =>
      let '(_, c) := biffkernel_release fm640 priv c in
      (default priv (snd (biffkernel_open true)), c)
  end.

Definition run_ops (ops : list kernel_op) (st : kernel_fp_private * C) : kernel_fp_private * C :=
  foldl (fun s op => run_op op s) st ops.

(** What the calls maintain.  After a seek to a position inside a chunk, a
    write can take the file position past the end of the file by less than a
    chunk. *)
Record safe (boot : mem) (st : kernel_fp_private * C) : Prop := {
  sf_ready : nor_ready (snd st);
  sf_pos : 0 <= filepos (fst st) < 0x7f2000;
  sf_wpos : 0 <= write_buffer_pos (fst st) < 0x2000;
  sf_le : write_buffer_pos (fst st) <= filepos (fst st);
  sf_buf : forall i, 0 <= i < 0x2000 -> 0 <= write_buffer (fst st) i < 0x100;
  sf_boot : forall x, 0x7f0000 <= x < 0x800000 -> nor_mem (snd st) x = boot x
}.

Definition op_ok (op : kernel_op) : Prop :=
  match op with Write ubuf => byte_list ubuf | _ => True end.

(** Every chunk number the driver can compute is a block below the boot
    sector, the one past the end included. *)
Lemma any_chunk_addr K : 0 <= K <= 1016 ->
  0 <= chunk_addr K /\ chunk_addr K + 0x2000 <= 0x7f0000 /\ chunk_addr K mod 0x2000 = 0.
Proof.
  intros HK. destruct (Z.eq_dec K 1016) as [-> |]; [now vm_compute |].
  apply chunk_addr_range. lia.
Qed.

Lemma reset_buf priv : (forall i, 0 <= i < 0x2000 -> 0 <= write_buffer priv i < 0x100) ->
  forall i, 0 <= i < 0x2000 -> 0 <= write_buffer (write_buffer_reset priv) i < 0x100.
Proof. intros H i Hi. cbn. change FLASHMAP_CHUNK_SIZE with 0x2000. rewrite fill_in; lia. Qed.

Lemma buffer_write_safe boot priv c :
  nor_ready c -> 0 < filepos priv < 0x7f2000 -> 0 < write_buffer_pos priv <= 0x2000 ->
  (forall i, 0 <= i < 0x2000 -> 0 <= write_buffer priv i < 0x100) ->
  (forall x, 0x7f0000 <= x < 0x800000 -> nor_mem c x = boot x) ->
  exists c', buffer_write fm640 priv c = (write_buffer_reset priv, c') /\ nor_ready c' /\
    forall x, 0x7f0000 <= x < 0x800000 -> nor_mem c' x = boot x.
Proof.
  intros Hr Hp Hw Hbuf Hb. unfold buffer_write, bind, ret.
  change FLASHMAP_CHUNK_SIZE with 0x2000.
  set (K := if filepos priv mod 0x2000 =? 0 then _ else _).
  assert (HK : 0 <= K <= 1016)
    by (unfold K; zcase; [rewrite u32_id |]; Z.div_mod_to_equations; lia).
  change (EON_ChunkToSector fm640 K * 0x2000) with (chunk_addr K).
  destruct (any_chunk_addr K HK) as (A1 & A2 & A3). rewrite u32_id by lia.
  pose proof (reach_bounds (chunk_addr K) ltac:(lia) A3) as Hre.
  destruct (flash_write_chunk_ok c (write_buffer priv) (chunk_addr K) (write_buffer_pos priv))
    as (c' & Ec & Hr' & Hfr & _); [auto | lia | auto | lia | lia | intros; apply Hbuf; lia |].
  rewrite Ec. exists c'. split; [done |]. split; [done |].
  intros x Hx. rewrite Hfr by lia. now apply Hb.
Qed.

Lemma kernel_write_loop_safe boot : forall fuel count ubuf priv c,
  safe boot (priv, c) -> byte_list ubuf ->
  safe boot (snd (fst (kernel_write_loop fm640 fuel count ubuf priv c)),
             snd (kernel_write_loop fm640 fuel count ubuf priv c)).
Proof.
  induction fuel as [| fuel IH]; intros count ubuf priv c Hs Hu; [done |].
  cbn [kernel_write_loop]. change (FLASHMAP_KERNEL_SIZE fm640) with 0x7f0000.
  case_match; [done |]. destruct (Z.leb_spec 0x7f0000 (filepos priv)); [now case_match |].
  destruct Hs as [Hr Hp Hw Hle Hbuf Hb]; cbn [fst snd] in *. unfold bind.
  change FLASHMAP_CHUNK_SIZE with 0x2000.
  set (n := Z.min (0x2000 - write_buffer_pos priv) _).
  assert (Hn : 0 < n <= 0x2000 - write_buffer_pos priv) by (unfold n; repeat zcase_in H; lia).
  set (p1 := mkKernelFp _ _ _ _).
  assert (Hb1 : forall i, 0 <= i < 0x2000 -> 0 <= write_buffer p1 i < 0x100).
  { intros i Hi. cbn. unfold store_bytes. case_match; [| now apply Hbuf].
    apply (im_range (take (Z.to_nat n) ubuf) (i - write_buffer_pos priv));
      [now apply Forall_take | unfold zlen; repeat zcase_in H1; lia]. }
  assert (Hp1 : filepos p1 = filepos priv + n) by (cbn; rewrite u32_id; lia).
  apply IH; [| now apply Forall_drop]. unfold is_write_buffer_full.
  destruct (Z.eqb_spec (write_buffer_pos p1) FLASHMAP_CHUNK_SIZE) as [E | E];
    change FLASHMAP_CHUNK_SIZE with 0x2000 in E.
  - destruct (buffer_write_safe boot p1 c) as (c' & -> & Hr' & Hb'); try lia; auto.
    split; cbn [fst snd]; auto using reset_buf; cbn -[p1]; lia.
  - split; cbn [fst snd ret]; auto; rewrite ?Hp1; cbn in *; lia.
Qed.

Lemma buffer_read_safe priv c :
  nor_ready c -> 0 <= filepos priv < 0x7f2000 ->
  exists buf, buffer_read fm640 priv c =
    (mkKernelFp (filepos priv) buf (write_buffer priv) (write_buffer_pos priv), c).
Proof.
  intros Hr Hp. unfold buffer_read, EON_ReadRange. change FLASHMAP_CHUNK_SIZE with 0x2000.
  fold (chunk_addr (filepos priv / 0x2000)).
  destruct (any_chunk_addr (filepos priv / 0x2000)) as (A1 & A2 & _);
    [Z.div_mod_to_equations; lia |].
  assert (Hn : 4 * Z.of_nat (Z.to_nat (0x2000 / 4)) = 0x2000) by reflexivity.
  destruct (read_words_ok (Z.to_nat (0x2000 / 4)) (chunk_addr (filepos priv / 0x2000))
    (read_buffer priv) 0 c) as (b & Eb & _); [done | lia | lia |].
  exists b. now erewrite bind_eq by apply Eb.
Qed.

Lemma kernel_read_safe boot count priv c :
  safe boot (priv, c) ->
  safe boot (snd (fst (biffkernel_read fm640 priv count c)),
             snd (biffkernel_read fm640 priv count c)).
Proof.
  intros Hs. pose proof Hs as [Hr Hp Hw Hle Hbuf Hb]. cbn [fst snd] in *. unfold biffkernel_read.
  destruct (Z.lt_ge_cases count 0).
  { now rewrite Z2Nat.nonpos by lia. }
  destruct (Z.le_gt_cases (filepos priv) 0x7f0000) as [H1 | H1].
  - destruct (kernel_read_loop_ok (Z.to_nat count) count [] priv c) as (p' & E & E1 & E2 & E3);
      [done | lia | lia |].
    rewrite E. split; cbn [fst snd]; rewrite ?E1, ?E2, ?E3; auto; lia.
  - destruct (Z.to_nat count); cbn [kernel_read_loop]; [done |].
    change (FLASHMAP_KERNEL_SIZE fm640) with 0x7f0000.
    case_match; [done |]. now rewrite (proj2 (Z.leb_le _ _)) by lia.
Qed.

Lemma kernel_seek_safe boot offset w priv c :
  safe boot (priv, c) ->
  safe boot (snd (fst (biffkernel_seek fm640 priv offset w c)),
             snd (biffkernel_seek fm640 priv offset w c)).
Proof.
  intros Hs. pose proof Hs as [Hr Hp Hw Hle Hbuf Hb]. cbn [fst snd] in *. unfold biffkernel_seek.
  change (FLASHMAP_KERNEL_SIZE fm640) with 0x7f0000.
  destruct (match w with SEEK_SET => _ | _ => _ end) as [newpos |]; [| done].
  destruct (Z.ltb_spec newpos 0); [done |].
  set (pos := if 0x7f0000 <=? newpos then _ else _).
  assert (Hpos : 0 <= pos <= 0x7f0000) by (unfold pos; zcase; lia).
  destruct (buffer_read_safe (mkKernelFp pos (read_buffer priv) (write_buffer priv)
    (write_buffer_pos priv)) c Hr) as (b & Eb); [cbn; lia |].
  erewrite bind_eq by apply Eb. cbn [filepos write_buffer write_buffer_pos].
  split; cbn [fst snd ret]; auto; cbn [filepos write_buffer_pos write_buffer_reset]; try lia.
  apply reset_buf. exact Hbuf.
Qed.

Lemma open_safe boot c :
  nor_ready c -> (forall x, 0x7f0000 <= x < 0x800000 -> nor_mem c x = boot x) ->
  safe boot (write_buffer_reset (mkKernelFp 0 (fun _ => 0) (fun _ => 0) 0), c).
Proof.
  intros Hr Hb. split; cbn [fst snd]; auto; try (cbn; lia). apply reset_buf. cbn. lia.
Qed.

Lemma run_op_safe boot op st : op_ok op -> safe boot st -> safe boot (run_op op st).
Proof.
  destruct st as [priv c]. intros Ho Hs. destruct op; cbn [run_op op_ok] in *.
  - pose proof (kernel_write_loop_safe boot (length ubuf) (Z.of_nat (length ubuf)) ubuf priv c Hs Ho)
      as H. unfold biffkernel_write. now destruct (kernel_write_loop _ _ _ _ _ _) as [[? ?] ?].
  - pose proof (kernel_read_safe boot count priv c Hs) as H.
    now destruct (biffkernel_read _ _ _ _) as [[? ?] ?].
  - pose proof (kernel_seek_safe boot offset w priv c Hs) as H.
    now destruct (biffkernel_seek _ _ _ _ _) as [[? ?] ?].
  - pose proof Hs as [Hr Hp Hw Hle Hbuf Hb]. cbn [fst snd] in *. unfold biffkernel_release.
    destruct (Z.eqb_spec (write_buffer_pos priv) 0); cbn [negb].
    + now apply open_safe.
    + destruct (buffer_write_safe boot priv c) as (c' & E & Hr' & Hb'); auto; try lia.
      erewrite bind_eq by apply E. now apply open_safe.
Qed.

(** C5: no sequence of reads, writes, seeks and reopenings of /dev/biffkernel,
    in any order and with any arguments, changes a byte of the boot sector. *)
Theorem kernel_ops_never_touch_boot ops priv c x :
  nor_ready c -> snd (biffkernel_open true) = Some priv -> Forall op_ok ops ->
  FLASHMAP_KERNEL_SIZE fm640 <= x < FLASHMAP_SIZE fm640 ->
  nor_mem (snd (run_ops ops (priv, c))) x = nor_mem c x.
Proof.
  change (FLASHMAP_KERNEL_SIZE fm640) with 0x7f0000. change (FLASHMAP_SIZE fm640) with 0x800000.
  intros Hr [= <-] Ho Hx.
  assert (Hs : safe (nor_mem c) (write_buffer_reset (mkKernelFp 0 (fun _ => 0) (fun _ => 0) 0), c))
    by now apply open_safe.
  revert Hs. generalize (write_buffer_reset (mkKernelFp 0 (fun _ => 0) (fun _ => 0) 0), c).
  induction Ho as [| op ops Hop Hops IH]; intros st Hs; cbn.
  - now apply (sf_boot _ _ Hs).
  - now apply IH, run_op_safe.
Qed.

(** A whole chunk written from an empty buffer goes to the flash at once. *)
Lemma kernel_write_full priv ubuf c :
  0 <= filepos priv < 0x7f0000 -> write_buffer_pos priv = 0 -> zlen ubuf = 0x2000 ->
  let p1 := copied priv ubuf in
  biffkernel_write fm640 priv ubuf c =
    (0x2000, fst (buffer_write fm640 p1 c), snd (buffer_write fm640 p1 c)).
Proof.
  intros Hp Hw Hl. cbv zeta. unfold biffkernel_write, copied.
  fold (zlen ubuf). rewrite Hl.
  destruct (length ubuf) as [| n] eqn:Hn; [unfold zlen in Hl; lia |].
  cbn [kernel_write_loop]. fold (zlen ubuf). rewrite Hl, Hw.
  change (FLASHMAP_KERNEL_SIZE fm640) with 0x7f0000. rewrite (proj2 (Z.leb_gt _ _)) by lia.
  change (0x2000 =? 0) with false. change FLASHMAP_CHUNK_SIZE with 0x2000.
  change (Z.min (0x2000 - 0) 0x2000) with 0x2000.
  rewrite take_ge, drop_ge by (unfold zlen in Hl; lia).
  unfold is_write_buffer_full. cbn [write_buffer_pos]. change (0 + 0x2000 =? FLASHMAP_CHUNK_SIZE) with true.
  unfold bind. generalize (buffer_write fm640). intros bw.
  destruct (bw _ c) as [p2 c2]. now destruct n.
Qed.

Lemma seek_set_state pos priv c :
  nor_ready c -> 0 <= pos < 0x7f0000 ->
  exists priv', run_op (Seek pos SEEK_SET) (priv, c) = (priv', c) /\
    filepos priv' = pos /\ write_buffer_pos priv' = 0.
Proof.
  intros Hr Hpos. cbn [run_op]. unfold biffkernel_seek.
  change (FLASHMAP_KERNEL_SIZE fm640) with 0x7f0000. rewrite s64_id by lia.
  destruct (Z.ltb_spec pos 0); [lia |]. destruct (Z.leb_spec 0x7f0000 pos); [lia |].
  destruct (buffer_read_safe (mkKernelFp pos (read_buffer priv) (write_buffer priv)
    (write_buffer_pos priv)) c Hr) as (b & Eb); [cbn [filepos]; lia |].
  erewrite bind_eq by apply Eb. cbn [ret].
  eexists. split; [reflexivity | split; reflexivity].
Qed.

(** A write that starts inside the last chunk of the file (reached with a
    seek) and fills the buffer is not refused at the end of the file: it goes
    over the start of the file, because the chunk number past the end is mapped
    to the block of chunk 0. *)
Theorem write_past_end_overwrites_start pos priv ubuf c :
  nor_ready c -> snd (biffkernel_open true) = Some priv ->
  0x7ee000 < pos < FLASHMAP_KERNEL_SIZE fm640 -> byte_list ubuf -> zlen ubuf = 0x2000 ->
  let '(priv1, c1) := run_op (Seek pos SEEK_SET) (priv, c) in
  let '(n, _, c2) := biffkernel_write fm640 priv1 ubuf c1 in
  n = 0x2000 /\ forall p, 0 <= p < 0x2000 -> file_byte c2 p = im ubuf p.
Proof.
  change (FLASHMAP_KERNEL_SIZE fm640) with 0x7f0000. intros Hr [= <-] Hpos Hu Hl.
  destruct (seek_set_state pos (write_buffer_reset (mkKernelFp 0 (fun _ => 0) (fun _ => 0) 0)) c Hr)
    as (p0 & Ep & Hp0 & Hw0); [lia |].
  rewrite Ep, (kernel_write_full p0 ubuf c) by lia. split; [reflexivity |].
  assert (Hb : forall i, 0 <= i < 0x2000 -> write_buffer (copied p0 ubuf) i = im ubuf i).
  { intros i Hi. cbn [copied write_buffer]. rewrite Hw0.
    rewrite store_bytes_in by (unfold zlen in Hl; lia). unfold im. f_equal. lia. }
  unfold buffer_write, bind, ret. cbn [snd]. change FLASHMAP_CHUNK_SIZE with 0x2000.
  replace (write_buffer_pos (copied p0 ubuf)) with 0x2000 by (cbn [copied write_buffer_pos]; lia).
  replace (filepos (copied p0 ubuf)) with (pos + 0x2000)
    by (cbn [copied filepos]; rewrite u32_id; lia).
  rewrite (proj2 (Z.eqb_neq ((pos + 0x2000) mod 0x2000) 0)) by (Z.div_mod_to_equations; lia).
  replace ((pos + 0x2000) / 0x2000) with 1016 by (Z.div_mod_to_equations; lia).
  replace (u32 (EON_ChunkToSector fm640 1016 * 0x2000)) with (chunk_addr 0) by reflexivity.
  destruct (write_chunk_step (nor_mem c) (im ubuf) 0 (write_buffer (copied p0 ubuf)) 0x2000 c)
    as (_ & _ & Hd & _); [lia | lia | exact Hb | | | exact Hd].
  - intros i Hi. rewrite Hb by done. apply im_range; [done | lia].
  - apply (chip_inv_ext _ (im [])); [intros; lia | exact (se_chip _ _ _ _ (session_open c Hr))].
Qed.
End Safe.

Lemma kernel_ops_never_touch_boot_witness :
  exists priv, snd (biffkernel_open true) = Some priv /\
    nor_mem (snd (run_ops [Write [1; 2]; Seek (-1) SEEK_END; Seek 0x7efff0 SEEK_SET;
                           Write [7]; Reopen] (priv, used_flash))) 0x7f0000 = 0.
Proof.
  eexists. split; [reflexivity |].
  refine (kernel_ops_never_touch_boot [Write [1; 2]; Seek (-1) SEEK_END; Seek 0x7efff0 SEEK_SET;
    Write [7]; Reopen] _ used_flash 0x7f0000 used_flash_ready eq_refl _ _).
  - repeat (apply Forall_cons_2; [first [exact I | cbn; solve_byte_list] |]). apply Forall_nil_2.
  - split; vm_compute; congruence.
Defined.

Lemma write_past_end_overwrites_start_witness :
  exists priv, snd (biffkernel_open true) = Some priv /\
    let '(priv1, c1) := run_op (Seek 0x7effff SEEK_SET) (priv, used_flash) in
    let '(n, _, c2) := biffkernel_write fm640 priv1 (repeat 0x5a 0x2000) c1 in
    n = 0x2000 /\ forall p, 0 <= p < 0x2000 -> file_byte c2 p = im (repeat 0x5a 0x2000) p.
Proof.
  eexists. split; [reflexivity |].
  apply (write_past_end_overwrites_start 0x7effff _ (repeat 0x5a 0x2000) used_flash
    used_flash_ready eq_refl).
  - split; vm_compute; congruence.
  - apply List.Forall_forall. intros v Hv. apply repeat_spec in Hv. lia.
  - reflexivity.
Defined.
