(* ===== verification/BiffBoot.v ===== *)
(** /dev/biffboot: replacing the boot sector. *)
From Stdlib Require Import ZArith Lia.
From stdpp Require Import base list numbers strings.
From S2P Require Import Prelude En29lv640 NorChip BiffNor BiffNorSpec BiffNorFile.

(** ** Boot images

    What a 64 KiB boot image must have, independently of the drivers: the name,
    a near jump to 0xf10a before it as the reset instruction, and 0xff as its
    last byte. *)
Definition biffboot_image (img : mem) : Prop :=
  load_bytes img 0xff00 8 = str "Biffboot" /\
  load_bytes img 0xfff0 3 = [0xe9; 0x0a; 0xf1] /\
  img 0xffff = 0xff.

Lemma sanity_check_image priv : sanity_check priv = true <-> biffboot_image (b_write_buffer priv).
Proof.
  unfold sanity_check, biffboot_image. set (m := b_write_buffer priv).
  change (load_bytes m 0xfff0 3) with [m 0xfff0; m 0xfff1; m 0xfff2].
  change (str "Biffboot") with biffboot_magic.
  destruct (bool_decide_reflect (load_bytes m 0xff00 8 = biffboot_magic)); cbn [negb];
    [| now split].
  destruct (Z.eqb_spec (m 0xfff0) 0xe9), (Z.eqb_spec (m 0xfff1) 0x0a), (Z.eqb_spec (m 0xfff2) 0xf1),
    (Z.eqb_spec (m 0xffff) 0xff); cbn [negb];
    (split; [discriminate || (intros _; repeat split; congruence)
            | done || (intros (_ & Hj & Hl); congruence)]).
Qed.

Section Boot.
Context {C : Type} {BusC : NorBus C} {ChipC : NorChip C} {PartC : Nor640 C}.

(** The word loop of [WriteSector] programs like [EON_ProgramRange]. *)
Lemma write_sector_words wb n : forall count c,
  nor_ready c -> 0 <= count -> count + 2 * Z.of_nat n = 0x10000 ->
  (forall i, count <= i < 0x10000 -> 0 <= wb i < 0x100) ->
  write_sector_loop fm640 wb 0x10000 n count c =
    (tt, snd (program_words fm640 wb count (count + 0x7f0000) n c)).
Proof.
  induction n as [| n IH]; intros count c Hr H0 Hn Hb; [reflexivity |].
  cbn [write_sector_loop program_words]. change (FLASHMAP_KERNEL_SIZE fm640) with 0x7f0000.
  destruct (Z.ltb_spec count 0x10000); [| lia].
  destruct (EON_ProgramWord_ok c (count + 0x7f0000) (load16 wb count)) as (c1 & E & Hr1 & _);
    [done | lia | lia | apply load16_range; apply Hb; lia |].
  rewrite !(bind_eq _ _ _ _ _ E). cbn [Z.ltb Z.compare].
  replace (count + 0x7f0000 + 2) with (count + 2 + 0x7f0000) by lia.
  apply IH; [done | lia | lia | intros; apply Hb; lia].
Qed.

(** Erasing and reprogramming the boot sector. *)
Lemma boot_sector_programmed priv c :
  nor_ready c -> b_write_buffer_pos priv = 0x10000 ->
  (forall i, 0 <= i < 0x10000 -> 0 <= b_write_buffer priv i < 0x100) ->
  exists c', snd (WriteSector fm640 priv (snd (EON_EraseSector fm640 (FLASHMAP_KERNEL_SIZE fm640) c)))
      = c' /\ nor_ready c' /\
    (forall i, 0 <= i < 0x10000 -> nor_mem c' (0x7f0000 + i) = b_write_buffer priv i) /\
    (forall x, 0 <= x < 0x7f0000 -> nor_mem c' x = nor_mem c x).
Proof.
  intros Hr Hp Hb. change (FLASHMAP_KERNEL_SIZE fm640) with 0x7f0000.
  destruct (EON_EraseSector_ok c 0x7f0000 Hr ltac:(lia)) as (c1 & -> & Hr1 & He). cbn [snd].
  rewrite nor640_base, nor640_len in He by lia.
  change (0x7f0000 - 0x7f0000 mod (if 0x7f0000 <? 0x10000 then 0x2000 else 0x10000))
    with 0x7f0000 in He.
  change (if 0x7f0000 <? 0x10000 then 0x2000 else 0x10000) with 0x10000 in He.
  unfold WriteSector. rewrite Hp.
  assert (Hn : 2 * Z.of_nat (Z.to_nat ((0x10000 + 1) / 2)) = 0x10000)
    by (rewrite Z2Nat.id; [reflexivity | Z.div_mod_to_equations; lia]).
  revert Hn. generalize (Z.to_nat ((0x10000 + 1) / 2)). intros n Hn.
  rewrite write_sector_words by (try lia; auto). cbn [snd].
  destruct (program_words_ok (b_write_buffer priv) n 0 (0 + 0x7f0000) c1)
    as (c2 & -> & Hr2 & Hf2 & Hv2); [done | lia | lia | intros; apply Hb; lia |].
  exists c2. split; [done |]. split; [done |]. split.
  - intros i Hi. rewrite Hv2; [f_equal; lia | | lia].
    intros x Hx. rewrite He, fill_in by lia. done.
  - intros x Hx. rewrite Hf2, He, fill_out by lia. done.
Qed.

(** ** A write session *)

(** The checks of [sanity_check], on a whole image. *)
Definition boot_image_ok (img : list Z) : bool :=
  sanity_check (mkBootFp 0 (fun _ => 0) (im img) 0x10000).

Lemma boot_image_ok_iff img : boot_image_ok img = true <-> biffboot_image (im img).
Proof. apply sanity_check_image. Qed.

(** After the bytes [l] have been written since [open] to a chip that held
    [m0]: they are in the buffer, and the flash is untouched until the buffer
    is full. *)
Record boot_session (m0 : mem) (l : list Z) (priv : biffboot_fp_private) (c : C) : Prop := {
  bs_ready : nor_ready c;
  bs_pos : b_write_buffer_pos priv = zlen l;
  bs_fits : zlen l <= 0x10000;
  bs_bytes : byte_list l;
  bs_buf : forall i, 0 <= i < zlen l -> b_write_buffer priv i = im l i;
  bs_low : forall x, 0 <= x < 0x7f0000 -> nor_mem c x = m0 x;
  bs_same : zlen l < 0x10000 \/ boot_image_ok l = false ->
    forall x, 0x7f0000 <= x < 0x800000 -> nor_mem c x = m0 x;
  bs_new : zlen l = 0x10000 -> boot_image_ok l = true ->
    forall i, 0 <= i < 0x10000 -> nor_mem c (0x7f0000 + i) = im l i
}.

Lemma sanity_check_ext p1 p2 :
  (forall i, 0 <= i < 0x10000 -> b_write_buffer p1 i = b_write_buffer p2 i) ->
  sanity_check p1 = sanity_check p2.
Proof.
  intros H. unfold sanity_check.
  rewrite (load_bytes_ext (b_write_buffer p1) (b_write_buffer p2) 0xff00 0xff00 8)
    by (intros i Hi; apply H; lia).
  now rewrite !H by lia.
Qed.

(** What one [write] call can pass: bytes, and no more than the kernel's limit
    on one transfer. *)
Definition user_buf (part : list Z) : Prop := byte_list part /\ zlen part <= 0x7ffff000.

(** The value [biffboot_write] returns. *)
Definition boot_write_result (l part : list Z) : Z :=
  if 0x10000 <? zlen l + zlen part then - EINVAL
  else if (zlen l + zlen part =? 0x10000) && negb (boot_image_ok (l ++ part)) then - EINVAL
  else zlen part.

Lemma boot_write_step m0 l priv c part :
  boot_session m0 l priv c -> user_buf part ->
  let r := biffboot_write fm640 priv part c in
  fst (fst r) = boot_write_result l part /\
  boot_session m0 (if 0x10000 <? zlen l + zlen part then l else l ++ part) (snd (fst r)) (snd r).
Proof.
  intros Hs [Hpart Hmax]. pose proof Hs as [Hr Hpos Hfit Hby Hbuf Hlow Hsame Hnew]. cbv zeta.
  unfold biffboot_write, boot_write_result. fold (zlen part). rewrite Hpos.
  assert (0 <= zlen part /\ 0 <= zlen l) by (unfold zlen; lia). rewrite u32_id by lia.
  destruct (Z.ltb_spec 0x10000 (zlen l + zlen part)); [done |].
  cbn [b_write_buffer_pos b_filepos b_read_buffer b_write_buffer].
  set (p1 := mkBootFp _ _ _ _).
  assert (Hl : zlen (l ++ part) = zlen l + zlen part) by apply zlen_app.
  assert (Hby' : byte_list (l ++ part)) by now apply Forall_app.
  assert (Hb1 : forall i, 0 <= i < zlen l + zlen part -> b_write_buffer p1 i = im (l ++ part) i).
  { intros i Hi. cbn. destruct (Z.lt_ge_cases i (zlen l)).
    - rewrite store_bytes_out, im_app_l by lia. apply Hbuf. lia.
    - rewrite store_bytes_in by (unfold zlen in *; lia). now rewrite im_app_r by lia. }
  destruct (Z.eqb_spec (zlen l + zlen part) 0x10000) as [E | E]; cbn [andb].
  - assert (Es : sanity_check p1 = boot_image_ok (l ++ part))
      by (apply sanity_check_ext; intros i Hi; apply Hb1; lia).
    rewrite Es. destruct (boot_image_ok (l ++ part)) eqn:Eo; cbn [negb].
    + destruct (boot_sector_programmed p1 c Hr) as (c2 & E2 & Hr2 & Hv & Hf);
        [cbn; lia | intros i Hi; rewrite Hb1 by lia; apply im_range; [done | lia] |].
      destruct (EON_EraseSector fm640 _ c) as [e c1]. cbn [snd] in E2.
      destruct (WriteSector fm640 p1 c1) as [[] c3]. cbn [fst snd] in *. subst c3.
      split; [done |]. split; rewrite ?Hl; auto; try lia; try (cbn; lia).
      * intros x Hx. rewrite Hf by done. now apply Hlow.
      * intros [? | ?]; [lia | congruence].
      * intros _ _ i Hi. rewrite Hv by done. apply Hb1. lia.
    + assert (Hold : forall x, 0x7f0000 <= x < 0x800000 -> nor_mem c x = m0 x).
      { apply Hsame. destruct part as [| b part]; [right; now rewrite app_nil_r in Eo |].
        left. unfold zlen in E |- *. cbn [length] in E. lia. }
      split; [done |]. split; rewrite ?Hl; auto; try lia; congruence.
  - assert (Hlt : zlen l < 0x10000) by lia. specialize (Hsame (or_introl Hlt)).
    split; [done |]. split; rewrite ?Hl; auto; try lia; try (cbn; lia).
Qed.

(** ** Whole sessions *)

Fixpoint boot_write_all (priv : biffboot_fp_private) (parts : list (list Z))
  : ST C (list Z * biffboot_fp_private) :=
  match parts with
  | [] => ret ([], priv)
  | part :: parts' =>
      let! w := biffboot_write fm640 priv part in
      let! ws := boot_write_all (snd w) parts' in
      ret (fst w :: fst ws, snd ws)
  end.

(** [open] and any number of [write]s: what they returned, and the chip. *)
Definition boot_store (parts : list (list Z)) (c : C) : list Z * C :=
  match snd (biffboot_open true) with
  | None => ([], c)
  | Some priv => let '((rs, _), c) := boot_write_all priv parts c in (rs, c)
  end.

Lemma boot_session_open c :
  nor_ready c -> boot_session (nor_mem c) [] (mkBootFp 0 (fun _ => 0) (fun _ => 0) 0) c.
Proof.
  intros Hr. split; auto; change (zlen []) with 0; try lia; try done. apply Forall_nil_2.
Qed.

Lemma boot_write_all_session m0 : forall parts l priv c,
  boot_session m0 l priv c -> Forall user_buf parts ->
  exists l', boot_session m0 l' (snd (fst (boot_write_all priv parts c)))
      (snd (boot_write_all priv parts c)) /\
    (zlen l + zlen (concat parts) <= 0x10000 -> l' = l ++ concat parts) /\
    (zlen l + zlen (concat parts) <= 0x10000 -> boot_image_ok (l ++ concat parts) = true ->
     fst (fst (boot_write_all priv parts c)) = map zlen parts).
Proof.
  induction parts as [| part parts IH]; intros l priv c Hs Hb.
  { exists l. cbn. rewrite app_nil_r. done. }
  apply Forall_cons_1 in Hb as [Hb1 Hb2].
  cbn [boot_write_all concat map]. rewrite zlen_app.
  destruct (boot_write_step m0 l priv c part Hs Hb1) as [Hres Hs1]. unfold bind.
  destruct (biffboot_write fm640 priv part c) as [[n p1] c1]. cbn [fst snd] in *.
  destruct (IH _ _ _ Hs1 Hb2) as (l' & Hs2 & Hl' & Hrs).
  destruct (boot_write_all p1 parts c1) as [[ns p2] c2]. cbn [fst snd ret] in *.
  assert (Hpos : 0 <= zlen part /\ 0 <= zlen (concat parts)) by (unfold zlen; lia).
  exists l'. split; [done |]. split; intros Hle; destruct (Z.ltb_spec 0x10000 (zlen l + zlen part));
    try lia; rewrite zlen_app in Hl', Hrs; rewrite app_assoc.
  - apply Hl'. lia.
  - intros Hok. rewrite Hrs by (auto; lia). f_equal. rewrite Hres. unfold boot_write_result.
    destruct (Z.ltb_spec 0x10000 (zlen l + zlen part)); [lia |].
    destruct (Z.eqb_spec (zlen l + zlen part) 0x10000); [| done].
    replace (concat parts) with (@nil Z) in Hok
      by (symmetry; apply length_zero_iff_nil; unfold zlen in *; lia).
    rewrite app_nil_r in Hok. now rewrite Hok.
Qed.

(** C29: updating the boot loader.  A 64 KiB boot image (name, reset jump, last byte),
    written in any split into [write] calls, empty ones included, is accepted in
    full and becomes the contents of the boot sector; the kernel area is
    unchanged. *)
Theorem biffboot_update_exact parts c :
  nor_ready c -> Forall user_buf parts ->
  zlen (concat parts) = FLASHMAP_BOOT_SIZE -> biffboot_image (im (concat parts)) ->
  let '(rs, c') := boot_store parts c in
  rs = map zlen parts /\
  (forall i, 0 <= i < FLASHMAP_BOOT_SIZE ->
     nor_mem c' (FLASHMAP_KERNEL_SIZE fm640 + i) = im (concat parts) i) /\
  (forall x, 0 <= x < FLASHMAP_KERNEL_SIZE fm640 -> nor_mem c' x = nor_mem c x).
Proof.
  intros Hr Hb Hl Hok%boot_image_ok_iff. unfold boot_store, biffboot_open. cbn [snd].
  change FLASHMAP_BOOT_SIZE with 0x10000 in *.
  destruct (boot_write_all_session _ parts [] _ c (boot_session_open c Hr) Hb)
    as (l' & Hs & Hl' & Hrs).
  change (zlen [] + zlen (concat parts)) with (zlen (concat parts)) in *. cbn [app] in *.
  rewrite Hl' in Hs by lia. specialize (Hrs ltac:(lia) Hok).
  destruct (boot_write_all _ parts c) as [[rs p] c']. cbn [fst snd] in *. split; [done |].
  destruct Hs as [_ _ _ _ _ Hlow _ Hnew]. split; [now apply Hnew | exact Hlow].
Qed.

(** C3: the boot sector is replaced as a whole or not at all.  Whatever is
    written by one opening of the device, in any pieces (empty ones included,
    which on a full buffer program the sector again) of up to the kernel's limit
    for one transfer, either the whole flash is unchanged or the boot sector holds
    a complete boot image (and the kernel area is still unchanged). *)
Theorem biffboot_all_or_nothing parts c :
  nor_ready c -> Forall user_buf parts ->
  let c' := snd (boot_store parts c) in
  (forall x, 0 <= x < FLASHMAP_SIZE fm640 -> nor_mem c' x = nor_mem c x) \/
  (exists img, zlen img = FLASHMAP_BOOT_SIZE /\ biffboot_image (im img) /\
     (forall i, 0 <= i < FLASHMAP_BOOT_SIZE ->
        nor_mem c' (FLASHMAP_KERNEL_SIZE fm640 + i) = im img i) /\
     (forall x, 0 <= x < FLASHMAP_KERNEL_SIZE fm640 -> nor_mem c' x = nor_mem c x)).
Proof.
  intros Hr Hb. unfold boot_store, biffboot_open. cbn [snd].
  destruct (boot_write_all_session _ parts [] _ c (boot_session_open c Hr) Hb) as (l & Hs & _).
  destruct (boot_write_all _ parts c) as [[rs p] c']. cbn [fst snd] in *.
  destruct Hs as [_ _ Hfit _ _ Hlow Hsame Hnew].
  change (FLASHMAP_SIZE fm640) with 0x800000. change (FLASHMAP_KERNEL_SIZE fm640) with 0x7f0000 in *.
  destruct (decide (zlen l = 0x10000 /\ boot_image_ok l = true)) as [[E1 E2] | Hno].
  - right. exists l. split; [exact E1 |]. split; [now apply boot_image_ok_iff |]. auto.
  - left. intros x Hx. destruct (Z.lt_ge_cases x 0x7f0000); [apply Hlow; lia |].
    apply Hsame; [| lia]. destruct (boot_image_ok l); [left | now right].
    destruct (Z.eq_dec (zlen l) 0x10000); [exfalso; now apply Hno | lia].
Qed.
End Boot.

(** A boot image: the signature, the reset jump, the last byte. *)
Definition sample_boot : mem :=
  store_bytes (store (store_bytes (fun _ => 0) 0xff00 biffboot_magic) 0xffff 0xff) 0xfff0
    [0xe9; 0x0a; 0xf1].

(** Written in two halves. *)
Definition sample_boot_parts : list (list Z) :=
  [load_bytes sample_boot 0 0x8000; load_bytes sample_boot 0x8000 0x8000].

Lemma sample_boot_concat : concat sample_boot_parts = load_bytes sample_boot 0 0x10000.
Proof.
  unfold sample_boot_parts. cbn [concat]. rewrite app_nil_r.
  symmetry. apply (load_bytes_app sample_boot 0 0x8000 0x8000); lia.
Qed.

Lemma zlen_load_bytes m b n : 0 <= n -> zlen (load_bytes m b n) = n.
Proof. intros Hn. unfold zlen. rewrite length_load_bytes. lia. Qed.

Lemma sample_boot_ok : boot_image_ok (concat sample_boot_parts) = true.
Proof.
  rewrite sample_boot_concat. unfold boot_image_ok.
  rewrite (sanity_check_ext _ (mkBootFp 0 (fun _ => 0) sample_boot 0x10000)); [reflexivity |].
  intros i Hi. cbn [b_write_buffer]. unfold im. rewrite nth_load_bytes by lia. f_equal. lia.
Qed.

Lemma sample_boot_byte x : 0 <= sample_boot x < 0x100.
Proof.
  unfold sample_boot, store_bytes, store, biffboot_magic.
  set (a := Z.to_nat _). set (b := Z.to_nat _). repeat case_match; try lia.
  - do 4 (destruct a as [| a]; cbn; try lia).
  - do 9 (destruct b as [| b]; cbn; try lia).
Qed.

Lemma sample_boot_bytes : Forall user_buf sample_boot_parts.
Proof.
  repeat (apply Forall_cons_2; [split;
    [apply Forall_map, List.Forall_forall; intros; apply sample_boot_byte
    | rewrite zlen_load_bytes; lia] |]).
  apply Forall_nil_2.
Qed.

Lemma biffboot_update_exact_witness :
  let '(rs, c') := boot_store sample_boot_parts used_flash in
  rs = map zlen sample_boot_parts /\
  (forall i, 0 <= i < FLASHMAP_BOOT_SIZE ->
     nor_mem c' (FLASHMAP_KERNEL_SIZE fm640 + i) = im (concat sample_boot_parts) i) /\
  (forall x, 0 <= x < FLASHMAP_KERNEL_SIZE fm640 -> nor_mem c' x = nor_mem used_flash x).
Proof.
  apply (biffboot_update_exact sample_boot_parts used_flash used_flash_ready
    sample_boot_bytes).
  - rewrite sample_boot_concat. now apply zlen_load_bytes.
  - apply boot_image_ok_iff. exact sample_boot_ok.
Defined.

(** The whole image, and an empty write on the full buffer. *)
Definition sample_boot_again : list (list Z) := sample_boot_parts ++ [[]].

Lemma biffboot_all_or_nothing_witness :
  let c' := snd (boot_store sample_boot_again used_flash) in
  (forall x, 0 <= x < FLASHMAP_SIZE fm640 -> nor_mem c' x = nor_mem used_flash x) \/
  (exists img, zlen img = FLASHMAP_BOOT_SIZE /\ biffboot_image (im img) /\
     (forall i, 0 <= i < FLASHMAP_BOOT_SIZE ->
        nor_mem c' (FLASHMAP_KERNEL_SIZE fm640 + i) = im img i) /\
     (forall x, 0 <= x < FLASHMAP_KERNEL_SIZE fm640 -> nor_mem c' x = nor_mem used_flash x)).
Proof.
  apply (biffboot_all_or_nothing sample_boot_again used_flash used_flash_ready).
  apply Forall_app_2; [exact sample_boot_bytes |].
  apply Forall_cons_2; [split; [apply Forall_nil_2 | vm_compute; discriminate] | apply Forall_nil_2].
Defined.
