(* ===== verification/BiffUpgrade.v ===== *)
(** /dev/biffupgrade (drivers/biffupgrade.c): the boot-loader updater that maps
    only the top 64 KiB of the flash.  Its bus is the window: offset 0 is the
    start of the boot sector.  The statics [g_writepos] and [g_buffer] are the
    driver's state. *)
From Stdlib Require Import ZArith Lia.
From stdpp Require Import base list numbers.
From S2P Require Import Prelude En29lv640 NorChip BiffNor BiffNorSpec BiffNorFile BiffBoot.

Module Upgrade.

Record state : Type := mkState { g_writepos : Z; g_buffer : mem }.

Section Driver.
Context {C : Type} {BusC : NorBus C}.

Definition WriteFLASH (addr data : Z) : ST C unit := fun c => (tt, bus_write8 addr (u8 data) c).

Definition WriteFLASH16 (addr data : Z) : ST C unit := fun c => (tt, bus_write16 addr (u16 data) c).

Definition ReadFLASH (addr delay : Z) : ST C Z := fun c =>
  if 0x10000 <? addr then (0, c) else bus_read8 addr c.

(** One iteration of the polling loop of [EraseSector]. *)
Definition erase_poll_step (p : poll) : poll + poll :=
  if p_prev p =? p_cur p then inr p
  else
    let '(v1, c1) := ReadFLASH 0 8 (p_chip p) in
    let prev := Z.land v1 0x40 in
    let '(v2, c2) := ReadFLASH 0 8 c1 in
    let cur := Z.land v2 0x40 in
    if anyset cur 0x20 then
      let '(v3, c3) := ReadFLASH 0 8 c2 in
      let prev := Z.land v3 0x40 in
      let '(v4, c4) := ReadFLASH 0 8 c3 in
      let cur := Z.land v4 0x40 in
      inr (mkPoll prev cur (if negb (prev =? cur) then 0xffffff else p_count p) c4)
    else
      let cur := Z.land cur 0x40 in
      let next := mkPoll prev cur (p_count p + 1) c2 in
      if 0x100000 <? p_count p then inr next else inl next.

Definition EraseSector : ST C Z := fun c =>
  let '(_, c) := (WriteFLASH 0xAAA 0xAA >> WriteFLASH 0x555 0x55 >> WriteFLASH 0xAAA 0x80 >>
                  WriteFLASH 0xAAA 0xAA >> WriteFLASH 0x555 0x55 >> WriteFLASH 0 0x30) c in
  let '(v1, c) := ReadFLASH 0 8 c in
  let '(v2, c) := ReadFLASH 0 8 c in
  let p := run_poll erase_poll_step (mkPoll (Z.land v1 0x40) (Z.land v2 0x40) 0 c) in
  (if 0x100000 <? p_count p then -1 else p_count p, p_chip p).

(** One iteration of the polling loop of [ProgramWord]. *)
Definition program_poll_step (addr : Z) (p : poll) : poll + poll :=
  if p_prev p =? p_cur p then inr p
  else
    let '(v1, c1) := ReadFLASH addr 1 (p_chip p) in
    let prev := Z.land v1 0x40 in
    let '(cur, c2) := ReadFLASH addr 1 c1 in
    if anyset cur 0x20 then
      let '(v3, c3) := ReadFLASH addr 1 c2 in
      let prev := Z.land v3 0x40 in
      let '(v4, c4) := ReadFLASH addr 1 c3 in
      let cur := Z.land v4 0x40 in
      inr (mkPoll prev cur (if negb (prev =? cur) then 0xffffff else p_count p) c4)
    else
      let cur := Z.land cur 0x40 in
      let next := mkPoll prev cur (p_count p + 1) c2 in
      if 0x100000 <? p_count p then inr next else inl next.

Definition ProgramWord (addr val : Z) : ST C Z := fun c =>
  let '(_, c) := (WriteFLASH 0xAAA 0xAA >> WriteFLASH 0x555 0x55 >> WriteFLASH 0xAAA 0xA0 >>
                  WriteFLASH16 addr val) c in
  let '(v1, c) := ReadFLASH addr 1 c in
  let '(v2, c) := ReadFLASH addr 1 c in
  let p := run_poll (program_poll_step addr) (mkPoll (Z.land v1 0x40) (Z.land v2 0x40) 0 c) in
  (if 0x10000 <? p_count p then -1 else p_count p, p_chip p).

Definition sanity_check (s : state) : bool :=
  let b := g_buffer s in
  if negb (bool_decide (load_bytes b 0xff00 8 = biffboot_magic)) then false
  else if negb (b 0xfff0 =? 0xe9) then false
  else if negb (b 0xfff1 =? 0x0a) then false
  else if negb (b 0xfff2 =? 0xf1) then false
  else if negb (b 0xffff =? 0xff) then false
  else true.

Fixpoint write_sector_loop (s : state) (fuel : nat) (count : Z) : ST C unit :=
  match fuel with
  | O => ret tt
  | S fuel' =>
      if count <? g_writepos s then
        ProgramWord count (load16 (g_buffer s) count) >> write_sector_loop s fuel' (count + 2)
      else ret tt
  end.

(** Each iteration advances by two, so half the buffer is fuel enough. *)
Definition WriteSector (s : state) : ST C unit :=
  write_sector_loop s (Z.to_nat ((g_writepos s + 1) / 2)) 0.

Definition biffupgrade_open (s : state) : Z * state :=
  (0, mkState 0 (fill (g_buffer s) 0 0x10000 0)).

Definition biffupgrade_write (s : state) (ubuf : list Z) : ST C (Z * state) := fun c =>
  let count := Z.of_nat (length ubuf) in
  if 0x10000 <? u32 (g_writepos s + count) then ((- EINVAL, s), c)
  else
    let s := mkState (u32 (g_writepos s + count)) (store_bytes (g_buffer s) (g_writepos s) ubuf) in
    if g_writepos s =? 0x10000 then
      if negb (sanity_check s) then ((- EINVAL, s), c)
      else
        let '(_, c) := EraseSector c in
        let '(_, c) := WriteSector s c in
        ((count, s), c)
    else ((count, s), c).

(** [reg] is what [misc_register] returned; whether the window gets mapped. *)
Definition biffupgrade_init (reg : Z) : Z * bool :=
  if negb (reg =? 0) then (- EBUSY, false) else (0, true).

End Driver.

(** ** The chip behind the window *)

(** One 64 KiB sector. *)
Class BootWindow (C : Type) `{NorChip C} : Prop := {
  win_size : nor_size = 0x10000;
  win_sector : nor_sec_base 0 = 0 /\ nor_sec_len 0 = 0x10000
}.

Section Window.
Context {C : Type} {BusC : NorBus C} {ChipC : NorChip C} {WinC : BootWindow C}.

Lemma read_stable a d c : nor_ready c -> 0 <= a < 0x10000 -> ReadFLASH a d c = (nor_mem c a, c).
Proof.
  intros Hr Ha. unfold ReadFLASH. destruct (Z.ltb_spec 0x10000 a); [lia |].
  apply nor_read8; [done | rewrite win_size; lia].
Qed.

Lemma poll_done (step : @poll C -> poll + poll) p :
  (forall q, p_prev q = p_cur q -> step q = inr q) -> p_prev p = p_cur p ->
  run_poll step p = p.
Proof.
  intros Hs Hp. unfold run_poll. rewrite ploop_nloop.
  destruct (Pos2Nat.is_succ poll_bound) as [n ->]. cbn [nloop]. now rewrite Hs.
Qed.

Lemma EraseSector_ok c :
  nor_ready c -> exists c', EraseSector c = (0, c') /\ nor_ready c' /\
    forall x, 0 <= x < 0x10000 -> nor_mem c' x = 0xff.
Proof.
  intros Hr. pose proof (nor_erase c 0 Hr) as Hp. rewrite win_size in Hp.
  destruct win_sector as [S1 S2]. rewrite S1, S2 in Hp. cbv zeta in Hp. destruct Hp as (Hr' & Hmem); [lia |].
  unfold EraseSector, WriteFLASH, bind. cbn [fst snd].
  change (u8 0xAA) with 0xaa. change (u8 0x55) with 0x55.
  change (u8 0x80) with 0x80. change (u8 0x30) with 0x30.
  set (c' := bus_write8 0 0x30 _) in *.
  rewrite read_stable by (auto; lia). cbv beta iota. rewrite read_stable by (auto; lia).
  rewrite poll_done; [| | done].
  - exists c'. repeat split; auto. intros x Hx. rewrite Hmem by done. now rewrite fill_in by lia.
  - intros q Hq. unfold erase_poll_step. now rewrite Hq, Z.eqb_refl.
Qed.

Lemma ProgramWord_ok c a v :
  nor_ready c -> 0 <= a -> a + 2 <= 0x10000 -> 0 <= v < 0x10000 ->
  exists c', ProgramWord a v c = (0, c') /\ nor_ready c' /\
    (forall x, 0 <= x < 0x10000 -> x <> a -> x <> a + 1 -> nor_mem c' x = nor_mem c x) /\
    (nor_mem c a = 0xff -> nor_mem c (a + 1) = 0xff ->
     nor_mem c' a = u8 v /\ nor_mem c' (a + 1) = u8 (v / 0x100)).
Proof.
  intros Hr Ha1 Ha2 Hv. pose proof (nor_program c a v Hr) as Hp. rewrite win_size in Hp.
  cbv zeta in Hp. destruct Hp as (Hr' & Hmem); [lia.. |].
  unfold ProgramWord, WriteFLASH, WriteFLASH16, bind. cbn [fst snd]. rewrite u16_id by lia.
  change (u8 0xAA) with 0xaa. change (u8 0x55) with 0x55. change (u8 0xA0) with 0xa0.
  set (c' := bus_write16 a v _) in *.
  rewrite read_stable by (auto; lia). cbv beta iota. rewrite read_stable by (auto; lia).
  rewrite poll_done; [| | done].
  - exists c'. repeat split; auto; now apply Hmem.
  - intros q Hq. unfold program_poll_step. now rewrite Hq, Z.eqb_refl.
Qed.

Lemma write_sector_loop_ok s n : forall count c,
  nor_ready c -> 0 <= count -> g_writepos s = count + 2 * Z.of_nat n -> g_writepos s <= 0x10000 ->
  (forall i, count <= i < g_writepos s -> 0 <= g_buffer s i < 0x100) ->
  (forall x, count <= x < 0x10000 -> nor_mem c x = 0xff) ->
  exists c', write_sector_loop s n count c = (tt, c') /\ nor_ready c' /\
    (forall x, 0 <= x < count -> nor_mem c' x = nor_mem c x) /\
    (forall x, count <= x < g_writepos s -> nor_mem c' x = g_buffer s x).
Proof.
  induction n as [| n IH]; intros count c Hr H0 Hw Hle Hb Hff.
  { exists c. cbn. repeat split; auto; lia. }
  cbn [write_sector_loop]. destruct (Z.ltb_spec count (g_writepos s)); [| lia].
  pose proof (Hb count ltac:(lia)) as B0. pose proof (Hb (count + 1) ltac:(lia)) as B1.
  destruct (ProgramWord_ok c count (load16 (g_buffer s) count)) as (c1 & E & Hr1 & Hf & Hv);
    [done | lia | lia | now apply load16_range |].
  destruct Hv as [V0 V1]; [apply Hff; lia | apply Hff; lia |].
  destruct (load16_bytes _ _ B0 B1) as [L0 L1]. rewrite L0 in V0. rewrite L1 in V1.
  destruct (IH (count + 2) c1) as (c2 & E2 & Hr2 & Hf2 & Hv2); auto; try lia.
  { intros; apply Hb; lia. }
  { intros x Hx. rewrite Hf by lia. apply Hff. lia. }
  exists c2. rewrite (bind_eq _ _ _ _ _ E). split; [done |]. split; [done |]. split.
  - intros x Hx. rewrite Hf2, Hf by lia. done.
  - intros x Hx. destruct (Z.eq_dec x count) as [-> |]; [now rewrite Hf2 by lia |].
    destruct (Z.eq_dec x (count + 1)) as [-> |]; [now rewrite Hf2 by lia |]. apply Hv2. lia.
Qed.

Lemma upgrade_check_image s : sanity_check s = true <-> biffboot_image (g_buffer s).
Proof. exact (sanity_check_image (mkBootFp 0 (fun _ => 0) (g_buffer s) 0)). Qed.

(** C30: a write to /dev/biffupgrade touches the flash only when it completes a
    64 KiB image with the Biffboot signature and reset vector, and then the
    boot sector holds exactly that image; every other write leaves the chip as
    it was. *)
Theorem upgrade_all_or_nothing s ubuf c :
  nor_ready c -> 0 <= g_writepos s -> g_writepos s + zlen ubuf < 0x100000000 ->
  (forall i, 0 <= i < g_writepos s -> 0 <= g_buffer s i < 0x100) -> byte_list ubuf ->
  let full := store_bytes (g_buffer s) (g_writepos s) ubuf in
  let '(r, s', c') := biffupgrade_write s ubuf c in
  (g_writepos s + zlen ubuf = 0x10000 /\ biffboot_image full ->
     r = zlen ubuf /\ forall x, 0 <= x < 0x10000 -> nor_mem c' x = full x) /\
  (~ (g_writepos s + zlen ubuf = 0x10000 /\ biffboot_image full) -> c' = c).
Proof.
  intros Hr H0 Hlt Hb Hu full. unfold biffupgrade_write. fold (zlen ubuf).
  assert (0 <= zlen ubuf) by (unfold zlen; lia). rewrite u32_id by lia.
  cbn [g_writepos]. fold full.
  destruct (Z.ltb_spec 0x10000 (g_writepos s + zlen ubuf)) as [E | E]; [split; [lia | done] |].
  destruct (Z.eqb_spec (g_writepos s + zlen ubuf) 0x10000) as [E1 | E1]; [| split; [lia | done]].
  rewrite E1. pose proof (upgrade_check_image (mkState 0x10000 full)) as Hck. cbn [g_buffer] in Hck.
  destruct (sanity_check (mkState 0x10000 full)); cbn [negb];
    [| split; [intros [_ Hx%Hck]; discriminate | done]].
  assert (Himg : biffboot_image full) by now apply Hck.
  destruct (EraseSector_ok c Hr) as (c1 & -> & Hr1 & Hff). unfold WriteSector. cbn [g_writepos].
  destruct (write_sector_loop_ok (mkState 0x10000 full) (Z.to_nat ((0x10000 + 1) / 2)) 0 c1)
    as (c2 & -> & _ & _ & Hv); auto; cbn [g_writepos g_buffer]; try lia.
  2: { split; [auto | intros Hn; exfalso; apply Hn; auto]. }
  - intros i Hi. unfold full. destruct (Z.lt_ge_cases i (g_writepos s)).
    + rewrite store_bytes_out by lia. apply Hb. lia.
    + rewrite store_bytes_in by (unfold zlen in *; lia).
      apply (im_range ubuf (i - g_writepos s)); [done | lia].
Qed.

End Window.

(** ** A chip in the window

    The emulated chip seen through the window: commands are decoded from the
    offset, the address of an erase or program cycle selects the cell. *)
Record window : Type := mkWindow { win_flash : flash }.

Definition win_addr (f : flash) (a : Z) : Z :=
  match g_state f with CYCLE_ERASE | CYCLE_PROGRAM => 0x7f0000 + a | _ => a end.

#[export] Instance window_bus : NorBus window := {
  bus_write8 a v w := mkWindow (flash_writeb (win_addr (win_flash w) a) v (win_flash w));
  bus_write16 a v w := mkWindow (flash_writew (win_addr (win_flash w) a) v (win_flash w));
  bus_read8 a w := (default 0 (flash_readb (0x7f0000 + a) (win_flash w)), w);
  bus_read16 a w := (default 0 (flash_readw (0x7f0000 + a) (win_flash w)), w);
  bus_read32 a w := (default 0 (flash_readl (0x7f0000 + a) (win_flash w)), w)
}.

Lemma window_erase m a :
  bus_write8 a 0x30 (bus_write8 0x555 0x55 (bus_write8 0xaaa 0xaa
    (bus_write8 0xaaa 0x80 (bus_write8 0x555 0x55 (bus_write8 0xaaa 0xaa
      (mkWindow (mkFlash m CYCLE_READ))))))) =
  mkWindow (mkFlash (fill m (ADDR_TO_SECBASE (0x7f0000 + a)) (ADDR_TO_SECLEN (0x7f0000 + a)) 0xff)
    CYCLE_READ).
Proof. reflexivity. Qed.

Lemma window_program m a v :
  bus_write16 a v (bus_write8 0xaaa 0xa0 (bus_write8 0x555 0x55 (bus_write8 0xaaa 0xaa
    (mkWindow (mkFlash m CYCLE_READ))))) =
  mkWindow (mkFlash (store16 m (0x7f0000 + a) (u16 v)) CYCLE_READ).
Proof. reflexivity. Qed.

#[export] Instance window_chip : NorChip window.
Proof.
  refine {| nor_size := 0x10000; nor_ready := fun w => flash_ready (win_flash w);
            nor_mem := fun w a => g_backing (win_flash w) (0x7f0000 + a);
            nor_sec_base := fun _ => 0; nor_sec_len := fun _ => 0x10000 |}.
  - intros c a [_ H] _. apply H.
  - intros c a H Ha. cbn [bus_read8 window_bus]. unfold flash_readb.
    now rewrite (flash_read_ready _ _ 1 (g_backing (win_flash c) (0x7f0000 + a)))
      by (auto; unfold FLASH_SIZE; lia).
  - intros c a H H1 H2. cbn [bus_read16 window_bus]. unfold flash_readw.
    rewrite (flash_read_ready _ _ 2 (load16 (g_backing (win_flash c)) (0x7f0000 + a)))
      by (auto; unfold FLASH_SIZE; lia).
    unfold load16. now rewrite Z.add_assoc.
  - intros c a H H1 H2. cbn [bus_read32 window_bus]. unfold flash_readl.
    rewrite (flash_read_ready _ _ 4 (load32 (g_backing (win_flash c)) (0x7f0000 + a)))
      by (auto; unfold FLASH_SIZE; lia).
    unfold load32, load16. now rewrite !Z.add_assoc.
  - intros [[m st]] a [Hs Hb] Ha. cbn in Hs. subst st. cbv zeta. rewrite window_erase.
    cbn [win_flash g_backing]. split; [split; [done | now apply bytes_ok_fill] |].
    intros x Hx. rewrite SECBASE_div by (unfold FLASH_SIZE; lia).
    unfold ADDR_TO_SECLEN, fill. repeat zcase; try lia; Z.div_mod_to_equations; lia.
  - intros [[m st]] a v [Hs Hb] H1 H2 Hv. cbn in Hs. subst st. cbv zeta. rewrite window_program.
    cbn [win_flash g_backing]. rewrite u16_id by done.
    split; [split; [done | now apply bytes_ok_store16] |]. split.
    + intros x Hx N0 N1. apply store16_out; lia.
    + intros _ _. split; [apply store16_lo |].
      replace (0x7f0000 + (a + 1)) with (0x7f0000 + a + 1) by lia. apply store16_hi.
Defined.

#[export] Instance window_boot : BootWindow window.
Proof. split; [reflexivity | split; reflexivity]. Qed.

(** The last byte of the sample image. *)
Lemma upgrade_all_or_nothing_witness :
  let '(r, s', c') := biffupgrade_write (mkState 0xffff sample_boot) [0xff] (mkWindow used_flash) in
  r = 1 /\ forall x, 0 <= x < 0x10000 -> nor_mem c' x = store_bytes sample_boot 0xffff [0xff] x.
Proof.
  pose proof (upgrade_all_or_nothing (mkState 0xffff sample_boot) [0xff] (mkWindow used_flash)) as Hw.
  cbv zeta in Hw. destruct (biffupgrade_write _ _ _) as [[r s'] c']. apply Hw; clear Hw.
  - exact used_flash_ready.
  - cbn. lia.
  - vm_compute. reflexivity.
  - intros i Hi. apply sample_boot_byte.
  - solve_byte_list.
  - split; [reflexivity | now vm_compute].
Defined.

End Upgrade.
