(* ===== verification/Md5.v ===== *)
(** MD5 (biffconfig/src/md5.c): the state, the block function and the buffered
    [md5_append]/[md5_finish]; a specification after RFC 1321 (pad, split into
    blocks, fold), and the theorem that any sequence of appends computes it. *)
From Stdlib Require Import ZArith Lia.
From stdpp Require Import base list numbers strings.
From S2P Require Import Prelude.

Module Md5.

Definition T_MASK : Z := 0xffffffff.

(** [T1] to [T64], as the source spells them. *)
Definition T_table : list Z :=
  [Z.lxor T_MASK 0x28955b87; Z.lxor T_MASK 0x173848a9; 0x242070db; Z.lxor T_MASK 0x3e423111;
   Z.lxor T_MASK 0x0a83f050; 0x4787c62a; Z.lxor T_MASK 0x57cfb9ec; Z.lxor T_MASK 0x02b96afe;
   0x698098d8; Z.lxor T_MASK 0x74bb0850; Z.lxor T_MASK 0x0000a44e; Z.lxor T_MASK 0x76a32841;
   0x6b901122; Z.lxor T_MASK 0x02678e6c; Z.lxor T_MASK 0x5986bc71; 0x49b40821;
   Z.lxor T_MASK 0x09e1da9d; Z.lxor T_MASK 0x3fbf4cbf; 0x265e5a51; Z.lxor T_MASK 0x16493855;
   Z.lxor T_MASK 0x29d0efa2; 0x02441453; Z.lxor T_MASK 0x275e197e; Z.lxor T_MASK 0x182c0437;
   0x21e1cde6; Z.lxor T_MASK 0x3cc8f829; Z.lxor T_MASK 0x0b2af278; 0x455a14ed;
   Z.lxor T_MASK 0x561c16fa; Z.lxor T_MASK 0x03105c07; 0x676f02d9; Z.lxor T_MASK 0x72d5b375;
   Z.lxor T_MASK 0x0005c6bd; Z.lxor T_MASK 0x788e097e; 0x6d9d6122; Z.lxor T_MASK 0x021ac7f3;
   Z.lxor T_MASK 0x5b4115bb; 0x4bdecfa9; Z.lxor T_MASK 0x0944b49f; Z.lxor T_MASK 0x4140438f;
   0x289b7ec6; Z.lxor T_MASK 0x155ed805; Z.lxor T_MASK 0x2b10cf7a; 0x04881d05;
   Z.lxor T_MASK 0x262b2fc6; Z.lxor T_MASK 0x1924661a; 0x1fa27cf8; Z.lxor T_MASK 0x3b53a99a;
   Z.lxor T_MASK 0x0bd6ddbb; 0x432aff97; Z.lxor T_MASK 0x546bdc58; Z.lxor T_MASK 0x036c5fc6;
   0x655b59c3; Z.lxor T_MASK 0x70f3336d; Z.lxor T_MASK 0x00100b82; Z.lxor T_MASK 0x7a7ba22e;
   0x6fa87e4f; Z.lxor T_MASK 0x01d3191f; Z.lxor T_MASK 0x5cfebceb; 0x4e0811a1;
   Z.lxor T_MASK 0x08ac817d; Z.lxor T_MASK 0x42c50dca; 0x2ad7d2bb; Z.lxor T_MASK 0x14792c6e].

Definition T (i : nat) : Z := nth (i - 1) T_table 0.

Record abcd : Type := mkAbcd { h_a : Z; h_b : Z; h_c : Z; h_d : Z }.

Record md5_state : Type := mkMd5 { count0 : Z; count1 : Z; m_abcd : abcd; buf : list Z }.

Definition not32 (x : Z) : Z := Z.lxor x 0xffffffff.

Definition ROTATE_LEFT (x n : Z) : Z := Z.lor (u32 (Z.shiftl x n)) (Z.shiftr x (32 - n)).

Definition F (x y z : Z) : Z := Z.lor (Z.land x y) (Z.land (not32 x) z).

Definition G (x y z : Z) : Z := Z.lor (Z.land x z) (Z.land y (not32 z)).

Definition H (x y z : Z) : Z := Z.lxor (Z.lxor x y) z.

Definition I (x y z : Z) : Z := Z.lxor y (Z.lor x (not32 z)).

(** One [SET]: the new value of its first register. *)
Definition SET (f : Z -> Z -> Z -> Z) (a b c d x s ti : Z) : Z :=
  let t := u32 (a + f b c d + x + ti) in u32 (ROTATE_LEFT t s + b).

(** Word [k] of a block, little-endian. *)
Definition X (data : list Z) (k : Z) : Z :=
  let i := Z.to_nat (4 * k) in
  nth i data 0 + 0x100 * nth (i + 1) data 0 +
  0x10000 * nth (i + 2) data 0 + 0x1000000 * nth (i + 3) data 0.

(** The operations of each round in the source's order: word, shift, constant.
    The registers turn by one place from one operation to the next. *)
Definition round1 : list (Z * Z * Z) :=
  [(0, 7, T 1); (1, 12, T 2); (2, 17, T 3); (3, 22, T 4);
   (4, 7, T 5); (5, 12, T 6); (6, 17, T 7); (7, 22, T 8);
   (8, 7, T 9); (9, 12, T 10); (10, 17, T 11); (11, 22, T 12);
   (12, 7, T 13); (13, 12, T 14); (14, 17, T 15); (15, 22, T 16)].

Definition round2 : list (Z * Z * Z) :=
  [(1, 5, T 17); (6, 9, T 18); (11, 14, T 19); (0, 20, T 20);
   (5, 5, T 21); (10, 9, T 22); (15, 14, T 23); (4, 20, T 24);
   (9, 5, T 25); (14, 9, T 26); (3, 14, T 27); (8, 20, T 28);
   (13, 5, T 29); (2, 9, T 30); (7, 14, T 31); (12, 20, T 32)].

Definition round3 : list (Z * Z * Z) :=
  [(5, 4, T 33); (8, 11, T 34); (11, 16, T 35); (14, 23, T 36);
   (1, 4, T 37); (4, 11, T 38); (7, 16, T 39); (10, 23, T 40);
   (13, 4, T 41); (0, 11, T 42); (3, 16, T 43); (6, 23, T 44);
   (9, 4, T 45); (12, 11, T 46); (15, 16, T 47); (2, 23, T 48)].

Definition round4 : list (Z * Z * Z) :=
  [(0, 6, T 49); (7, 10, T 50); (14, 15, T 51); (5, 21, T 52);
   (12, 6, T 53); (3, 10, T 54); (10, 15, T 55); (1, 21, T 56);
   (8, 6, T 57); (15, 10, T 58); (6, 15, T 59); (13, 21, T 60);
   (4, 6, T 61); (11, 10, T 62); (2, 15, T 63); (9, 21, T 64)].

Definition do_round (f : Z -> Z -> Z -> Z) (data : list Z) (ops : list (Z * Z * Z)) (h : abcd)
  : abcd :=
  foldl (fun h '(k, s, ti) =>
    mkAbcd (h_d h) (SET f (h_a h) (h_b h) (h_c h) (h_d h) (X data k) s ti) (h_b h) (h_c h)) h ops.

Definition md5_process (h : abcd) (data : list Z) : abcd :=
  let r := do_round I data round4 (do_round H data round3
             (do_round G data round2 (do_round F data round1 h))) in
  mkAbcd (u32 (h_a h + h_a r)) (u32 (h_b h + h_b r)) (u32 (h_c h + h_c r)) (u32 (h_d h + h_d r)).

(** [md5_init] sets everything but the block buffer. *)
Definition md5_init (pms : md5_state) : md5_state :=
  mkMd5 0 0 (mkAbcd 0x67452301 (Z.lxor T_MASK 0x10325476) (Z.lxor T_MASK 0x67452301) 0x10325476)
    (buf pms).

(** [memcpy] into the block buffer. *)
Definition copy_into (b : list Z) (offset : nat) (p : list Z) : list Z :=
  take offset b ++ p ++ drop (offset + length p) b.

(** [for (; left >= 64; p += 64, left -= 64) md5_process(pms, p)] *)
Fixpoint full_blocks (fuel : nat) (h : abcd) (p : list Z) : abcd * list Z :=
  match fuel with
  | O => (h, p)
  | S fuel' =>
      if (64 <=? length p)%nat then full_blocks fuel' (md5_process h (take 64 p)) (drop 64 p)
      else (h, p)
  end.

(** [data] is the [nbytes] bytes appended; the sums with [offset] are of type
    [int]. *)
Definition md5_append (pms : md5_state) (data : list Z) : md5_state :=
  let nbytes := Z.of_nat (length data) in
  let offset := Z.to_nat (Z.land (Z.shiftr (count0 pms) 3) 63) in
  let nbits := u32 (Z.shiftl nbytes 3) in
  if nbytes <=? 0 then pms
  else
    let c1 := u32 (count1 pms + Z.shiftr nbytes 29) in
    let c0 := u32 (count0 pms + nbits) in
    let c1 := if c0 <? nbits then u32 (c1 + 1) else c1 in
    let rest h b p :=
      let '(h, p) := full_blocks (length p) h p in
      mkMd5 c0 c1 h (if (length p =? 0)%nat then b else copy_into b 0 p) in
    if (offset =? 0)%nat then rest (m_abcd pms) (buf pms) data
    else
      let copy := if 64 <? s32 (Z.of_nat offset + nbytes) then (64 - offset)%nat else length data in
      let b := copy_into (buf pms) offset (take copy data) in
      if s32 (Z.of_nat offset + Z.of_nat copy) <? 64 then mkMd5 c0 c1 (m_abcd pms) b
      else rest (md5_process (m_abcd pms) b) b (drop copy data).

Definition pad : list Z := 0x80 :: repeat 0 63.

Definition le_byte (w : Z) (i : nat) : Z := u8 (Z.shiftr w (8 * Z.of_nat i)).

Definition le_bytes (w : Z) : list Z := map (le_byte w) (seq 0 4).

Definition md5_finish (pms : md5_state) : list Z * md5_state :=
  let data := le_bytes (count0 pms) ++ le_bytes (count1 pms) in
  let pms := md5_append pms
    (take (Z.to_nat (Z.land (55 - Z.shiftr (count0 pms) 3) 63 + 1)) pad) in
  let pms := md5_append pms data in
  let h := m_abcd pms in
  (le_bytes (h_a h) ++ le_bytes (h_b h) ++ le_bytes (h_c h) ++ le_bytes (h_d h), pms).

(** ** The specification *)

(** The additive constants of RFC 1321 as numbers. *)
Definition rfc_T : list Z :=
  [0xd76aa478; 0xe8c7b756; 0x242070db; 0xc1bdceee; 0xf57c0faf; 0x4787c62a; 0xa8304613; 0xfd469501;
   0x698098d8; 0x8b44f7af; 0xffff5bb1; 0x895cd7be; 0x6b901122; 0xfd987193; 0xa679438e; 0x49b40821;
   0xf61e2562; 0xc040b340; 0x265e5a51; 0xe9b6c7aa; 0xd62f105d; 0x02441453; 0xd8a1e681; 0xe7d3fbc8;
   0x21e1cde6; 0xc33707d6; 0xf4d50d87; 0x455a14ed; 0xa9e3e905; 0xfcefa3f8; 0x676f02d9; 0x8d2a4c8a;
   0xfffa3942; 0x8771f681; 0x6d9d6122; 0xfde5380c; 0xa4beea44; 0x4bdecfa9; 0xf6bb4b60; 0xbebfbc70;
   0x289b7ec6; 0xeaa127fa; 0xd4ef3085; 0x04881d05; 0xd9d4d039; 0xe6db99e5; 0x1fa27cf8; 0xc4ac5665;
   0xf4292244; 0x432aff97; 0xab9423a7; 0xfc93a039; 0x655b59c3; 0x8f0ccc92; 0xffeff47d; 0x85845dd1;
   0x6fa87e4f; 0xfe2ce6e0; 0xa3014314; 0x4e0811a1; 0xf7537e82; 0xbd3af235; 0x2ad7d2bb; 0xeb86d391].

Definition rfc_shift (i : nat) : Z :=
  nth (i mod 4) (nth (i / 16) [[7; 12; 17; 22]; [5; 9; 14; 20]; [4; 11; 16; 23]; [6; 10; 15; 21]] []) 0.

(** Operation [i] of 64: its function, word index, shift and constant. *)
Definition rfc_fun (i : nat) : Z -> Z -> Z -> Z :=
  match (i / 16)%nat with 0%nat => F | 1%nat => G | 2%nat => H | _ => I end.

Definition rfc_word (i : nat) : Z :=
  let i' := Z.of_nat i in
  match (i / 16)%nat with
  | 0%nat => i'
  | 1%nat => (5 * i' + 1) mod 16
  | 2%nat => (3 * i' + 5) mod 16
  | _ => (7 * i') mod 16
  end.

Definition rfc_step (data : list Z) (h : abcd) (i : nat) : abcd :=
  mkAbcd (h_d h) (SET (rfc_fun i) (h_a h) (h_b h) (h_c h) (h_d h)
                    (X data (rfc_word i)) (rfc_shift i) (nth i rfc_T 0)) (h_b h) (h_c h).

Definition rfc_block (h : abcd) (data : list Z) : abcd :=
  let r := foldl (rfc_step data) h (seq 0 64) in
  mkAbcd (u32 (h_a h + h_a r)) (u32 (h_b h + h_b r)) (u32 (h_c h + h_c r)) (u32 (h_d h + h_d r)).

Fixpoint rfc_blocks (n : nat) (h : abcd) (l : list Z) : abcd :=
  match n with
  | O => h
  | S n' => rfc_blocks n' (rfc_block h (take 64 l)) (drop 64 l)
  end.

(** A one bit, zeroes up to 56 bytes modulo 64, the length in bits. *)
Definition rfc_pad (m : list Z) : list Z :=
  let bits := (8 * Z.of_nat (length m)) mod 2 ^ 64 in
  m ++ [0x80] ++ repeat 0 (Z.to_nat ((55 - Z.of_nat (length m)) mod 64)) ++
  le_bytes (bits mod 2 ^ 32) ++ le_bytes (bits / 2 ^ 32).

Definition rfc_init : abcd := mkAbcd 0x67452301 0xefcdab89 0x98badcfe 0x10325476.

Definition rfc_md5 (m : list Z) : list Z :=
  let p := rfc_pad m in
  let h := rfc_blocks (length p / 64) rfc_init p in
  le_bytes (h_a h) ++ le_bytes (h_b h) ++ le_bytes (h_c h) ++ le_bytes (h_d h).

(** ** The block function *)

Lemma do_round_spec f data ops h (ks : list nat) :
  ops = map (fun i => (rfc_word i, rfc_shift i, nth i rfc_T 0)) ks ->
  (forall i, In i ks -> rfc_fun i = f) ->
  do_round f data ops h = foldl (rfc_step data) h ks.
Proof.
  intros -> Hf. unfold do_round. revert h. induction ks as [| i ks IH]; intros h; [done |].
  cbn [map foldl]. rewrite IH by (intros; apply Hf; now right). f_equal.
  unfold rfc_step. now rewrite (Hf i) by now left.
Qed.

Lemma md5_process_rfc h data : md5_process h data = rfc_block h data.
Proof.
  unfold md5_process, rfc_block.
  change (seq 0 64) with (seq 0 16 ++ seq 16 16 ++ seq 32 16 ++ seq 48 16).
  rewrite !foldl_app.
  rewrite (do_round_spec F data round1 h (seq 0 16)),
    (do_round_spec G data round2 _ (seq 16 16)),
    (do_round_spec H data round3 _ (seq 32 16)),
    (do_round_spec I data round4 _ (seq 48 16)); try reflexivity;
    intros i Hi; cbn [seq In] in Hi;
    repeat (destruct Hi as [<- | Hi]; [reflexivity |]); destruct Hi.
Qed.

(** ** Blocks of a concatenation *)

Lemma rfc_blocks_app n k h a b :
  length a = (64 * n)%nat -> rfc_blocks (n + k) h (a ++ b) = rfc_blocks k (rfc_blocks n h a) b.
Proof.
  revert h a. induction n as [| n IH]; intros h a Ha.
  - destruct a; [done | cbn in Ha; lia].
  - cbn [rfc_blocks Nat.add]. rewrite take_app_le, drop_app_le by lia.
    apply IH. rewrite length_drop. lia.
Qed.

Lemma rfc_blocks_prefix n h a b :
  (64 * n <= length a)%nat -> rfc_blocks n h (a ++ b) = rfc_blocks n h a.
Proof.
  revert h a. induction n as [| n IH]; intros h a Ha; [done |].
  cbn [rfc_blocks]. rewrite take_app_le, drop_app_le by lia. apply IH. rewrite length_drop. lia.
Qed.

Lemma full_blocks_spec fuel h p :
  (length p <= fuel)%nat ->
  full_blocks fuel h p = (rfc_blocks (length p / 64) h p, drop (64 * (length p / 64)) p).
Proof.
  revert h p. induction fuel as [| fuel IH]; intros h p Hf.
  - destruct p; [done | cbn in Hf; lia].
  - cbn [full_blocks]. destruct (Nat.leb_spec 64 (length p)) as [Hl | Hl].
    + rewrite IH by (rewrite length_drop; lia). rewrite length_drop, md5_process_rfc, drop_drop.
      replace (length p / 64)%nat with (S ((length p - 64) / 64))
        by (pose proof (Nat.div_add (length p - 64) 1 64);
            replace (length p - 64 + 1 * 64)%nat with (length p) in * by lia; lia).
      cbn [rfc_blocks]. f_equal. f_equal. lia.
    + now rewrite Nat.div_small by lia.
Qed.

(** ** The buffered state *)

(** [pms] holds the message [m]: its length in bits modulo 2^64, the digest of
    its whole blocks, the rest in the buffer. *)
Record repr (m : list Z) (pms : md5_state) : Prop := {
  rp_count : count0 pms + 2 ^ 32 * count1 pms = (8 * Z.of_nat (length m)) mod 2 ^ 64;
  rp_c0 : 0 <= count0 pms < 2 ^ 32;
  rp_c1 : 0 <= count1 pms < 2 ^ 32;
  rp_len : length (buf pms) = 64%nat;
  rp_abcd : m_abcd pms = rfc_blocks (length m / 64) rfc_init m;
  rp_buf : take (length m mod 64) (buf pms) = drop (64 * (length m / 64)) m
}.

Lemma repr_init pms : length (buf pms) = 64%nat -> repr [] (md5_init pms).
Proof. intros Hb. split; cbn; try lia; done. Qed.

Lemma repr_offset m pms : repr m pms ->
  Z.to_nat (Z.land (Z.shiftr (count0 pms) 3) 63) = (length m mod 64)%nat.
Proof.
  intros [Hc H0 H1 _ _ _]. change 63 with (Z.ones 6). rewrite Z.land_ones, Z.shiftr_div_pow2 by lia.
  apply Nat2Z.inj. rewrite Nat2Z.inj_mod.
  change (2 ^ 3) with 8. change (2 ^ 6) with 64. change (Z.of_nat 64) with 64.
  rewrite Z2Nat.id by (apply Z.mod_pos_bound; lia).
  change (2 ^ 32) with 4294967296 in *. change (2 ^ 64) with 18446744073709551616 in *.
  Z.div_mod_to_equations. lia.
Qed.

(** The 64-bit count. *)
Lemma count_add c0 c1 L n :
  0 <= c0 < 2 ^ 32 -> 0 <= c1 < 2 ^ 32 -> 0 <= L -> 0 < n < 2 ^ 31 ->
  c0 + 2 ^ 32 * c1 = (8 * L) mod 2 ^ 64 ->
  let nbits := u32 (Z.shiftl n 3) in
  let c0' := u32 (c0 + nbits) in
  let c1' := u32 (c1 + Z.shiftr n 29) in
  let c1'' := if c0' <? nbits then u32 (c1' + 1) else c1' in
  c0' + 2 ^ 32 * c1'' = (8 * (L + n)) mod 2 ^ 64 /\ 0 <= c0' < 2 ^ 32 /\ 0 <= c1'' < 2 ^ 32.
Proof.
  intros H0 H1 HL Hn E. cbv zeta. rewrite Z.shiftl_mul_pow2, Z.shiftr_div_pow2 by lia.
  unfold u32. change (2 ^ 3) with 8. change (2 ^ 29) with 536870912. change (2 ^ 31) with 2147483648 in *.
  change (2 ^ 32) with 4294967296 in *. change (2 ^ 64) with 18446744073709551616 in *.
  split; [| split; [| zcase]; apply Z.mod_pos_bound; lia].
  zcase; Z.div_mod_to_equations; lia.
Qed.

Lemma length_copy_into b o p :
  length b = 64%nat -> (o + length p <= 64)%nat -> length (copy_into b o p) = 64%nat.
Proof.
  intros Hb Ho. unfold copy_into. rewrite !length_app, length_take, length_drop. lia.
Qed.

Lemma take_copy_into b o p :
  length b = 64%nat -> (o + length p <= 64)%nat ->
  take (o + length p) (copy_into b o p) = take o b ++ p.
Proof.
  intros Hb Ho. unfold copy_into. rewrite app_assoc, take_app_le, take_ge; try done;
    rewrite length_app, length_take; lia.
Qed.

(** Whole blocks of [d] after a message [a] that ends on a block boundary. *)
Lemma rest_repr a d c0 c1 h b n :
  length a = (64 * n)%nat -> h = rfc_blocks n rfc_init a -> length b = 64%nat ->
  0 <= c0 < 2 ^ 32 -> 0 <= c1 < 2 ^ 32 ->
  c0 + 2 ^ 32 * c1 = (8 * Z.of_nat (length (a ++ d))) mod 2 ^ 64 ->
  repr (a ++ d)
    (let '(h, p) := full_blocks (length d) h d in
     mkMd5 c0 c1 h (if (length p =? 0)%nat then b else copy_into b 0 p)).
Proof.
  intros Ha -> Hb H0 H1 Hc. rewrite full_blocks_spec by lia.
  pose proof (Nat.div_mod_eq (length d) 64) as Hdm.
  pose proof (Nat.mod_upper_bound (length d) 64 ltac:(lia)) as Hub.
  assert (Hq : (length (a ++ d) / 64 = n + length d / 64)%nat)
    by (rewrite length_app, Ha, Nat.mul_comm, Nat.div_add_l; lia).
  assert (Hr : (length (a ++ d) mod 64 = length d mod 64)%nat)
    by (rewrite length_app, Ha, Nat.add_comm, (Nat.mul_comm 64), Nat.Div0.mod_add; lia).
  set (p := drop (64 * (length d / 64)) d).
  assert (Hp : length p = (length d mod 64)%nat) by (unfold p; rewrite length_drop; lia).
  split; cbn [count0 count1 m_abcd buf]; auto.
  - destruct (Nat.eqb_spec (length p) 0); [done |]. apply length_copy_into; [done | lia].
  - rewrite Hq. symmetry. now apply rfc_blocks_app.
  - rewrite Hq, Hr, drop_app_ge by lia.
    replace (64 * (n + length d / 64) - length a)%nat with (64 * (length d / 64))%nat by lia.
    fold p. rewrite <- Hp. destruct (Nat.eqb_spec (length p) 0) as [E | E].
    + rewrite E. symmetry. now apply nil_length_inv.
    + apply (take_copy_into b 0 p); [done | lia].
Qed.

Lemma md5_append_repr m d pms :
  repr m pms -> 0 <= Z.of_nat (length d) <= 2 ^ 31 - 64 -> repr (m ++ d) (md5_append pms d).
Proof.
  intros Hm Hd. unfold md5_append. rewrite (repr_offset m pms Hm).
  destruct (Z.leb_spec (Z.of_nat (length d)) 0) as [E | E].
  { assert (d = []) as -> by (apply nil_length_inv; lia). now rewrite app_nil_r. }
  pose proof Hm as [Hc H0 H1 Hb Ha Hbuf].
  destruct (count_add (count0 pms) (count1 pms) (Z.of_nat (length m)) (Z.of_nat (length d)))
    as (Hc' & H0' & H1'); auto; try lia.
  rewrite <- Nat2Z.inj_add, <- length_app in Hc'.
  set (c0 := u32 (count0 pms + _)) in *.
  set (c1 := if c0 <? _ then _ else _) in *. cbv zeta.
  set (r := (length m mod 64)%nat) in *. set (q := (length m / 64)%nat) in *.
  assert (Hqr : length m = (64 * q + r)%nat) by apply Nat.div_mod_eq.
  assert (Hr : (r < 64)%nat) by (apply Nat.mod_upper_bound; lia).
  destruct (Nat.eqb_spec r 0) as [E0 | E0].
  { apply (rest_repr m d c0 c1 (m_abcd pms) (buf pms) q); auto; lia. }
  rewrite (s32_id (Z.of_nat r + Z.of_nat (length d))) by lia. set (copy := if 64 <? _ then _ else _).
  assert (Hcopy : copy = Nat.min (64 - r) (length d))
    by (unfold copy; destruct (Z.ltb_spec 64 (Z.of_nat r + Z.of_nat (length d))); lia).
  assert (Htl : length (take copy d) = copy) by (rewrite length_take; lia).
  assert (Hblen : length (copy_into (buf pms) r (take copy d)) = 64%nat)
    by (apply length_copy_into; [done | lia]).
  assert (Htk : take (r + copy) (copy_into (buf pms) r (take copy d)) =
                drop (64 * q) m ++ take copy d)
    by (rewrite <- Htl at 1; rewrite take_copy_into by lia; now rewrite Hbuf).
  rewrite s32_id by lia. destruct (Z.ltb_spec (Z.of_nat r + Z.of_nat copy) 64) as [E1 | E1].
  - assert (copy = length d) as Ecd by lia. rewrite Ecd, (take_ge d) in * by lia.
    assert (Hq' : (length (m ++ d) / 64 = q)%nat)
      by (rewrite length_app, Hqr; symmetry; apply (Nat.div_unique _ 64 q (r + length d)); lia).
    assert (Hr' : (length (m ++ d) mod 64 = r + length d)%nat)
      by (rewrite length_app, Hqr; symmetry; apply (Nat.mod_unique _ 64 q); lia).
    split; cbn [count0 count1 m_abcd buf]; auto.
    + rewrite Hq', Ha. symmetry. apply rfc_blocks_prefix. lia.
    + rewrite Hq', Hr', Htk, drop_app_le by lia. done.
  - assert (r + copy = 64)%nat as E64 by lia. rewrite E64, take_ge in Htk by lia.
    replace (m ++ d) with ((m ++ take copy d) ++ drop copy d) in *
      by (rewrite <- app_assoc; now rewrite take_drop).
    apply (rest_repr _ (drop copy d) c0 c1 _ _ (q + 1)); auto.
    + rewrite length_app. lia.
    + rewrite md5_process_rfc, Htk, Ha.
      replace (m ++ take copy d) with (take (64 * q) m ++ drop (64 * q) m ++ take copy d)
        by (rewrite app_assoc; now rewrite take_drop).
      rewrite rfc_blocks_app by (rewrite length_take; lia). cbn [rfc_blocks].
      rewrite (take_ge (drop (64 * q) m ++ take copy d)) by (rewrite <- Htk; lia). f_equal.
      rewrite <- (take_drop (64 * q) m) at 1. apply rfc_blocks_prefix. rewrite length_take. lia.
Qed.

(** ** The digest *)

Lemma pad_take k : (k <= 63)%nat -> take (S k) pad = [0x80] ++ repeat 0 k.
Proof.
  intros Hk. unfold pad. cbn [take app]. f_equal.
  replace 63%nat with (k + (63 - k))%nat by lia. rewrite repeat_app.
  now rewrite take_app_le, take_ge by (rewrite repeat_length; lia).
Qed.

Lemma md5_finish_spec m pms : repr m pms -> fst (md5_finish pms) = rfc_md5 m.
Proof.
  intros Hm. pose proof Hm as [Hc H0 H1 _ _ _]. unfold md5_finish.
  set (k := Z.to_nat ((55 - Z.of_nat (length m)) mod 64)).
  pose proof (Z.mod_pos_bound (55 - Z.of_nat (length m)) 64 ltac:(lia)) as Hk.
  replace (Z.to_nat (Z.land (55 - Z.shiftr (count0 pms) 3) 63 + 1)) with (S k).
  2: { unfold k. change 63 with (Z.ones 6). rewrite Z.land_ones, Z.shiftr_div_pow2 by lia.
       change (2 ^ 6) with 64. change (2 ^ 3) with 8. change (2 ^ 32) with 4294967296 in *.
       change (2 ^ 64) with 18446744073709551616 in *. Z.div_mod_to_equations. lia. }
  rewrite pad_take by lia.
  set (len := le_bytes (count0 pms) ++ le_bytes (count1 pms)).
  assert (Hp : rfc_pad m = (m ++ [0x80] ++ repeat 0 k) ++ len).
  { unfold rfc_pad, len. fold k. rewrite <- Hc. rewrite <- !app_assoc. do 5 f_equal.
    - rewrite Z.mul_comm, Z.mod_add, Z.mod_small; lia.
    - rewrite Z.mul_comm, Z.div_add, Z.div_small; lia. }
  assert (Hr : repr (rfc_pad m) (md5_append (md5_append pms ([0x80] ++ repeat 0 k)) len)).
  { rewrite Hp. apply md5_append_repr; [apply md5_append_repr; [done |] |].
    - rewrite length_app, repeat_length. cbn [length]. lia.
    - unfold len. rewrite length_app. cbn. lia. }
  cbn [fst]. rewrite (rp_abcd _ _ Hr). reflexivity.
Qed.

(** C4: MD5 is computed correctly however the message is fed: for any sequence
    of [md5_append] calls after [md5_init] (whatever was in the block buffer),
    each of up to 2^31 - 64 bytes, [md5_finish] returns the RFC 1321 digest of
    the concatenation.  With more bytes in one call the [int] sum of the offset
    and the length may overflow. *)
Theorem md5_any_split pms parts :
  length (buf pms) = 64%nat -> Forall (fun p => Z.of_nat (length p) <= 2 ^ 31 - 64) parts ->
  fst (md5_finish (foldl md5_append (md5_init pms) parts)) = rfc_md5 (concat parts).
Proof.
  intros Hb Hp. apply md5_finish_spec.
  enough (forall m s, repr m s -> repr (m ++ concat parts) (foldl md5_append s parts)) as Hgen
    by (apply (Hgen [] _ (repr_init pms Hb))).
  induction Hp as [| p parts Hl Hp IH]; intros m s Hs; cbn [foldl concat].
  - now rewrite app_nil_r.
  - rewrite app_assoc. apply IH, md5_append_repr; [done | lia].
Qed.

Definition garbage : md5_state := mkMd5 1 2 (mkAbcd 3 4 5 6) (repeat 0xcc 64).

Lemma md5_any_split_witness :
  fst (md5_finish (foldl md5_append (md5_init garbage) [str "mess"; []; str "age digest"])) =
  rfc_md5 (str "message digest").
Proof.
  apply (md5_any_split garbage [str "mess"; []; str "age digest"]); [reflexivity |].
  repeat (apply Forall_cons_2; [vm_compute; discriminate |]). apply Forall_nil_2.
Defined.

Definition md5_hex (m : list Z) : list Z :=
  hex (fst (md5_finish (md5_append (md5_init garbage) m))).

(** The implementation reproduces the test suite of RFC 1321 (A.5). *)
Lemma md5_rfc_test_suite :
  map md5_hex (map str
    [String.EmptyString;
     "a";
     "abc";
     "message digest";
     "abcdefghijklmnopqrstuvwxyz";
     "ABCDEFGHIJKLMNOPQRSTUVWXYZabcdefghijklmnopqrstuvwxyz0123456789";
     "12345678901234567890123456789012345678901234567890123456789012345678901234567890"]) =
  map str
    ["d41d8cd98f00b204e9800998ecf8427e";
     "0cc175b9c0f1b6a831c399e269772661";
     "900150983cd24fb0d6963f7d28e17f72";
     "f96b697d7cb7938d525a2f31aaf161d0";
     "c3fcd3d76192e4007dfb496cca67e13b";
     "d174ab98d277d9f5a5611c2c9f419d9f";
     "57edf4a22be3c955ac49da2e2107b67a"].
Proof. vm_compute. reflexivity. Qed.

End Md5.
