(* ===== verification/BiffConfig.v ===== *)
(** The boot configuration tool (biffconfig/src/biffconfig.c): the 8 KiB
    configuration block with its MD5, reading and setting a parameter, and the
    whole program run on the flash device. *)
From Stdlib Require Import ZArith Lia.
From stdpp Require Import base list numbers strings.
From S2P Require Import Prelude Md5.

Module Config.

(** ** The block: [struct _cfg_vals] is packed *)

Definition OFF_bootsource : Z := 4.

Definition OFF_console : Z := 5.

Definition OFF_nic : Z := 6.

Definition OFF_boottype : Z := 7.

Definition OFF_loadaddress : Z := 8.

Definition OFF_cmndline : Z := 12.

Definition sizeof_cmndline : Z := 1024.

Definition OFF_kernelmax : Z := 1036.

Definition OFF_digest : Z := 0x1ff0.

Definition sizeof_cfg : Z := 0x2000.

Inductive cfg_index : Type :=
  | CFG_BOOTSOURCE | CFG_CONSOLE | CFG_NIC | CFG_BOOTTYPE | CFG_LOADADDRESS | CFG_CMNDLINE
  | CFG_KERNELMAX.

#[export] Instance cfg_index_eq : EqDecision cfg_index.
Proof. solve_decision. Defined.

Record cfg_param : Type := mkParam { p_name : list Z; p_index : cfg_index; p_help : list Z }.

Definition g_params : list cfg_param :=
  [mkParam (str "bootsource") CFG_BOOTSOURCE (str "flash|MMC|Net");
   mkParam (str "console") CFG_CONSOLE (str "disabled|enabled");
   mkParam (str "nic") CFG_NIC (str "disabled|enabled|promiscuous");
   mkParam (str "boottype") CFG_BOOTTYPE (str "flatbin|Linux|Multiboot|Coreboot");
   mkParam (str "loadaddress") CFG_LOADADDRESS (str "<RAM address>");
   mkParam (str "cmndline") CFG_CMNDLINE (str "<string>");
   mkParam (str "kernelmax") CFG_KERNELMAX (str "<count of 64k sectors>")].

Definition streq (a b : list Z) : bool := bool_decide (a = b).

Ltac solve_nonzero := apply (bool_decide_unpack _); vm_compute; exact I.

(** ** printf("%x") and sscanf("%x") *)

(** Hexadecimal digits of [v] in front of [acc]; eight digits hold 32 bits. *)
Fixpoint hexn (fuel : nat) (v : Z) (acc : list Z) : list Z :=
  match fuel with
  | O => acc
  | S fuel' =>
      if v <? 16 then hex_digit v :: acc else hexn fuel' (v / 16) (hex_digit (v mod 16) :: acc)
  end.

Definition print_x (v : Z) : list Z := hexn 8 v [].

Definition hexval (c : Z) : option Z :=
  if (48 <=? c) && (c <=? 57) then Some (c - 48)
  else if (97 <=? c) && (c <=? 102) then Some (c - 87)
  else if (65 <=? c) && (c <=? 70) then Some (c - 55)
  else None.

Definition isspace (c : Z) : bool := (c =? 32) || ((9 <=? c) && (c <=? 13)).

Fixpoint skip_spaces (s : list Z) : list Z :=
  match s with c :: s' => if isspace c then skip_spaces s' else s | [] => [] end.

(** Value of the leading digits and how many there are. *)
Fixpoint scan_digits (s : list Z) (acc : Z) (n : nat) : Z * nat :=
  match s with
  | c :: s' =>
      match hexval c with Some d => scan_digits s' (acc * 16 + d) (S n) | None => (acc, n) end
  | [] => (acc, n)
  end.

(** [sscanf(s, "%x", &v)]: what is stored in [v] when it returns 1.  Digits that
    stand for more than 32 bits give the largest number, whatever the sign, as
    strtoul does. *)
Definition sscanf_x (s : list Z) : option Z :=
  let s := skip_spaces s in
  let '(neg, s) :=
    match s with
    | c :: s' => if c =? 45 then (true, s') else if c =? 43 then (false, s') else (false, s)
    | [] => (false, [])
    end in
  let s :=
    match s with
    | c :: x :: s' => if (c =? 48) && ((x =? 120) || (x =? 88)) then s' else s
    | _ => s
    end in
  let '(v, n) := scan_digits s 0 0 in
  if (n =? 0)%nat then None
  else if 0xffffffff <? v then Some 0xffffffff
  else Some (u32 (if neg then - v else v)).

(** [strncmp(val, "0x", 2) == 0], and the rest of [val]. *)
Definition strip_0x (val : list Z) : option (list Z) :=
  match val with
  | c :: x :: rest => if (c =? 48) && (x =? 120) then Some rest else None
  | _ => None
  end.

Definition parse_number (val : list Z) : option Z :=
  match strip_0x val with Some rest => sscanf_x rest | None => None end.

(** ** Parameters *)

Section Tool.
(** The uninitialised [md5_state_t] on the stack of [config_get_md5]. *)
Context (pms : Md5.md5_state).

Definition config_get_md5 (g : mem) : list Z :=
  fst (Md5.md5_finish (Md5.md5_append (Md5.md5_init pms) (load_bytes g 0 0x1ff0))).

Definition render (index : cfg_index) (g : mem) : list Z :=
  match index with
  | CFG_BOOTSOURCE =>
      let v := g OFF_bootsource in
      if v =? 0 then str "flash" else if v =? 1 then str "MMC" else if v =? 2 then str "Net"
      else str "Invalid"
  | CFG_CONSOLE =>
      let v := g OFF_console in
      if v =? 0 then str "disabled" else if v =? 1 then str "enabled" else str "Invalid"
  | CFG_NIC =>
      let v := g OFF_nic in
      if v =? 0 then str "disabled" else if v =? 1 then str "enabled"
      else if v =? 2 then str "promiscuous" else str "Invalid"
  | CFG_BOOTTYPE =>
      let v := g OFF_boottype in
      if v =? 0 then str "flatbin" else if v =? 1 then str "Linux"
      else if v =? 2 then str "Multiboot" else if v =? 3 then str "Coreboot" else str "Invalid"
  | CFG_LOADADDRESS => str "0x" ++ print_x (load32 g OFF_loadaddress)
  | CFG_CMNDLINE => cstr g OFF_cmndline (Z.to_nat sizeof_cmndline)
  | CFG_KERNELMAX => str "0x" ++ print_x (load16 g OFF_kernelmax)
  end.

(** The switch of [setval]: the block with the new value, if it is accepted. *)
Definition set_field (index : cfg_index) (val : list Z) (g : mem) : option mem :=
  match index with
  | CFG_BOOTSOURCE =>
      if streq val (str "flash") then Some (store g OFF_bootsource 0)
      else if streq val (str "MMC") then Some (store g OFF_bootsource 1)
      else if streq val (str "Net") then Some (store g OFF_bootsource 2)
      else None
  | CFG_CONSOLE =>
      if streq val (str "disabled") then Some (store g OFF_console 0)
      else if streq val (str "enabled") then Some (store g OFF_console 1)
      else None
  | CFG_NIC =>
      if streq val (str "disabled") then Some (store g OFF_nic 0)
      else if streq val (str "enabled") then Some (store g OFF_nic 1)
      else if streq val (str "promiscuous") then Some (store g OFF_nic 2)
      else None
  | CFG_BOOTTYPE =>
      if streq val (str "flatbin") then Some (store g OFF_boottype 0)
      else if streq val (str "Linux") then Some (store g OFF_boottype 1)
      else if streq val (str "Multiboot") then Some (store g OFF_boottype 2)
      else if streq val (str "Coreboot") then Some (store g OFF_boottype 3)
      else None
  | CFG_LOADADDRESS =>
      match parse_number val with Some v => Some (store32 g OFF_loadaddress (u32 v)) | None => None end
  | CFG_CMNDLINE =>
      if sizeof_cmndline <=? Z.of_nat (length val) then None
      else Some (store_bytes g OFF_cmndline (val ++ [0]))
  | CFG_KERNELMAX =>
      match parse_number val with Some v => Some (store16 g OFF_kernelmax (u16 v)) | None => None end
  end.

Definition setval (index : cfg_index) (val : list Z) (g : mem) : Z * mem :=
  match set_field index val g with
  | None => (0, g)
  | Some g => (1, store_bytes g OFF_digest (config_get_md5 g))
  end.

(** ** The program *)

(** How the calls on the flash device turn out: whether it opens, whether the
    seek before the write reaches its offset, how many bytes are written. *)
Record device : Type := mkDevice { d_open : bool; d_seek : bool; d_written : Z }.

(** What a run leaves: its exit status, the lines it printed, the device. *)
Record outcome : Type := mkOutcome { o_status : Z; o_out : list (list Z); o_mtd : mem }.

Definition print_md5 (d : list Z) : list Z := hex d.

(** The block read at offset 0x4000, with the terminator supplied when it is
    missing, and the warnings. *)
Definition config_init (mtd : mem) : mem * list (list Z) :=
  let g := fun i => mtd (0x4000 + i) in
  let digest := config_get_md5 g in
  let out1 :=
    if streq (load_bytes g OFF_digest 16) digest then []
    else [str "WARNING: Configuration md5 mismatch, Biffboot config may have been corrupted";
          str "Expected: " ++ print_md5 digest;
          str "Actual:   " ++ print_md5 (load_bytes g OFF_digest 16)] in
  let found_term := existsb (fun v => v =? 0) (load_bytes g OFF_cmndline sizeof_cmndline) in
  if found_term then (g, out1)
  else
    (store g (OFF_cmndline + sizeof_cmndline - 1) 0,
     out1 ++ [str "Kernel command-line lacks termination, Biffboot config may have been corrupted"]).

Definition config_write (dev : device) (g mtd : mem) : Z * list (list Z) * mem :=
  if negb (d_seek dev) then (0, [str "Unable to seek to config offset"], mtd)
  else
    let start := str "Start of write to flash, do not switch off!" in
    let mtd := store_bytes mtd 0x4000 (load_bytes g 0 (d_written dev)) in
    (* the message also gives the two counts *)
    if negb (d_written dev =? 0x2000) then (0, [start; str "MTD write failed"], mtd)
    else (1, [start; str "Write complete."], mtd).

Definition config_print_all (g : mem) : list (list Z) :=
  str "Current configuration:" ::
  map (fun p => str "  " ++ p_name p ++ str ": " ++ render (p_index p) g) g_params.

Definition find_param (name : list Z) : option cfg_param :=
  find (fun p => streq (p_name p) name) g_params.

Definition config_print_one (param : list Z) (g : mem) : bool * list (list Z) :=
  match find_param param with
  | Some p => (true, [render (p_index p) g])
  | None => (false, [])
  end.

(** "%12s" *)
Definition pad12 (s : list Z) : list Z := repeat 32 (12 - length s) ++ s.

Definition help : list (list Z) :=
  [str "Usage: biffconfig [set|get] <parameter> [value]"; [];
   str "Where <parameter> can be one of the following:"] ++
  map (fun p => str " " ++ pad12 (p_name p) ++ str "  " ++ p_help p) g_params.

(** [None] when the program goes on: the parameter was set, or not found. *)
Definition config_set_one (dev : device) (param value : list Z) (g mtd : mem)
  : bool * option Z * list (list Z) * mem :=
  match find_param param with
  | None => (false, None, [], mtd)
  | Some p =>
      let '(ok, g) := setval (p_index p) value g in
      if ok =? 0 then
        (true, Some (-1),
         (str "Parameter '" ++ p_name p ++ str "' cannot be set to '" ++ value ++ str "'") :: help, mtd)
      else
        let '(ok, out, mtd) := config_write dev g mtd in
        if ok =? 0 then
          (true, Some (-1), out ++ [str "Unable to write to flash, cannot update config"], mtd)
        else (true, None, out, mtd)
  end.

Definition unrecognised (name : list Z) : list Z :=
  str "Unrecognised option '" ++ name ++ str "'".

Definition main (dev : device) (argv : list (list Z)) (mtd : mem) : outcome :=
  if negb (d_open dev) then mkOutcome (-1) [str "Unable to open /dev/mtdblock0"] mtd
  else
    let '(g, out) := config_init mtd in
    match argv with
    | [_] => mkOutcome 0 (out ++ config_print_all g) mtd
    | [_; cmd; param] =>
        if streq cmd (str "get") then
          let '(ok, o) := config_print_one param g in
          mkOutcome 0 (out ++ o ++ (if ok then [] else [unrecognised param])) mtd
        else mkOutcome (-1) (out ++ help) mtd
    | [_; cmd; param; value] =>
        if streq cmd (str "set") then
          let '(ok, stop, o, mtd) := config_set_one dev param value g mtd in
          match stop with
          | Some code => mkOutcome code (out ++ o) mtd
          | None => mkOutcome 0 (out ++ o ++ (if ok then [] else [unrecognised param])) mtd
          end
        else mkOutcome (-1) (out ++ help) mtd
    | _ => mkOutcome (-1) (out ++ help) mtd
    end.

(** ** Facts about the block *)

Lemma digest_is_md5 g : length (Md5.buf pms) = 64%nat ->
  config_get_md5 g = Md5.rfc_md5 (load_bytes g 0 0x1ff0).
Proof.
  intros Hpms. apply Md5.md5_finish_spec. apply (Md5.md5_append_repr [] (load_bytes g 0 0x1ff0) (Md5.md5_init pms)).
  - now apply Md5.repr_init.
  - rewrite length_load_bytes. lia.
Qed.

Lemma length_digest g : length (config_get_md5 g) = 16%nat.
Proof. reflexivity. Qed.

Lemma digest_ext g1 g2 : (forall i, 0 <= i < 0x1ff0 -> g1 i = g2 i) ->
  config_get_md5 g1 = config_get_md5 g2.
Proof.
  intros E. unfold config_get_md5. rewrite (load_bytes_ext g1 g2 0 0 0x1ff0); [done |].
  intros i Hi. apply E. lia.
Qed.

(** Where a parameter lives. *)
Definition field (index : cfg_index) : Z * Z :=
  match index with
  | CFG_BOOTSOURCE => (OFF_bootsource, 1)
  | CFG_CONSOLE => (OFF_console, 1)
  | CFG_NIC => (OFF_nic, 1)
  | CFG_BOOTTYPE => (OFF_boottype, 1)
  | CFG_LOADADDRESS => (OFF_loadaddress, 4)
  | CFG_CMNDLINE => (OFF_cmndline, sizeof_cmndline)
  | CFG_KERNELMAX => (OFF_kernelmax, 2)
  end.

Lemma cstr_ext m1 m2 a n :
  (forall i, a <= i < a + Z.of_nat n -> m1 i = m2 i) -> cstr m1 a n = cstr m2 a n.
Proof.
  revert a. induction n as [| n IH]; intros a E; [done |]. cbn [cstr].
  rewrite (E a) by lia. destruct (m2 a =? 0); [done |]. f_equal. apply IH. intros; apply E. lia.
Qed.

(** What is shown depends on the parameter's own bytes. *)
Lemma render_ext index g1 g2 :
  (forall i, fst (field index) <= i < fst (field index) + snd (field index) -> g1 i = g2 i) ->
  render index g1 = render index g2.
Proof.
  intros E. destruct index; cbn [render field fst snd] in *;
    unfold OFF_bootsource, OFF_console, OFF_nic, OFF_boottype, OFF_loadaddress, OFF_cmndline,
      sizeof_cmndline, OFF_kernelmax, load32, load16 in *;
    try (now rewrite !E by lia). apply cstr_ext. intros i Hi. apply E. lia.
Qed.

(** A setting changes only the parameter's own bytes. *)
Lemma set_field_frame index val g g' i :
  set_field index val g = Some g' ->
  ~ (fst (field index) <= i < fst (field index) + snd (field index)) -> g' i = g i.
Proof.
  intros E Hi. destruct index; cbn [set_field field fst snd] in *;
    unfold OFF_bootsource, OFF_console, OFF_nic, OFF_boottype, OFF_loadaddress, OFF_cmndline,
      sizeof_cmndline, OFF_kernelmax in *;
    repeat case_match; simplify_eq; try (apply store_ne; lia).
  - unfold store32, store16, store. repeat zcase; lia.
  - apply store_bytes_out. rewrite length_app. cbn [length]. zcase_in H; lia.
  - apply store16_out; lia.
Qed.

Lemma field_below_digest index :
  0 <= fst (field index) /\ fst (field index) + snd (field index) <= OFF_digest.
Proof. destruct index; vm_compute; split; congruence. Qed.

Lemma fields_disjoint i j : i <> j ->
  fst (field i) + snd (field i) <= fst (field j) \/ fst (field j) + snd (field j) <= fst (field i).
Proof. destruct i, j; intros Hij; try done; vm_compute; (left; congruence) || (right; congruence). Qed.

(** ** What a setting stores *)

Lemma hex_digit_val d : 0 <= d < 16 -> hexval (hex_digit d) = Some d.
Proof. intros Hd. unfold hexval, hex_digit. repeat zcase; try lia; f_equal; lia. Qed.

Lemma scan_hexn fuel : forall v acc, 0 <= v < 16 ^ Z.of_nat fuel ->
  exists n, scan_digits (hexn fuel v acc) 0 0 = scan_digits acc v n /\
    (fuel <> 0%nat -> n <> 0%nat).
Proof.
  induction fuel as [| fuel IH]; intros v acc Hv.
  - exists 0%nat. cbn in *. split; [f_equal; lia | done].
  - cbn [hexn]. destruct (Z.ltb_spec v 16).
    + exists 1%nat. cbn [scan_digits]. rewrite hex_digit_val by lia. cbn. split; [done | lia].
    + rewrite Nat2Z.inj_succ, Z.pow_succ_r in Hv by lia.
      destruct (IH (v / 16) (hex_digit (v mod 16) :: acc)) as (n & -> & Hn);
        [Z.div_mod_to_equations; lia |].
      exists (S n). cbn [scan_digits].
      rewrite hex_digit_val by (apply Z.mod_pos_bound; lia).
      split; [| lia]. f_equal. Z.div_mod_to_equations. lia.
Qed.

Lemma hexn_digits fuel : forall v acc,
  0 <= v -> Forall (fun c => is_Some (hexval c)) acc ->
  Forall (fun c => is_Some (hexval c)) (hexn fuel v acc).
Proof.
  induction fuel as [| fuel IH]; intros v acc Hv Ha; [done |]. cbn [hexn].
  destruct (Z.ltb_spec v 16).
  - apply Forall_cons_2; [| done]. rewrite hex_digit_val by lia. now eexists.
  - apply IH; [Z.div_mod_to_equations; lia |]. apply Forall_cons_2; [| done].
    rewrite hex_digit_val by (apply Z.mod_pos_bound; lia). now eexists.
Qed.

Lemma hexval_plain c d : hexval c = Some d ->
  isspace c = false /\ (c =? 45) = false /\ (c =? 43) = false /\ (c =? 120) = false /\ (c =? 88) = false.
Proof. unfold hexval, isspace. intros E. repeat zcase_in E; try discriminate; repeat zcase; auto; lia. Qed.

(** "%x" reads back what "%x" printed. *)
Lemma sscanf_print v : 0 <= v < 2 ^ 32 -> sscanf_x (print_x v) = Some v.
Proof.
  intros Hv. destruct (scan_hexn 8 v [] ltac:(lia)) as (n & Hs & Hn).
  pose proof (hexn_digits 8 v [] ltac:(lia) (Forall_nil_2 _)) as Hd. fold (print_x v) in Hs, Hd.
  unfold sscanf_x. destruct (print_x v) as [| c rest]; [cbn in Hs; simplify_eq; lia |].
  apply Forall_cons_1 in Hd as [[d Hc] Hr]. destruct (hexval_plain c d Hc) as (E1 & E2 & E3 & _ & _).
  cbn [skip_spaces]. rewrite E1, E2, E3.
  assert (Es : match c :: rest with
    | c' :: x :: s' => if (c' =? 48) && ((x =? 120) || (x =? 88)) then s' else c :: rest
    | _ => c :: rest end = c :: rest).
  { destruct rest as [| x rest]; [done |]. apply Forall_cons_1 in Hr as [[e Hx] _].
    destruct (hexval_plain x e Hx) as (_ & _ & _ & -> & ->). now rewrite andb_false_r. }
  rewrite Es, Hs. cbn [scan_digits]. destruct n; [lia |]. cbn [Nat.eqb].
  rewrite (proj2 (Z.ltb_ge _ _)) by lia. f_equal. apply u32_id. lia.
Qed.

(** ** Setting and showing *)

Lemma setval_some index val g g1 :
  set_field index val g = Some g1 ->
  setval index val g = (1, store_bytes g1 OFF_digest (config_get_md5 g1)).
Proof. intros E. unfold setval. now rewrite E. Qed.

Lemma setval_low index val g g' i :
  setval index val g = (1, g') -> 0 <= i < OFF_digest ->
  exists g1, set_field index val g = Some g1 /\ g' i = g1 i.
Proof.
  unfold setval. destruct (set_field index val g) as [g1 |]; [| discriminate].
  intros [= <-] Hi. exists g1. split; [done |]. apply store_bytes_out. lia.
Qed.

(** A setting keeps the block consistent: an accepted value leaves the
    stored digest equal to the MD5 of the block, so the boot loader and the next
    run accept it; a refused value changes nothing. *)
Theorem setval_keeps_digest index val g :
  length (Md5.buf pms) = 64%nat ->
  let '(ok, g') := setval index val g in
  (ok = 1 /\ load_bytes g' OFF_digest 16 = Md5.rfc_md5 (load_bytes g' 0 0x1ff0)) \/
  (ok = 0 /\ g' = g).
Proof.
  intros Hpms. unfold setval. destruct (set_field index val g) as [g1 |]; [left | now right].
  split; [done |]. rewrite <- digest_is_md5 by done.
  rewrite (digest_ext (store_bytes g1 OFF_digest (config_get_md5 g1)) g1)
    by (intros i Hi; apply store_bytes_out; unfold OFF_digest; lia).
  apply (load_store_bytes g1 OFF_digest (config_get_md5 g1)).
Qed.

(** Setting one parameter does not change what any other shows. *)
Theorem setval_independent index other val g :
  other <> index -> render other (snd (setval index val g)) = render other g.
Proof.
  intros Hne. unfold setval. destruct (set_field index val g) as [g1 |] eqn:E; [| done].
  cbn [snd]. apply render_ext. intros i Hi. pose proof (field_below_digest other).
  rewrite store_bytes_out by lia. apply (set_field_frame _ _ _ _ _ E).
  destruct (fields_disjoint other index Hne); lia.
Qed.

(** The value a setting stands for, as it is shown. *)
Definition shown (index : cfg_index) (val : list Z) : option (list Z) :=
  match index with
  | CFG_LOADADDRESS => option_map (fun v => str "0x" ++ print_x v) (parse_number val)
  | CFG_KERNELMAX => option_map (fun v => str "0x" ++ print_x (u16 v)) (parse_number val)
  | _ => Some val
  end.

(** A value written the way the tool prints it: any text, or, for a number, 0x and
    the digits of a number that fits. *)
Definition normal (index : cfg_index) (val : list Z) : Prop :=
  match index with
  | CFG_LOADADDRESS => exists n, 0 <= n < 2 ^ 32 /\ val = str "0x" ++ print_x n
  | CFG_KERNELMAX => exists n, 0 <= n < 2 ^ 16 /\ val = str "0x" ++ print_x n
  | _ => True
  end.

Lemma cstr_store g a val n :
  Forall (fun c => c <> 0) val -> (length val < n)%nat ->
  cstr (store_bytes g a (val ++ [0])) a n = val.
Proof.
  intros Hv Hn.
  assert (Hgen : forall k m p, (length p < k)%nat -> Forall (fun c => c <> 0) p ->
    (forall i, (i < length p)%nat -> m (a + Z.of_nat i) = nth i p 0) ->
    m (a + Z.of_nat (length p)) = 0 -> cstr m a k = p).
  { clear. intros k. revert a. induction k as [| k IH]; intros a m p Hk Hp Hm H0; [lia |].
    cbn [cstr]. destruct p as [| c p].
    - cbn in H0. rewrite Z.add_0_r in H0. now rewrite H0.
    - apply Forall_cons_1 in Hp as [Hc Hp]. pose proof (Hm 0%nat ltac:(cbn; lia)) as Hm0.
      cbn in Hm0. rewrite Z.add_0_r in Hm0. rewrite Hm0. zcase; [lia |]. f_equal.
      apply IH; [cbn in Hk; lia | done | |].
      + intros i Hi. specialize (Hm (S i) ltac:(cbn; lia)). cbn [nth] in Hm. rewrite <- Hm. f_equal. lia.
      + rewrite <- H0. f_equal. cbn. lia. }
  apply Hgen; [done | done | |].
  - intros i Hi. rewrite store_bytes_in by (rewrite length_app; cbn; lia).
    rewrite app_nth1 by lia. f_equal. lia.
  - rewrite store_bytes_in by (rewrite length_app; cbn; lia).
    rewrite app_nth2 by lia. replace (_ - _)%nat with 0%nat by lia. done.
Qed.

Lemma parse_number_range val v : parse_number val = Some v -> 0 <= v < 2 ^ 32.
Proof.
  unfold parse_number. destruct (strip_0x val) as [rest |]; [| discriminate].
  unfold sscanf_x. repeat case_match; intros [= <-]; (apply u32_range || lia).
Qed.

Lemma set_field_shown index val g g1 :
  Forall (fun c => c <> 0) val -> set_field index val g = Some g1 ->
  shown index val = Some (render index g1).
Proof.
  intros Hz E. destruct index; cbn [set_field shown render] in *; unfold streq in E.
  1-4: repeat case_bool_decide; simplify_eq; now rewrite store_eq.
  - destruct (parse_number val) as [v |] eqn:Ep; [| discriminate]. injection E as <-.
    pose proof (parse_number_range _ _ Ep). rewrite load32_store32 by apply u32_range.
    now rewrite u32_id by lia.
  - destruct (Z.leb_spec sizeof_cmndline (Z.of_nat (length val))); [discriminate |].
    injection E as <-. f_equal. symmetry. apply cstr_store; [done | unfold sizeof_cmndline in *; lia].
  - destruct (parse_number val) as [v |] eqn:Ep; [| discriminate]. injection E as <-.
    now rewrite load16_store16 by apply u16_range.
Qed.

Lemma cstr_nonzero m a n : Forall (fun c => c <> 0) (cstr m a n).
Proof.
  revert a. induction n as [| n IH]; intros a; cbn [cstr]; [apply Forall_nil_2 |].
  destruct (Z.eqb_spec (m a) 0); [apply Forall_nil_2 | now apply Forall_cons_2].
Qed.

Lemma cstr_short m a n i : a <= i < a + Z.of_nat n -> m i = 0 -> (length (cstr m a n) < n)%nat.
Proof.
  revert a. induction n as [| n IH]; intros a Hi H0; [lia |]. cbn [cstr].
  destruct (Z.eqb_spec (m a) 0); [cbn; lia |].
  assert (a <> i) by congruence. specialize (IH (a + 1) ltac:(lia) H0). cbn. lia.
Qed.

Lemma parse_print v : 0 <= v < 2 ^ 32 -> parse_number (str "0x" ++ print_x v) = Some v.
Proof. intros Hv. unfold parse_number. cbn [str app strip_0x]. now apply sscanf_print. Qed.

Lemma shown_normal index val v : normal index val -> shown index val = Some v -> v = val.
Proof.
  destruct index; cbn [normal shown]; try (intros _ [= <-]; reflexivity); intros (n & Hn & ->);
    (rewrite parse_print by lia); cbn [option_map]; intros E; apply Some_inj in E as <-; [reflexivity |].
  now rewrite u16_id by lia.
Qed.

(** ** Two runs of the program *)

Definition terminated (g : mem) : Prop :=
  exists i, OFF_cmndline <= i < OFF_cmndline + sizeof_cmndline /\ g i = 0.

Lemma found_term_spec g :
  existsb (fun v => v =? 0) (load_bytes g OFF_cmndline sizeof_cmndline) = true <-> terminated g.
Proof.
  rewrite existsb_exists. unfold load_bytes, terminated. split.
  - intros (v & Hv & E). apply in_map_iff in Hv as (k & <- & Hk). apply in_seq in Hk.
    exists (OFF_cmndline + Z.of_nat k). split; [lia | now apply Z.eqb_eq].
  - intros (i & Hi & E). exists (g i). split; [| now rewrite E].
    apply in_map_iff. exists (Z.to_nat (i - OFF_cmndline)).
    split; [f_equal; lia | apply in_seq; lia].
Qed.

Lemma set_field_of_render index g :
  bytes_ok g -> terminated g -> render index g <> str "Invalid" ->
  exists g1, set_field index (render index g) g = Some g1.
Proof.
  intros Hb (i & Hi & H0) Hv. destruct index; cbn [render set_field] in *.
  1-4: repeat (zcase; [eexists; reflexivity |]); done.
  - rewrite parse_print; [eexists; reflexivity |]. unfold load32, load16.
    pose proof (Hb OFF_loadaddress). pose proof (Hb (OFF_loadaddress + 1)).
    pose proof (Hb (OFF_loadaddress + 2)). pose proof (Hb (OFF_loadaddress + 2 + 1)). lia.
  - pose proof (cstr_short g OFF_cmndline (Z.to_nat sizeof_cmndline) i ltac:(lia) H0).
    zcase; [unfold sizeof_cmndline in *; lia | eexists; reflexivity].
  - rewrite parse_print; [eexists; reflexivity |].
    pose proof (load16_range g OFF_kernelmax (Hb _) (Hb _)). lia.
Qed.

(** Setting a parameter to what it shows is accepted and changes nothing
    that is shown, so a value obtained with get can always be set again. *)
Theorem set_what_is_shown index g :
  bytes_ok g -> terminated g -> render index g <> str "Invalid" ->
  exists g', setval index (render index g) g = (1, g') /\
    forall other, render other g' = render other g.
Proof.
  intros Hb Ht Hv. destruct (set_field_of_render index g Hb Ht Hv) as [g1 E].
  exists (store_bytes g1 OFF_digest (config_get_md5 g1)). split; [now apply setval_some |].
  intros other. rewrite (render_ext other _ g1).
  2: { intros i Hi. pose proof (field_below_digest other). apply store_bytes_out. lia. }
  destruct (decide (other = index)) as [-> | Hne].
  - assert (Hz : Forall (fun c => c <> 0) (render index g)).
    { destruct index; cbn [render].
      1-4: repeat zcase; solve_nonzero.
      2: apply cstr_nonzero.
      all: apply Forall_app_2; [solve_nonzero |];
        eapply Forall_impl; [apply hexn_digits; [| apply Forall_nil_2] |];
        [unfold load32, load16; pose proof (Hb OFF_loadaddress); pose proof (Hb (OFF_loadaddress + 1));
         pose proof (Hb (OFF_loadaddress + 2)); pose proof (Hb (OFF_loadaddress + 2 + 1));
         pose proof (Hb OFF_kernelmax); pose proof (Hb (OFF_kernelmax + 1)); lia
        | intros c [d Hc] ->; discriminate]. }
    pose proof (set_field_shown _ _ _ _ Hz E) as Hs. revert Hs.
    destruct index; cbn [shown]; intros Hs; try congruence.
    + change (render CFG_LOADADDRESS g) with (str "0x" ++ print_x (load32 g OFF_loadaddress)) in *.
      rewrite parse_print in Hs by (unfold load32, load16; pose proof (Hb OFF_loadaddress);
        pose proof (Hb (OFF_loadaddress + 1)); pose proof (Hb (OFF_loadaddress + 2));
        pose proof (Hb (OFF_loadaddress + 2 + 1)); lia). cbn [option_map] in Hs.
      exact (eq_sym (Some_inj _ _ Hs)).
    + change (render CFG_KERNELMAX g) with (str "0x" ++ print_x (load16 g OFF_kernelmax)) in *.
      pose proof (load16_range g OFF_kernelmax (Hb _) (Hb _)).
      rewrite parse_print in Hs by lia. cbn [option_map] in Hs. rewrite u16_id in Hs by lia.
      exact (eq_sym (Some_inj _ _ Hs)).
  - apply render_ext. intros i Hi. apply (set_field_frame _ _ _ _ _ E).
    destruct (fields_disjoint other index Hne); lia.
Qed.

Lemma config_init_terminated mtd : terminated (fst (config_init mtd)).
Proof.
  unfold config_init. case_match eqn:E; cbn [fst].
  - now apply found_term_spec.
  - exists (OFF_cmndline + sizeof_cmndline - 1). split; [vm_compute; split; congruence | apply store_eq].
Qed.

Lemma set_field_terminated index val g g' :
  set_field index val g = Some g' -> terminated g -> terminated g'.
Proof.
  intros E (i & Hi & H0). destruct (decide (index = CFG_CMNDLINE)) as [-> | Hne].
  - cbn [set_field] in E.
    destruct (Z.leb_spec sizeof_cmndline (Z.of_nat (length val))) as [| Hlt]; [discriminate |].
    injection E as <-. exists (OFF_cmndline + Z.of_nat (length val)). split; [lia |].
    rewrite store_bytes_in by (rewrite length_app; cbn; lia).
    rewrite app_nth2 by lia. now replace (_ - _)%nat with 0%nat by lia.
  - exists i. split; [done |]. rewrite <- H0. apply (set_field_frame _ _ _ _ _ E).
    destruct (fields_disjoint index CFG_CMNDLINE Hne); cbn [field fst snd] in *; lia.
Qed.

(** A block that passes the checks of [config_init] is read without warnings. *)
Lemma config_init_clean g mtd :
  terminated g -> load_bytes g OFF_digest 16 = config_get_md5 g ->
  (forall i, 0 <= i < sizeof_cfg -> mtd (0x4000 + i) = g i) ->
  config_init mtd = (fun i => mtd (0x4000 + i), []).
Proof.
  intros (i & Hi & H0) Hd E. unfold config_init.
  replace (load_bytes (fun i => mtd (0x4000 + i)) OFF_digest 16) with (load_bytes g OFF_digest 16)
    by (apply load_bytes_ext; intros; symmetry; apply E; unfold OFF_digest, sizeof_cfg; lia).
  rewrite (digest_ext (fun i => mtd (0x4000 + i)) g) by (intros; apply E; unfold sizeof_cfg; lia).
  unfold streq. rewrite bool_decide_true by done.
  rewrite (proj2 (found_term_spec _)); [done |]. exists i. split; [done |].
  rewrite E; [done | unfold OFF_cmndline, sizeof_cmndline, sizeof_cfg in *; lia].
Qed.

(** The device after a complete write of the block [g]. *)
Lemma written_block g mtd i :
  0 <= i < sizeof_cfg -> store_bytes mtd 0x4000 (load_bytes g 0 0x2000) (0x4000 + i) = g i.
Proof.
  unfold sizeof_cfg. intros Hi. rewrite store_bytes_in by (rewrite length_load_bytes; lia).
  rewrite nth_load_bytes by lia. f_equal. lia.
Qed.

(** C6: what was set is what is shown.  After a run that set a parameter and
    exited with status 0, on a device that opens and takes the whole block, a
    second run that gets the parameter reads a block without complaint and prints
    one line: the value as given, for a parameter that takes a word or text and
    for a number that is given the way the tool prints numbers and fits its field;
    and otherwise the number the value stands for, printed so, of which kernelmax
    keeps the low 16 bits. *)
Theorem set_then_get dev prog name value mtd p :
  d_open dev = true -> d_seek dev = true -> d_written dev = sizeof_cfg ->
  Forall (fun c => c <> 0) value -> find_param name = Some p ->
  o_status (main dev [prog; str "set"; name; value] mtd) = 0 ->
  exists v, shown (p_index p) value = Some v /\ (normal (p_index p) value -> v = value) /\
    main dev [prog; str "get"; name] (o_mtd (main dev [prog; str "set"; name; value] mtd)) =
    mkOutcome 0 [v] (o_mtd (main dev [prog; str "set"; name; value] mtd)).
Proof.
  intros Ho Hs Hw Hz Hp. pose proof (config_init_terminated mtd) as Ht.
  assert (Hset : forall g1, set_field (p_index p) value (fst (config_init mtd)) = Some g1 ->
    o_mtd (main dev [prog; str "set"; name; value] mtd) =
    store_bytes mtd 0x4000 (load_bytes (store_bytes g1 OFF_digest (config_get_md5 g1)) 0 0x2000)).
  { intros g1 E1. unfold main, config_set_one. rewrite Ho, Hp. cbn [negb].
    destruct (config_init mtd) as [g out]. cbn [fst] in E1. rewrite (setval_some _ _ _ _ E1).
    unfold config_write. rewrite Hs, Hw. reflexivity. }
  intros Hst. destruct (set_field (p_index p) value (fst (config_init mtd))) as [g1 |] eqn:E1.
  - rewrite (Hset g1 eq_refl). clear Hset Hst. set (g' := store_bytes g1 _ _).
    set (mtd' := store_bytes mtd _ _).
    pose proof (set_field_shown _ _ (fst (config_init mtd)) _ Hz E1) as Hsh.
    exists (render (p_index p) g1). split; [exact Hsh |].
    split; [intros Hn; exact (shown_normal _ _ _ Hn Hsh) |].
    assert (Hlow : forall i, i < OFF_digest -> g' i = g1 i)
      by (intros i Hi; apply store_bytes_out; lia).
    pose proof (set_field_terminated _ _ _ _ E1 Ht) as (i & Hi & H0).
    unfold main. rewrite Ho. cbn [negb].
    rewrite (config_init_clean g' mtd').
    + unfold config_print_one. rewrite Hp. cbn [app]. unfold streq.
      rewrite bool_decide_true by done. apply (f_equal (fun v => mkOutcome 0 [v] mtd')).
      apply render_ext. intros j Hj.
      pose proof (field_below_digest (p_index p)). unfold OFF_digest in *.
      unfold mtd'. rewrite written_block by (unfold sizeof_cfg; lia). apply Hlow. lia.
    + exists i. split; [done |]. rewrite Hlow; [done |].
      unfold OFF_cmndline, sizeof_cmndline, OFF_digest in *. lia.
    + rewrite (digest_ext g' g1) by (intros; apply Hlow; unfold OFF_digest; lia).
      apply (load_store_bytes g1 OFF_digest (config_get_md5 g1)).
    + intros j Hj. now apply written_block.
  - exfalso. revert Hst. unfold main, config_set_one. rewrite Ho, Hp. cbn [negb].
    destruct (config_init mtd) as [g out]. cbn [fst] in E1. unfold setval. rewrite E1. discriminate.
Qed.

(** Whatever its arguments and however the device behaves, a run changes
    nothing on the flash outside the configuration block. *)
Theorem main_touches_only_config dev argv mtd x :
  d_written dev <= sizeof_cfg -> ~ (0x4000 <= x < 0x6000) ->
  o_mtd (main dev argv mtd) x = mtd x.
Proof.
  unfold sizeof_cfg. intros Hw Hx. unfold main, config_set_one, config_print_one, config_write.
  repeat case_match; simplify_eq; cbn [o_mtd]; auto; apply store_bytes_out;
    rewrite length_load_bytes; lia.
Qed.

(** A sector count above 16 bits is accepted and truncated. *)
Lemma kernelmax_truncated g :
  fst (setval CFG_KERNELMAX (str "0x12345") g) = 1 /\
  render CFG_KERNELMAX (snd (setval CFG_KERNELMAX (str "0x12345") g)) = str "0x2345".
Proof.
  unfold setval. cbn [set_field]. change (parse_number (str "0x12345")) with (Some 0x12345).
  cbn [fst snd]. split; [done |]. cbn [render].
  replace (load16 _ OFF_kernelmax) with 0x2345; [reflexivity |].
  unfold load16. rewrite !store_bytes_out by (unfold OFF_kernelmax, OFF_digest; lia).
  symmetry. apply (load16_store16 g OFF_kernelmax (u16 0x12345)). apply u16_range.
Qed.

(** Boot source 3, which the structure's comment gives to USB, cannot be set or
    shown. *)
Lemma usb_bootsource_unknown g :
  g OFF_bootsource = 3 -> render CFG_BOOTSOURCE g = str "Invalid" /\
  set_field CFG_BOOTSOURCE (str "USB") g = None.
Proof. intros E. cbn [render set_field]. now rewrite E. Qed.

End Tool.

(** ** Instances *)

Definition blank : mem := fun _ => 0.

Definition good_device : device := mkDevice true true 0x2000.

Lemma setval_keeps_digest_witness :
  let '(ok, g') := setval Md5.garbage CFG_CONSOLE (str "enabled") blank in
  (ok = 1 /\ load_bytes g' OFF_digest 16 = Md5.rfc_md5 (load_bytes g' 0 0x1ff0)) \/
  (ok = 0 /\ g' = blank).
Proof. exact (setval_keeps_digest Md5.garbage CFG_CONSOLE (str "enabled") blank eq_refl). Defined.

Lemma setval_independent_witness :
  render CFG_NIC (snd (setval Md5.garbage CFG_CMNDLINE (str "quiet") blank)) = str "disabled".
Proof. apply (setval_independent Md5.garbage CFG_CMNDLINE CFG_NIC (str "quiet") blank). done. Defined.

Lemma set_what_is_shown_witness :
  exists g', setval Md5.garbage CFG_LOADADDRESS (str "0x0") blank = (1, g') /\
    forall other, render other g' = render other blank.
Proof.
  apply (set_what_is_shown Md5.garbage CFG_LOADADDRESS blank).
  - intros a. unfold blank. lia.
  - exists OFF_cmndline. split; [vm_compute; split; congruence | reflexivity].
  - vm_compute. discriminate.
Defined.

Lemma set_then_get_witness :
  exists v, shown CFG_KERNELMAX (str "0x12") = Some v /\
    (normal CFG_KERNELMAX (str "0x12") -> v = str "0x12") /\
    main Md5.garbage good_device [str "biffconfig"; str "get"; str "kernelmax"]
      (o_mtd (main Md5.garbage good_device
                [str "biffconfig"; str "set"; str "kernelmax"; str "0x12"] blank)) =
    mkOutcome 0 [v] (o_mtd (main Md5.garbage good_device
                [str "biffconfig"; str "set"; str "kernelmax"; str "0x12"] blank)).
Proof.
  apply (set_then_get Md5.garbage good_device (str "biffconfig") (str "kernelmax")
    (str "0x12") blank (mkParam (str "kernelmax") CFG_KERNELMAX (str "<count of 64k sectors>")));
    [reflexivity | reflexivity | reflexivity | solve_nonzero | reflexivity | vm_compute; reflexivity].
Defined.

Lemma main_touches_only_config_witness :
  o_mtd (main Md5.garbage good_device [str "biffconfig"; str "set"; str "nic"; str "enabled"] blank)
    0x3fff = 0.
Proof.
  apply (main_touches_only_config Md5.garbage good_device
    [str "biffconfig"; str "set"; str "nic"; str "enabled"] blank 0x3fff).
  - vm_compute. discriminate.
  - lia.
Defined.

End Config.
