(* ===== verification/R6040.v ===== *)
(** The emulated R6040 network controller (qemu/hw/r6040.c): registers, PHY,
    transmit and receive descriptors in guest memory, interrupt line.  Guest
    memory is a byte memory; frames handed to the network are logged. *)
From Stdlib Require Import ZArith Lia.
From stdpp Require Import base list numbers.
From S2P Require Import Prelude.

Module R6040.

(** Indices into the word array [regs_w]. *)
Definition MPSCCR_W : Z := 0x88 / 2.

Definition MAC0_W : Z := 0x68 / 2.

Definition MAC1_W : Z := 0x6a / 2.

Definition MAC2_W : Z := 0x6c / 2.

Definition TX_PKT_COUNT_W : Z := 0x5a / 2.

Definition RX_PKT_COUNT_W : Z := 0x50 / 2.

Definition MCR0_W : Z := 0x00 / 2.

Definition MCR1_W : Z := 0x04 / 2.

Definition MTPR_W : Z := 0x14 / 2.

Definition MRBSR_W : Z := 0x18 / 2.

Definition MISR_W : Z := 0x3c / 2.

Definition MIER_W : Z := 0x40 / 2.

Definition MMDIO_W : Z := 0x20 / 2.

Definition MDIO_READ_W : Z := 0x24 / 2.

Definition MDIO_WRITE_W : Z := 0x28 / 2.

Definition MRCNT_W : Z := 0x50 / 2.

Definition MTCNT_W : Z := 0x5c / 2.

Record R6040State : Type := mkR6040 {
  phy_regs : Z -> Z;
  phy_op_in_progress : bool;
  regs_w : Z -> Z;
  irq : bool;
  ram : mem;
  sent : list (list Z)
}.

(** Updates of one part of the state. *)
Definition set_reg (s : R6040State) (i v : Z) : R6040State :=
  mkR6040 (phy_regs s) (phy_op_in_progress s) (store (regs_w s) i (u16 v)) (irq s) (ram s) (sent s).

Definition set_phy (s : R6040State) (i v : Z) : R6040State :=
  mkR6040 (store (phy_regs s) i v) (phy_op_in_progress s) (regs_w s) (irq s) (ram s) (sent s).

Definition set_busy (s : R6040State) (b : bool) : R6040State :=
  mkR6040 (phy_regs s) b (regs_w s) (irq s) (ram s) (sent s).

Definition set_irq (s : R6040State) (b : bool) : R6040State :=
  mkR6040 (phy_regs s) (phy_op_in_progress s) (regs_w s) b (ram s) (sent s).

Definition set_ram (s : R6040State) (m : mem) : R6040State :=
  mkR6040 (phy_regs s) (phy_op_in_progress s) (regs_w s) (irq s) m (sent s).

Definition log_sent (s : R6040State) (p : list Z) : R6040State :=
  mkR6040 (phy_regs s) (phy_op_in_progress s) (regs_w s) (irq s) (ram s) (sent s ++ [p]).

Definition TX_START (s : R6040State) : Z :=
  Z.lor (regs_w s (0x2c / 2)) (Z.shiftl (regs_w s (0x30 / 2)) 16).

Definition TX_START_SET (s : R6040State) (start : Z) : R6040State :=
  set_reg (set_reg s (0x2c / 2) (Z.land start 0xffff)) (0x30 / 2)
    (Z.land (Z.shiftr start 16) 0xffff).

Definition RX_START (s : R6040State) : Z :=
  Z.lor (regs_w s (0x34 / 2)) (Z.shiftl (regs_w s (0x38 / 2)) 16).

Definition RX_START_SET (s : R6040State) (start : Z) : R6040State :=
  set_reg (set_reg s (0x34 / 2) (Z.land start 0xffff)) (0x38 / 2)
    (Z.land (Z.shiftr start 16) 0xffff).

Definition r6040_update_irq (s : R6040State) : R6040State :=
  set_irq s (negb (Z.land (regs_w s MISR_W) (regs_w s MIER_W) =? 0)).

Definition PhysicalLinkUp (s : R6040State) : R6040State :=
  set_phy s 1 (Z.lor (phy_regs s 1) (Z.shiftl 1 2)).

(** ** Descriptors *)

(** [d_rest] is [hidx], the reserved words and the padding of the C structure. *)
Record Descriptor : Type := mkDesc { dst : Z; dlen : Z; dbp : Z; dnx : Z; d_rest : list Z }.

Definition sizeof_Descriptor : Z := 20.

Definition read_desc (m : mem) (a : Z) : Descriptor :=
  mkDesc (load16 m a) (load16 m (a + 2)) (load32 m (a + 4)) (load32 m (a + 8))
    (load_bytes m (a + 12) 8).

Definition write_desc (m : mem) (a : Z) (d : Descriptor) : mem :=
  store_bytes (store32 (store32 (store16 (store16 m a (dst d)) (a + 2) (dlen d)) (a + 4) (dbp d))
    (a + 8) (dnx d)) (a + 12) (d_rest d).

(** ** Transmit *)

Section Bus.
(** What is RAM.  [cpu_physical_memory_write] stores nothing elsewhere (exec.c of
    the emulator). *)
Context (is_ram : Z -> bool).

Definition phys_write (m m' : mem) : mem := fun x => if is_ram x then m' x else m x.

(** The new state when a frame was sent, [None] when the descriptor belongs to
    the host. *)
Definition TryToSendOnePacket_on (s : R6040State) : option R6040State :=
  let d := read_desc (ram s) (TX_START s) in
  if anyset (dst d) 0x8000 then
    let tocopy := if 2000 <? dlen d then 2000 else dlen d in
    let s := log_sent s (load_bytes (ram s) (dbp d) tocopy) in
    let s := set_reg s TX_PKT_COUNT_W (regs_w s TX_PKT_COUNT_W + 1) in
    let d := mkDesc (clear (dst d) 0x8000) (dlen d) (dbp d) (dnx d) (d_rest d) in
    let s := set_ram s (phys_write (ram s) (write_desc (ram s) (TX_START s) d)) in
    Some (TX_START_SET s (dnx d))
  else None.

(** One iteration of the loop of [r6040_transmit], counting. *)
Definition transmit_step_on (p : R6040State * Z) : (R6040State * Z) + (R6040State * Z) :=
  match TryToSendOnePacket_on (fst p) with
  | Some s => inl (s, snd p + 1)
  | None => inr p
  end.

(** While the descriptors are in RAM every iteration clears one owner bit of a
    4 GiB memory, so this many iterations are enough then. *)
Definition transmit_bound : positive := 0x100000002.

(** After the loop: the interrupt if anything was sent. *)
Definition transmit_done (p : R6040State * Z) : R6040State :=
  let '(s, count) := p in
  if negb (count =? 0) then r6040_update_irq (set_reg s MISR_W (Z.lor (regs_w s MISR_W) 0x10))
  else s.

(** [None] when the loop does not end within the bound. *)
Definition r6040_transmit_on (s : R6040State) : option R6040State :=
  match ploop transmit_bound transmit_step_on (s, 0) with
  | inl _ => None
  | inr p => Some (transmit_done p)
  end.

End Bus.

(** A guest whose memory is RAM throughout; there the loop ends. *)
Definition all_ram (x : Z) : bool := true.

Definition TryToSendOnePacket : R6040State -> option R6040State := TryToSendOnePacket_on all_ram.

Definition r6040_transmit (s : R6040State) : R6040State := default s (r6040_transmit_on all_ram s).

(** ** Receive *)

Definition r6040_can_receive (s : R6040State) : bool := anyset (regs_w s 0) (Z.shiftl 1 1).

(** A write of a negative length does nothing. *)
Definition ReceiveOnePacket (s : R6040State) (buf : list Z) : Z * R6040State :=
  let tocopy := u32 (Z.of_nat (length buf) + 4) in
  let d := read_desc (ram s) (RX_START s) in
  if anyset (dst d) 0x8000 then
    let max_buffer := Z.land (regs_w s MRBSR_W) 0x07fc in
    let tocopy := if max_buffer <? tocopy then max_buffer else tocopy in
    let s := set_ram s (store_bytes (ram s) (dbp d) (take (Z.to_nat (s32 (tocopy - 4))) buf)) in
    let d := mkDesc (clear (Z.lor (dst d) (Z.shiftl 1 14)) 0x8000) (u16 tocopy) (dbp d) (dnx d) (d_rest d) in
    let s := set_ram s (write_desc (ram s) (RX_START s) d) in
    let s := set_reg s RX_PKT_COUNT_W (regs_w s RX_PKT_COUNT_W + 1) in
    let s := set_reg s MISR_W (Z.lor (regs_w s MISR_W) 1) in
    let s := r6040_update_irq s in
    (0, RX_START_SET s (dnx d))
  else (-1, s).

Definition r6040_receive (s : R6040State) (buf : list Z) : Z * R6040State :=
  let '(r, s) := ReceiveOnePacket s buf in
  (if r =? 0 then Z.of_nat (length buf) else 0, s).

(** ** Registers *)

Definition BIT_SET (old new bit : Z) : bool :=
  let before := anyset (u16 old) (Z.shiftl 1 bit) in
  let after := anyset (u16 new) (Z.shiftl 1 bit) in
  negb before && after.

(** The MDIO command: what it does to the PHY and to the data register. *)
Definition mdio_command (s : R6040State) (val : Z) : R6040State :=
  let phy_exists := Z.land val 0x1f00 =? 0x100 in
  let phy := Z.land val 0x1f in
  if anyset val (Z.shiftl 1 13) then
    if phy_exists then set_reg s MDIO_READ_W (phy_regs s phy) else set_reg s MDIO_READ_W 0xffff
  else if anyset val (Z.shiftl 1 14) then
    if phy_exists then set_phy s phy (regs_w s MDIO_WRITE_W) else s
  else s.

Definition r6040_ioport_writew (addr val : Z) (s : R6040State) : R6040State :=
  let addr := Z.land addr 0xff / 2 in
  let old := regs_w s addr in
  if addr =? MCR0_W then
    let s := if BIT_SET old val 12 then r6040_transmit s else s in set_reg s addr (Z.land val 0xffff)
  else if addr =? MCR1_W then
    let val := if anyset val 1 then 0x0010 else val in set_reg s addr (Z.land val 0xffff)
  else if addr =? MTPR_W then
    let '(s, val) := if anyset val 1 then (r6040_transmit s, clear val 1) else (s, val) in
    set_reg s addr (Z.land val 0xffff)
  else if addr =? MMDIO_W then
    let s := mdio_command s val in
    let val := Z.lor val 0x6000 in
    set_reg (set_busy s true) addr (Z.land val 0xffff)
  else if addr =? MISR_W then s
  else if addr =? MIER_W then r6040_update_irq (set_reg s MIER_W val)
  else if (addr =? MRCNT_W) || (addr =? MTCNT_W) then s
  else set_reg s addr (Z.land val 0xffff).

Definition r6040_ioport_readw (addr : Z) : ST R6040State Z := fun s =>
  let addr := Z.land addr 0xff / 2 in
  let tmp := regs_w s addr in
  if addr =? MMDIO_W then
    (tmp, if phy_op_in_progress s then set_busy (set_reg s addr (clear tmp 0x6000)) false else s)
  else if (addr =? MISR_W) || (addr =? MRCNT_W) || (addr =? MTCNT_W) then (tmp, set_reg s addr 0)
  else (tmp, s).

Definition r6040_ioport_writeb (addr val : Z) (s : R6040State) : R6040State :=
  let addr := Z.land addr 0xff in
  let val := Z.land val 0xff in
  let old := regs_w s (addr / 2) in
  let old :=
    if anyset addr 1 then Z.lor (Z.land old 0xff) (Z.shiftl val 8) else Z.lor (Z.land old 0xff00) val in
  r6040_ioport_writew addr (u16 old) s.

Definition r6040_ioport_writel (addr val : Z) (s : R6040State) : R6040State :=
  r6040_ioport_writew (addr + 2) (Z.land (Z.shiftr val 16) 0xffff)
    (r6040_ioport_writew addr (Z.land val 0xffff) s).

Definition r6040_ioport_readb (addr : Z) : ST R6040State Z :=
  let! tmp := r6040_ioport_readw (clear addr 1) in
  if anyset addr 1 then ret (Z.shiftr (Z.land tmp 0xff00) 8) else ret (Z.land tmp 0xff).

Definition r6040_ioport_readl (addr : Z) : ST R6040State Z :=
  let! tmp := r6040_ioport_readw addr in
  let! hi := r6040_ioport_readw (addr + 2) in
  ret (Z.lor tmp (Z.shiftl hi 16)).

(** Power-on values on a zeroed structure, guest memory [m]; and the station
    address given to the network layer. *)
Definition r6040_init_pci (m : mem) : R6040State * list Z :=
  let r := fun _ => 0 in
  let r := store r MPSCCR_W 0x9f07 in
  let r := store r MRBSR_W 0x600 in
  let r := store r MAC0_W 0x5452 in
  let r := store r MAC1_W 0x1200 in
  let r := store r MAC2_W 0x5734 in
  let macaddr :=
    flat_map (fun w => [Z.land (r w) 0xff; Z.land (Z.shiftr (r w) 8) 0xff]) [MAC0_W; MAC1_W; MAC2_W] in
  let phy := fun _ => 0 in
  let phy := store phy 1 (clear 0x786d (Z.shiftl 1 2)) in
  let phy := store phy 2 0x0243 in
  let phy := store phy 3 0x0c54 in
  (mkR6040 phy false r false m [], macaddr).

End R6040.
