(* ===== verification/R6040Spec.v ===== *)
(** The network controller: transmission ends and sends the ring's frames in
    order; reception stores the frame; the MDIO protocol reads and writes the
    PHY; the interrupt line. *)
From Stdlib Require Import ZArith Lia.
From stdpp Require Import base list numbers relations.
From S2P Require Import Prelude R6040.

Module R6040Spec.
Import R6040.

(** ** Descriptors in memory *)

Definition owned (m : mem) (a : Z) : bool := 0x80 <=? m (a + 1).

Lemma owner_bit v : 0 <= v < 0x10000 -> anyset v 0x8000 = (0x8000 <=? v).
Proof.
  intros Hv. unfold anyset. change 0x8000 with (2 ^ 15) at 1. rewrite land_bit, testbit_div by lia.
  change (2 ^ 15) with 0x8000. repeat zcase; try reflexivity; Z.div_mod_to_equations; lia.
Qed.

Lemma owned_dst m a : bytes_ok m -> anyset (dst (read_desc m a)) 0x8000 = owned m a.
Proof.
  intros Hb. cbn [read_desc dst]. pose proof (Hb a). pose proof (Hb (a + 1)).
  rewrite owner_bit by (apply load16_range; lia). unfold owned, load16. repeat zcase; lia.
Qed.

Lemma store16_load16 m a m' off x : bytes_ok m ->
  store16 m' off (load16 m a) x =
    if (off <=? x) && (x <? off + 2) then m (a + (x - off)) else m' x.
Proof.
  intros Hb. pose proof (Hb a). pose proof (Hb (a + 1)).
  destruct (load16_bytes m a) as [L0 L1]; [lia | lia |]. unfold store16, store. rewrite L0, L1.
  repeat zcase; try lia; try reflexivity; f_equal; lia.
Qed.

(** Writing a descriptor back with new first words changes nothing else. *)
Lemma write_back m m' a v w x : bytes_ok m ->
  (forall y, a <= y < a + 20 -> m' y = m y) ->
  write_desc m' a (mkDesc v w (dbp (read_desc m a)) (dnx (read_desc m a)) (d_rest (read_desc m a))) x =
  store16 (store16 m' a v) (a + 2) w x.
Proof.
  intros Hb E. unfold write_desc. cbn [read_desc dst dlen dbp dnx d_rest].
  destruct (decide (a + 12 <= x < a + 20)).
  - rewrite store_bytes_in by (rewrite length_load_bytes; lia). rewrite nth_load_bytes by lia.
    rewrite !store16_out by lia. rewrite E by lia. f_equal. lia.
  - rewrite store_bytes_out by (rewrite length_load_bytes; lia).
    rewrite !store32_load32 by (intros; apply Hb).
    repeat zcase; rewrite ?store16_out by lia; rewrite ?E by lia; try done; f_equal; lia.
Qed.

(** ** One frame *)

Definition regs_ok (s : R6040State) : Prop := forall i, 0 <= regs_w s i < 0x10000.

Lemma set_reg_ok s i v : regs_ok s -> regs_ok (set_reg s i v).
Proof. intros Hr j. cbn. unfold store. zcase; [apply u16_range | apply Hr]. Qed.

Lemma TX_START_SET_eq s a : 0 <= a < 2 ^ 32 -> TX_START (TX_START_SET s a) = a.
Proof.
  intros Ha. unfold TX_START, TX_START_SET. cbn [set_reg regs_w].
  change (0x2c / 2) with 22. change (0x30 / 2) with 24.
  rewrite store_eq, store_ne, store_eq by lia.
  change 0xffff with (Z.ones 16). rewrite !Z.land_ones, Z.shiftr_div_pow2 by lia.
  unfold u16. change (2 ^ 16) with 0x10000. rewrite !Z.mod_mod by lia.
  rewrite (lor_disjoint _ _ 16) by (try lia; apply Z.mod_pos_bound; lia).
  change (2 ^ 32) with 4294967296 in *. change (2 ^ 16) with 0x10000.
  Z.div_mod_to_equations. lia.
Qed.

Lemma TX_START_range s : regs_ok s -> 0 <= TX_START s < 2 ^ 32.
Proof.
  intros Hr. unfold TX_START. pose proof (Hr (0x2c / 2)). pose proof (Hr (0x30 / 2)).
  rewrite (lor_disjoint _ _ 16) by lia. lia.
Qed.

(** The frame a descriptor asks for, as far as it fits a packet: the packet buffer
    has 2000 bytes. *)
Definition cut_frame (m : mem) (a : Z) : list Z :=
  load_bytes m (load32 m (a + 4)) (Z.min 2000 (load16 m (a + 2))).

(** The whole of it. *)
Definition frame (m : mem) (a : Z) : list Z := load_bytes m (load32 m (a + 4)) (load16 m (a + 2)).

Section Bus.
Context (is_ram : Z -> bool).

(** What sending one frame does: if its byte is in RAM the owner bit is cleared. *)
Record sent_one (s s' : R6040State) : Prop := {
  so_regs : regs_ok s';
  so_ram : forall x, ram s' x =
    if (x =? TX_START s + 1) && is_ram x then ram s x - 0x80 else ram s x;
  so_log : sent s' = sent s ++ [cut_frame (ram s) (TX_START s)];
  so_next : TX_START s' = load32 (ram s) (TX_START s + 8);
  so_count : regs_w s' TX_PKT_COUNT_W = u16 (regs_w s TX_PKT_COUNT_W + 1);
  so_misr : regs_w s' MISR_W = regs_w s MISR_W;
  so_mier : regs_w s' MIER_W = regs_w s MIER_W;
  so_phy : phy_regs s' = phy_regs s;
  so_irq : irq s' = irq s
}.

Lemma TryToSend_spec s :
  bytes_ok (ram s) -> regs_ok s ->
  match TryToSendOnePacket_on is_ram s with
  | Some s' => owned (ram s) (TX_START s) = true /\ sent_one s s'
  | None => owned (ram s) (TX_START s) = false
  end.
Proof.
  intros Hb Hr. unfold TryToSendOnePacket_on. rewrite owned_dst by done.
  set (a := TX_START s). destruct (owned (ram s) a) eqn:Eo; [| done]. split; [done |].
  cbn [dst dlen dbp dnx d_rest].
  replace (if 2000 <? dlen (read_desc (ram s) a) then 2000 else dlen (read_desc (ram s) a))
    with (Z.min 2000 (load16 (ram s) (a + 2))) by (cbn [read_desc dlen]; zcase; lia).
  unfold owned in Eo. apply Z.leb_le in Eo. pose proof (Hb a) as B0. pose proof (Hb (a + 1)) as B1.
  split.
  - now repeat apply set_reg_ok.
  - intros x. cbn [TX_START_SET set_reg set_ram ram log_sent]. unfold phys_write.
    destruct (is_ram x); [rewrite andb_true_r|rewrite andb_false_r; reflexivity].
    rewrite write_back by done. change (dlen (read_desc (ram s) a)) with (load16 (ram s) (a + 2)).
    change (dst (read_desc (ram s) a)) with (load16 (ram s) a).
    change (0x8000) with (2 ^ 15). rewrite clear_sub, land_bit, testbit_div by lia.
    change (2 ^ 15) with 0x8000.
    assert (Ev : load16 (ram s) a - 0x8000 * ((load16 (ram s) a / 0x8000) mod 2) =
                 ram s a + 0x100 * (ram s (a + 1) - 0x80))
      by (unfold load16; Z.div_mod_to_equations; lia).
    rewrite Ev, store16_load16 by done.
    destruct (Z.eqb_spec x (a + 1)) as [-> |].
    + repeat zcase; try lia. rewrite store16_hi. unfold u8. Z.div_mod_to_equations. lia.
    + repeat zcase; try lia; try (f_equal; lia);
        (destruct (Z.eq_dec x a) as [-> |]; [| now rewrite store16_out by lia]);
        rewrite store16_lo; unfold u8; Z.div_mod_to_equations; lia.
  - reflexivity.
  - apply TX_START_SET_eq. now apply load32_range.
  - reflexivity.
  - reflexivity.
  - reflexivity.
  - reflexivity.
  - reflexivity.
Qed.

(** ** Transmission ends *)

(** How many of the first [n] bytes have their top bit set. *)
Fixpoint topbits (n : nat) (m : mem) : nat :=
  match n with
  | O => 0
  | S n' => (if 0x80 <=? m (Z.of_nat n') then 1 else 0) + topbits n' m
  end.

Lemma topbits_le n m : (topbits n m <= n)%nat.
Proof. induction n as [| n IH]; cbn [topbits]; [lia |]. case_match; lia. Qed.

Lemma topbits_ext n m m' : (forall x, 0 <= x < Z.of_nat n -> m' x = m x) -> topbits n m' = topbits n m.
Proof.
  induction n as [| n IH]; intros E; cbn [topbits]; [done |].
  rewrite E by lia. rewrite IH; [done | intros; apply E; lia].
Qed.

Lemma topbits_drop n m m' a :
  0 <= a < Z.of_nat n -> 0x80 <= m a -> m' a < 0x80 -> (forall x, x <> a -> m' x = m x) ->
  (topbits n m' < topbits n m)%nat.
Proof.
  intros Ha H1 H2 E. induction n as [| n IH]; [lia |]. cbn [topbits].
  destruct (Z.eq_dec a (Z.of_nat n)) as [-> |].
  - rewrite (topbits_ext n m m') by (intros; apply E; lia). repeat zcase; lia.
  - rewrite (E (Z.of_nat n)) by lia. specialize (IH ltac:(lia)). lia.
Qed.

Lemma sent_one_bytes s s' : bytes_ok (ram s) -> owned (ram s) (TX_START s) = true ->
  sent_one s s' -> bytes_ok (ram s').
Proof.
  intros Hb Ho Hs x. rewrite (so_ram _ _ Hs). pose proof (Hb x). unfold owned in Ho.
  apply Z.leb_le in Ho. destruct (is_ram x); rewrite ?andb_true_r, ?andb_false_r; [zcase; subst|]; lia.
Qed.

(** A frame is sent and the controller moves on. *)
Definition sends (s s' : R6040State) : Prop := TryToSendOnePacket_on is_ram s = Some s'.

(** The descriptors the controller comes to that are its own are in RAM. *)
Definition ring_in_ram (s : R6040State) : Prop :=
  forall s', rtc sends s s' -> owned (ram s') (TX_START s') = true -> is_ram (TX_START s' + 1) = true.

(** The loop leaves, at a descriptor that belongs to the host. *)
Lemma transmit_loop_leaves s :
  bytes_ok (ram s) -> regs_ok s -> ring_in_ram s ->
  exists p, ploop transmit_bound (transmit_step_on is_ram) (s, 0) = inr p /\
    owned (ram (fst p)) (TX_START (fst p)) = false.
Proof.
  intros Hb Hr Hin. rewrite ploop_nloop.
  assert (HN : Z.of_nat (Pos.to_nat transmit_bound) = 0x100000002) by apply positive_nat_Z.
  revert HN. generalize (Pos.to_nat transmit_bound). intros N HN.
  apply (nloop_measure (transmit_step_on is_ram) (fun p => bytes_ok (ram (fst p)) /\ regs_ok (fst p) /\ ring_in_ram (fst p))
    (fun p => topbits (N - 1) (ram (fst p)))).
  - intros [s1 k] [s2 k2] (Hb1 & Hr1 & Hi1) E. unfold transmit_step_on in E. cbn [fst snd] in *.
    pose proof (TryToSend_spec s1 Hb1 Hr1) as Ht. destruct (TryToSendOnePacket_on is_ram s1) eqn:Es; [| discriminate].
    injection E as <- <-. destruct Ht as [Ho Hs].
    split; [split; [now apply (sent_one_bytes s1) | split; [apply (so_regs _ _ Hs)|]] |].
    { intros s' Hs'. apply Hi1. exact (rtc_l _ _ _ _ Es Hs'). }
    pose proof (Hi1 s1 (rtc_refl _ _) Ho) as Ha.
    unfold owned in Ho. apply Z.leb_le in Ho. pose proof (Hb1 (TX_START s1 + 1)).
    pose proof (TX_START_range s1 Hr1).
    apply (topbits_drop _ _ _ (TX_START s1 + 1)); [lia | done | |];
      [| intros x Hx]; rewrite (so_ram _ _ Hs), ?Ha; zcase; cbn [andb]; try lia; try done.
  - intros [s1 k] q (Hb1 & Hr1 & Hi1) E. unfold transmit_step_on in E. cbn [fst snd] in *.
    pose proof (TryToSend_spec s1 Hb1 Hr1) as Ht. destruct (TryToSendOnePacket_on is_ram s1); [discriminate |].
    injection E as <-. done.
  - done.
  - pose proof (topbits_le (N - 1) (ram (fst (s, 0)))). lia.
Qed.

(** A descriptor of the controller's outside RAM that is linked to itself. *)
Definition rom_loop (a : Z) (s : R6040State) : Prop :=
  TX_START s = a /\ owned (ram s) a = true /\ is_ram (a + 1) = false /\ load32 (ram s) (a + 8) = a.

Lemma rom_loop_sends a s : bytes_ok (ram s) -> regs_ok s -> rom_loop a s ->
  exists s', sends s s' /\ bytes_ok (ram s') /\ regs_ok s' /\ rom_loop a s'.
Proof.
  intros Hb Hr (Ha & Ho & Hn & Hl). pose proof (TryToSend_spec s Hb Hr) as Ht.
  unfold sends. destruct (TryToSendOnePacket_on is_ram s) as [s1|]; [|congruence].
  destruct Ht as [Ho' Hs]. exists s1. split; [reflexivity|]. split; [exact (sent_one_bytes s s1 Hb Ho' Hs)|].
  split; [apply (so_regs _ _ Hs)|].
  assert (Em : forall x, ram s1 x = ram s x).
  { intros x. rewrite (so_ram _ _ Hs), Ha. zcase; [subst x; rewrite Hn|]; reflexivity. }
  split; [rewrite (so_next _ _ Hs), Ha; exact Hl|]. split; [unfold owned in *; rewrite Em; exact Ho|].
  split; [exact Hn|]. rewrite <- Hl at 2. apply load32_ext. intros; apply Em.
Qed.

Lemma rom_loop_forever a N : forall s k, bytes_ok (ram s) -> regs_ok s -> rom_loop a s ->
  exists s', nloop N (transmit_step_on is_ram) (s, k) = inl (s', k + Z.of_nat N).
Proof.
  induction N as [|N IH]; intros s k Hb Hr Hs; cbn [nloop]; [exists s; f_equal; f_equal; lia|].
  destruct (rom_loop_sends a s Hb Hr Hs) as (s1 & E & Hb1 & Hr1 & H1). unfold transmit_step_on at 1. cbn [fst snd].
  rewrite E. destruct (IH s1 (k + 1) Hb1 Hr1 H1) as (s2 & E2). exists s2. rewrite E2. do 2 f_equal. lia.
Qed.

Lemma update_irq_ram s : ram (r6040_update_irq s) = ram s.
Proof. reflexivity. Qed.

(** C35: transmission ends exactly as far as its descriptors are in RAM.  Whatever
    descriptors the guest has set up (cycles and overlaps included), if those of
    the controller's own that it comes to are in RAM, where the owner bit is
    cleared, the loop ends and the controller stops at a descriptor that the
    host owns.  A descriptor elsewhere keeps its owner bit: if it is linked to
    itself, the loop goes on for ever, however many iterations it is given. *)
Theorem transmit_terminates s :
  bytes_ok (ram s) -> regs_ok s ->
  (ring_in_ram s -> exists s', r6040_transmit_on is_ram s = Some s' /\ owned (ram s') (TX_START s') = false) /\
  (forall a, rom_loop a s -> forall N, exists s', nloop N (transmit_step_on is_ram) (s, 0) = inl (s', Z.of_nat N)).
Proof.
  intros Hb Hr. split.
  - intros Hin. destruct (transmit_loop_leaves s Hb Hr Hin) as ([s1 k] & E & Ho).
    exists (transmit_done (s1, k)). unfold r6040_transmit_on. rewrite E. split; [reflexivity|]. cbn [fst] in Ho.
    unfold transmit_done. destruct (negb (k =? 0)); exact Ho.
  - intros a Ha N. exact (rom_loop_forever a N s 0 Hb Hr Ha).
Qed.

End Bus.

Lemma all_in_ram s : ring_in_ram all_ram s.
Proof. intros s' _ _. reflexivity. Qed.

(** With RAM throughout, the state [r6040_transmit] gives is the one the loop ends in. *)
Lemma transmit_all_ram s : bytes_ok (ram s) -> regs_ok s -> r6040_transmit_on all_ram s = Some (r6040_transmit s).
Proof.
  intros Hb Hr. destruct (transmit_loop_leaves all_ram s Hb Hr (all_in_ram s)) as (p & E & _).
  unfold r6040_transmit, r6040_transmit_on. rewrite E. reflexivity.
Qed.

(** ** The frames of a ring *)

Definition next (m : mem) (a : Z) : Z := load32 m (a + 8).

(** The bytes the controller looks at while it works through the descriptors
    [l] from [a] and finds the next one host-owned. *)
Fixpoint reads (m : mem) (a : Z) (l : list Z) (x : Z) : Prop :=
  match l with
  | [] => a <= x < a + 2
  | _ :: l' =>
      a <= x < a + 12 \/
      load32 m (a + 4) <= x < load32 m (a + 4) + Z.min 2000 (load16 m (a + 2)) \/
      reads m (next m a) l' x
  end.

(** Descriptors handed over in a row, the last pointing to one the host owns.
    Giving one back does not touch what is still to be read. *)
Inductive tx_ring (m : mem) : Z -> list Z -> Prop :=
  | ring_end a : owned m a = false -> tx_ring m a []
  | ring_next a l : owned m a = true -> tx_ring m (next m a) l ->
      (forall x, reads m (next m a) l x -> x <> a + 1) -> tx_ring m a (a :: l).

(** Where the controller stands after the descriptors [l]. *)
Fixpoint ring_after (m : mem) (a : Z) (l : list Z) : Z :=
  match l with [] => a | _ :: l' => ring_after m (next m a) l' end.

(** Rings and frames depend on the bytes read only. *)
Lemma desc_ext m m' a :
  (forall x, a <= x < a + 12 -> m' x = m x) ->
  owned m' a = owned m a /\ load16 m' (a + 2) = load16 m (a + 2) /\
  load32 m' (a + 4) = load32 m (a + 4) /\ next m' a = next m a.
Proof.
  intros E. unfold owned, next. rewrite E by lia. split; [done |].
  split; [| split]; [apply load16_ext; apply E; lia | |]; apply load32_ext; intros; apply E; lia.
Qed.

Lemma ring_ext m m' a l :
  tx_ring m a l -> (forall x, reads m a l x -> m' x = m x) ->
  tx_ring m' a l /\ map (cut_frame m') l = map (cut_frame m) l /\ ring_after m' a l = ring_after m a l /\
  (forall x, reads m' a l x <-> reads m a l x).
Proof.
  induction 1 as [a Ho | a l Ho Hr IH Hsep]; intros E; cbn [reads ring_after] in *.
  - split; [| split; [done | split; done]]. constructor. unfold owned in *. now rewrite E by lia.
  - destruct (desc_ext m m' a) as (E1 & E2 & E3 & E4); [intros; apply E; lia |].
    destruct IH as (R1 & R2 & R2' & R3); [intros; apply E; auto |].
    rewrite E4, E2, E3 in *. split; [| split; [| split; [done |]]].
    + constructor; [congruence | now rewrite E4 |]. intros x Hx. rewrite E4 in Hx. apply Hsep.
      now apply R3.
    + cbn [map]. f_equal; [| done]. unfold cut_frame. rewrite E2, E3. apply load_bytes_ext.
      intros i Hi. apply E. lia.
    + intros x. rewrite R3. tauto.
Qed.

Lemma ring_reads_member m a l b : tx_ring m a l -> b ∈ l -> reads m a l (b + 1).
Proof.
  induction 1 as [a Ho | a l Ho Hr IH Hsep]; intros Hin.
  - now apply not_elem_of_nil in Hin.
  - cbn [reads]. apply elem_of_cons in Hin as [-> | Hin]; [left; lia | auto].
Qed.

(** The loop on a ring. *)
Lemma transmit_ring_loop is_ram l : forall s k N m,
  (length l < N)%nat -> bytes_ok (ram s) -> regs_ok s -> m = ram s -> tx_ring m (TX_START s) l ->
  Forall (fun a => is_ram (a + 1) = true) l ->
  exists s', nloop N (transmit_step_on is_ram) (s, k) = inr (s', k + Z.of_nat (length l)) /\
    regs_ok s' /\ bytes_ok (ram s') /\
    sent s' = sent s ++ map (cut_frame m) l /\
    (forall x, ram s' x = if bool_decide (x - 1 ∈ l) then ram s x - 0x80 else ram s x) /\
    regs_w s' TX_PKT_COUNT_W = u16 (regs_w s TX_PKT_COUNT_W + Z.of_nat (length l)) /\
    regs_w s' MISR_W = regs_w s MISR_W /\ regs_w s' MIER_W = regs_w s MIER_W /\ irq s' = irq s /\
    TX_START s' = ring_after m (TX_START s) l.
Proof.
  induction l as [| b l IH]; intros s k N m HN Hb Hr -> Hring Hin;
    (destruct N as [| N]; [cbn in HN; lia |]); cbn [nloop];
    pose proof (TryToSend_spec is_ram s Hb Hr) as Ht;
    (assert (Hst : transmit_step_on is_ram (s, k) = match TryToSendOnePacket_on is_ram s with
       Some s1 => inl (s1, k + 1) | None => inr (s, k) end) by reflexivity); rewrite Hst; clear Hst;
    inversion Hring as [a Ho | a l' Ho Hn Hsep]; subst.
  - destruct (TryToSendOnePacket_on is_ram s) as [s1 |]; [destruct Ht; congruence |].
    exists s. cbn [length map]. rewrite Z.add_0_r, app_nil_r.
    repeat split; auto; try apply Hr; try apply Hb.
    + rewrite Z.add_0_r. symmetry. apply u16_id. apply Hr.
  - destruct (TryToSendOnePacket_on is_ram s) as [s1 |]; [| congruence]. destruct Ht as [_ H1].
    apply Forall_cons in Hin as [Hin0 Hin].
    assert (Hram : forall x, ram s1 x = if x =? TX_START s + 1 then ram s x - 0x80 else ram s x).
    { intros x. rewrite (so_ram _ _ _ H1). zcase; [subst x; rewrite Hin0|]; reflexivity. }
    pose proof (sent_one_bytes is_ram s s1 Hb Ho H1) as Hb1.
    assert (Hag : forall x, reads (ram s) (next (ram s) (TX_START s)) l x -> ram s1 x = ram s x).
    { intros x Hx. rewrite Hram. zcase; [| done]. now apply Hsep in Hx. }
    destruct (ring_ext _ (ram s1) _ _ Hn Hag) as (Hn1 & Hf1 & Ha1 & _).
    destruct (IH s1 (k + 1) N (ram s1)) as (s' & E & R1 & R2 & R3 & R4 & R5 & R6 & R7 & R8 & R9);
      [cbn in HN; lia | done | apply (so_regs _ _ _ H1) | done | now rewrite (so_next _ _ _ H1) | done |].
    exists s'. rewrite E. cbn [length map]. split; [do 2 f_equal; lia |].
    split; [done |]. split; [done |]. split; [| split; [| split]].
    + rewrite R3, (so_log _ _ _ H1), Hf1, <- app_assoc. done.
    + intros x. rewrite R4, Hram.
      destruct (Z.eqb_spec x (TX_START s + 1)) as [-> |].
      * rewrite (bool_decide_true (TX_START s + 1 - 1 ∈ TX_START s :: l))
          by (replace (TX_START s + 1 - 1) with (TX_START s) by lia; left).
        rewrite bool_decide_false; [done |].
        replace (TX_START s + 1 - 1) with (TX_START s) by lia. intros Hm.
        apply (Hsep (TX_START s + 1)); [now apply ring_reads_member | done].
      * rewrite (bool_decide_ext (x - 1 ∈ TX_START s :: l) (x - 1 ∈ l)); [done |].
        rewrite elem_of_cons. split; [intros [? | ?]; [lia | done] | now right].
    + rewrite R5, (so_count _ _ _ H1). unfold u16. rewrite Z.add_mod_idemp_l by lia. f_equal. lia.
    + rewrite R6, R7, R8, R9, (so_misr _ _ _ H1), (so_mier _ _ _ H1), (so_irq _ _ _ H1), (so_next _ _ _ H1).
      cbn [ring_after]. repeat split; done.
Qed.

(** The whole transmission on a ring with something to send. *)
Lemma transmit_ring_on is_ram s l :
  bytes_ok (ram s) -> regs_ok s -> tx_ring (ram s) (TX_START s) l -> l <> [] ->
  Z.of_nat (length l) <= 2 ^ 32 -> Forall (fun a => is_ram (a + 1) = true) l ->
  exists s', r6040_transmit_on is_ram s = Some s' /\
  regs_ok s' /\ bytes_ok (ram s') /\ sent s' = sent s ++ map (cut_frame (ram s)) l /\
  (forall x, ram s' x = if bool_decide (x - 1 ∈ l) then ram s x - 0x80 else ram s x) /\
  regs_w s' TX_PKT_COUNT_W = u16 (regs_w s TX_PKT_COUNT_W + Z.of_nat (length l)) /\
  regs_w s' MISR_W = u16 (Z.lor (regs_w s MISR_W) 0x10) /\ regs_w s' MIER_W = regs_w s MIER_W /\
  irq s' = negb (Z.land (regs_w s' MISR_W) (regs_w s' MIER_W) =? 0) /\
  TX_START s' = ring_after (ram s) (TX_START s) l.
Proof.
  intros Hb Hr Hring Hne Hlen Hin.
  assert (HN : Z.of_nat (Pos.to_nat transmit_bound) = 0x100000002) by apply positive_nat_Z.
  unfold r6040_transmit_on. rewrite ploop_nloop.
  revert HN. generalize (Pos.to_nat transmit_bound). intros N HN.
  destruct (transmit_ring_loop is_ram l s 0 N (ram s))
    as (s1 & E & R1 & R2 & R3 & R4 & R5 & R6 & R7 & R8 & R9); try done; [lia |].
  rewrite E. assert (0 < length l)%nat by (destruct l; [done | cbn; lia]).
  eexists. split; [reflexivity|]. unfold transmit_done.
  destruct (Z.eqb_spec (0 + Z.of_nat (length l)) 0); [lia |]. cbn [negb].
  split; [now apply (set_reg_ok s1) |]. split; [exact R2 |]. split; [exact R3 |].
  split; [exact R4 |].
  cbn [r6040_update_irq set_irq set_reg regs_w irq]. rewrite store_eq.
  rewrite !store_ne by (vm_compute; congruence). rewrite R6.
  split; [exact R5 |]. split; [done |]. split; [done |]. split; [done |]. exact R9.
Qed.

(** [r6040_transmit] on such a ring. *)
Lemma transmit_ring_state s l :
  bytes_ok (ram s) -> regs_ok s -> tx_ring (ram s) (TX_START s) l -> l <> [] ->
  Z.of_nat (length l) <= 2 ^ 32 ->
  let s' := r6040_transmit s in
  regs_ok s' /\ bytes_ok (ram s') /\ sent s' = sent s ++ map (cut_frame (ram s)) l /\
  (forall x, ram s' x = if bool_decide (x - 1 ∈ l) then ram s x - 0x80 else ram s x) /\
  regs_w s' TX_PKT_COUNT_W = u16 (regs_w s TX_PKT_COUNT_W + Z.of_nat (length l)) /\
  regs_w s' MISR_W = u16 (Z.lor (regs_w s MISR_W) 0x10) /\ regs_w s' MIER_W = regs_w s MIER_W /\
  irq s' = negb (Z.land (regs_w s' MISR_W) (regs_w s' MIER_W) =? 0) /\
  TX_START s' = ring_after (ram s) (TX_START s) l.
Proof.
  intros Hb Hr Hring Hne Hlen. unfold r6040_transmit.
  destruct (transmit_ring_on all_ram s l Hb Hr Hring Hne Hlen) as (s' & -> & Hs');
    [apply Forall_forall; intros; reflexivity|exact Hs'].
Qed.

(** A raised and enabled interrupt is seen on the line. *)
Lemma irq_raised misr mier k :
  0 <= k < 16 -> Z.testbit mier k = true ->
  negb (Z.land (u16 (Z.lor misr (2 ^ k))) mier =? 0) = true.
Proof.
  intros Hk Eb. rewrite (proj2 (Z.eqb_neq _ 0)); [done |]. intros E0.
  apply (f_equal (fun z => Z.testbit z k)) in E0.
  rewrite Z.land_spec, Eb, Z.bits_0 in E0. unfold u16 in E0. change 0x10000 with (2 ^ 16) in E0.
  rewrite Z.mod_pow2_bits_low, Z.lor_spec, Z.pow2_bits_true in E0 by lia.
  rewrite orb_true_r in E0. discriminate.
Qed.

Lemma cut_frame_whole m a : load16 m (a + 2) <= 2000 -> cut_frame m a = frame m a.
Proof. intros Hl. unfold cut_frame, frame. rewrite Z.min_r by exact Hl. reflexivity. Qed.

(** C23: transmission of a ring.  The ring is a row of descriptors handed over, in
    RAM, each asking for at most the 2000 bytes of the packet buffer, the last
    linked to one that the host owns; the owner bit of a descriptor does not lie
    in what the controller reads after it (later descriptors and their frames).
    Then transmission ends, the frames are sent complete and in ring order; each
    of these descriptors is given back by clearing its owner bit and no other
    byte of guest memory changes; the packet counter advances by their number;
    the transmit interrupt is raised if it is enabled.  (A longer frame is cut to
    its first 2000 bytes: [cut_frame].) *)
Theorem transmit_sends_ring is_ram s l :
  bytes_ok (ram s) -> regs_ok s -> tx_ring (ram s) (TX_START s) l -> l <> [] ->
  Z.of_nat (length l) <= 2 ^ 32 ->
  Forall (fun a => is_ram (a + 1) = true /\ load16 (ram s) (a + 2) <= 2000) l ->
  exists s', r6040_transmit_on is_ram s = Some s' /\
  sent s' = sent s ++ map (frame (ram s)) l /\
  (forall x, ram s' x = if bool_decide (x - 1 ∈ l) then ram s x - 0x80 else ram s x) /\
  regs_w s' TX_PKT_COUNT_W = u16 (regs_w s TX_PKT_COUNT_W + Z.of_nat (length l)) /\
  (Z.testbit (regs_w s MIER_W) 4 = true -> irq s' = true).
Proof.
  intros Hb Hr Hring Hne Hlen Hl.
  destruct (transmit_ring_on is_ram s l Hb Hr Hring Hne Hlen) as (s' & E & _ & _ & R3 & R4 & R5 & R6 & R7 & R8 & _);
    [apply (Forall_impl _ _ _ Hl); intros a Ha; apply Ha|].
  exists s'. split; [exact E|]. split.
  - rewrite R3. f_equal. apply map_ext_in. intros a Ha. apply cut_frame_whole.
    apply (proj1 (List.Forall_forall _ _) Hl a Ha).
  - split; [done |]. split; [done |]. intros Hm. rewrite R8, R6, R7. now apply (irq_raised _ _ 4).
Qed.

(** ** Reception *)

Lemma RX_START_SET_eq s a : 0 <= a < 2 ^ 32 -> RX_START (RX_START_SET s a) = a.
Proof.
  intros Ha. unfold RX_START, RX_START_SET. cbn [set_reg regs_w].
  change (0x34 / 2) with 26. change (0x38 / 2) with 28.
  rewrite store_eq, store_ne, store_eq by lia.
  change 0xffff with (Z.ones 16). rewrite !Z.land_ones, Z.shiftr_div_pow2 by lia.
  unfold u16. change (2 ^ 16) with 0x10000. rewrite !Z.mod_mod by lia.
  rewrite (lor_disjoint _ _ 16) by (try lia; apply Z.mod_pos_bound; lia).
  change (2 ^ 32) with 4294967296 in *. change (2 ^ 16) with 0x10000.
  Z.div_mod_to_equations. lia.
Qed.

(** The status word of a descriptor given back after reception. *)
Lemma received_status m a : bytes_ok m -> owned m a = true ->
  clear (Z.lor (load16 m a) 0x4000) 0x8000 = Z.lor (load16 m a) 0x4000 - 0x8000 /\
  0 <= Z.lor (load16 m a) 0x4000 - 0x8000 < 0x10000.
Proof.
  intros Hb Ho. unfold owned in Ho. apply Z.leb_le in Ho. pose proof (Hb a). pose proof (Hb (a + 1)).
  assert (Hv : 0x8000 <= load16 m a < 0x10000) by (unfold load16; lia). split.
  - rewrite clear_sub. change 0x8000 with (2 ^ 15). rewrite land_bit, Z.lor_spec by lia.
    change (Z.testbit 0x4000 15) with false. rewrite orb_false_r, testbit_div by lia.
    replace ((load16 m a / 2 ^ 15) mod 2) with 1; [lia |].
    change (2 ^ 15) with 32768. Z.div_mod_to_equations. lia.
  - pose proof (lor_range (load16 m a) 0x4000 16 ltac:(lia) ltac:(lia) ltac:(lia)).
    pose proof (Z.add_lor_land (load16 m a) 0x4000).
    pose proof (land_le_r (load16 m a) 0x4000 ltac:(lia)). lia.
Qed.

(** Reception into a buffer that is large enough. *)
Lemma receive_state s buf :
  bytes_ok (ram s) ->
  let a := RX_START s in
  let b := load32 (ram s) (a + 4) in
  owned (ram s) a = true ->
  Z.of_nat (length buf) + 4 <= Z.land (regs_w s MRBSR_W) 0x7fc ->
  (forall x, b <= x < b + Z.of_nat (length buf) -> ~ (a <= x < a + 20)) ->
  exists s', r6040_receive s buf = (Z.of_nat (length buf), s') /\
    RX_START s' = load32 (ram s) (a + 8) /\
    forall x, ram s' x =
      store16 (store16 (store_bytes (ram s) b buf) a (Z.lor (load16 (ram s) a) 0x4000 - 0x8000))
        (a + 2) (Z.of_nat (length buf) + 4) x.
Proof.
  intros Hb a b Ho Hfit Hsep. unfold r6040_receive, ReceiveOnePacket. fold a.
  rewrite owned_dst, Ho by done. cbn [dst dlen dbp dnx d_rest read_desc]. fold b.
  pose proof (land_le_r (regs_w s MRBSR_W) 0x7fc ltac:(lia)) as Hmax.
  rewrite u32_id by lia. rewrite (proj2 (Z.ltb_ge _ _)) by lia.
  replace (s32 (Z.of_nat (length buf) + 4 - 4)) with (Z.of_nat (length buf))
    by (rewrite s32_id by lia; lia).
  rewrite Nat2Z.id, take_ge by lia. rewrite u16_id by lia. cbn [Z.eqb].
  change (Z.shiftl 1 14) with 0x4000. destruct (received_status (ram s) a Hb Ho) as [-> _].
  eexists. split; [reflexivity |]. split.
  - apply RX_START_SET_eq. now apply load32_range.
  - intros x. cbn [RX_START_SET set_reg r6040_update_irq set_irq set_ram ram].
    apply (write_back (ram s)); [done |]. intros y Hy. apply store_bytes_out.
    intros Hin. now apply (Hsep y).
Qed.

(** Reception.  When the current receive descriptor belongs to the
    controller and the frame with its checksum fits the buffer size, the frame
    is stored in the descriptor's buffer, its length (with checksum) and the
    received-OK bit go into the descriptor, which is given back to the host, and
    the controller moves to the next descriptor; the rest of guest memory is
    unchanged. *)
Theorem receive_stores_frame s buf :
  bytes_ok (ram s) -> regs_ok s ->
  let a := RX_START s in
  let b := load32 (ram s) (a + 4) in
  owned (ram s) a = true ->
  Z.of_nat (length buf) + 4 <= Z.land (regs_w s MRBSR_W) 0x7fc ->
  (forall x, b <= x < b + Z.of_nat (length buf) -> ~ (a <= x < a + 20)) ->
  let '(r, s') := r6040_receive s buf in
  r = Z.of_nat (length buf) /\
  load_bytes (ram s') b (Z.of_nat (length buf)) = buf /\
  load16 (ram s') a = Z.lor (load16 (ram s) a) 0x4000 - 0x8000 /\
  load16 (ram s') (a + 2) = Z.of_nat (length buf) + 4 /\
  RX_START s' = load32 (ram s) (a + 8) /\
  (forall x, ~ (b <= x < b + Z.of_nat (length buf)) -> ~ (a <= x < a + 4) -> ram s' x = ram s x).
Proof.
  intros Hb Hr a b Ho Hfit Hsep.
  destruct (receive_state s buf Hb Ho Hfit Hsep) as (s' & -> & Hnext & Hram).
  fold a in Hram, Hnext. fold b in Hram.
  pose proof (land_le_r (regs_w s MRBSR_W) 0x7fc ltac:(lia)) as Hmax.
  destruct (received_status (ram s) a Hb Ho) as [_ Hv16].
  split; [done |]. split; [| split; [| split; [| split; [done |]]]].
  - apply list_of_bytes. intros i Hi. specialize (Hsep (b + Z.of_nat i) ltac:(lia)).
    rewrite Hram, !store16_out by lia. rewrite store_bytes_in by lia. f_equal. lia.
  - unfold load16 at 1. rewrite !Hram, !(store16_out _ (a + 2)) by lia.
    apply (load16_store16 _ a _ Hv16).
  - unfold load16 at 1. rewrite !Hram.
    apply (load16_store16 _ (a + 2) (Z.of_nat (length buf) + 4)). lia.
  - intros x Hx1 Hx2. rewrite Hram, !store16_out by lia. now apply store_bytes_out.
Qed.

(** A frame for which the host has not handed over a descriptor is refused and
    nothing changes. *)
Lemma receive_refuses s buf :
  bytes_ok (ram s) -> owned (ram s) (RX_START s) = false -> r6040_receive s buf = (0, s).
Proof.
  intros Hb Ho. unfold r6040_receive, ReceiveOnePacket. now rewrite owned_dst, Ho.
Qed.

(** ** Corners of the register file *)

(** Reading the status register clears it and leaves the interrupt line as it
    was. *)
Lemma misr_read_keeps_line s :
  let '(v, s') := r6040_ioport_readw 0x3c s in
  v = regs_w s MISR_W /\ regs_w s' MISR_W = 0 /\ irq s' = irq s.
Proof. cbn -[store]. unfold store. split; [done |]. split; reflexivity. Qed.

(** The transmit counter is at 0x5a; write protection and clearing on read are
    applied to 0x5c. *)
Lemma tx_counter_unprotected s v : 0 <= v < 0x10000 ->
  regs_w (r6040_ioport_writew 0x5a v s) TX_PKT_COUNT_W = v /\
  snd (r6040_ioport_readw 0x5a s) = s.
Proof.
  intros Hv. split; [| reflexivity]. unfold r6040_ioport_writew. cbn -[store Z.land].
  unfold store, TX_PKT_COUNT_W. cbn [Z.eqb]. change 0xffff with (Z.ones 16).
  rewrite Z.land_ones by lia. change (u16 (v mod 2 ^ 16) = v). rewrite Z.mod_small by lia.
  now apply u16_id.
Qed.

(** ** Instances *)

Lemma init_regs_ok m : regs_ok (fst (r6040_init_pci m)).
Proof. intros i. cbn [r6040_init_pci fst regs_w]. unfold store. repeat zcase; lia. Qed.

(** Memory that is all descriptors pointing at each other. *)
(** Two frames waiting at 0x1000 and 0x1020, the next descriptor at 0x1040. *)
Definition sample_ring : mem :=
  let desc m a len buf nxt :=
    store32 (store32 (store16 (store16 m a 0x8000) (a + 2) len) (a + 4) buf) (a + 8) nxt in
  desc (desc (fun x => x mod 0x80) 0x1000 64 0x3000 0x1020) 0x1020 65 0x3080 0x1040.

Definition sample_nic : R6040State := TX_START_SET (fst (r6040_init_pci sample_ring)) 0x1000.

Lemma sample_ring_bytes : bytes_ok sample_ring.
Proof.
  unfold sample_ring. repeat first [apply bytes_ok_store16 | apply bytes_ok_store32].
  intros a. pose proof (Z.mod_pos_bound a 0x80 ltac:(lia)). lia.
Qed.

Lemma sample_nic_ring : tx_ring sample_ring 0x1000 [0x1000; 0x1020].
Proof.
  assert (N1 : next sample_ring 0x1000 = 0x1020) by reflexivity.
  assert (N2 : next sample_ring 0x1020 = 0x1040) by reflexivity.
  constructor; [reflexivity | rewrite N1; constructor; [reflexivity | |] |]; rewrite ?N1.
  - rewrite N2. constructor. reflexivity.
  - intros x Hx. rewrite N2 in Hx. cbn [reads] in Hx. lia.
  - intros x Hx. cbn [reads] in Hx. rewrite N2 in Hx.
    change (load32 sample_ring (0x1020 + 4)) with 0x3080 in Hx.
    change (load16 sample_ring (0x1020 + 2)) with 65 in Hx. lia.
Qed.

(** The first megabyte is RAM. *)
Definition low_ram (x : Z) : bool := (0 <=? x) && (x <? 0x100000).

Lemma transmit_sends_ring_witness :
  exists s', r6040_transmit_on low_ram sample_nic = Some s' /\
  sent s' = [load_bytes sample_ring 0x3000 64; load_bytes sample_ring 0x3080 65] /\
  (forall x, ram s' x = if bool_decide (x - 1 ∈ [0x1000; 0x1020]) then sample_ring x - 0x80 else sample_ring x) /\
  regs_w s' TX_PKT_COUNT_W = 2 /\
  (Z.testbit (regs_w sample_nic MIER_W) 4 = true -> irq s' = true).
Proof.
  apply (transmit_sends_ring low_ram sample_nic [0x1000; 0x1020]).
  - exact sample_ring_bytes.
  - repeat apply set_reg_ok. apply init_regs_ok.
  - exact sample_nic_ring.
  - discriminate.
  - vm_compute. discriminate.
  - repeat (apply Forall_cons_2; [split; [reflexivity|vm_compute; discriminate]|]). apply Forall_nil_2.
Defined.

(** The ring above in RAM, and a descriptor linked to itself in the flash at the
    top of memory. *)
Definition rom_ring : mem := store32 (store16 (fun _ => 0) 0xffff0000 0x8000) (0xffff0000 + 8) 0xffff0000.

Definition ring_nic (m : mem) (a : Z) : R6040State := TX_START_SET (fst (r6040_init_pci m)) a.

Lemma transmit_terminates_witness :
  (exists s', r6040_transmit_on all_ram (ring_nic sample_ring 0x1000) = Some s' /\
     owned (ram s') (TX_START s') = false) /\
  (forall N, exists s', nloop N (transmit_step_on low_ram) (ring_nic rom_ring 0xffff0000, 0) = inl (s', Z.of_nat N)).
Proof.
  split.
  - apply (transmit_terminates all_ram (ring_nic sample_ring 0x1000)); [exact sample_ring_bytes| |apply all_in_ram].
    repeat apply set_reg_ok. apply init_regs_ok.
  - apply (transmit_terminates low_ram (ring_nic rom_ring 0xffff0000)) with (a := 0xffff0000).
    + apply bytes_ok_store32, bytes_ok_store16. intros a. lia.
    + repeat apply set_reg_ok. apply init_regs_ok.
    + vm_compute. auto.
Defined.

(** A frame of four bytes into the buffer at 0x3000. *)
Definition rx_nic : R6040State := RX_START_SET (fst (r6040_init_pci sample_ring)) 0x1000.

Lemma receive_stores_frame_witness :
  let '(r, s') := r6040_receive rx_nic [1; 2; 3; 4] in
  r = 4 /\ load_bytes (ram s') 0x3000 4 = [1; 2; 3; 4] /\
  load16 (ram s') 0x1000 = Z.lor 0x8000 0x4000 - 0x8000 /\ load16 (ram s') 0x1002 = 8 /\
  RX_START s' = 0x1020 /\
  (forall x, ~ (0x3000 <= x < 0x3000 + 4) -> ~ (0x1000 <= x < 0x1000 + 4) -> ram s' x = sample_ring x).
Proof.
  apply (receive_stores_frame rx_nic [1; 2; 3; 4]).
  - exact sample_ring_bytes.
  - repeat apply set_reg_ok. apply init_regs_ok.
  - reflexivity.
  - vm_compute. discriminate.
  - change (RX_START rx_nic) with 0x1000. change (load32 (ram rx_nic) (0x1000 + 4)) with 0x3000.
    cbn [length]. lia.
Defined.

End R6040Spec.
