(* ===== verification/R6040Type.v ===== *)
(** The emulated R6040 controller under any guest: the state stays well typed
    (registers and PHY registers 16 bits wide, guest memory and frames made of
    bytes, frames no longer than the packet buffer) and memory accesses stay
    within the descriptor and the part of the buffer the guest has declared. *)
From Stdlib Require Import ZArith Lia.
From stdpp Require Import base list numbers.
From S2P Require Import Prelude R6040 R6040Spec.

Module R6040Type.
Import R6040 R6040Spec.

(** ** Well-typed states *)

Definition byte_list (l : list Z) : Prop := Forall (fun b => 0 <= b < 0x100) l.

(** The size of [pkt_buffer]. *)
Definition sizeof_pkt_buffer : Z := 2000.

Record nic_ok (s : R6040State) : Prop := {
  no_regs : regs_ok s;
  no_phy : forall i, 0 <= phy_regs s i < 0x10000;
  no_ram : bytes_ok (ram s);
  no_sent : Forall (fun f => byte_list f /\ Z.of_nat (length f) <= sizeof_pkt_buffer) (sent s)
}.

Create HintDb nic.

Lemma nic_ok_set_reg s i v : nic_ok s -> nic_ok (set_reg s i v).
Proof. intros [H1 H2 H3 H4]. split; auto. now apply set_reg_ok. Qed.

Lemma nic_ok_set_phy s i v : nic_ok s -> 0 <= v < 0x10000 -> nic_ok (set_phy s i v).
Proof. intros [H1 H2 H3 H4] Hv. split; auto. intros j. cbn. unfold store. zcase; auto. Qed.

Lemma nic_ok_set_ram s m : nic_ok s -> bytes_ok m -> nic_ok (set_ram s m).
Proof. intros [H1 H2 H3 H4] Hm. split; auto. Qed.

Lemma nic_ok_irq s : nic_ok s -> nic_ok (r6040_update_irq s).
Proof. intros [H1 H2 H3 H4]. split; auto. Qed.

Lemma nic_ok_busy s b : nic_ok s -> nic_ok (set_busy s b).
Proof. intros [H1 H2 H3 H4]. split; auto. Qed.

#[local] Hint Resolve nic_ok_set_reg nic_ok_set_phy nic_ok_set_ram nic_ok_irq nic_ok_busy : nic.

Lemma write_desc_ok m a d : bytes_ok m -> byte_list (d_rest d) -> bytes_ok (write_desc m a d).
Proof.
  intros Hm Hd. apply bytes_ok_store_bytes; [|exact Hd].
  repeat apply bytes_ok_store32. repeat apply bytes_ok_store16. exact Hm.
Qed.

(** ** Every operation keeps them *)

Lemma send_ok s s' : nic_ok s -> TryToSendOnePacket s = Some s' -> nic_ok s'.
Proof.
  intros Hs E. unfold TryToSendOnePacket, TryToSendOnePacket_on in E. case_match; [|discriminate]. injection E as <-.
  repeat apply nic_ok_set_reg. apply nic_ok_set_ram.
  - apply nic_ok_set_reg. destruct Hs as [H1 H2 H3 H4]. split; auto. cbn [log_sent sent].
    apply Forall_app. split; [exact H4|]. apply Forall_cons_2; [|apply Forall_nil_2]. split.
    + apply load_bytes_ok, H3.
    + rewrite length_load_bytes. unfold sizeof_pkt_buffer. zcase; lia.
  - apply write_desc_ok; [apply Hs|]. apply load_bytes_ok, Hs.
Qed.

Lemma transmit_ok s : nic_ok s -> nic_ok (r6040_transmit s).
Proof.
  intros Hs. unfold r6040_transmit, r6040_transmit_on. rewrite ploop_nloop.
  assert (Hstep : forall (k : nat) (p : R6040State * Z), nic_ok p.1 ->
    match transmit_step_on all_ram p with inl p' => nic_ok p'.1 | inr p' => nic_ok p'.1 end).
  { intros k [s0 c] Hp. cbn [fst] in Hp. unfold transmit_step_on. cbn [fst snd].
    pose proof (send_ok s0) as Hsend. unfold TryToSendOnePacket in Hsend.
    destruct (TryToSendOnePacket_on all_ram s0); cbn [fst]; auto. }
  pose proof (nloop_ind (transmit_step_on all_ram) (fun _ p => nic_ok p.1) (fun p => nic_ok p.1) Hstep
    (Pos.to_nat transmit_bound) 0%nat (s, 0) Hs) as Hind.
  revert Hind. generalize (nloop (Pos.to_nat transmit_bound) (transmit_step_on all_ram) (s, 0)).
  intros [[s1 c]|[s1 c]] H1; cbn [fst default from_option] in *; [exact Hs|]. unfold transmit_done, id.
  destruct (negb (c =? 0)); auto with nic.
Qed.

Lemma receive_ok s buf : nic_ok s -> byte_list buf -> nic_ok (r6040_receive s buf).2.
Proof.
  intros Hs Hb. unfold r6040_receive, ReceiveOnePacket.
  destruct (anyset (dst (read_desc (ram s) (RX_START s))) 0x8000); [|exact Hs]. cbn [snd].
  repeat apply nic_ok_set_reg. apply nic_ok_irq. repeat apply nic_ok_set_reg.
  apply nic_ok_set_ram; [apply nic_ok_set_ram; [exact Hs|]|].
  - apply bytes_ok_store_bytes; [apply Hs|]. apply Forall_take, Hb.
  - apply write_desc_ok; [|apply load_bytes_ok, Hs].
    apply bytes_ok_store_bytes; [apply Hs|]. apply Forall_take, Hb.
Qed.

Lemma writew_ok addr val s : nic_ok s -> nic_ok (r6040_ioport_writew addr val s).
Proof.
  intros Hs. unfold r6040_ioport_writew. pose proof (transmit_ok s Hs) as Ht.
  assert (Hm : nic_ok (mdio_command s val))
    by (unfold mdio_command; repeat case_match; auto with nic; apply nic_ok_set_phy; [exact Hs|apply Hs]).
  repeat case_match; simplify_eq; auto with nic.
Qed.

Lemma readw_ok addr s : nic_ok s ->
  0 <= (r6040_ioport_readw addr s).1 < 0x10000 /\ nic_ok (r6040_ioport_readw addr s).2.
Proof.
  intros Hs. unfold r6040_ioport_readw. repeat case_match; cbn [fst snd]; (split; [apply Hs|auto with nic]).
Qed.

Lemma readb_ok addr s : nic_ok s ->
  0 <= (r6040_ioport_readb addr s).1 < 0x100 /\ nic_ok (r6040_ioport_readb addr s).2.
Proof.
  intros Hs. unfold r6040_ioport_readb, bind, ret.
  pose proof (readw_ok (clear addr 1) s Hs) as [Hv Hs'].
  destruct (r6040_ioport_readw (clear addr 1) s) as [v s1]. cbn [fst snd] in *.
  destruct (anyset addr 1); cbn [fst snd]; (split; [|exact Hs']).
  - change 0xff00 with (2 ^ 16 - 2 ^ 8). rewrite land_himask by lia. change (2 ^ 8) with 0x100.
    rewrite Z.shiftr_div_pow2 by lia. change (2 ^ 8) with 0x100. Z.div_mod_to_equations. lia.
  - change 0xff with (Z.ones 8). rewrite Z.land_ones by lia. change (2 ^ 8) with 0x100.
    apply Z.mod_pos_bound. lia.
Qed.

Lemma readl_ok addr s : nic_ok s ->
  0 <= (r6040_ioport_readl addr s).1 < 2 ^ 32 /\ nic_ok (r6040_ioport_readl addr s).2.
Proof.
  intros Hs. unfold r6040_ioport_readl, bind, ret. pose proof (readw_ok addr s Hs) as [Hv Hs'].
  destruct (r6040_ioport_readw addr s) as [v s1]. cbn [fst snd] in *.
  pose proof (readw_ok (addr + 2) s1 Hs') as [Hw Hs2].
  destruct (r6040_ioport_readw (addr + 2) s1) as [w s2]. cbn [fst snd] in *.
  split; [|exact Hs2]. rewrite (lor_disjoint v w 16) by lia. lia.
Qed.

(** ** Any guest *)

(** What the guest and the network can do: port accesses of every width at any
    address with any value, arriving frames, the link coming up. *)
Inductive nic_op : Type :=
| WriteB (addr val : Z) | WriteW (addr val : Z) | WriteL (addr val : Z)
| ReadB (addr : Z) | ReadW (addr : Z) | ReadL (addr : Z)
| Frame (f : list Z) | LinkUp.

Definition run_nic (s : R6040State) (op : nic_op) : R6040State :=
  match op with
  | WriteB a v => r6040_ioport_writeb a v s
  | WriteW a v => r6040_ioport_writew a v s
  | WriteL a v => r6040_ioport_writel a v s
  | ReadB a => (r6040_ioport_readb a s).2
  | ReadW a => (r6040_ioport_readw a s).2
  | ReadL a => (r6040_ioport_readl a s).2
  | Frame f => (r6040_receive s f).2
  | LinkUp => PhysicalLinkUp s
  end.

(** Frames are bytes. *)
Definition op_ok (op : nic_op) : Prop := match op with Frame f => byte_list f | _ => True end.

Lemma run_nic_ok s op : nic_ok s -> op_ok op -> nic_ok (run_nic s op).
Proof.
  intros Hs Hop. destruct op; cbn [run_nic op_ok] in *.
  - unfold r6040_ioport_writeb. repeat case_match; apply writew_ok, Hs.
  - apply writew_ok, Hs.
  - unfold r6040_ioport_writel. apply writew_ok, writew_ok, Hs.
  - apply readb_ok, Hs.
  - apply readw_ok, Hs.
  - apply readl_ok, Hs.
  - apply receive_ok; assumption.
  - apply nic_ok_set_phy; [exact Hs|]. change 0x10000 with (2 ^ 16).
    apply lor_range; [lia|apply Hs|vm_compute; split; congruence].
Qed.

Lemma power_on_ok m : bytes_ok m -> nic_ok (r6040_init_pci m).1.
Proof.
  intros Hm. split; [|intros i|exact Hm|apply Forall_nil_2].
  - apply init_regs_ok.
  - cbn [r6040_init_pci fst phy_regs]. unfold store. repeat zcase; vm_compute; split; congruence.
Qed.

(** C36: types are preserved.  From power-on, after any sequence of port reads and
    writes of any width at any address, of frames and link changes: every
    register and PHY register is a 16-bit value, guest memory and the frames on
    the wire consist of bytes, no frame exceeds the packet buffer, and the next
    read of each width returns a value of that width. *)
Theorem nic_well_typed m ops :
  bytes_ok m -> Forall op_ok ops ->
  let s := fold_left run_nic ops (r6040_init_pci m).1 in
  nic_ok s /\
  forall addr, 0 <= (r6040_ioport_readb addr s).1 < 0x100 /\
    0 <= (r6040_ioport_readw addr s).1 < 0x10000 /\ 0 <= (r6040_ioport_readl addr s).1 < 2 ^ 32.
Proof.
  intros Hm Hops. cbv zeta.
  assert (Hs : nic_ok (fold_left run_nic ops (r6040_init_pci m).1)).
  { pose proof (power_on_ok m Hm) as H0. revert H0. generalize (r6040_init_pci m).1.
    induction Hops as [|op ops Hop _ IH]; intros s Hs; [exact Hs|]. apply IH, run_nic_ok; assumption. }
  split; [exact Hs|]. intros addr.
  split; [apply readb_ok, Hs|]. split; [apply readw_ok, Hs|apply readl_ok, Hs].
Qed.

Lemma nic_well_typed_witness :
  let s := fold_left run_nic [WriteW 0x18 0x600; WriteL 0x34 0x1234; WriteB 1 0xff; ReadW 0x3c;
             Frame [1; 2; 3]; LinkUp] (r6040_init_pci (fun _ => 0)).1 in
  nic_ok s /\
  forall addr, 0 <= (r6040_ioport_readb addr s).1 < 0x100 /\
    0 <= (r6040_ioport_readw addr s).1 < 0x10000 /\ 0 <= (r6040_ioport_readl addr s).1 < 2 ^ 32.
Proof.
  apply nic_well_typed; [intros a; lia|].
  repeat (apply Forall_cons_2; [first [exact I | repeat (apply Forall_cons_2; [lia|]); apply Forall_nil_2]|]).
  apply Forall_nil_2.
Defined.

(** ** Bounds of reception *)

(** How much of a frame the guest's buffer takes: the buffer size register
    counts the checksum. *)
Definition room (s : R6040State) : Z := Z.max 0 (Z.land (regs_w s MRBSR_W) 0x7fc - 4).

Lemma write_desc_out m a d x : length (d_rest d) = 8%nat -> ~ (a <= x < a + sizeof_Descriptor) ->
  write_desc m a d x = m x.
Proof.
  unfold sizeof_Descriptor. intros Hl Hx. unfold write_desc.
  rewrite store_bytes_out by lia. rewrite !store32_out, !store16_out by lia. reflexivity.
Qed.

Lemma write_desc_len m a d : 0 <= dlen d < 0x10000 -> load16 (write_desc m a d) (a + 2) = dlen d.
Proof.
  intros Hd. etransitivity; [|apply (load16_store16 (store16 m a (dst d)) (a + 2)); exact Hd].
  apply load16_ext; unfold write_desc; rewrite store_bytes_out, !store32_out by lia; reflexivity.
Qed.

(** C37: reception stays in bounds.  Whatever the frame (however long), the
    descriptors and the registers: the only memory that changes is the
    descriptor and the first bytes of the buffer it points to, no more of them
    than the size register allows and never more than 2040; the length reported
    to the guest is that of the frame with its checksum, cut at the size
    register. *)
Theorem receive_in_bounds s buf :
  Z.of_nat (length buf) + 4 < 2 ^ 31 ->
  let a := RX_START s in
  let b := load32 (ram s) (a + 4) in
  let '(r, s') := r6040_receive s buf in
  (forall x, ~ (a <= x < a + sizeof_Descriptor) ->
     ~ (b <= x < b + Z.min (Z.of_nat (length buf)) (room s)) -> ram s' x = ram s x) /\
  room s <= 2040 /\
  (owned (ram s) a = true -> bytes_ok (ram s) ->
     load16 (ram s') (a + 2) = Z.min (Z.of_nat (length buf) + 4) (Z.land (regs_w s MRBSR_W) 0x7fc)).
Proof.
  intros Hlen a b. pose proof (land_le_r (regs_w s MRBSR_W) 0x7fc ltac:(lia)) as Hmax.
  set (max := Z.land (regs_w s MRBSR_W) 0x7fc) in *.
  assert (Hroom : room s <= 2040) by (unfold room; fold max; lia).
  unfold r6040_receive, ReceiveOnePacket. fold a max. rewrite u32_id by lia.
  destruct (anyset (dst (read_desc (ram s) a)) 0x8000) eqn:Eo.
  - set (tocopy := if max <? _ then _ else _).
    assert (Et : tocopy = Z.min (Z.of_nat (length buf) + 4) max) by (unfold tocopy; zcase; lia).
    assert (Es : Z.to_nat (s32 (tocopy - 4)) = Z.to_nat (tocopy - 4)).
    { unfold s32. destruct (Z.le_gt_cases 4 tocopy).
      - rewrite Z.mod_small by lia. zcase; lia.
      - replace ((tocopy - 4) mod 0x100000000) with (tocopy - 4 + 0x100000000)
          by (rewrite <- (Z.mod_small (tocopy - 4 + 0x100000000) 0x100000000) by lia;
              rewrite Z.add_mod, Z.mod_same, Z.add_0_r, Z.mod_mod by lia; reflexivity).
        zcase; lia. }
    rewrite Es. cbn [RX_START_SET r6040_update_irq set_irq set_reg set_ram ram dst dlen dbp dnx d_rest read_desc Z.eqb].
    change (RX_START (set_ram s _)) with a. fold b.
    split; [|split; [exact Hroom|]].
    + intros x Hx1 Hx2. rewrite write_desc_out; [|apply length_load_bytes|exact Hx1].
      apply store_bytes_out. rewrite length_take. unfold room in Hx2. fold max in Hx2. lia.
    + intros _ _. rewrite write_desc_len; cbn [dlen]; rewrite u16_id by lia; lia.
  - split; [auto|]. split; [exact Hroom|]. intros Ho Hb. rewrite owned_dst in Eo by exact Hb. congruence.
Qed.

(** A frame of 3000 bytes against a buffer size of 64. *)
Definition small_nic : R6040State :=
  set_ram (set_reg (RX_START_SET (r6040_init_pci (fun _ => 0)).1 0x1000) MRBSR_W 64)
    (store32 (store16 (fun _ => 0) 0x1000 0x8000) 0x1004 0x2000).

Lemma receive_in_bounds_witness :
  let '(r, s') := r6040_receive small_nic (repeat 7 3000) in
  (forall x, ~ (0x1000 <= x < 0x1014) -> ~ (0x2000 <= x < 0x203c) -> ram s' x = ram small_nic x) /\
  load16 (ram s') 0x1002 = 64.
Proof.
  pose proof (receive_in_bounds small_nic (repeat 7 3000) ltac:(vm_compute; reflexivity)) as Hw.
  cbv zeta in Hw. destruct (r6040_receive small_nic (repeat 7 3000)) as [r s'].
  destruct Hw as (Hx & _ & Hl). split.
  - intros x H1 H2. apply Hx; [exact H1|].
    replace (load32 (ram small_nic) (RX_START small_nic + 4)) with 0x2000 by (vm_compute; reflexivity).
    replace (Z.min (Z.of_nat (length (repeat 7 3000))) (room small_nic)) with 60 by (vm_compute; reflexivity).
    exact H2.
  - apply Hl; [vm_compute; reflexivity|]. repeat first [apply bytes_ok_store32 | apply bytes_ok_store16].
    intros x. lia.
Defined.

End R6040Type.
