(* ===== verification/LinuxR6040.v ===== *)
(** The Linux driver of the R6040 (drivers/net/r6040.c): MDIO access, descriptor
    rings in DMA memory, transmit, reclaim, receive, interrupt handler and NAPI
    poll.  The driver is written against [Nic]: 16-bit port accesses and the
    memory it shares with the controller.  Descriptors are named by their bus
    address, which is also how the coherent memory is accessed. *)
From Stdlib Require Import ZArith Lia.
From stdpp Require Import base list numbers.
From S2P Require Import Prelude R6040.

Class Nic (D : Type) : Type := {
  ioread16 : Z -> D -> Z * D;
  iowrite16 : Z -> Z -> D -> D;
  ioread8 : Z -> D -> Z * D;
  dma : D -> mem;
  set_dma : D -> mem -> D
}.

#[export] Instance r6040_nic : Nic R6040.R6040State := {
  ioread16 a s := R6040.r6040_ioport_readw a s;
  iowrite16 v a s := R6040.r6040_ioport_writew a (u16 v) s;
  ioread8 a s := R6040.r6040_ioport_readb a s;
  dma s := R6040.ram s;
  set_dma s m := R6040.set_ram s m
}.

Module Driver.

(** Registers *)

Definition MCR0 : Z := 0x00.

Definition MCR1 : Z := 0x04.

Definition MAC_RST : Z := 0x0001.

Definition MBCR : Z := 0x08.

Definition MT_ICR : Z := 0x0C.

Definition MR_ICR : Z := 0x10.

Definition MTPR : Z := 0x14.

Definition MR_BSR : Z := 0x18.

Definition MLSR : Z := 0x1C.

Definition MMDIO : Z := 0x20.

Definition MDIO_WRITE : Z := 0x4000.

Definition MDIO_READ : Z := 0x2000.

Definition MMRD : Z := 0x24.

Definition MMWD : Z := 0x28.

Definition MTD_SA0 : Z := 0x2C.

Definition MTD_SA1 : Z := 0x30.

Definition MRD_SA0 : Z := 0x34.

Definition MRD_SA1 : Z := 0x38.

Definition MISR : Z := 0x3C.

Definition MIER : Z := 0x40.

Definition MSK_INT : Z := 0x0000.

Definition RX_FINISH : Z := 0x0001.

Definition RX_NO_DESC : Z := 0x0002.

Definition RX_FIFO_FULL : Z := 0x0004.

Definition TX_FINISH : Z := 0x0010.

Definition ME_CNT0 : Z := 0x52.

Definition ME_CNT1 : Z := 0x54.

Definition MID_0L : Z := 0x68.

Definition MID_0M : Z := 0x6A.

Definition MID_0H : Z := 0x6C.

Definition MAC_SM : Z := 0xAC.

Definition TX_DCNT : Z := 0x80.

Definition RX_DCNT : Z := 0x80.

Definition MAX_BUF_SIZE : Z := 0x600.

Definition MBCR_DEFAULT : Z := 0x012A.

Definition DSC_OWNER_MAC : Z := 0x8000.

Definition DSC_RX_ERR : Z := 0x0800.

Definition DSC_RX_ERR_DRI : Z := 0x0400.

Definition DSC_RX_ERR_BUF : Z := 0x0200.

Definition DSC_RX_ERR_LONG : Z := 0x0100.

Definition DSC_RX_ERR_RUNT : Z := 0x0080.

Definition DSC_RX_ERR_CRC : Z := 0x0040.

Definition RX_INTS : Z := Z.lor (Z.lor RX_FIFO_FULL RX_NO_DESC) RX_FINISH.

Definition TX_INTS : Z := TX_FINISH.

Definition INT_MASK : Z := Z.lor RX_INTS TX_INTS.

(** [struct r6040_descriptor], 32 bytes. *)
Definition sizeof_desc : Z := 32.

Definition OFF_status : Z := 0.

Definition OFF_len : Z := 2.

Definition OFF_buf : Z := 4.

Definition OFF_ndesc : Z := 8.

Definition OFF_vndescp : Z := 0x14.

Definition OFF_skb_ptr : Z := 0x18.

Record stats : Type := mkStats {
  tx_packets : Z; tx_bytes : Z; rx_packets : Z; rx_bytes : Z; rx_dropped : Z; rx_missed_errors : Z;
  rx_frame_errors : Z; rx_length_errors : Z; rx_crc_errors : Z; rx_fifo_errors : Z;
  tx_carrier_errors : Z; multicast : Z; tx_errors : Z
}.

(** The private structure and what the driver tells the network stack: whether
    the transmit queue is stopped, whether NAPI is scheduled, the frames passed
    up. *)
Record r6040_private : Type := mkPriv {
  rx_insert_ptr : Z; rx_remove_ptr : Z; tx_insert_ptr : Z; tx_remove_ptr : Z;
  rx_ring : Z; tx_ring : Z; tx_free_desc : Z; mcr0 : Z;
  dev_addr : list Z; p_stats : stats; queue_stopped : bool; napi_scheduled : bool;
  delivered : list (list Z)
}.

(** A buffer: identity (never 0), data address on the bus, length. *)
Record sk_buff : Type := mkSkb { skb_id : Z; skb_dma : Z; skb_len : Z }.

Definition set_tx (lp : r6040_private) (insert remove free : Z) : r6040_private :=
  mkPriv (rx_insert_ptr lp) (rx_remove_ptr lp) insert remove (rx_ring lp) (tx_ring lp) free (mcr0 lp)
    (dev_addr lp) (p_stats lp) (queue_stopped lp) (napi_scheduled lp) (delivered lp).

Definition set_rx (lp : r6040_private) (insert remove : Z) : r6040_private :=
  mkPriv insert remove (tx_insert_ptr lp) (tx_remove_ptr lp) (rx_ring lp) (tx_ring lp)
    (tx_free_desc lp) (mcr0 lp) (dev_addr lp) (p_stats lp) (queue_stopped lp) (napi_scheduled lp)
    (delivered lp).

Definition set_stats (lp : r6040_private) (st : stats) : r6040_private :=
  mkPriv (rx_insert_ptr lp) (rx_remove_ptr lp) (tx_insert_ptr lp) (tx_remove_ptr lp) (rx_ring lp)
    (tx_ring lp) (tx_free_desc lp) (mcr0 lp) (dev_addr lp) st (queue_stopped lp) (napi_scheduled lp)
    (delivered lp).

Definition set_queue (lp : r6040_private) (stopped : bool) : r6040_private :=
  mkPriv (rx_insert_ptr lp) (rx_remove_ptr lp) (tx_insert_ptr lp) (tx_remove_ptr lp) (rx_ring lp)
    (tx_ring lp) (tx_free_desc lp) (mcr0 lp) (dev_addr lp) (p_stats lp) stopped (napi_scheduled lp)
    (delivered lp).

Definition set_napi (lp : r6040_private) (b : bool) : r6040_private :=
  mkPriv (rx_insert_ptr lp) (rx_remove_ptr lp) (tx_insert_ptr lp) (tx_remove_ptr lp) (rx_ring lp)
    (tx_ring lp) (tx_free_desc lp) (mcr0 lp) (dev_addr lp) (p_stats lp) (queue_stopped lp) b
    (delivered lp).

Definition deliver (lp : r6040_private) (f : list Z) : r6040_private :=
  mkPriv (rx_insert_ptr lp) (rx_remove_ptr lp) (tx_insert_ptr lp) (tx_remove_ptr lp) (rx_ring lp)
    (tx_ring lp) (tx_free_desc lp) (mcr0 lp) (dev_addr lp) (p_stats lp) (queue_stopped lp)
    (napi_scheduled lp) (delivered lp ++ [f]).

(** One counter. *)
Definition bump (st : stats) (rd rm rfr rl rc rff tc : Z) : stats :=
  mkStats (tx_packets st) (tx_bytes st) (rx_packets st) (rx_bytes st) (rx_dropped st + rd)
    (rx_missed_errors st + rm) (rx_frame_errors st + rfr) (rx_length_errors st + rl)
    (rx_crc_errors st + rc) (rx_fifo_errors st + rff) (tx_carrier_errors st + tc) (multicast st)
    (tx_errors st).

Section Ops.
Context {D : Type} `{Nic D}.

(** ** MDIO *)

(** [while (limit--)] with 2048 polls, until the bits [mask] are clear. *)
Definition mdio_wait (mask : Z) (d : D) : D :=
  match nloop 2048 (fun d =>
    let '(cmd, d) := ioread16 MMDIO d in if negb (anyset cmd mask) then inr d else inl d) d with
  | inl d => d
  | inr d => d
  end.

Definition r6040_phy_read (phy_addr reg : Z) : ST D Z := fun d =>
  let d := iowrite16 (MDIO_READ + reg + Z.shiftl phy_addr 8) MMDIO d in
  let d := mdio_wait MDIO_READ d in
  ioread16 MMRD d.

Definition r6040_phy_write (phy_addr reg val : Z) (d : D) : D :=
  let d := iowrite16 val MMWD d in
  let d := iowrite16 (MDIO_WRITE + reg + Z.shiftl phy_addr 8) MMDIO d in
  mdio_wait MDIO_WRITE d.

Definition r6040_mdiobus_read (phy_addr reg : Z) : ST D Z := r6040_phy_read phy_addr reg.

Definition r6040_mdiobus_write (phy_addr reg value : Z) : ST D Z := fun d =>
  (0, r6040_phy_write phy_addr reg value d).

(** ** Descriptors *)

Definition get16 (d : D) (a : Z) : Z := load16 (dma d) a.

Definition get32 (d : D) (a : Z) : Z := load32 (dma d) a.

Definition put16 (d : D) (a v : Z) : D := set_dma d (store16 (dma d) a (u16 v)).

Definition put32 (d : D) (a v : Z) : D := set_dma d (store32 (dma d) a (u32 v)).

(** The loop of [r6040_init_ring_desc] from one descriptor on. *)
Fixpoint ring_desc_loop (size : nat) (desc mapping : Z) (d : D) : D :=
  match size with
  | O => d
  | S size' =>
      let mapping := mapping + sizeof_desc in
      let d := put32 d (desc + OFF_ndesc) mapping in
      let d := put32 d (desc + OFF_vndescp) (desc + sizeof_desc) in
      ring_desc_loop size' (desc + sizeof_desc) mapping d
  end.

Definition r6040_init_ring_desc (desc_ring desc_dma : Z) (size : nat) (d : D) : D :=
  let d := ring_desc_loop size desc_ring desc_dma d in
  let desc := desc_ring + sizeof_desc * Z.of_nat size - sizeof_desc in
  let d := put32 d (desc + OFF_ndesc) desc_dma in
  put32 d (desc + OFF_vndescp) desc_ring.

Definition r6040_init_txbufs (lp : r6040_private) (d : D) : r6040_private * D :=
  (set_tx lp (tx_ring lp) (tx_ring lp) TX_DCNT,
   r6040_init_ring_desc (tx_ring lp) (tx_ring lp) (Z.to_nat TX_DCNT) d).

(** [for (i = 0; i < n; i++)] over a ring: forget the buffers. *)
Fixpoint free_bufs (n : nat) (desc : Z) (d : D) : Z * D :=
  match n with
  | O => (desc, d)
  | S n' =>
      let d := if negb (get32 d (desc + OFF_skb_ptr) =? 0) then put32 d (desc + OFF_skb_ptr) 0 else d in
      free_bufs n' (get32 d (desc + OFF_vndescp)) d
  end.

Definition r6040_free_txbufs (lp : r6040_private) (d : D) : r6040_private * D :=
  let '(ptr, d) := free_bufs (Z.to_nat TX_DCNT) (tx_insert_ptr lp) d in
  (set_tx lp ptr (tx_remove_ptr lp) (tx_free_desc lp), d).

Definition r6040_free_rxbufs (lp : r6040_private) (d : D) : r6040_private * D :=
  let '(ptr, d) := free_bufs (Z.to_nat RX_DCNT) (rx_insert_ptr lp) d in
  (set_rx lp ptr (rx_remove_ptr lp), d).

(** The allocation loop of [r6040_alloc_rxbufs]; [skbs] is what the allocator
    will give.  The ring has [RX_DCNT] descriptors, which bounds the loop. *)
Fixpoint alloc_loop (fuel : nat) (ring desc : Z) (skbs : list sk_buff) (d : D)
  : option (list sk_buff) * D :=
  match fuel with
  | O => (Some skbs, d)
  | S fuel' =>
      match skbs with
      | [] => (None, d)
      | skb :: skbs =>
          let d := put32 d (desc + OFF_skb_ptr) (skb_id skb) in
          let d := put32 d (desc + OFF_buf) (skb_dma skb) in
          let d := put16 d (desc + OFF_status) DSC_OWNER_MAC in
          let desc := get32 d (desc + OFF_vndescp) in
          if desc =? ring then (Some skbs, d) else alloc_loop fuel' ring desc skbs d
      end
  end.

Definition ENOMEM : Z := 12.

Definition r6040_alloc_rxbufs (skbs : list sk_buff) (lp : r6040_private) (d : D)
  : Z * r6040_private * D :=
  let lp := set_rx lp (rx_ring lp) (rx_ring lp) in
  let d := r6040_init_ring_desc (rx_ring lp) (rx_ring lp) (Z.to_nat RX_DCNT) d in
  match alloc_loop (Z.to_nat RX_DCNT) (rx_ring lp) (rx_ring lp) skbs d with
  | (Some _, d) => (0, lp, d)
  | (None, d) => let '(lp, d) := r6040_free_rxbufs lp d in (- ENOMEM, lp, d)
  end.

(** ** Bringing the controller up and down *)

(** [while (limit--)] until the reset bit reads as set. *)
Definition reset_wait (d : D) : D :=
  match nloop 2048 (fun d =>
    let '(cmd, d) := ioread16 MCR1 d in if anyset cmd 0x1 then inr d else inl d) d with
  | inl d => d
  | inr d => d
  end.

Definition r6040_init_mac_regs (lp : r6040_private) (d : D) : D :=
  let d := iowrite16 MSK_INT MIER d in
  let d := iowrite16 MAC_RST MCR1 d in
  let d := reset_wait d in
  let d := iowrite16 2 MAC_SM d in
  let d := iowrite16 0 MAC_SM d in
  let d := iowrite16 MBCR_DEFAULT MBCR d in
  let d := iowrite16 MAX_BUF_SIZE MR_BSR d in
  let d := iowrite16 (tx_ring lp) MTD_SA0 d in
  let d := iowrite16 (Z.shiftr (tx_ring lp) 16) MTD_SA1 d in
  let d := iowrite16 (rx_ring lp) MRD_SA0 d in
  let d := iowrite16 (Z.shiftr (rx_ring lp) 16) MRD_SA1 d in
  let d := iowrite16 0 MT_ICR d in
  let d := iowrite16 0 MR_ICR d in
  let d := iowrite16 INT_MASK MIER d in
  let d := iowrite16 (Z.lor (mcr0 lp) 0x0002) MCR0 d in
  iowrite16 0x01 MTPR d.

(** The two registers are read for the message. *)
Definition r6040_tx_timeout (lp : r6040_private) (d : D) : r6040_private * D :=
  let '(_, d) := ioread16 MIER d in
  let '(_, d) := ioread16 MISR d in
  let st := p_stats lp in
  let lp := set_stats lp
    (mkStats (tx_packets st) (tx_bytes st) (rx_packets st) (rx_bytes st) (rx_dropped st)
       (rx_missed_errors st) (rx_frame_errors st) (rx_length_errors st) (rx_crc_errors st)
       (rx_fifo_errors st) (tx_carrier_errors st) (multicast st) (tx_errors st + 1)) in
  (lp, r6040_init_mac_regs lp d).

Definition r6040_get_stats (lp : r6040_private) (d : D) : r6040_private * D :=
  let '(crc, d) := ioread8 ME_CNT1 d in
  let '(mc, d) := ioread8 ME_CNT0 d in
  let st := p_stats lp in
  (set_stats lp
    (mkStats (tx_packets st) (tx_bytes st) (rx_packets st) (rx_bytes st) (rx_dropped st)
       (rx_missed_errors st) (rx_frame_errors st) (rx_length_errors st) (rx_crc_errors st + crc)
       (rx_fifo_errors st) (tx_carrier_errors st) (multicast st + mc) (tx_errors st)), d).

(** The station address as three words. *)
Definition addr_word (lp : r6040_private) (i : nat) : Z :=
  nth (2 * i) (dev_addr lp) 0 + 0x100 * nth (2 * i + 1) (dev_addr lp) 0.

Definition restore_mac (lp : r6040_private) (d : D) : D :=
  let d := iowrite16 (addr_word lp 0) MID_0L d in
  let d := iowrite16 (addr_word lp 1) MID_0M d in
  iowrite16 (addr_word lp 2) MID_0H d.

Definition r6040_down (lp : r6040_private) (d : D) : D :=
  let d := iowrite16 MSK_INT MIER d in
  let d := iowrite16 MAC_RST MCR1 d in
  let d := reset_wait d in
  restore_mac lp d.

Definition r6040_mac_address (lp : r6040_private) (d : D) : D :=
  let d := iowrite16 0x01 MCR1 d in
  let d := iowrite16 2 MAC_SM d in
  let d := iowrite16 0 MAC_SM d in
  restore_mac lp d.

Definition r6040_up (skbs : list sk_buff) (lp : r6040_private) (d : D) : Z * r6040_private * D :=
  let '(lp, d) := r6040_init_txbufs lp d in
  let '(ret, lp, d) := r6040_alloc_rxbufs skbs lp d in
  if negb (ret =? 0) then (ret, lp, d)
  else
    let '(v, d) := r6040_phy_read 30 17 d in
    let d := r6040_phy_write 30 17 (Z.lor v 0x4000) d in
    let '(v, d) := r6040_phy_read 30 17 d in
    let d := r6040_phy_write 30 17 (u16 (Z.lnot (Z.lor (Z.lnot v) 0x2000))) d in
    let d := r6040_phy_write 0 19 0x0000 d in
    let d := r6040_phy_write 0 30 0x01F0 d in
    (0, lp, r6040_init_mac_regs lp d).

(** ** Transmit *)

Definition NETDEV_TX_OK : Z := 0.

Definition NETDEV_TX_BUSY : Z := 0x10.

Definition r6040_start_xmit (skb : sk_buff) (lp : r6040_private) (d : D) : Z * r6040_private * D :=
  if tx_free_desc lp =? 0 then (NETDEV_TX_BUSY, set_queue lp true, d)
  else
    let st := p_stats lp in
    let lp := set_stats lp
      (mkStats (tx_packets st + 1) (tx_bytes st + skb_len skb) (rx_packets st) (rx_bytes st)
         (rx_dropped st) (rx_missed_errors st) (rx_frame_errors st) (rx_length_errors st)
         (rx_crc_errors st) (rx_fifo_errors st) (tx_carrier_errors st) (multicast st) (tx_errors st)) in
    let free := tx_free_desc lp - 1 in
    let descptr := tx_insert_ptr lp in
    let d := put16 d (descptr + OFF_len) (if skb_len skb <? MISR then MISR else skb_len skb) in
    let d := put32 d (descptr + OFF_skb_ptr) (skb_id skb) in
    let d := put32 d (descptr + OFF_buf) (skb_dma skb) in
    let d := put16 d (descptr + OFF_status) DSC_OWNER_MAC in
    let d := iowrite16 0x01 MTPR d in
    let lp := set_tx lp (get32 d (descptr + OFF_vndescp)) (tx_remove_ptr lp) free in
    let lp := if free =? 0 then set_queue lp true else lp in
    (NETDEV_TX_OK, lp, d).

(** The reclaim loop of [r6040_tx]; the count of free descriptors rises to
    [TX_DCNT], which bounds it. *)
Fixpoint tx_loop (fuel : nat) (descptr free : Z) (st : stats) (d : D) : Z * Z * stats * D :=
  match fuel with
  | O => (descptr, free, st, d)
  | S fuel' =>
      if free <? TX_DCNT then
        let '(err, d) := ioread16 MLSR d in
        let st := bump st 0 0 0 0 0 (if anyset err 0x0200 then 1 else 0)
                    (if anyset err (Z.lor 0x2000 0x4000) then 1 else 0) in
        if anyset (get16 d (descptr + OFF_status)) DSC_OWNER_MAC then (descptr, free, st, d)
        else
          let d := put32 d (descptr + OFF_skb_ptr) 0 in
          tx_loop fuel' (get32 d (descptr + OFF_vndescp)) (free + 1) st d
      else (descptr, free, st, d)
  end.

Definition r6040_tx (lp : r6040_private) (d : D) : r6040_private * D :=
  let '(descptr, free, st, d) :=
    tx_loop (Z.to_nat (TX_DCNT - tx_free_desc lp)) (tx_remove_ptr lp) (tx_free_desc lp) (p_stats lp) d in
  let lp := set_stats (set_tx lp (tx_insert_ptr lp) descptr free) st in
  (if negb (tx_free_desc lp =? 0) then set_queue lp false else lp, d).

(** ** Receive *)

Definition rx_error_stats (err : Z) (st : stats) : stats :=
  bump st 0 0 (if anyset err DSC_RX_ERR_DRI then 1 else 0)
    ((if anyset err DSC_RX_ERR_BUF then 1 else 0) + (if anyset err DSC_RX_ERR_LONG then 1 else 0) +
     (if anyset err DSC_RX_ERR_RUNT then 1 else 0))
    (if anyset err DSC_RX_ERR_CRC then 1 else 0) 0 0.

(** The loop of [r6040_rx]: [allocs] is what each allocation of a new buffer
    gives.  Returns the number of descriptors handled. *)
Fixpoint rx_loop (limit : nat) (count descptr : Z) (allocs : list (option sk_buff))
    (lp : r6040_private) (d : D) : Z * Z * r6040_private * D :=
  match limit with
  | O => (count, descptr, lp, d)
  | S limit' =>
      if anyset (get16 d (descptr + OFF_status)) DSC_OWNER_MAC then (count, descptr, lp, d)
      else
        let err := get16 d (descptr + OFF_status) in
        let next_descr lp d allocs :=
          let d := put16 d (descptr + OFF_status) DSC_OWNER_MAC in
          rx_loop limit' (count + 1) (get32 d (descptr + OFF_vndescp)) allocs lp d in
        if anyset err DSC_RX_ERR then next_descr (set_stats lp (rx_error_stats err (p_stats lp))) d allocs
        else
          match allocs with
          | Some new_skb :: allocs =>
              let len := get16 d (descptr + OFF_len) - 4 in
              let st := p_stats lp in
              let lp := deliver lp (load_bytes (dma d) (get32 d (descptr + OFF_buf)) len) in
              let lp := set_stats lp
                (mkStats (tx_packets st) (tx_bytes st) (rx_packets st + 1) (rx_bytes st + len)
                   (rx_dropped st) (rx_missed_errors st) (rx_frame_errors st) (rx_length_errors st)
                   (rx_crc_errors st) (rx_fifo_errors st) (tx_carrier_errors st) (multicast st)
                   (tx_errors st)) in
              let d := put32 d (descptr + OFF_skb_ptr) (skb_id new_skb) in
              let d := put32 d (descptr + OFF_buf) (skb_dma new_skb) in
              next_descr lp d allocs
          | None :: allocs => next_descr (set_stats lp (bump (p_stats lp) 1 0 0 0 0 0 0)) d allocs
          | [] => next_descr (set_stats lp (bump (p_stats lp) 1 0 0 0 0 0 0)) d []
          end
  end.

Definition r6040_rx (limit : Z) (allocs : list (option sk_buff)) (lp : r6040_private) (d : D)
  : Z * r6040_private * D :=
  let '(count, descptr, lp, d) := rx_loop (Z.to_nat limit) 0 (rx_remove_ptr lp) allocs lp d in
  (count, set_rx lp (rx_insert_ptr lp) descptr, d).

Definition r6040_poll (budget : Z) (allocs : list (option sk_buff)) (lp : r6040_private) (d : D)
  : Z * r6040_private * D :=
  let '(work_done, lp, d) := r6040_rx budget allocs lp d in
  if work_done <? budget then
    let lp := set_napi lp false in
    let '(mier, d) := ioread16 MIER d in
    (work_done, lp, iowrite16 (Z.lor mier RX_INTS) MIER d)
  else (work_done, lp, d).

(** ** Interrupts *)

Inductive irqreturn : Type := IRQ_NONE | IRQ_HANDLED.

Definition r6040_interrupt (lp : r6040_private) (d : D) : irqreturn * r6040_private * D :=
  let '(misr, d) := ioread16 MIER d in
  let d := iowrite16 MSK_INT MIER d in
  let '(status, d) := ioread16 MISR d in
  if (status =? 0x0000) || (status =? 0xffff) then (IRQ_NONE, lp, iowrite16 misr MIER d)
  else
    let '(lp, misr) :=
      if anyset status RX_INTS then
        let lp := if anyset status RX_NO_DESC then set_stats lp (bump (p_stats lp) 1 1 0 0 0 0 0) else lp in
        let lp := if anyset status RX_FIFO_FULL then set_stats lp (bump (p_stats lp) 0 0 0 0 0 1 0) else lp in
        (set_napi lp true, clear misr RX_INTS)
      else (lp, misr) in
    let '(lp, d) := if anyset status TX_INTS then r6040_tx lp d else (lp, d) in
    (IRQ_HANDLED, lp, iowrite16 misr MIER d).

End Ops.
End Driver.
