(* ===== verification/LinuxR6040Spec.v ===== *)
(** The Linux driver on the emulated controller: PHY registers read and written
    over MDIO, descriptor rings, frames from [r6040_start_xmit] to the wire, the
    interrupt mask across interrupt and poll. *)
From Stdlib Require Import ZArith Lia.
From stdpp Require Import base list numbers.
From S2P Require Import Prelude R6040 R6040Spec LinuxR6040.

Module DriverSpec.
Import R6040 R6040Spec Driver.

(** ** MDIO *)

(** The fields of a command word. *)
Lemma mdio_fields op reg phy :
  op = MDIO_READ \/ op = MDIO_WRITE -> 0 <= reg < 32 -> 0 <= phy < 32 ->
  let val := op + reg + Z.shiftl phy 8 in
  u16 val = val /\ Z.land val 0x1f00 = 256 * phy /\ Z.land val 0x1f = reg /\
  anyset val (Z.shiftl 1 13) = (op =? MDIO_READ) /\ anyset val (Z.shiftl 1 14) = (op =? MDIO_WRITE) /\
  anyset (u16 (Z.land (Z.lor val 0x6000) 0xffff)) op = true /\
  anyset (u16 (clear (u16 (Z.land (Z.lor val 0x6000) 0xffff)) 0x6000)) op = false.
Proof.
  intros Hop Hreg Hphy.
  pose (P := fun reg phy => let val := op + reg + Z.shiftl phy 8 in
    (u16 val =? val) && (Z.land val 0x1f00 =? 256 * phy) && (Z.land val 0x1f =? reg) &&
    eqb (anyset val (Z.shiftl 1 13)) (op =? MDIO_READ) &&
    eqb (anyset val (Z.shiftl 1 14)) (op =? MDIO_WRITE) &&
    anyset (u16 (Z.land (Z.lor val 0x6000) 0xffff)) op &&
    negb (anyset (u16 (clear (u16 (Z.land (Z.lor val 0x6000) 0xffff)) 0x6000)) op)).
  assert (HP : P reg phy = true).
  { apply (forall_range (fun phy => P reg phy) 32); [| lia].
    apply (forall_range (fun reg => forallb (fun k => P reg (Z.of_nat k)) (seq 0 32)) 32); [| lia].
    unfold P. destruct Hop as [-> | ->]; vm_compute; reflexivity. }
  unfold P in HP. repeat (apply andb_prop in HP as [HP ?]).
  repeat match goal with Hx : (_ =? _) = true |- _ => apply Z.eqb_eq in Hx
    | Hx : eqb _ _ = true |- _ => apply eqb_prop in Hx
    | Hx : negb _ = true |- _ => apply negb_true_iff in Hx end.
  cbv zeta. repeat split; assumption.
Qed.

Lemma write_MMDIO val s : 0 <= val < 0x10000 ->
  iowrite16 val MMDIO s =
    set_reg (set_busy (mdio_command s val) true) MMDIO_W (Z.land (Z.lor val 0x6000) 0xffff).
Proof. intros Hv. cbn [iowrite16 r6040_nic]. rewrite u16_id by done. reflexivity. Qed.

Lemma read_MMDIO_busy s : phy_op_in_progress s = true ->
  ioread16 MMDIO s =
    (regs_w s MMDIO_W, set_busy (set_reg s MMDIO_W (clear (regs_w s MMDIO_W) 0x6000)) false).
Proof. intros Hb. cbn [ioread16 r6040_nic]. unfold r6040_ioport_readw. cbn -[store]. now rewrite Hb. Qed.

Lemma read_MMDIO_idle s : phy_op_in_progress s = false -> ioread16 MMDIO s = (regs_w s MMDIO_W, s).
Proof. intros Hb. cbn [ioread16 r6040_nic]. unfold r6040_ioport_readw. cbn -[store]. now rewrite Hb. Qed.

(** A command is seen complete on the second poll. *)
Lemma mdio_wait_twice mask s :
  phy_op_in_progress s = true -> anyset (regs_w s MMDIO_W) mask = true ->
  anyset (u16 (clear (regs_w s MMDIO_W) 0x6000)) mask = false ->
  mdio_wait mask s = set_busy (set_reg s MMDIO_W (clear (regs_w s MMDIO_W) 0x6000)) false.
Proof.
  intros Hb H1 H2. unfold mdio_wait. replace 2048%nat with (S (S 2046)) by reflexivity.
  cbn [nloop]. rewrite read_MMDIO_busy by done. rewrite H1. cbn [negb].
  rewrite read_MMDIO_idle by done. cbn [set_busy set_reg regs_w]. rewrite store_eq.
  now rewrite H2.
Qed.

(** The state after an MDIO command and its wait. *)
Lemma mdio_transaction op reg phy s :
  op = MDIO_READ \/ op = MDIO_WRITE -> 0 <= reg < 32 -> 0 <= phy < 32 ->
  exists s', mdio_wait op (iowrite16 (op + reg + Z.shiftl phy 8) MMDIO s) = s' /\
    phy_regs s' = phy_regs (mdio_command s (op + reg + Z.shiftl phy 8)) /\
    (forall i, i <> MMDIO_W -> regs_w s' i = regs_w (mdio_command s (op + reg + Z.shiftl phy 8)) i).
Proof.
  intros Hop Hreg Hphy. destruct (mdio_fields op reg phy Hop Hreg Hphy) as (E1 & _ & _ & _ & _ & E6 & E7).
  set (val := op + reg + Z.shiftl phy 8) in *.
  assert (Hv : 0 <= val < 0x10000) by (rewrite <- E1; apply u16_range).
  rewrite write_MMDIO by done. rewrite mdio_wait_twice.
  - eexists. split; [reflexivity |]. split; [reflexivity |]. intros i Hi.
    cbn [set_busy set_reg regs_w]. now rewrite !store_ne by done.
  - reflexivity.
  - cbn [set_reg regs_w]. now rewrite store_eq.
  - cbn [set_reg regs_w]. now rewrite store_eq.
Qed.

Lemma read_MMRD s : fst (ioread16 MMRD s) = regs_w s MDIO_READ_W.
Proof. reflexivity. Qed.

(** What a read over MDIO returns. *)
Lemma phy_read_value phy reg s : 0 <= reg < 32 -> 0 <= phy < 32 ->
  fst (r6040_phy_read phy reg s) = (if phy =? 1 then u16 (phy_regs s reg) else 0xffff) /\
  phy_regs (snd (r6040_phy_read phy reg s)) = phy_regs s.
Proof.
  intros Hreg Hphy. unfold r6040_phy_read.
  destruct (mdio_fields MDIO_READ reg phy (or_introl eq_refl) Hreg Hphy) as (_ & E2 & E3 & E4 & _).
  destruct (mdio_transaction MDIO_READ reg phy s (or_introl eq_refl) Hreg Hphy) as (s' & -> & P1 & R1).
  rewrite read_MMRD. rewrite R1 by (vm_compute; congruence).
  change (phy_regs (snd (ioread16 MMRD s'))) with (phy_regs s'). rewrite P1.
  unfold mdio_command. rewrite E2, E3, E4. change (MDIO_READ =? MDIO_READ) with true. cbv iota.
  destruct (Z.eqb_spec phy 1) as [-> |].
  - change (256 * 1 =? 0x100) with true. cbn [set_reg regs_w phy_regs]. now rewrite store_eq.
  - rewrite (proj2 (Z.eqb_neq (256 * phy) 0x100)) by lia. cbn [set_reg regs_w phy_regs].
    now rewrite store_eq.
Qed.

(** What a write over MDIO does. *)
Lemma phy_write_regs phy reg v s : 0 <= reg < 32 -> 0 <= phy < 32 -> 0 <= v < 0x10000 ->
  phy_regs (r6040_phy_write phy reg v s) =
    if phy =? 1 then store (phy_regs s) reg v else phy_regs s.
Proof.
  intros Hreg Hphy Hv. unfold r6040_phy_write.
  destruct (mdio_fields MDIO_WRITE reg phy (or_intror eq_refl) Hreg Hphy) as (_ & E2 & E3 & E4 & E5 & _).
  set (s1 := iowrite16 v MMWD s).
  assert (Hs1 : s1 = set_reg s MDIO_WRITE_W v).
  { unfold s1. cbn [iowrite16 r6040_nic]. rewrite u16_id by done.
    change (r6040_ioport_writew MMWD v s) with (set_reg s MDIO_WRITE_W (Z.land v 0xffff)).
    change 0xffff with (Z.ones 16). now rewrite Z.land_ones, Z.mod_small by lia. }
  destruct (mdio_transaction MDIO_WRITE reg phy s1 (or_intror eq_refl) Hreg Hphy) as (s' & -> & -> & _).
  unfold mdio_command. rewrite E2, E3, E4, E5.
  change (MDIO_WRITE =? MDIO_READ) with false. change (MDIO_WRITE =? MDIO_WRITE) with true. cbv iota.
  rewrite Hs1. destruct (Z.eqb_spec phy 1) as [-> |].
  - change (256 * 1 =? 0x100) with true. cbn [set_phy phy_regs set_reg regs_w]. rewrite store_eq, u16_id by done. reflexivity.
  - now rewrite (proj2 (Z.eqb_neq (256 * phy) 0x100)) by lia.
Qed.

(** The driver's MDIO routines on the emulated controller: a PHY register
    reads back what was written to it, writing one register does not disturb
    another, and a PHY address with no PHY reads as all ones and ignores
    writes.  Each access completes within two polls of the status bit. *)
Theorem mdio_roundtrip reg other v phy s :
  0 <= reg < 32 -> 0 <= other < 32 -> 0 <= v < 0x10000 -> 0 <= phy < 32 ->
  (forall i, 0 <= phy_regs s i < 0x10000) ->
  let s1 := snd (r6040_mdiobus_write phy reg v s) in
  fst (r6040_mdiobus_read 1 other s1) =
    (if (phy =? 1) && (other =? reg) then v else fst (r6040_mdiobus_read 1 other s)) /\
  (phy <> 1 -> fst (r6040_mdiobus_read phy reg s1) = 0xffff).
Proof.
  intros Hreg Hoth Hv Hphy Hr. cbv zeta. unfold r6040_mdiobus_write, r6040_mdiobus_read. cbn [snd].
  destruct (phy_read_value 1 other (r6040_phy_write phy reg v s) Hoth ltac:(lia)) as [-> _].
  destruct (phy_read_value 1 other s Hoth ltac:(lia)) as [-> _].
  destruct (phy_read_value phy reg (r6040_phy_write phy reg v s) Hreg Hphy) as [-> _].
  rewrite phy_write_regs by done. cbn [Z.eqb Pos.eqb]. split.
  - unfold store. destruct (Z.eqb_spec phy 1), (Z.eqb_spec other reg); cbn [andb]; try done.
    now apply u16_id.
  - intros Hne. now rewrite (proj2 (Z.eqb_neq phy 1)).
Qed.

(** ** Rings *)

(** Descriptor [i] of a ring. *)
Definition desc_at (base i : Z) : Z := base + sizeof_desc * i.

(** Both pointers of descriptor [i] of an [n]-descriptor ring lead to the next,
    the last one's to the first. *)
Definition linked (m : mem) (base n : Z) : Prop :=
  forall i, 0 <= i < n ->
    load32 m (desc_at base i + OFF_ndesc) = desc_at base ((i + 1) mod n) /\
    load32 m (desc_at base i + OFF_vndescp) = desc_at base ((i + 1) mod n).

Lemma put32_ram (s : R6040State) a v : put32 s a v = set_ram s (store32 (ram s) a (u32 v)).
Proof. reflexivity. Qed.

Lemma put16_ram (s : R6040State) a v : put16 s a v = set_ram s (store16 (ram s) a (u16 v)).
Proof. reflexivity. Qed.

(** Setting both pointers of one descriptor. *)
Definition link (m : mem) (desc target : Z) : mem :=
  store32 (store32 m (desc + OFF_ndesc) target) (desc + OFF_vndescp) target.

Lemma link_out m desc target x :
  ~ (desc + 8 <= x < desc + 12) -> ~ (desc + 20 <= x < desc + 24) -> link m desc target x = m x.
Proof. intros H1 H2. unfold link, OFF_ndesc, OFF_vndescp. now rewrite !store32_out by lia. Qed.

Lemma link_in m desc target : 0 <= target < 2 ^ 32 ->
  load32 (link m desc target) (desc + OFF_ndesc) = target /\
  load32 (link m desc target) (desc + OFF_vndescp) = target.
Proof.
  intros Ht. unfold link. split; [| now apply load32_store32].
  rewrite (load32_ext (store32 m (desc + OFF_ndesc) target)); [now apply load32_store32 |].
  intros x Hx. apply store32_out. unfold OFF_ndesc, OFF_vndescp in *. lia.
Qed.

(** Neither of the pointer fields of the first [n] descriptors. *)
Definition not_link (base n x : Z) : Prop :=
  forall i, 0 <= i < n ->
    ~ (desc_at base i + 8 <= x < desc_at base i + 12) /\ ~ (desc_at base i + 20 <= x < desc_at base i + 24).

Lemma ring_desc_loop_ram n : forall desc (s : R6040State),
  0 <= desc -> desc + sizeof_desc * Z.of_nat n < 2 ^ 32 ->
  exists m, ring_desc_loop n desc desc s = set_ram s m /\
    (forall i, 0 <= i < Z.of_nat n ->
       load32 m (desc_at desc i + OFF_ndesc) = desc_at desc (i + 1) /\
       load32 m (desc_at desc i + OFF_vndescp) = desc_at desc (i + 1)) /\
    (forall x, not_link desc (Z.of_nat n) x -> m x = ram s x) /\
    (bytes_ok (ram s) -> bytes_ok m).
Proof.
  unfold sizeof_desc. induction n as [| n IH]; intros desc s H0 Hlt; cbn [ring_desc_loop].
  - exists (ram s). split; [now destruct s |]. split; [lia |]. done.
  - rewrite !put32_ram. cbn [set_ram ram]. unfold sizeof_desc. rewrite !u32_id by lia.
    fold (link (ram s) desc (desc + 32)).
    destruct (IH (desc + 32) (set_ram (set_ram s (store32 (ram s) (desc + OFF_ndesc) (desc + 32)))
      (link (ram s) desc (desc + 32)))) as (m & E & Hl & Hout & Hb); [lia | lia |].
    assert (Hd0 : desc_at desc 0 = desc) by (unfold desc_at, sizeof_desc; lia).
    assert (Hds : forall i, desc_at (desc + 32) i = desc_at desc (i + 1))
      by (intros i; unfold desc_at, sizeof_desc; lia).
    exists m. split; [exact E |]. split; [| split].
    + intros i Hi. destruct (Z.eq_dec i 0) as [-> |].
      * rewrite Hd0. replace (desc_at desc (0 + 1)) with (desc + 32) by (unfold desc_at, sizeof_desc; lia).
        destruct (link_in (ram s) desc (desc + 32) ltac:(lia)) as [L1 L2].
        split; (etransitivity; [apply load32_ext | eassumption]);
          intros x Hx; apply Hout; intros k Hk; rewrite Hds; unfold desc_at, sizeof_desc, OFF_ndesc,
            OFF_vndescp in *; lia.
      * destruct (Hl (i - 1) ltac:(lia)) as [L1 L2]. rewrite !Hds in L1, L2.
        replace (i - 1 + 1) with i in * by lia. done.
    + intros x Hx. rewrite Hout.
      * cbn [set_ram ram]. destruct (Hx 0 ltac:(lia)). rewrite Hd0 in *. now apply link_out.
      * intros k Hk. rewrite Hds. apply Hx. lia.
    + intros Hb0. apply Hb. cbn [set_ram ram]. unfold link. now repeat apply bytes_ok_store32.
Qed.

Lemma init_ring_state base n s :
  (0 < n)%nat -> 0 <= base -> base + sizeof_desc * Z.of_nat n < 2 ^ 32 ->
  exists m, r6040_init_ring_desc base base n s = set_ram s m /\ linked m base (Z.of_nat n) /\
    (forall x, not_link base (Z.of_nat n) x -> m x = ram s x) /\ (bytes_ok (ram s) -> bytes_ok m).
Proof.
  intros Hn H0 Hlt. unfold r6040_init_ring_desc.
  destruct (ring_desc_loop_ram n base s H0 Hlt) as (m & -> & Hl & Hout & Hb).
  rewrite !put32_ram. cbn [set_ram ram]. unfold sizeof_desc in *. rewrite !u32_id by lia.
  set (last := base + 32 * Z.of_nat n - 32). fold (link m last base).
  assert (Hlast : desc_at base (Z.of_nat n - 1) = last) by (unfold desc_at, sizeof_desc, last; lia).
  exists (link m last base). split; [reflexivity |]. split; [| split].
  - intros i Hi. destruct (Z.eq_dec i (Z.of_nat n - 1)) as [-> |].
    + replace (Z.of_nat n - 1 + 1) with (Z.of_nat n) by lia. rewrite Z.mod_same by lia.
      rewrite Hlast. replace (desc_at base 0) with base by (unfold desc_at, sizeof_desc; lia).
      apply link_in. lia.
    + rewrite Z.mod_small by lia. destruct (Hl i Hi) as [L1 L2].
      split; (etransitivity; [apply load32_ext | eassumption]); intros x Hx; apply link_out;
        unfold desc_at, OFF_ndesc, OFF_vndescp, sizeof_desc, last in *; lia.
  - intros x Hx. destruct (Hx (Z.of_nat n - 1) ltac:(lia)). rewrite Hlast in *.
    rewrite link_out by done. now apply Hout.
  - intros Hb0. unfold link. now repeat apply bytes_ok_store32; apply Hb.
Qed.

(** [r6040_init_ring_desc] builds a closed ring: the bus pointer and the
    virtual pointer of every descriptor agree and lead to the next one, the
    last one's to the first; nothing outside the ring is written. *)
Theorem init_ring_closed base n s :
  (0 < n)%nat -> 0 <= base -> base + sizeof_desc * Z.of_nat n < 2 ^ 32 ->
  let s' := r6040_init_ring_desc base base n s in
  linked (ram s') base (Z.of_nat n) /\
  forall x, ~ (base <= x < base + sizeof_desc * Z.of_nat n) -> ram s' x = ram s x.
Proof.
  intros Hn H0 Hlt. cbv zeta. destruct (init_ring_state base n s Hn H0 Hlt) as (m & -> & Hl & Hout & _).
  split; [exact Hl |]. intros x Hx. apply Hout. intros i Hi. unfold desc_at, sizeof_desc in *. lia.
Qed.

(** ** Transmit *)

(** The driver and the controller between two calls: the ring is intact, the
    controller is at the driver's insert position and owns nothing, and the
    descriptors not yet reclaimed are the ones just before it. *)
Record tx_inv (j : Z) (lp : r6040_private) (s : R6040State) : Prop := {
  ti_bytes : bytes_ok (ram s);
  ti_regs : regs_ok s;
  ti_base : 0 <= tx_ring lp /\ tx_ring lp + sizeof_desc * TX_DCNT < 2 ^ 32;
  ti_linked : linked (ram s) (tx_ring lp) TX_DCNT;
  ti_j : 0 <= j < TX_DCNT;
  ti_insert : tx_insert_ptr lp = desc_at (tx_ring lp) j;
  ti_start : TX_START s = desc_at (tx_ring lp) j;
  ti_host : forall i, 0 <= i < TX_DCNT -> owned (ram s) (desc_at (tx_ring lp) i) = false;
  ti_free : 0 <= tx_free_desc lp <= TX_DCNT;
  ti_remove : tx_remove_ptr lp = desc_at (tx_ring lp) ((j + tx_free_desc lp) mod TX_DCNT)
}.

(** A buffer the stack can hand over: at most one Ethernet frame, outside the
    ring. *)
Definition skb_ok (lp : r6040_private) (skb : sk_buff) : Prop :=
  0 <= skb_dma skb < 2 ^ 32 /\ 0 <= skb_len skb <= 1514 /\
  (skb_dma skb + Z.max 60 (skb_len skb) <= tx_ring lp \/
   tx_ring lp + sizeof_desc * TX_DCNT <= skb_dma skb).

(** What goes out for a buffer: its data, at least 60 bytes. *)
Definition wire (m : mem) (skb : sk_buff) : list Z :=
  load_bytes m (skb_dma skb) (Z.max 60 (skb_len skb)).

(** The descriptor as [r6040_start_xmit] fills it in. *)
Definition filled (m : mem) (a : Z) (skb : sk_buff) : mem :=
  store16 (store32 (store32 (store16 m (a + OFF_len)
    (u16 (if skb_len skb <? MISR then MISR else skb_len skb)))
    (a + OFF_skb_ptr) (u32 (skb_id skb))) (a + OFF_buf) (u32 (skb_dma skb)))
    (a + OFF_status) (u16 DSC_OWNER_MAC).

Lemma filled_out m a skb x :
  ~ (a <= x < a + 8) -> ~ (a + 24 <= x < a + 28) -> filled m a skb x = m x.
Proof.
  intros H1 H2. unfold filled, OFF_len, OFF_skb_ptr, OFF_buf, OFF_status.
  rewrite store16_out, !store32_out, store16_out by lia. done.
Qed.

Lemma filled_fields m a skb : 0 <= skb_dma skb < 2 ^ 32 -> 0 <= skb_len skb <= 1514 ->
  owned (filled m a skb) a = true /\
  load16 (filled m a skb) (a + 2) = Z.max 60 (skb_len skb) /\
  load32 (filled m a skb) (a + 4) = skb_dma skb.
Proof.
  intros Hd Hl. unfold filled, OFF_len, OFF_skb_ptr, OFF_buf, OFF_status.
  set (len := if skb_len skb <? MISR then MISR else skb_len skb).
  assert (Hlen : len = Z.max 60 (skb_len skb)) by (unfold len, MISR; zcase; lia).
  rewrite (u16_id len), (u32_id (skb_dma skb)) by lia. rewrite Z.add_0_r. split; [| split].
  - unfold owned. rewrite store16_hi. reflexivity.
  - rewrite (load16_ext (store16 m (a + 2) len)); [rewrite load16_store16; lia | |];
      rewrite store16_out, !store32_out by lia; done.
  - rewrite (load32_ext (store32 (store32 (store16 m (a + 2) len) (a + 24) (u32 (skb_id skb))) (a + 4)
      (skb_dma skb))); [now apply load32_store32 |]. intros x Hx. apply store16_out; lia.
Qed.

Lemma bytes_ok_filled m a skb : bytes_ok m -> bytes_ok (filled m a skb).
Proof.
  intros Hb. unfold filled. now repeat first [apply bytes_ok_store16 | apply bytes_ok_store32].
Qed.

(** Writing the poll register transmits. *)
Lemma write_MTPR s : iowrite16 0x01 MTPR s = set_reg (r6040_transmit s) MTPR_W 0.
Proof. reflexivity. Qed.

Lemma desc_at_apart base i j : i <> j -> desc_at base i + 32 <= desc_at base j \/ desc_at base j + 32 <= desc_at base i.
Proof. unfold desc_at, sizeof_desc. lia. Qed.

Lemma linked_ext m m' base n :
  linked m base n ->
  (forall i x, 0 <= i < n -> desc_at base i + 8 <= x < desc_at base i + 12 \/
     desc_at base i + 20 <= x < desc_at base i + 24 -> m' x = m x) -> linked m' base n.
Proof.
  intros Hl E i Hi. destruct (Hl i Hi) as [L1 L2].
  split; (etransitivity; [apply load32_ext | eassumption]);
    intros x Hx; apply (E i x Hi); unfold OFF_ndesc, OFF_vndescp in *; lia.
Qed.

(** The controller's view of one filled descriptor. *)
Lemma filled_ring m base j skb :
  linked m base TX_DCNT -> 0 <= j < TX_DCNT ->
  (forall i, 0 <= i < TX_DCNT -> owned m (desc_at base i) = false) ->
  0 <= skb_dma skb < 2 ^ 32 -> 0 <= skb_len skb <= 1514 ->
  (skb_dma skb + Z.max 60 (skb_len skb) <= base \/ base + sizeof_desc * TX_DCNT <= skb_dma skb) ->
  let a := desc_at base j in
  R6040Spec.tx_ring (filled m a skb) a [a] /\ cut_frame (filled m a skb) a = wire m skb /\
  ring_after (filled m a skb) a [a] = desc_at base ((j + 1) mod TX_DCNT).
Proof.
  intros Hl Hj Hh Hd Hlen Hsep a. unfold TX_DCNT, sizeof_desc in *.
  destruct (filled_fields m a skb Hd Hlen) as (F1 & F2 & F3).
  assert (Hnext : next (filled m a skb) a = desc_at base ((j + 1) mod 0x80)).
  { unfold next. destruct (Hl j Hj) as [L1 _]. rewrite <- L1. apply load32_ext.
    unfold OFF_ndesc. intros x Hx. apply filled_out; lia. }
  pose proof (Z.mod_pos_bound (j + 1) 0x80 ltac:(lia)) as Hb.
  assert (Hne : (j + 1) mod 0x80 <> j) by (Z.div_mod_to_equations; lia).
  pose proof (desc_at_apart base _ _ Hne) as Hap. fold a in Hap.
  split; [| split].
  - constructor; [done | | cbn [reads]; rewrite Hnext; lia].
    rewrite Hnext. constructor. unfold owned. rewrite filled_out by lia. now apply Hh.
  - unfold cut_frame, wire. rewrite F2, F3. rewrite Z.min_r by lia.
    apply load_bytes_ext. intros i Hi. apply filled_out; unfold a, desc_at, sizeof_desc; lia.
  - cbn [ring_after]. exact Hnext.
Qed.

(** The registers a transmission may change. *)
Definition tx_reg (i : Z) : Prop :=
  i = 0x2c / 2 \/ i = 0x30 / 2 \/ i = TX_PKT_COUNT_W \/ i = MISR_W \/ i = MTPR_W.

Lemma transmit_regs s i : ~ tx_reg i -> regs_w (r6040_transmit s) i = regs_w s i.
Proof.
  intros Hi. unfold tx_reg in Hi. unfold r6040_transmit, r6040_transmit_on. rewrite ploop_nloop.
  assert (E : forall n s c p, nloop n (transmit_step_on all_ram) (s, c) = inr p -> regs_w (fst p) i = regs_w s i).
  { clear s. induction n as [| n IH]; intros s c p; cbn [nloop]; [discriminate|].
    unfold transmit_step_on at 1. cbn [fst snd]. unfold TryToSendOnePacket_on.
    destruct (anyset (dst (read_desc (ram s) (TX_START s))) 0x8000); [| intros [= <-]; reflexivity].
    intros Hn. rewrite (IH _ _ _ Hn). cbn [TX_START_SET set_reg set_ram log_sent regs_w]. now rewrite !store_ne by tauto. }
  specialize (E (Pos.to_nat transmit_bound) s 0).
  destruct (nloop (Pos.to_nat transmit_bound) _ _) as [|[s' count]]; [reflexivity|].
  specialize (E _ eq_refl). cbn [fst default from_option] in *. unfold transmit_done, id.
  destruct (negb (count =? 0)); [| exact E].
  cbn [r6040_update_irq set_irq set_reg regs_w]. rewrite store_ne by tauto. exact E.
Qed.

(** What the receive side keeps in the private structure. *)
Definition rx_side (lp : r6040_private) : Z * Z * list (list Z) * Z :=
  (rx_ring lp, rx_remove_ptr lp, delivered lp, rx_dropped (p_stats lp)).

(** The state after one buffer is queued: the controller has sent it and given
    the descriptor back. *)
Lemma start_xmit_state j lp s skb :
  tx_inv j lp s -> skb_ok lp skb ->
  let a := desc_at (tx_ring lp) j in
  exists s', iowrite16 0x01 MTPR (set_ram s (filled (ram s) a skb)) = s' /\
    bytes_ok (ram s') /\ regs_ok s' /\ sent s' = sent s ++ [wire (ram s) skb] /\
    TX_START s' = desc_at (tx_ring lp) ((j + 1) mod TX_DCNT) /\
    (forall x, ram s' x = if x =? a + 1 then filled (ram s) a skb x - 0x80 else filled (ram s) a skb x) /\
    regs_w s' MISR_W = u16 (Z.lor (regs_w s MISR_W) 0x10) /\
    (forall i, ~ tx_reg i -> regs_w s' i = regs_w s i).
Proof.
  intros [Hb Hr Hbase Hl Hj Hins Hst Hh Hfree Hrem] (Hd & Hlen & Hsep) a.
  destruct (filled_ring (ram s) (tx_ring lp) j skb Hl Hj Hh Hd Hlen Hsep) as (R1 & R2 & R3).
  fold a in R1, R2, R3. rewrite write_MTPR.
  destruct (transmit_ring_state (set_ram s (filled (ram s) a skb)) [a])
    as (T1 & T2 & T3 & T4 & _ & T6 & _ & _ & T9); [now apply bytes_ok_filled | exact Hr | | done | cbn; lia |].
  { change (TX_START (set_ram s (filled (ram s) a skb))) with (TX_START s). rewrite Hst. exact R1. }
  pose proof (transmit_regs (set_ram s (filled (ram s) a skb))) as T10.
  revert T1 T2 T3 T4 T6 T9 T10. generalize (r6040_transmit (set_ram s (filled (ram s) a skb))).
  intros s4 T1 T2 T3 T4 T6 T9 T10.
  eexists. split; [reflexivity |]. split; [exact T2 |]. split; [now apply set_reg_ok |].
  split; [| split; [| split; [| split; [exact T6 |]]]].
  - change (sent (set_reg s4 MTPR_W 0)) with (sent s4). rewrite T3. cbn [set_ram ram sent map]. now rewrite R2.
  - etransitivity; [| exact R3]. etransitivity; [| etransitivity; [exact T9 |]].
    + reflexivity.
    + change (TX_START (set_ram s (filled (ram s) a skb))) with (TX_START s). now rewrite Hst.
  - intros x. etransitivity; [exact (T4 x) |]. cbn [set_ram ram].
    destruct (Z.eqb_spec x (a + 1)) as [-> |].
    + now rewrite bool_decide_true by (apply list_elem_of_singleton; lia).
    + rewrite bool_decide_false; [done |]. intros Hin. apply list_elem_of_singleton in Hin. lia.
  - intros i Hi. etransitivity; [| now apply T10]. cbn [set_reg regs_w]. apply store_ne.
    intros ->. apply Hi. unfold tx_reg. auto.
Qed.

Lemma start_xmit_ok j lp s skb :
  tx_inv j lp s -> skb_ok lp skb -> 0 < tx_free_desc lp ->
  exists lp' s', r6040_start_xmit skb lp s = (NETDEV_TX_OK, lp', s') /\
    tx_inv ((j + 1) mod TX_DCNT) lp' s' /\ sent s' = sent s ++ [wire (ram s) skb] /\
    tx_free_desc lp' = tx_free_desc lp - 1 /\ tx_ring lp' = tx_ring lp /\
    (forall x, ~ (tx_ring lp <= x < tx_ring lp + sizeof_desc * TX_DCNT) -> ram s' x = ram s x) /\
    rx_side lp' = rx_side lp /\
    regs_w s' MISR_W = u16 (Z.lor (regs_w s MISR_W) 0x10) /\
    (forall i, ~ tx_reg i -> regs_w s' i = regs_w s i).
Proof.
  intros Hinv Hskb Hpos. destruct (start_xmit_state j lp s skb Hinv Hskb) as (s' & E & B & R & L & T & M & Q & G).
  destruct Hinv as [Hb Hr Hbase Hl Hj Hins Hst Hh Hfree Hrem].
  set (a := desc_at (tx_ring lp) j) in *. destruct Hskb as (Hd & Hlen & Hsep).
  destruct (filled_fields (ram s) a skb Hd Hlen) as (F1 & _ & _).
  assert (Hout : forall x, ~ (a <= x < a + 8) -> ~ (a + 24 <= x < a + 28) -> ram s' x = ram s x).
  { intros x H1 H2. rewrite M. rewrite (proj2 (Z.eqb_neq x (a + 1))) by lia. now apply filled_out. }
  assert (Hl' : linked (ram s') (tx_ring lp) TX_DCNT).
  { apply (linked_ext (ram s)); [done |]. intros i x Hi Hx. apply Hout;
      (destruct (Z.eq_dec i j) as [-> | Hne]; [fold a in Hx; lia |];
       pose proof (desc_at_apart (tx_ring lp) i j Hne); fold a in H; lia). }
  assert (Hv : get32 s' (a + OFF_vndescp) = desc_at (tx_ring lp) ((j + 1) mod TX_DCNT))
    by (apply (Hl' j Hj)).
  unfold r6040_start_xmit. rewrite (proj2 (Z.eqb_neq _ 0)) by lia.
  cbn [tx_free_desc tx_insert_ptr set_stats]. rewrite Hins. fold a.
  match goal with |- context [iowrite16 0x01 MTPR ?d] =>
    change d with (set_ram s (filled (ram s) a skb)) end.
  rewrite E, Hv. eexists _, s'. split; [reflexivity |].
  assert (Hrange : 0 <= (j + 1) mod TX_DCNT < TX_DCNT) by (apply Z.mod_pos_bound; unfold TX_DCNT; lia).
  assert (Hinv' : tx_inv ((j + 1) mod TX_DCNT)
    (set_tx lp (desc_at (tx_ring lp) ((j + 1) mod TX_DCNT)) (tx_remove_ptr lp) (tx_free_desc lp - 1)) s').
  { split; cbn [set_tx tx_ring tx_insert_ptr tx_free_desc tx_remove_ptr]; auto; try lia.
    - intros i Hi. unfold owned. destruct (Z.eq_dec i j) as [-> | Hne].
      + fold a. rewrite M, Z.eqb_refl. unfold owned in F1. pose proof (bytes_ok_filled _ a skb Hb (a + 1)).
        apply Z.leb_gt. lia.
      + pose proof (desc_at_apart (tx_ring lp) i j Hne) as Hap. fold a in Hap.
        rewrite Hout by lia. now apply Hh.
    - rewrite Hrem. f_equal. rewrite Zplus_mod_idemp_l. f_equal. lia. }
  split; [| split; [exact L | split; [| split; [| split; [| split; [| auto]]]]]].
  - destruct Hinv'. case_match; split; auto.
  - case_match; reflexivity.
  - case_match; reflexivity.
  - intros x Hx. unfold a, desc_at, sizeof_desc, TX_DCNT in *. apply Hout; lia.
  - case_match; reflexivity.
Qed.

(** ** Reclaim *)

Lemma read_MLSR s : ioread16 MLSR s = (regs_w s (MLSR / 2), s).
Proof. reflexivity. Qed.

Lemma owned_status m a : bytes_ok m -> anyset (load16 m a) DSC_OWNER_MAC = owned m a.
Proof. intros Hb. apply (owned_dst m a Hb). Qed.

(** The loop of [r6040_tx] with every descriptor back: it walks to the insert
    position. *)
Lemma tx_loop_ok base : forall fuel k free st s,
  bytes_ok (ram s) -> linked (ram s) base TX_DCNT -> 0 <= base ->
  (forall i, 0 <= i < TX_DCNT -> owned (ram s) (desc_at base i) = false) ->
  0 <= k < TX_DCNT -> free + Z.of_nat fuel = TX_DCNT ->
  exists st' s', tx_loop fuel (desc_at base k) free st s =
      (desc_at base ((k + Z.of_nat fuel) mod TX_DCNT), TX_DCNT, st', s') /\
    bytes_ok (ram s') /\ regs_w s' = regs_w s /\ sent s' = sent s /\ rx_dropped st' = rx_dropped st /\
    (forall x, (forall i, 0 <= i < TX_DCNT ->
        ~ (desc_at base i + 24 <= x < desc_at base i + 28)) -> ram s' x = ram s x).
Proof.
  induction fuel as [| fuel IH]; intros k free st s Hb Hl H0 Hh Hk Hf; cbn [tx_loop].
  - exists st, s. rewrite Z.add_0_r, Z.mod_small by done. replace free with TX_DCNT by lia. done.
  - destruct (Z.ltb_spec free TX_DCNT); [| lia]. rewrite read_MLSR.
    assert (Hstat : anyset (get16 s (desc_at base k + OFF_status)) DSC_OWNER_MAC = false)
      by (unfold get16, OFF_status; rewrite Z.add_0_r; cbn [dma r6040_nic];
          rewrite owned_status by done; now apply Hh).
    rewrite Hstat.
    set (s1 := put32 s (desc_at base k + OFF_skb_ptr) 0).
    assert (Hout : forall x, ~ (desc_at base k + 24 <= x < desc_at base k + 28) -> ram s1 x = ram s x)
      by (intros x Hx; apply store32_out; unfold OFF_skb_ptr; lia).
    assert (Hb1 : bytes_ok (ram s1)) by now apply bytes_ok_store32.
    assert (Hl1 : linked (ram s1) base TX_DCNT).
    { apply (linked_ext (ram s)); [done |]. intros i x Hi Hx. apply Hout.
      destruct (Z.eq_dec i k) as [-> | Hne]; [lia |].
      pose proof (desc_at_apart base i k Hne). lia. }
    assert (Hh1 : forall i, 0 <= i < TX_DCNT -> owned (ram s1) (desc_at base i) = false).
    { intros i Hi. unfold owned. rewrite Hout; [now apply Hh |].
      destruct (Z.eq_dec i k) as [-> | Hne]; [lia |]. pose proof (desc_at_apart base i k Hne). lia. }
    assert (Hv : get32 s1 (desc_at base k + OFF_vndescp) = desc_at base ((k + 1) mod TX_DCNT))
      by (apply (Hl1 k Hk)).
    rewrite Hv.
    edestruct (IH ((k + 1) mod TX_DCNT) (free + 1)) as (st' & s' & E & B & R & L & N & M);
      [exact Hb1 | exact Hl1 | done | exact Hh1 | | lia |];
      [apply Z.mod_pos_bound; unfold TX_DCNT; lia |].
    exists st', s'. rewrite E. split; [| split; [done | split; [done | split; [done | split]]]].
    + do 3 f_equal. rewrite Zplus_mod_idemp_l. do 2 f_equal. lia.
    + etransitivity; [exact N |]. cbn [bump rx_dropped]. lia.
    + intros x Hx. rewrite M by done. apply Hout. now apply Hx.
Qed.

Lemma r6040_tx_ok j lp s :
  tx_inv j lp s ->
  let '(lp', s') := r6040_tx lp s in
  tx_inv j lp' s' /\ tx_free_desc lp' = TX_DCNT /\ tx_ring lp' = tx_ring lp /\
  queue_stopped lp' = false /\ sent s' = sent s /\ rx_side lp' = rx_side lp /\
  (forall x, ~ (tx_ring lp <= x < tx_ring lp + sizeof_desc * TX_DCNT) -> ram s' x = ram s x).
Proof.
  intros Hinv. pose proof Hinv as [Hb Hr Hbase Hl Hj Hins Hst Hh Hfree Hrem]. unfold r6040_tx.
  rewrite Hrem.
  destruct (tx_loop_ok (tx_ring lp) (Z.to_nat (TX_DCNT - tx_free_desc lp))
    ((j + tx_free_desc lp) mod TX_DCNT) (tx_free_desc lp) (p_stats lp) s)
    as (st' & s' & E & B & R & L & N & M); try done; try lia;
    [apply Z.mod_pos_bound; unfold TX_DCNT; lia |].
  rewrite E. cbn [set_stats set_tx tx_free_desc].
  change (negb (TX_DCNT =? 0)) with true. cbv iota.
  assert (Hpos : ((j + tx_free_desc lp) mod TX_DCNT + Z.of_nat (Z.to_nat (TX_DCNT - tx_free_desc lp)))
    mod TX_DCNT = (j + TX_DCNT) mod TX_DCNT)
    by (rewrite Zplus_mod_idemp_l; f_equal; lia).
  assert (Hkeep : forall x, (forall i, 0 <= i < TX_DCNT ->
     ~ (desc_at (tx_ring lp) i + 24 <= x < desc_at (tx_ring lp) i + 28)) -> ram s' x = ram s x) by done.
  split; [| repeat split; try done].
  - split; cbn [set_queue set_stats set_tx tx_ring tx_insert_ptr tx_free_desc tx_remove_ptr]; auto.
    + intros i. rewrite R. apply Hr.
    + apply (linked_ext (ram s)); [done |]. intros i x Hi Hx. apply Hkeep. intros i' Hi'.
      destruct (Z.eq_dec i i') as [<- | Hne]; [lia |].
      pose proof (desc_at_apart (tx_ring lp) i i' Hne). lia.
    + unfold TX_START in *. now rewrite R.
    + intros i Hi. unfold owned. rewrite Hkeep; [now apply Hh |]. intros i' Hi'.
      destruct (Z.eq_dec i i') as [<- | Hne]; [lia |].
      pose proof (desc_at_apart (tx_ring lp) i i' Hne). lia.
    + lia.
    + now rewrite Hpos.
  - unfold rx_side. cbn [set_queue set_stats set_tx rx_ring rx_remove_ptr delivered p_stats]. now rewrite N.
  - intros x Hx. apply Hkeep. intros i Hi. unfold desc_at, sizeof_desc, TX_DCNT in *. lia.
Qed.

(** ** Sequences *)

(** The stack hands over a buffer; the transmit interrupt reclaims. *)
Inductive tx_op : Type := Xmit (skb : sk_buff) | Reclaim.

(** The buffers accepted, in order. *)
Fixpoint run_tx (ops : list tx_op) (lp : r6040_private) (s : R6040State)
  : list sk_buff * r6040_private * R6040State :=
  match ops with
  | [] => ([], lp, s)
  | Xmit skb :: ops' =>
      let '(r, lp, s) := r6040_start_xmit skb lp s in
      let '(acc, lp, s) := run_tx ops' lp s in
      (if r =? NETDEV_TX_OK then skb :: acc else acc, lp, s)
  | Reclaim :: ops' => let '(lp, s) := r6040_tx lp s in run_tx ops' lp s
  end.

Definition xmits (ops : list tx_op) : list sk_buff :=
  flat_map (fun op => match op with Xmit skb => [skb] | Reclaim => [] end) ops.

Lemma wire_ext m m' lp skb : skb_ok lp skb ->
  (forall x, ~ (tx_ring lp <= x < tx_ring lp + sizeof_desc * TX_DCNT) -> m' x = m x) ->
  wire m' skb = wire m skb.
Proof. intros (_ & _ & Hs) E. apply load_bytes_ext. intros i Hi. apply E. lia. Qed.

Lemma wires_ext m m' lp acc : Forall (skb_ok lp) acc ->
  (forall x, ~ (tx_ring lp <= x < tx_ring lp + sizeof_desc * TX_DCNT) -> m' x = m x) ->
  map (wire m') acc = map (wire m) acc.
Proof.
  intros Ha E. induction Ha as [| skb acc Hs Ha IH]; [done |]. cbn [map].
  now rewrite IH, (wire_ext m m' lp skb).
Qed.

Lemma skbs_ok_ring lp lp' acc : tx_ring lp' = tx_ring lp ->
  Forall (skb_ok lp) acc -> Forall (skb_ok lp') acc.
Proof. intros E. apply Forall_impl. intros x Hx. unfold skb_ok. now rewrite E. Qed.

Lemma run_tx_ok ops : forall j lp s,
  tx_inv j lp s -> Forall (skb_ok lp) (xmits ops) ->
  let '(acc, lp', s') := run_tx ops lp s in
  sent s' = sent s ++ map (wire (ram s)) acc /\ (exists j', tx_inv j' lp' s') /\
  (Z.of_nat (length (xmits ops)) <= tx_free_desc lp -> acc = xmits ops) /\ Forall (skb_ok lp) acc.
Proof.
  induction ops as [| op ops IH]; intros j lp s Hinv Hok; cbn [run_tx].
  { rewrite app_nil_r. split; [done |]. split; [now exists j | done]. }
  destruct op as [skb |]; cbn [xmits flat_map app] in *; fold (xmits ops) in *.
  - apply Forall_cons_1 in Hok as [Hskb Hok]. destruct (Z.eq_dec (tx_free_desc lp) 0) as [E0 | E0].
    + unfold r6040_start_xmit. rewrite E0. cbn [Z.eqb].
      assert (Hq : tx_inv j (set_queue lp true) s) by (destruct Hinv; split; auto).
      specialize (IH j (set_queue lp true) s Hq Hok). destruct (run_tx ops _ s) as [[acc lp2] s2].
      destruct IH as (I1 & I2 & _ & I4). split; [done |]. split; [done |]. cbn [length].
      split; [lia | exact I4].
    + pose proof (ti_free _ _ _ Hinv).
      destruct (start_xmit_ok j lp s skb Hinv Hskb ltac:(lia))
        as (lp1 & s1 & -> & Hinv1 & L1 & F1 & B1 & M1 & _).
      specialize (IH _ lp1 s1 Hinv1 (skbs_ok_ring lp lp1 _ B1 Hok)).
      destruct (run_tx ops lp1 s1) as [[acc lp2] s2]. destruct IH as (I1 & I2 & I3 & I4).
      apply (skbs_ok_ring lp1 lp) in I4; [| done].
      rewrite Z.eqb_refl. split; [| split; [done | split]].
      * rewrite I1, L1, <- app_assoc. cbn [map app]. now rewrite (wires_ext (ram s) _ lp).
      * intros Hn. cbn [length] in Hn. rewrite I3 by lia. done.
      * now apply Forall_cons_2.
  - pose proof (r6040_tx_ok j lp s Hinv) as Htx.
    destruct (r6040_tx lp s) as [lp1 s1]. destruct Htx as (Hinv1 & F1 & B1 & _ & L1 & _ & M1).
    specialize (IH _ lp1 s1 Hinv1 (skbs_ok_ring lp lp1 _ B1 Hok)).
    destruct (run_tx ops lp1 s1) as [[acc lp2] s2]. destruct IH as (I1 & I2 & I3 & I4).
    apply (skbs_ok_ring lp1 lp) in I4; [| done]. split; [| split; [done | split; [| done]]].
    + rewrite I1, L1. f_equal. now apply (wires_ext (ram s) _ lp).
    + intros Hn. apply I3. pose proof (ti_free _ _ _ Hinv). lia.
Qed.

(** From the stack to the wire.  For any sequence of buffers handed to
    [r6040_start_xmit] and reclaim interrupts, the emulated controller sends the
    data of exactly the accepted buffers, in order (short ones extended to 60
    bytes); the ring stays consistent; as many buffers as there are free
    descriptors are accepted without any reclaim. *)
Theorem tx_sequence_sent ops j lp s :
  tx_inv j lp s -> Forall (skb_ok lp) (xmits ops) ->
  let '(acc, lp', s') := run_tx ops lp s in
  sent s' = sent s ++ map (wire (ram s)) acc /\ (exists j', tx_inv j' lp' s') /\
  (Z.of_nat (length (xmits ops)) <= tx_free_desc lp -> acc = xmits ops).
Proof.
  intros Hinv Hok. pose proof (run_tx_ok ops j lp s Hinv Hok) as Hr.
  destruct (run_tx ops lp s) as [[acc lp'] s']. destruct Hr as (R1 & R2 & R3 & _). auto.
Qed.

(** ** Bringing the transmitter up *)

Lemma transmit_idle s : bytes_ok (ram s) -> regs_ok s -> owned (ram s) (TX_START s) = false ->
  r6040_transmit s = s.
Proof.
  intros Hb Hr Ho. unfold r6040_transmit, r6040_transmit_on. rewrite ploop_nloop.
  destruct (Pos2Nat.is_succ transmit_bound) as [n ->]. cbn [nloop]. unfold transmit_step_on at 1.
  pose proof (TryToSend_spec all_ram s Hb Hr) as Ht. cbn [fst].
  destruct (TryToSendOnePacket_on all_ram s); [destruct Ht; congruence | done].
Qed.

(** The emulated controller never shows the reset bit, so the wait for it runs
    all its 2048 polls; it changes nothing. *)
Lemma reset_wait_id s : anyset (regs_w s MCR1_W) 0x1 = false -> reset_wait s = s.
Proof.
  intros Hm. unfold reset_wait. generalize 2048%nat. intros n.
  induction n as [| n IH]; cbn [nloop]; [done |].
  change (ioread16 MCR1 s) with (regs_w s MCR1_W, s). cbv beta iota. rewrite Hm. exact IH.
Qed.

Lemma land16 v : Z.land v 0xffff = u16 v.
Proof. change 0xffff with (Z.ones 16). now rewrite Z.land_ones by lia. Qed.

Lemma reg_val v : u16 (Z.land (u16 v) 0xffff) = u16 v.
Proof. now rewrite land16, !u16_u16. Qed.

(** An address as the driver programs it, in two halves. *)
Lemma addr_halves base : 0 <= base < 2 ^ 32 ->
  Z.lor (u16 base) (Z.shiftl (u16 (Z.shiftr base 16)) 16) = base.
Proof.
  intros Hb. rewrite (lor_disjoint _ _ 16) by (try lia; apply u16_range).
  rewrite Z.shiftr_div_pow2 by lia. unfold u16. change (2 ^ 16) with 0x10000.
  change (2 ^ 32) with 4294967296 in Hb. Z.div_mod_to_equations. lia.
Qed.

Lemma TX_START_halves s base : 0 <= base < 2 ^ 32 ->
  regs_w s (0x2c / 2) = u16 base -> regs_w s (0x30 / 2) = u16 (Z.shiftr base 16) -> TX_START s = base.
Proof. intros Hb E1 E2. unfold TX_START. rewrite E1, E2. now apply addr_halves. Qed.

(** Registers after the writes of [r6040_init_mac_regs] up to the interrupt mask. *)
Record mac_programmed (lp : r6040_private) (s0 s : R6040State) : Prop := {
  mp_ram : ram s = ram s0;
  mp_ok : regs_ok s;
  mp_sent : sent s = sent s0;
  mp_td0 : regs_w s (0x2c / 2) = u16 (tx_ring lp);
  mp_td1 : regs_w s (0x30 / 2) = u16 (Z.shiftr (tx_ring lp) 16);
  mp_rd0 : regs_w s (0x34 / 2) = u16 (rx_ring lp);
  mp_rd1 : regs_w s (0x38 / 2) = u16 (Z.shiftr (rx_ring lp) 16);
  mp_bsr : regs_w s MRBSR_W = MAX_BUF_SIZE;
  mp_mier : regs_w s MIER_W = INT_MASK;
  mp_misr : regs_w s MISR_W = regs_w s0 MISR_W
}.

Lemma init_mac_regs_programs lp s :
  bytes_ok (ram s) -> regs_ok s -> 0 <= tx_ring lp < 2 ^ 32 ->
  owned (ram s) (tx_ring lp) = false ->
  mac_programmed lp s (r6040_init_mac_regs lp s).
Proof.
  intros Hb Hr Hbase Ho. unfold r6040_init_mac_regs.
  set (s1 := iowrite16 MAC_RST MCR1 (iowrite16 MSK_INT MIER s)).
  assert (E1 : ram s1 = ram s /\ regs_ok s1 /\ sent s1 = sent s /\ regs_w s1 MISR_W = regs_w s MISR_W)
    by (split; [done | split; [now repeat apply set_reg_ok | done]]).
  rewrite (reset_wait_id s1) by reflexivity. revert E1. generalize s1. clear s1.
  intros s1 (M1 & R1 & L1 & Q1).
  set (s2 := iowrite16 INT_MASK MIER _).
  assert (E2 : mac_programmed lp s s2).
  { split; [exact M1 | now repeat apply (set_reg_ok _) | exact L1 | | | | | reflexivity | reflexivity | exact Q1];
      match goal with |- _ = u16 ?v =>
        transitivity (u16 (Z.land (u16 v) 0xffff)); [reflexivity | apply reg_val] end. }
  revert E2. generalize s2. clear s2. intros s2 E2. pose proof E2 as [M2 R2 L2 A0 A1 A2 A3 B2 I2 Q2].
  assert (T2 : TX_START s2 = tx_ring lp) by now apply TX_START_halves.
  assert (Hidle : r6040_transmit s2 = s2) by (apply transmit_idle; [now rewrite M2 | done | congruence]).
  set (s3 := iowrite16 (Z.lor (mcr0 lp) 2) MCR0 s2).
  assert (E3 : s3 = set_reg s2 MCR0_W (Z.land (u16 (Z.lor (mcr0 lp) 2)) 0xffff)).
  { unfold s3. cbn [iowrite16 r6040_nic].
    change (r6040_ioport_writew MCR0 (u16 (Z.lor (mcr0 lp) 2)) s2)
      with (set_reg (if BIT_SET (regs_w s2 MCR0_W) (u16 (Z.lor (mcr0 lp) 2)) 12
                     then r6040_transmit s2 else s2) MCR0_W (Z.land (u16 (Z.lor (mcr0 lp) 2)) 0xffff)).
    rewrite Hidle. now case_match. }
  rewrite write_MTPR. rewrite (transmit_idle s3).
  - rewrite E3. split; auto. now repeat apply (set_reg_ok _).
  - rewrite E3. now rewrite <- M2 in Hb.
  - rewrite E3. now apply set_reg_ok.
  - replace (TX_START s3) with (tx_ring lp); [rewrite E3; cbn [set_reg ram]; now rewrite M2 |].
    rewrite E3. symmetry. now apply TX_START_halves.
Qed.

Lemma tx_up_state lp s :
  bytes_ok (ram s) -> regs_ok s ->
  0 <= tx_ring lp -> tx_ring lp + sizeof_desc * TX_DCNT < 2 ^ 32 ->
  (forall i, 0 <= i < TX_DCNT -> owned (ram s) (desc_at (tx_ring lp) i) = false) ->
  let '(lp1, s1) := r6040_init_txbufs lp s in
  let s2 := r6040_init_mac_regs lp1 s1 in
  tx_inv 0 lp1 s2 /\ tx_free_desc lp1 = TX_DCNT /\ sent s2 = sent s /\ regs_w s2 MIER_W = INT_MASK.
Proof.
  intros Hb Hr H0 Hlt Hh. unfold r6040_init_txbufs. cbv zeta.
  set (lp1 := set_tx lp (tx_ring lp) (tx_ring lp) TX_DCNT).
  assert (E : exists m, r6040_init_ring_desc (tx_ring lp) (tx_ring lp) (Z.to_nat TX_DCNT) s = set_ram s m /\
    bytes_ok m /\ linked m (tx_ring lp) TX_DCNT /\
    forall i, 0 <= i < TX_DCNT -> owned m (desc_at (tx_ring lp) i) = false).
  { destruct (init_ring_state (tx_ring lp) (Z.to_nat TX_DCNT) s) as (m & E & Hl & Hout & Hbm);
      [unfold TX_DCNT; lia | done | rewrite Z2Nat.id by (unfold TX_DCNT; lia); done |].
    rewrite Z2Nat.id in Hl, Hout by (unfold TX_DCNT; lia).
    exists m. split; [done |]. split; [now apply Hbm |]. split; [done |].
    intros i Hi. unfold owned. rewrite Hout; [now apply Hh |].
    intros k Hk. unfold desc_at, sizeof_desc in *. lia. }
  destruct E as (m & -> & Hbm & Hlm & Hhm).
  assert (Hd0 : desc_at (tx_ring lp) 0 = tx_ring lp) by (unfold desc_at; lia).
  destruct (init_mac_regs_programs lp1 (set_ram s m)) as [M R L T0 T1 _ _ _ I _];
    [exact Hbm | exact Hr | cbn [lp1 set_tx tx_ring]; unfold sizeof_desc, TX_DCNT in *; lia
    | cbn [lp1 set_tx tx_ring set_ram ram]; rewrite <- Hd0; apply Hhm; unfold TX_DCNT; lia |].
  split; [| split; [done | split; [exact L | exact I]]].
  split; rewrite ?M; cbn [lp1 set_tx tx_ring tx_insert_ptr tx_free_desc tx_remove_ptr set_ram ram];
    auto; try (unfold TX_DCNT; lia).
  rewrite Hd0. apply TX_START_halves; [unfold sizeof_desc, TX_DCNT in *; lia | exact T0 | exact T1].
Qed.

(** ** The interrupt mask *)

Lemma tx_loop_regs fuel : forall desc free st (s : R6040State),
  regs_w (snd (tx_loop fuel desc free st s)) = regs_w s.
Proof.
  induction fuel as [| fuel IH]; intros desc free st s; cbn [tx_loop]; [done |].
  destruct (free <? TX_DCNT); [| done]. rewrite read_MLSR.
  destruct (anyset (get16 s (desc + OFF_status)) DSC_OWNER_MAC); [done |]. now rewrite IH.
Qed.

Lemma rx_loop_regs limit : forall count desc allocs lp (s : R6040State),
  regs_w (snd (rx_loop limit count desc allocs lp s)) = regs_w s.
Proof.
  induction limit as [| limit IH]; intros count desc allocs lp s; cbn [rx_loop]; [done |].
  destruct (anyset (get16 s (desc + OFF_status)) DSC_OWNER_MAC); [done |].
  destruct (anyset (get16 s (desc + OFF_status)) DSC_RX_ERR); [now rewrite IH |].
  destruct allocs as [| [skb |] allocs]; now rewrite IH.
Qed.

Lemma write_MIER v s : 0 <= v < 0x10000 -> regs_w (iowrite16 v MIER s) MIER_W = v.
Proof. intros Hv. cbn [iowrite16 r6040_nic]. rewrite u16_id by done. now apply u16_id. Qed.

Lemma r6040_tx_regs lp (s : R6040State) : regs_w (snd (r6040_tx lp s)) = regs_w s.
Proof.
  unfold r6040_tx.
  pose proof (tx_loop_regs (Z.to_nat (TX_DCNT - tx_free_desc lp)) (tx_remove_ptr lp) (tx_free_desc lp)
    (p_stats lp) s) as E.
  destruct (tx_loop _ _ _ _ s) as [[[? ?] ?] ?]. exact E.
Qed.

(** What the interrupt handler leaves in the mask register. *)
Lemma interrupt_mask lp s :
  regs_ok s ->
  let '(r, lp', s') := r6040_interrupt lp s in
  regs_w s' MIER_W =
    if negb ((regs_w s MISR_W =? 0) || (regs_w s MISR_W =? 0xffff)) && anyset (regs_w s MISR_W) RX_INTS
    then clear (regs_w s MIER_W) RX_INTS else regs_w s MIER_W.
Proof.
  intros Hr. unfold r6040_interrupt.
  change (ioread16 MIER s) with (regs_w s MIER_W, s). cbv beta iota.
  set (s1 := iowrite16 MSK_INT MIER s).
  change (ioread16 MISR s1) with (regs_w s MISR_W, set_reg s1 MISR_W 0). cbv beta iota.
  pose proof (Hr MIER_W) as Hm.
  destruct ((regs_w s MISR_W =? 0) || (regs_w s MISR_W =? 0xffff)); cbn [negb andb].
  { now rewrite write_MIER. }
  assert (Hc : 0 <= clear (regs_w s MIER_W) RX_INTS < 0x10000)
    by (rewrite clear_sub; pose proof (land_le_r RX_INTS (regs_w s MIER_W) ltac:(lia));
        rewrite Z.land_comm; lia).
  destruct (anyset (regs_w s MISR_W) RX_INTS), (anyset (regs_w s MISR_W) TX_INTS);
    try (destruct (r6040_tx _ _) as [lp' s']); now rewrite write_MIER.
Qed.

(** Interrupts are never left off: whatever the interrupt was, the handler
    restores the mask except for the receive bits it defers to the poll, and
    the poll that finds the work done puts those back. *)
Theorem irq_then_poll_restores_mask budget allocs lp s :
  regs_ok s ->
  let '(r, lp1, s1) := r6040_interrupt lp s in
  let '(done, lp2, s2) := r6040_poll budget allocs lp1 s1 in
  (done < budget -> regs_w s2 MIER_W = Z.lor (regs_w s MIER_W) RX_INTS /\ napi_scheduled lp2 = false) /\
  (~ done < budget -> regs_w s2 MIER_W = regs_w s1 MIER_W).
Proof.
  intros Hr. pose proof (interrupt_mask lp s Hr) as Hm.
  destruct (r6040_interrupt lp s) as [[r lp1] s1]. unfold r6040_poll, r6040_rx.
  pose proof (rx_loop_regs (Z.to_nat budget) 0 (rx_remove_ptr lp1) allocs lp1 s1) as Hx.
  destruct (rx_loop _ _ _ _ lp1 s1) as [[[work desc] lp2] s2]. cbn [snd] in Hx.
  destruct (Z.ltb_spec work budget); [| split; [lia | now rewrite Hx]].
  change (ioread16 MIER s2) with (regs_w s2 MIER_W, s2). cbv beta iota.
  split; [intros _ | lia]. split; [| reflexivity].
  assert (E : Z.lor (regs_w s2 MIER_W) RX_INTS = Z.lor (regs_w s MIER_W) RX_INTS).
  { rewrite Hx, Hm. case_match; [| done]. apply lor_clear. }
  rewrite E. apply write_MIER. apply (lor_range _ _ 16); [lia | apply Hr | vm_compute; split; congruence].
Qed.

(** ** Instances *)

Definition zero_nic : R6040State := fst (r6040_init_pci (fun _ => 0)).

Definition zero_stats : stats := mkStats 0 0 0 0 0 0 0 0 0 0 0 0 0.

Definition zero_priv : r6040_private :=
  mkPriv 0 0 0 0 0x20000 0x10000 0 0 [0; 1; 2; 3; 4; 5] zero_stats false false [].

Lemma zero_bytes : bytes_ok (ram zero_nic).
Proof. intros a. cbn. lia. Qed.

Lemma mdio_roundtrip_witness :
  let s1 := snd (r6040_mdiobus_write 1 4 0x01e1 zero_nic) in
  fst (r6040_mdiobus_read 1 4 s1) = 0x01e1 /\
  (1 <> 1 -> fst (r6040_mdiobus_read 1 4 s1) = 0xffff).
Proof.
  apply (mdio_roundtrip 4 4 0x01e1 1 zero_nic); try lia.
  intros i. cbn. unfold store. repeat zcase; vm_compute; split; congruence.
Defined.

Lemma init_ring_closed_witness :
  let s' := r6040_init_ring_desc 0x1000 0x1000 3 zero_nic in
  linked (ram s') 0x1000 3 /\
  forall x, ~ (0x1000 <= x < 0x1000 + sizeof_desc * 3) -> ram s' x = 0.
Proof. apply (init_ring_closed 0x1000 3 zero_nic); [lia | lia | vm_compute; reflexivity]. Defined.

(** A driver and a controller that have been brought up. *)
Definition up_priv : r6040_private := fst (r6040_init_txbufs zero_priv zero_nic).

Definition up_nic : R6040State :=
  r6040_init_mac_regs up_priv (snd (r6040_init_txbufs zero_priv zero_nic)).

Lemma up_inv : tx_inv 0 up_priv up_nic.
Proof.
  apply (tx_up_state zero_priv zero_nic).
  - exact zero_bytes.
  - apply init_regs_ok.
  - cbn. lia.
  - vm_compute. reflexivity.
  - reflexivity.
Qed.

Definition sample_ops : list tx_op :=
  [Xmit (mkSkb 1 0x30000 14); Xmit (mkSkb 2 0x31000 1514); Reclaim; Xmit (mkSkb 3 0x32000 100)].

Lemma tx_sequence_sent_witness :
  let '(acc, lp', s') := run_tx sample_ops up_priv up_nic in
  sent s' = sent up_nic ++ map (wire (ram up_nic)) acc /\ (exists j', tx_inv j' lp' s') /\
  (Z.of_nat (length (xmits sample_ops)) <= tx_free_desc up_priv -> acc = xmits sample_ops).
Proof.
  apply (tx_sequence_sent sample_ops 0 up_priv up_nic up_inv).
  assert (E : tx_ring up_priv = 0x10000) by reflexivity.
  repeat (apply Forall_cons_2; [unfold skb_ok; rewrite E; unfold sizeof_desc, TX_DCNT;
    cbn [skb_dma skb_len]; lia |]). apply Forall_nil_2.
Defined.

Lemma irq_then_poll_restores_mask_witness :
  let '(r, lp1, s1) := r6040_interrupt zero_priv up_nic in
  let '(done, lp2, s2) := r6040_poll 64 [] lp1 s1 in
  (done < 64 -> regs_w s2 MIER_W = Z.lor (regs_w up_nic MIER_W) RX_INTS /\ napi_scheduled lp2 = false) /\
  (~ done < 64 -> regs_w s2 MIER_W = regs_w s1 MIER_W).
Proof.
  exact (irq_then_poll_restores_mask 64 [] zero_priv up_nic (ti_regs _ _ _ up_inv)).
Defined.

End DriverSpec.
