(* ===== verification/RdcGpio.v ===== *)
(** The emulated southbridge GPIO (qemu/hw/rdc-gpio.c): PCI configuration space
    with the pins of the Bifferboard connected to a panel process over a
    socket.  What the socket calls will do is part of the panel's state: the
    outcomes of the next [send]s and the events the next [select]s and [recv]s
    report.  A computation that waits for ever gives [None]. *)
From Stdlib Require Import ZArith Lia.
From stdpp Require Import base list numbers strings.
From S2P Require Import Prelude.

Module RdcGpio.

Definition g_PinMap : list Z := [16; 15; 11; 13; 9; 12].

Definition PANEL_PINS : nat := 6.

(** What [recv] gives on a readable socket: the bytes received, none when the
    panel has closed the connection, or a failure. *)
Inductive received : Type := Data (s : list Z) | RecvError.

(** What [select], called without a timeout, reports: an interruption, a
    failure, or a ready socket (readable or not, with or without an
    exception). *)
Inductive event : Type :=
  | Eintr | SelectError | Ready (readable : option received) (exceptional : bool).

Record panel_connection : Type := mkPanel {
  connected : bool;
  last : list Z;
  commands : list (list Z);
  sends : list bool;
  events : list event
}.

Record PCIGPIOState : Type := mkGpio { panel : panel_connection; cfg_state : mem }.

(** ** The panel *)

Definition disconnect (h : panel_connection) : panel_connection :=
  mkPanel false (last h) (commands h) (sends h) (events h).

(** [opened] and [reached] are whether [socket] and [connect] succeed. *)
Definition panel_open (opened reached : bool) (h : panel_connection) : Z * panel_connection :=
  if negb opened then (-1, disconnect h)
  else if negb reached then (-1, disconnect h)
  else (0, mkPanel true (last h) (commands h) (sends h) (events h)).

(** A [send] on a closed socket fails. *)
Definition panel_command (h : panel_connection) (command : list Z) : panel_connection :=
  if connected h then
    match sends h with
    | false :: rest => mkPanel false (last h) (commands h) rest (events h)
    | _ :: rest => mkPanel true (last h) (commands h ++ [command]) rest (events h)
    | [] => mkPanel true (last h) (commands h ++ [command]) [] (events h)
    end
  else h.

(** The bytes up to the first NUL. *)
Fixpoint until_nul (s : list Z) : list Z :=
  match s with [] => [] | c :: s' => if c =? 0 then [] else c :: until_nul s' end.

(** [slen] is 100 at the only call. *)
Definition slen : nat := 100.

(** The loop around [select]; [None] when it never reports anything. *)
Fixpoint select_loop (evs : list event) : option (event * list event) :=
  match evs with
  | [] => None
  | Eintr :: evs' => select_loop evs'
  | ev :: evs' => Some (ev, evs')
  end.

Definition with_events (h : panel_connection) (evs : list event) : panel_connection :=
  mkPanel (connected h) (last h) (commands h) (sends h) evs.

(** The status string; its length is the C function's value. *)
Definition panel_getpins (h : panel_connection) : option (list Z * panel_connection) :=
  if negb (connected h) then Some ([], h)
  else
    match select_loop (events h) with
    | None => None
    | Some (SelectError, evs) => Some ([], disconnect (with_events h evs))
    | Some (Ready readable exceptional, evs) =>
        let h := with_events h evs in
        let '(status, h) :=
          match readable with
          | None => ([], h)
          | Some (Data s) =>
              if (length s =? 0)%nat then ([], disconnect h)
              else
                let s := until_nul s in
                if bool_decide (take 2 s = str "R ") then (take (slen - 1) (drop 2 s), h)
                else ([], h)
          | Some RecvError => ([], disconnect h)
          end in
        let h := if exceptional then disconnect h else h in
        Some (status, h)
    | Some (Eintr, evs) => None
    end.

(** [while (!len) len = panel_getpins(...)] *)
Fixpoint panel_wait (fuel : nat) (h : panel_connection) : option (list Z * panel_connection) :=
  match fuel with
  | O => None
  | S fuel' =>
      match panel_getpins h with
      | None => None
      | Some (status, h) =>
          if (length status =? 0)%nat then panel_wait fuel' h else Some (status, h)
      end
  end.

(** Every round on an open socket uses up an event, and no round on a closed
    one ends the loop: the fuel below is enough ([panel_wait_complete]). *)
Definition panel_read (h : panel_connection) : option (list Z * panel_connection) :=
  let h := panel_command h (str "R" ++ [13; 10]) in
  panel_wait (S (length (events h))) h.

(** Pins are below 10: one digit. *)
Definition panel_write (h : panel_connection) (pin : nat) (val : Z) : panel_connection :=
  panel_command h (str "W " ++ [48 + Z.of_nat pin] ++ [32; val] ++ [13; 10]).

(** ** Pins *)

Definition pin_char (reg : Z) (i : nat) : Z :=
  if anyset reg (Z.shiftl 1 (nth i g_PinMap 0)) then 80 else 48.

Fixpoint pin_write_loop (n : nat) (h : panel_connection) (reg : Z) : panel_connection :=
  match n with
  | O => h
  | S n' =>
      let i := (PANEL_PINS - n)%nat in
      let tmp := pin_char reg i in
      let h :=
        if negb (tmp =? nth i (last h) 0) then
          let h := panel_write h i tmp in
          mkPanel (connected h) (<[i := tmp]> (last h)) (commands h) (sends h) (events h)
        else h in
      pin_write_loop n' h reg
  end.

Definition bb_pin_write (h : panel_connection) (reg : Z) : panel_connection :=
  pin_write_loop PANEL_PINS h reg.

Definition pins_of_status (tmp : list Z) : Z :=
  foldl (fun out i =>
    if nth i tmp 0 =? 48 then clear out (Z.shiftl 1 (nth i g_PinMap 0)) else out)
    0xffffffff (seq 0 PANEL_PINS).

Definition bb_pin_read (h : panel_connection) : option (Z * panel_connection) :=
  match panel_read h with
  | None => None
  | Some (tmp, h) => Some (if (length tmp =? 0)%nat then 0xffffffff else pins_of_status tmp, h)
  end.

(** ** Configuration space *)

Definition mask_it (val len : Z) : Z :=
  if len =? 1 then Z.land val 0xff else if len =? 2 then Z.land val 0xffff else val.

(** [memcpy] of [len] bytes of a little-endian word. *)
Definition word_bytes (val len : Z) : list Z :=
  map (fun k => u8 (Z.shiftr val (8 * Z.of_nat k))) (seq 0 (Z.to_nat len)).

Definition bytes_word (bs : list Z) : Z :=
  fold_right (fun b acc => b + 0x100 * acc) 0 bs.

Definition sizeof_cfg_state : Z := 0x100.

Definition pci_read_config (address len : Z) (pms : PCIGPIOState) : option (Z * PCIGPIOState) :=
  let top := u32 (address + len) in
  if address =? 0x44 then Some (0xffffffff, pms)
  else if sizeof_cfg_state <=? top then Some (mask_it 0xffffffff len, pms)
  else
    let refreshed :=
      if (0x4c <=? address) && (address <=? 0x50) then
        if negb (connected (panel pms)) then
          Some (mkGpio (panel pms) (store32 (cfg_state pms) 0x4c 0))
        else
          match bb_pin_read (panel pms) with
          | None => None
          | Some (out, h) => Some (mkGpio h (store32 (cfg_state pms) 0x4c out))
          end
      else Some pms in
    match refreshed with
    | None => None
    | Some pms => Some (bytes_word (load_bytes (cfg_state pms) address len), pms)
    end.

Definition pci_write_config (address val len : Z) (pms : PCIGPIOState) : PCIGPIOState :=
  let top := u32 (address + len) in
  if address =? 0x44 then pms
  else if sizeof_cfg_state <? u32 (address + len) then pms
  else
    let h :=
      if (0x4c <=? address) && (top <=? 0x50) then
        if negb (connected (panel pms)) then panel pms else bb_pin_write (panel pms) val
      else panel pms in
    mkGpio h (store_bytes (cfg_state pms) address (word_bytes val len)).

(** The first loop of [rdc_gpio_pci_init]: weak pull-ups. *)
Fixpoint pullup_loop (n : nat) (h : panel_connection) : panel_connection :=
  match n with
  | O => h
  | S n' =>
      let i := (PANEL_PINS - n)%nat in
      let h := panel_write h i 80 in
      pullup_loop n' (mkPanel (connected h) (<[i := 80]> (last h)) (commands h) (sends h) (events h))
  end.

Definition southbridge_ids : list Z :=
  [0xf3; 0x17; 0x30; 0x60; 0x0f; 0x00; 0x00; 0x04; 0x00; 0x00; 0x01; 0x06].

(** The structure starts zeroed; it stays so when the panel is not there. *)
Definition rdc_gpio_pci_init (opened reached : bool) (sends : list bool) (events : list event)
  : PCIGPIOState :=
  let '(err, h) := panel_open opened reached (mkPanel false (repeat 0 PANEL_PINS) [] sends events) in
  if negb (err =? 0) then mkGpio h (fun _ => 0)
  else
    let h := pullup_loop PANEL_PINS h in
    let cfg := fill (fun _ => 0) 0 sizeof_cfg_state 0xff in
    let cfg := store_bytes cfg 0 southbridge_ids in
    mkGpio h (store cfg 0xe 0x00).

End RdcGpio.
