(* ===== verification/Southbridge.v ===== *)
(** The RDC321x southbridge in Linux: the multi-function device that hands its
    configuration space to two cells (drivers/mfd/rdc321x-southbridge.c), and
    the GPIO driver of one of them (drivers/gpio/rdc321x-gpio.c).  The drivers
    are written against [PciConfig], dword access to the configuration space;
    the emulated southbridge is an instance. *)
From Stdlib Require Import ZArith Lia.
From stdpp Require Import base list numbers strings.
From S2P Require Import Prelude RdcGpio.

(** [pci_read_config_dword] into a variable that holds [v0], with the error
    code and what the variable holds then; [None] when the access never
    returns.  [pci_write_config_dword] gives its error code. *)
Class PciConfig (P : Type) : Type := {
  read_config_dword : Z -> Z -> P -> option (Z * Z * P);
  write_config_dword : Z -> Z -> P -> Z * P
}.

#[export] Instance emulated_config : PciConfig RdcGpio.PCIGPIOState := {
  read_config_dword reg v0 p :=
    match RdcGpio.pci_read_config reg 4 p with
    | None => None
    | Some (v, p) => Some (0, v, p)
    end;
  write_config_dword reg v p := (0, RdcGpio.pci_write_config reg v 4 p)
}.

Module Southbridge.

Definition RDC321X_WDT_CTRL : Z := 0x44.
Definition RDC321X_GPIO_CTRL_REG1 : Z := 0x48.
Definition RDC321X_GPIO_DATA_REG1 : Z := 0x4c.
Definition RDC321X_GPIO_CTRL_REG2 : Z := 0x84.
Definition RDC321X_GPIO_DATA_REG2 : Z := 0x88.
Definition RDC321X_MAX_GPIO : Z := 58.

Definition ENODEV : Z := 19.
Definition ENOMEM : Z := 12.

Record resource : Type := mkResource { rname : list Z; rstart : Z; rend : Z }.

Definition rdc321x_wdt_resource : list resource :=
  [mkResource (str "wdt-reg") RDC321X_WDT_CTRL (RDC321X_WDT_CTRL + 0x3)].

Definition rdc321x_gpio_resources : list resource :=
  [mkResource (str "gpio-reg1") RDC321X_GPIO_CTRL_REG1 (RDC321X_GPIO_CTRL_REG1 + 0x7);
   mkResource (str "gpio-reg2") RDC321X_GPIO_CTRL_REG2 (RDC321X_GPIO_CTRL_REG2 + 0x7)].

(** The platform data a cell carries; the southbridge is the one PCI device of
    the model. *)
Inductive platform_data : Type := GpioPdata (max_gpios : Z) | WdtPdata.

Record mfd_cell : Type := mkCell {
  cname : list Z; resources : list resource; driver_data : platform_data
}.

Definition rdc321x_sb_cells : list mfd_cell :=
  [mkCell (str "rdc321x-wdt") rdc321x_wdt_resource WdtPdata;
   mkCell (str "rdc321x-gpio") rdc321x_gpio_resources (GpioPdata RDC321X_MAX_GPIO)].

(** [enable] is what [pci_enable_device] returns and [add] what
    [mfd_add_devices] does with the cells. *)
Definition rdc321x_sb_probe (enable : Z) (add : list mfd_cell -> Z) : Z :=
  if negb (enable =? 0) then enable else add rdc321x_sb_cells.

Definition platform_get_resource_byname (rs : list resource) (name : list Z) : option resource :=
  List.find (fun r => bool_decide (rname r = name)) rs.

End Southbridge.

Module Gpio.

Import Southbridge.

Record rdc321x_gpio : Type := mkDev {
  data_reg : Z * Z;
  reg1_ctrl_base : Z;
  reg1_data_base : Z;
  reg2_ctrl_base : Z;
  reg2_data_base : Z;
  ngpio : Z
}.

Section Driver.

Context {P : Type} `{PciConfig P}.

Definition shadow (gpch : rdc321x_gpio) (gpio : Z) : Z :=
  if gpio <? 32 then (data_reg gpch).1 else (data_reg gpch).2.

Definition set_shadow (gpch : rdc321x_gpio) (gpio v : Z) : rdc321x_gpio :=
  mkDev (if gpio <? 32 then (v, (data_reg gpch).2) else ((data_reg gpch).1, v))
    (reg1_ctrl_base gpch) (reg1_data_base gpch) (reg2_ctrl_base gpch) (reg2_data_base gpch)
    (ngpio gpch).

(** [1 << (gpio & 0x1f)] *)
Definition gpio_mask (gpio : Z) : Z := Z.shiftl 1 (Z.land gpio 0x1f).

Definition data_base (gpch : rdc321x_gpio) (gpio : Z) : Z :=
  if gpio <? 32 then reg1_data_base gpch else reg2_data_base gpch.

Definition ctrl_base (gpch : rdc321x_gpio) (gpio : Z) : Z :=
  if gpio <? 32 then reg1_ctrl_base gpch else reg2_ctrl_base gpch.

Definition rdc_gpio_get_value (gpio : Z) (w : rdc321x_gpio * P) : option (Z * (rdc321x_gpio * P)) :=
  let '(gpch, p) := w in
  let reg := data_base gpch gpio in
  let '(_, p) := write_config_dword reg (shadow gpch gpio) p in
  match read_config_dword reg 0 p with
  | None => None
  | Some (_, value, p) => Some (if anyset (gpio_mask gpio) value then 1 else 0, (gpch, p))
  end.

Definition rdc_gpio_set_value_impl (gpio value : Z) (w : rdc321x_gpio * P) : rdc321x_gpio * P :=
  let '(gpch, p) := w in
  let v :=
    if negb (value =? 0) then Z.lor (shadow gpch gpio) (gpio_mask gpio)
    else clear (shadow gpch gpio) (gpio_mask gpio) in
  let gpch := set_shadow gpch gpio v in
  let '(_, p) := write_config_dword (data_base gpch gpio) v p in
  (gpch, p).

Definition rdc_gpio_set_value (gpio value : Z) (w : rdc321x_gpio * P) : rdc321x_gpio * P :=
  rdc_gpio_set_value_impl gpio value w.

Definition rdc_gpio_config (gpio value : Z) (w : rdc321x_gpio * P)
  : option (Z * (rdc321x_gpio * P)) :=
  let '(gpch, p) := w in
  match read_config_dword (ctrl_base gpch gpio) 0 p with
  | None => None
  | Some (err, reg, p) =>
      if negb (err =? 0) then Some (err, (gpch, p))
      else
        let reg := Z.lor reg (gpio_mask gpio) in
        let '(err, p) := write_config_dword (ctrl_base gpch gpio) reg p in
        if negb (err =? 0) then Some (err, (gpch, p))
        else Some (err, rdc_gpio_set_value_impl gpio value (gpch, p))
  end.

Definition rdc_gpio_direction_input (gpio : Z) (w : rdc321x_gpio * P)
  : option (Z * (rdc321x_gpio * P)) :=
  rdc_gpio_config gpio 1 w.

(** What the platform device's driver data points to. *)
Inductive drvdata : Type := NoData | Pdata (pd : platform_data) | DevData (d : rdc321x_gpio).

(** [alloc] is whether [kzalloc] succeeds and [add] what [gpiochip_add]
    returns.  The result is the code, the driver data left and the device; driver
    data of another type, which the cells never carry, is outside the model. *)
Definition rdc321x_gpio_probe (rs : list resource) (alloc : bool) (add : Z) (d : drvdata) (p : P)
  : option (Z * drvdata * P) :=
  match d with
  | NoData => Some (-ENODEV, d, p)
  | DevData _ | Pdata WdtPdata => None
  | Pdata (GpioPdata max_gpios) =>
      if negb alloc then Some (-ENOMEM, d, p)
      else
        match platform_get_resource_byname rs (str "gpio-reg1") with
        | None => Some (-ENODEV, d, p)
        | Some r1 =>
            match platform_get_resource_byname rs (str "gpio-reg2") with
            | None => Some (-ENODEV, d, p)
            | Some r2 =>
                let dev v1 v2 :=
                  mkDev (v1, v2) (rstart r1) (rstart r1 + 4) (rstart r2) (rstart r2 + 4) max_gpios in
                match read_config_dword (rstart r1 + 4) 0 p with
                | None => None
                | Some (err, v1, p) =>
                    if negb (err =? 0) then Some (err, NoData, p)
                    else
                      match read_config_dword (rstart r2 + 4) 0 p with
                      | None => None
                      | Some (err, v2, p) =>
                          if negb (err =? 0) then Some (err, NoData, p)
                          else Some (add, DevData (dev v1 v2), p)
                      end
                end
            end
        end
  end.

(** [gone] is what [gpiochip_remove] returns. *)
Definition rdc321x_gpio_remove (gone : Z) (d : drvdata) : Z * drvdata := (gone, NoData).

End Driver.

End Gpio.
