(* ===== verification/SouthbridgeSpec.v ===== *)
(** Correctness of the GPIO path: the Linux driver over the emulated
    southbridge drives the panel's pins to the levels last asked for and reads
    back what the panel reports; the emulated configuration space stores what
    is written; and reading the pins waits for ever once the panel has gone. *)
From Stdlib Require Import ZArith Lia.
From stdpp Require Import base list numbers strings.
From S2P Require Import Prelude RdcGpio Southbridge.

Import RdcGpio.

Module GpioSpec.

Open Scope Z_scope.

(** ** The panel's side of the protocol *)

(** What a panel shows after a command: ["W <pin> <level>"] sets a pin. *)
Definition panel_apply (pins : list Z) (cmd : list Z) : list Z :=
  match cmd with
  | [87; 32; d; 32; v; 13; 10] => <[Z.to_nat (d - 48) := v]> pins
  | _ => pins
  end.

Definition panel_view (cmds : list (list Z)) : list Z :=
  foldl panel_apply (repeat 0 PANEL_PINS) cmds.

(** The connection is up, every [send] will succeed, and the panel shows what
    the emulator last sent. *)
Definition in_step (h : panel_connection) : Prop :=
  connected h = true /\ sends h = [] /\ length (last h) = PANEL_PINS /\
  panel_view (commands h) = last h.

Lemma panel_write_in_step h i v :
  connected h = true -> sends h = [] -> (i < 10)%nat ->
  exists h', panel_write h i v = h' /\ connected h' = true /\ sends h' = [] /\
    last h' = last h /\ events h' = events h /\
    panel_view (commands h') = <[i := v]> (panel_view (commands h)).
Proof.
  intros Hc Hs Hi. eexists. split; [reflexivity|].
  unfold panel_write, panel_command. rewrite Hc, Hs. cbn [connected sends last events commands].
  repeat split. unfold panel_view. rewrite foldl_app. cbn [foldl].
  change (str "W " ++ [48 + Z.of_nat i] ++ [32; v] ++ [13; 10]) with
    [87; 32; 48 + Z.of_nat i; 32; v; 13; 10].
  cbn [panel_apply]. f_equal. lia.
Qed.

Lemma pin_write_loop_spec n : forall h reg, (n <= PANEL_PINS)%nat -> in_step h ->
  in_step (pin_write_loop n h reg) /\
  events (pin_write_loop n h reg) = events h /\
  forall i, (i < PANEL_PINS)%nat ->
    nth i (last (pin_write_loop n h reg)) 0 =
    if (PANEL_PINS - n <=? i)%nat then pin_char reg i else nth i (last h) 0.
Proof.
  induction n as [|n IH]; intros h reg Hn Hh.
  - split; [exact Hh|]. split; [reflexivity|]. intros i Hi.
    destruct (Nat.leb_spec (PANEL_PINS - 0) i); [lia|reflexivity].
  - cbn [pin_write_loop]. set (i0 := (PANEL_PINS - S n)%nat).
    match goal with |- context [pin_write_loop n ?x reg] => set (h1 := x) end.
    assert (Hst : in_step h1 /\ events h1 = events h /\
              last h1 = <[i0 := pin_char reg i0]> (last h)).
    { destruct Hh as (Hc & Hs & Hl & Hv). subst h1.
      destruct (Z.eqb_spec (pin_char reg i0) (nth i0 (last h) 0)) as [E|E]; cbn [negb].
      - split; [repeat split; assumption|]. split; [reflexivity|].
        symmetry. apply list_insert_id. rewrite E, nth_lookup.
        destruct (lookup_lt_is_Some_2 (last h) i0 ltac:(unfold i0; lia)) as [x ->]. reflexivity.
      - destruct (panel_write_in_step h i0 (pin_char reg i0) Hc Hs ltac:(unfold i0, PANEL_PINS; lia))
          as (h' & -> & C & S1 & L & Ev & V).
        split; [|split; [exact Ev|cbn [last]; rewrite L; reflexivity]].
        repeat split; cbn [connected sends last commands]; [assumption|assumption| |].
        + rewrite length_insert, L. exact Hl.
        + rewrite V, L, Hv. reflexivity. }
    destruct Hst as (Hi1 & Hev & Hl1).
    destruct (IH h1 reg ltac:(lia) Hi1) as (A & B & C).
    split; [exact A|]. split; [rewrite B; exact Hev|].
    intros i Hi. rewrite (C i Hi), Hl1.
    destruct Hh as (_ & _ & Hl & _).
    destruct (Nat.leb_spec (PANEL_PINS - n) i); destruct (Nat.leb_spec i0 i); try (unfold i0 in *; lia);
      try reflexivity.
    + assert (i = i0) as -> by (unfold i0, PANEL_PINS in *; lia).
      rewrite nth_lookup, list_lookup_insert_eq by (unfold i0, PANEL_PINS in *; lia). reflexivity.
    + rewrite !nth_lookup, list_lookup_insert_ne by (unfold i0, PANEL_PINS in *; lia). reflexivity.
Qed.

Lemma bb_pin_write_spec h reg : in_step h ->
  in_step (bb_pin_write h reg) /\ events (bb_pin_write h reg) = events h /\
  forall i, (i < PANEL_PINS)%nat -> nth i (last (bb_pin_write h reg)) 0 = pin_char reg i.
Proof.
  intros Hh. destruct (pin_write_loop_spec PANEL_PINS h reg (le_n _) Hh) as (A & B & C).
  split; [exact A|]. split; [exact B|]. intros i Hi. exact (C i Hi).
Qed.

Lemma pullup_in_step opened reached evs :
  opened = true -> reached = true ->
  in_step (panel (rdc_gpio_pci_init opened reached [] evs)).
Proof. intros -> ->. repeat split; reflexivity. Qed.

Lemma anyset_shiftl v k : 0 <= k -> anyset v (Z.shiftl 1 k) = Z.testbit v k.
Proof.
  intros Hk. unfold anyset. rewrite Z.shiftl_1_l, land_bit by exact Hk.
  pose proof (Z.pow_pos_nonneg 2 k ltac:(lia) Hk).
  destruct (Z.testbit v k); cbn [Z.b2z]; destruct (Z.eqb_spec (2 ^ k * 1) 0); try lia;
    destruct (Z.eqb_spec (2 ^ k * 0) 0); lia || reflexivity.
Qed.

Lemma pin_char_bit reg i : (i < PANEL_PINS)%nat ->
  pin_char reg i = if Z.testbit reg (nth i g_PinMap 0) then 80 else 48.
Proof.
  intros Hi. unfold pin_char. rewrite anyset_shiftl; [reflexivity|].
  do 6 (destruct i as [|i]; [cbn; lia|]). unfold PANEL_PINS in Hi. lia.
Qed.

(** ** The driver's operations *)

(** The driver's record as [rdc321x_gpio_probe] fills it from the southbridge's
    resources. *)
Definition standard (d : Gpio.rdc321x_gpio) : Prop :=
  Gpio.reg1_ctrl_base d = Southbridge.RDC321X_GPIO_CTRL_REG1 /\
  Gpio.reg1_data_base d = Southbridge.RDC321X_GPIO_DATA_REG1 /\
  Gpio.reg2_ctrl_base d = Southbridge.RDC321X_GPIO_CTRL_REG2 /\
  Gpio.reg2_data_base d = Southbridge.RDC321X_GPIO_DATA_REG2.

(** The calls gpiolib makes to drive a pin. *)
Inductive drive : Type := SetValue (gpio value : Z) | Output (gpio value : Z) | Input (gpio : Z).

Definition gpio_of (op : drive) : Z :=
  match op with SetValue g _ | Output g _ | Input g => g end.

Definition level_of (op : drive) : bool :=
  match op with SetValue _ v | Output _ v => negb (v =? 0) | Input _ => true end.

Definition world : Type := (Gpio.rdc321x_gpio * PCIGPIOState)%type.

Definition run_drive (op : drive) (w : world) : option world :=
  match op with
  | SetValue g v => Some (Gpio.rdc_gpio_set_value g v w)
  | Output g v => option_map snd (Gpio.rdc_gpio_config g v w)
  | Input g => option_map snd (Gpio.rdc_gpio_direction_input g w)
  end.

Fixpoint run_drives (ops : list drive) (w : world) : option world :=
  match ops with
  | [] => Some w
  | op :: ops' => match run_drive op w with None => None | Some w => run_drives ops' w end
  end.

(** The specification: a pin has the level of the last call that named it. *)
Definition level_after (ops : list drive) (g : Z) (b : bool) : bool :=
  foldl (fun b op => if gpio_of op =? g then level_of op else b) b ops.

(** The emulator's pins show the driver's shadow register. *)
Definition synced (w : world) : Prop :=
  forall i, (i < PANEL_PINS)%nat ->
    nth i (last (panel w.2)) 0 = pin_char (Gpio.data_reg w.1).1 i.

Lemma write_data1 v p : in_step (panel p) ->
  exists h, panel (pci_write_config 0x4c v 4 p) = h /\ in_step h /\ events h = events (panel p) /\
    forall i, (i < PANEL_PINS)%nat -> nth i (last h) 0 = pin_char v i.
Proof.
  intros Hp. eexists. split; [reflexivity|]. unfold pci_write_config.
  rewrite u32_id by lia. cbn -[bb_pin_write store_bytes word_bytes].
  pose proof Hp as (Hc & _). rewrite Hc. cbn [negb]. exact (bb_pin_write_spec _ v Hp).
Qed.

Lemma write_elsewhere a v p : 0 <= a < 0xfc -> a <> 0x44 -> (a + 4 <= 0x4c \/ 0x4c < a) ->
  panel (pci_write_config a v 4 p) = panel p.
Proof.
  intros Ha H44 Hr. unfold pci_write_config. rewrite u32_id by lia. unfold sizeof_cfg_state.
  zcases; cbn [andb panel]; zcases; reflexivity.
Qed.

Lemma gpio_mask_bit gpio g : 0 <= gpio < 32 -> 0 <= g ->
  Z.testbit (Gpio.gpio_mask gpio) g = (gpio =? g).
Proof.
  intros Hgpio Hg. unfold Gpio.gpio_mask. change 0x1f with (Z.ones 5).
  rewrite Z.land_ones, Z.mod_small, Z.shiftl_1_l by lia.
  apply Z.pow2_bits_eqb. lia.
Qed.

Lemma set_value_step gpio value w :
  0 <= gpio < 64 -> standard w.1 -> in_step (panel w.2) ->
  exists w', Gpio.rdc_gpio_set_value_impl gpio value w = w' /\
    standard w'.1 /\ in_step (panel w'.2) /\ events (panel w'.2) = events (panel w.2) /\
    (forall g, 0 <= g < 32 -> Z.testbit (Gpio.data_reg w'.1).1 g =
       if gpio =? g then negb (value =? 0) else Z.testbit (Gpio.data_reg w.1).1 g) /\
    (gpio < 32 \/ synced w -> synced w').
Proof.
  intros Hg Hst Hin. eexists. split; [reflexivity|]. destruct w as [d p]. cbn [fst snd] in *.
  unfold Gpio.rdc_gpio_set_value_impl, Gpio.data_base, Gpio.shadow.
  set (v := if negb (value =? 0) then _ else _).
  destruct Hst as (S1 & S2 & S3 & S4). unfold Gpio.set_shadow.
  destruct (Z.ltb_spec gpio 32).
  - cbn -[pci_write_config Z.testbit]. rewrite S2.
    destruct (write_data1 v p Hin) as (h & Eh & A & B & C).
    unfold Southbridge.RDC321X_GPIO_DATA_REG1. unfold synced. cbn [fst snd Gpio.data_reg]. rewrite Eh.
    split; [repeat split; assumption|]. split; [exact A|]. split; [exact B|].
    split; [|intros _; exact C].
    intros g Hg32. subst v. destruct (negb (value =? 0)).
    + rewrite Z.lor_spec, gpio_mask_bit by lia. destruct (gpio =? g); [apply orb_true_r|apply orb_false_r].
    + unfold clear. rewrite Z.land_spec, Z.lnot_spec, gpio_mask_bit by lia.
      destruct (gpio =? g); [apply andb_false_r|apply andb_true_r].
  - cbn -[pci_write_config Z.testbit]. rewrite S4.
    assert (E : panel (pci_write_config Southbridge.RDC321X_GPIO_DATA_REG2 v 4 p) = panel p)
      by (apply write_elsewhere; unfold Southbridge.RDC321X_GPIO_DATA_REG2; lia).
    unfold synced. cbn [fst snd Gpio.data_reg]. rewrite E.
    split; [repeat split; assumption|]. split; [exact Hin|]. split; [reflexivity|].
    split; [|intros [?|Hs]; [lia|exact Hs]].
    intros g Hg32. destruct (Z.eqb_spec gpio g); [lia|reflexivity].
Qed.

Lemma read_ctrl_returns a p : a = 0x48 \/ a = 0x84 -> exists v,
  pci_read_config a 4 p = Some (v, p).
Proof. intros [-> | ->]; eexists; reflexivity. Qed.

Lemma config_step gpio value w :
  0 <= gpio < 64 -> standard w.1 -> in_step (panel w.2) ->
  exists w', Gpio.rdc_gpio_config gpio value w = Some (0, w') /\
    standard w'.1 /\ in_step (panel w'.2) /\ events (panel w'.2) = events (panel w.2) /\
    (forall g, 0 <= g < 32 -> Z.testbit (Gpio.data_reg w'.1).1 g =
       if gpio =? g then negb (value =? 0) else Z.testbit (Gpio.data_reg w.1).1 g) /\
    (gpio < 32 \/ synced w -> synced w').
Proof.
  intros Hg Hst Hin. destruct w as [d p]. cbn [fst snd] in *.
  set (a := Gpio.ctrl_base d gpio).
  assert (Ha : a = 0x48 \/ a = 0x84).
  { destruct Hst as (S1 & _ & S3 & _). subst a. unfold Gpio.ctrl_base. rewrite S1, S3.
    destruct (gpio <? 32); auto. }
  destruct (read_ctrl_returns a p Ha) as [v Hv].
  set (p' := pci_write_config a (Z.lor v (Gpio.gpio_mask gpio)) 4 p).
  assert (Hp' : panel p' = panel p) by (apply write_elsewhere; lia).
  destruct (set_value_step gpio value (d, p') Hg Hst ltac:(cbn [snd]; rewrite Hp'; exact Hin))
    as (w' & Ew & A & B & C & D & F).
  exists w'. split; [|split; [exact A|split; [exact B|]]].
  - unfold Gpio.rdc_gpio_config. fold a. cbn -[Gpio.rdc_gpio_set_value_impl pci_read_config].
    rewrite Hv. cbn -[Gpio.rdc_gpio_set_value_impl]. fold p'. rewrite Ew. reflexivity.
  - split; [rewrite C; cbn [snd]; rewrite Hp'; reflexivity|]. split; [exact D|].
    intros Hs. apply F. destruct Hs as [?|Hs]; [left; assumption|right].
    unfold synced in *. cbn [fst snd] in *. rewrite Hp'. exact Hs.
Qed.

Lemma drive_step op w :
  0 <= gpio_of op < 64 -> standard w.1 -> in_step (panel w.2) ->
  exists w', run_drive op w = Some w' /\
    standard w'.1 /\ in_step (panel w'.2) /\ events (panel w'.2) = events (panel w.2) /\
    (forall g, 0 <= g < 32 -> Z.testbit (Gpio.data_reg w'.1).1 g =
       if gpio_of op =? g then level_of op else Z.testbit (Gpio.data_reg w.1).1 g) /\
    (gpio_of op < 32 \/ synced w -> synced w').
Proof.
  destruct op as [g v|g v|g]; cbn [gpio_of level_of run_drive]; intros Hg Hst Hin.
  - destruct (set_value_step g v w Hg Hst Hin) as (w' & <- & R). eexists. split; [reflexivity|exact R].
  - destruct (config_step g v w Hg Hst Hin) as (w' & E & R). exists w'. rewrite E. split; [reflexivity|exact R].
  - destruct (config_step g 1 w Hg Hst Hin) as (w' & E & R). exists w'.
    unfold Gpio.rdc_gpio_direction_input. rewrite E. split; [reflexivity|exact R].
Qed.

Lemma drives_steps ops : forall w,
  Forall (fun op => 0 <= gpio_of op < 64) ops -> standard w.1 -> in_step (panel w.2) ->
  exists w', run_drives ops w = Some w' /\
    standard w'.1 /\ in_step (panel w'.2) /\ events (panel w'.2) = events (panel w.2) /\
    (forall g, 0 <= g < 32 -> Z.testbit (Gpio.data_reg w'.1).1 g =
       level_after ops g (Z.testbit (Gpio.data_reg w.1).1 g)) /\
    (Exists (fun op => gpio_of op < 32) ops \/ synced w -> synced w').
Proof.
  induction ops as [|op ops IH]; intros w Hops Hst Hin.
  - exists w. split; [reflexivity|]. do 4 (split; [reflexivity || assumption|]).
    intros [Hx|Hs]; [inversion Hx|exact Hs].
  - apply Forall_cons_1 in Hops as [Hop Hops].
    destruct (drive_step op w Hop Hst Hin) as (w1 & E1 & A1 & B1 & C1 & D1 & F1).
    destruct (IH w1 Hops A1 B1) as (w2 & E2 & A2 & B2 & C2 & D2 & F2).
    exists w2. split; [cbn [run_drives]; rewrite E1; exact E2|].
    split; [exact A2|]. split; [exact B2|]. split; [congruence|]. split.
    + intros g Hg. rewrite (D2 g Hg), (D1 g Hg). reflexivity.
    + intros Hx. apply F2. destruct Hx as [Hx|Hs]; [|right; apply F1; right; exact Hs].
      apply Exists_cons in Hx as [Hx|Hx]; [right; apply F1; left; exact Hx|left; exact Hx].
Qed.

Lemma pin_of_map i : (i < PANEL_PINS)%nat -> 0 <= nth i g_PinMap 0 < 32.
Proof.
  intros Hi. do 6 (destruct i as [|i]; [cbn; lia|]). unfold PANEL_PINS in Hi. lia.
Qed.

(** A driver just probed, with every shadow bit set, over the emulator just
    started with a panel that answers. *)
Definition sample_world (evs : list event) : world :=
  (Gpio.mkDev (0xffffffff, 0xffffffff) 0x48 0x4c 0x84 0x88 58,
   rdc_gpio_pci_init true true [] evs).

(** Whatever calls drive the pins (set, output, input, on either bank), the
    driver over the emulator returns, and every pin of the panel then shows the
    level of the last call that named it, or the driver's shadow bit when no
    call did, as soon as one call named a pin of the first bank. *)
Theorem gpio_drives_panel ops w
  (Hops : Forall (fun op => 0 <= gpio_of op < 64) ops)
  (Hone : Exists (fun op => gpio_of op < 32) ops)
  (Hst : standard w.1) (Hin : in_step (panel w.2)) :
  exists w', run_drives ops w = Some w' /\
    forall i, (i < PANEL_PINS)%nat ->
      let g := nth i g_PinMap 0 in
      nth i (panel_view (commands (panel w'.2))) 0 =
      if level_after ops g (Z.testbit (Gpio.data_reg w.1).1 g) then 80 else 48.
Proof.
  destruct (drives_steps ops w Hops Hst Hin) as (w' & E & _ & (_ & _ & _ & V) & _ & D & F).
  exists w'. split; [exact E|]. intros i Hi g. rewrite V, (F (or_introl Hone) i Hi).
  rewrite pin_char_bit by exact Hi. rewrite D by (apply pin_of_map; exact Hi). reflexivity.
Qed.

Lemma gpio_drives_panel_witness :
  exists w', run_drives [SetValue 16 0; Output 40 1; Input 11; Output 16 1; SetValue 9 0]
               (sample_world []) = Some w' /\
    panel_view (commands (panel w'.2)) = [80; 80; 80; 80; 48; 80].
Proof.
  destruct (gpio_drives_panel
              [SetValue 16 0; Output 40 1; Input 11; Output 16 1; SetValue 9 0] (sample_world []))
    as (w' & E & V).
  - repeat (apply Forall_cons_2; [cbn; lia|]). apply Forall_nil_2.
  - apply Exists_cons_hd. cbn. lia.
  - repeat split.
  - apply pullup_in_step; reflexivity.
  - exists w'. split; [exact E|]. apply (f_equal (option_map (fun w => panel_view (commands (panel w.2))))) in E.
    cbn [option_map] in E. clear V. apply (inj Some). rewrite <- E. vm_compute. reflexivity.
Defined.

(** ** Reading the pins *)

Lemma load_word (m : mem) a v : 0 <= v < 2 ^ 32 ->
  bytes_word (load_bytes (store32 m a v) a 4) = v.
Proof.
  intros Hv. rewrite <- (load32_store32 m a v Hv) at 2. set (m' := store32 m a v).
  unfold load_bytes, load32, load16.
  change (Z.to_nat 4) with 4%nat. cbn [seq map bytes_word fold_right].
  change (Z.of_nat 0) with 0. change (Z.of_nat 1) with 1. change (Z.of_nat 2) with 2.
  change (Z.of_nat 3) with 3. replace (a + 0) with a by lia. replace (a + 2 + 1) with (a + 3) by lia. lia.
Qed.

Lemma until_nul_id s : Forall (fun c => c <> 0) s -> until_nul s = s.
Proof.
  induction 1 as [|c s Hc Hs IH]; [reflexivity|]. cbn [until_nul].
  destruct (Z.eqb_spec c 0); [contradiction|]. rewrite IH. reflexivity.
Qed.

(** The panel's answer to a read: the level of each pin. *)
Definition answer (st : list Z) : event := Ready (Some (Data (str "R " ++ st))) false.

Lemma panel_read_answer h st evs :
  connected h = true -> sends h = [] -> events h = answer st :: evs ->
  Forall (fun c => c <> 0) st -> (0 < length st < 100)%nat ->
  exists h', panel_read h = Some (st, h') /\ connected h' = true /\ events h' = evs /\
    last h' = last h.
Proof.
  intros Hc Hs Hev Hnz Hlen. unfold panel_read, panel_command. rewrite Hc, Hs. cbn [events]. rewrite Hev.
  cbn [panel_wait length]. unfold panel_getpins. cbn [connected negb events answer select_loop].
  change (str "R " ++ st) with (82 :: 32 :: st).
  cbn [length Nat.eqb until_nul Z.eqb]. rewrite until_nul_id by exact Hnz. eexists.
  change (take 2 (82 :: 32 :: st)) with (str "R ").
  rewrite bool_decide_eq_true_2 by reflexivity.
  change (drop 2 (82 :: 32 :: st)) with st. rewrite take_ge by (unfold slen; lia).
  destruct (Nat.eqb_spec (length st) 0); [lia|]. repeat split.
Qed.

(** No pin of [js] is pin [g] reported low. *)
Definition not_low (st : list Z) (g : Z) (js : list nat) : bool :=
  forallb (fun j => negb ((nth j st 0 =? 48) && (nth j g_PinMap 0 =? g))) js.

Lemma not_low_pin st i : (i < PANEL_PINS)%nat ->
  not_low st (nth i g_PinMap 0) (seq 0 PANEL_PINS) = negb (nth i st 0 =? 48).
Proof.
  intros Hi. unfold not_low. cbn [PANEL_PINS seq forallb].
  do 6 (destruct i as [|i];
    [cbn [nth g_PinMap Z.eqb Pos.eqb]; rewrite ?andb_false_r, ?andb_true_r; reflexivity|]).
  unfold PANEL_PINS in Hi. lia.
Qed.

Lemma pins_fold st g js : forall out, 0 <= g -> Forall (fun j => (j < PANEL_PINS)%nat) js ->
  Z.testbit (foldl (fun out i =>
    if nth i st 0 =? 48 then clear out (Z.shiftl 1 (nth i g_PinMap 0)) else out) out js) g =
  Z.testbit out g && not_low st g js.
Proof.
  induction js as [|j js IH]; intros out Hg Hjs; cbn [foldl not_low forallb].
  - symmetry. apply andb_true_r.
  - apply Forall_cons_1 in Hjs as [Hj Hjs]. rewrite (IH _ Hg Hjs). fold (not_low st g js).
    rewrite andb_assoc. f_equal. destruct (nth j st 0 =? 48); cbn [andb negb]; [|rewrite andb_true_r; reflexivity].
    pose proof (pin_of_map j Hj). unfold clear.
    rewrite Z.land_spec, Z.lnot_spec, Z.shiftl_1_l, Z.pow2_bits_eqb by lia. reflexivity.
Qed.

Lemma pins_of_status_bit st g : 0 <= g < 32 ->
  Z.testbit (pins_of_status st) g = not_low st g (seq 0 PANEL_PINS).
Proof.
  intros Hg. unfold pins_of_status. rewrite pins_fold; [|lia|].
  - change 0xffffffff with (Z.ones 32). rewrite Z.ones_spec_low by lia. reflexivity.
  - repeat (apply Forall_cons_2; [unfold PANEL_PINS; lia|]). apply Forall_nil_2.
Qed.

Lemma pins_of_status_range st : 0 <= pins_of_status st < 2 ^ 32.
Proof.
  unfold pins_of_status.
  cut (forall js out, 0 <= out < 2 ^ 32 -> 0 <= foldl (fun out i =>
    if nth i st 0 =? 48 then clear out (Z.shiftl 1 (nth i g_PinMap 0)) else out) out js < 2 ^ 32).
  { intros Hcut. apply Hcut. lia. }
  induction js as [|j js IH]; intros out Ho; [exact Ho|]. cbn [foldl]. apply IH.
  destruct (nth j st 0 =? 48); [|exact Ho]. unfold clear. rewrite Z.land_comm.
  pose proof (land_le_r (Z.lnot (Z.shiftl 1 (nth j g_PinMap 0))) out ltac:(lia)). lia.
Qed.

Lemma read_data1 p st evs :
  connected (panel p) = true -> sends (panel p) = [] -> events (panel p) = answer st :: evs ->
  Forall (fun c => c <> 0) st -> (0 < length st < 100)%nat ->
  exists p', pci_read_config 0x4c 4 p = Some (pins_of_status st, p') /\
    connected (panel p') = true /\ events (panel p') = evs /\ last (panel p') = last (panel p).
Proof.
  intros Hc Hs Hev Hnz Hlen.
  destruct (panel_read_answer (panel p) st evs Hc Hs Hev Hnz Hlen) as (h' & E & C & Ev & L).
  exists (mkGpio h' (store32 (cfg_state p) 0x4c (pins_of_status st))).
  split; [|split; [exact C|split; [exact Ev|exact L]]].
  unfold pci_read_config. rewrite u32_id by lia. cbn -[bb_pin_read load_bytes store32 bytes_word].
  rewrite Hc. cbn [negb]. unfold bb_pin_read. rewrite E.
  destruct (Nat.eqb_spec (length st) 0); [lia|]. cbn [cfg_state].
  rewrite load_word by apply pins_of_status_range. reflexivity.
Qed.

(** Reading a pin of the first bank over the emulator first drives the
    shadow register out, then waits for the panel's answer, and gives 0 for a
    panel pin the answer reports low and 1 for every other pin. *)
Theorem gpio_reads_panel gpio w st evs
  (Hg : 0 <= gpio < 32) (Hst : standard w.1) (Hin : in_step (panel w.2))
  (Hev : events (panel w.2) = answer st :: evs)
  (Hnz : Forall (fun c => c <> 0) st) (Hlen : (0 < length st < 100)%nat) :
  exists v w', Gpio.rdc_gpio_get_value gpio w = Some (v, w') /\
    w'.1 = w.1 /\ synced w' /\ events (panel w'.2) = evs /\
    (forall i, (i < PANEL_PINS)%nat -> gpio = nth i g_PinMap 0 ->
       v = if nth i st 0 =? 48 then 0 else 1) /\
    (~ In gpio g_PinMap -> v = 1).
Proof.
  destruct w as [d p]. cbn [fst snd] in *. destruct Hst as (S1 & S2 & S3 & S4).
  destruct (write_data1 (Gpio.data_reg d).1 p Hin) as (h & Eh & (Hc & Hs & _ & _) & Eev & Hl).
  set (p1 := pci_write_config 0x4c (Gpio.data_reg d).1 4 p) in *.
  destruct (read_data1 p1 st evs) as (p' & E & C & Ev & L); rewrite ?Eh; try congruence; try assumption.
  assert (Hv : anyset (Gpio.gpio_mask gpio) (pins_of_status st) =
               not_low st gpio (seq 0 PANEL_PINS)).
  { rewrite <- pins_of_status_bit, <- anyset_shiftl by lia. unfold anyset. rewrite Z.land_comm.
    unfold Gpio.gpio_mask. change 0x1f with (Z.ones 5). rewrite Z.land_ones, Z.mod_small by lia.
    reflexivity. }
  exists (if not_low st gpio (seq 0 PANEL_PINS) then 1 else 0), (d, p'). split.
  { unfold Gpio.rdc_gpio_get_value, Gpio.data_base, Gpio.shadow.
    destruct (Z.ltb_spec gpio 32); [|lia]. rewrite S2.
    cbn -[pci_write_config pci_read_config anyset]. unfold Southbridge.RDC321X_GPIO_DATA_REG1.
    fold p1. rewrite E, Hv. reflexivity. }
  split; [reflexivity|]. split.
  { intros i Hi. cbn [fst snd]. rewrite L, Eh. exact (Hl i Hi). }
  split; [exact Ev|]. split.
  - intros i Hi ->. rewrite not_low_pin by exact Hi. destruct (nth i st 0 =? 48); reflexivity.
  - intros Hn. replace (not_low st gpio (seq 0 PANEL_PINS)) with true; [reflexivity|].
    symmetry. apply forallb_forall. intros j Hj. apply in_seq in Hj.
    destruct (Z.eqb_spec (nth j g_PinMap 0) gpio) as [<-|]; [|rewrite andb_false_r; reflexivity].
    exfalso. apply Hn. apply nth_In. exact (proj2 Hj).
Qed.

Lemma gpio_reads_panel_witness :
  exists w', Gpio.rdc_gpio_get_value 9 (sample_world [answer [49; 49; 49; 49; 48; 49]]) = Some (0, w') /\
    synced w'.
Proof.
  destruct (gpio_reads_panel 9 (sample_world [answer [49; 49; 49; 49; 48; 49]]) [49; 49; 49; 49; 48; 49] [])
    as (v & w' & E & _ & S & _ & V & _).
  - lia.
  - repeat split.
  - apply pullup_in_step; reflexivity.
  - reflexivity.
  - repeat (apply Forall_cons_2; [lia|]). apply Forall_nil_2.
  - cbn. lia.
  - exists w'. split; [|exact S]. rewrite E. f_equal. f_equal.
    rewrite (V 4%nat) by (reflexivity || (unfold PANEL_PINS; lia)). reflexivity.
Defined.

Lemma select_loop_shorter evs ev evs' :
  select_loop evs = Some (ev, evs') -> (length evs' < length evs)%nat.
Proof.
  induction evs as [|e evs IH]; cbn [select_loop length]; [discriminate|].
  destruct e; intros E; try (injection E as <- <-; lia). specialize (IH E). lia.
Qed.

Lemma panel_getpins_uses_event h st h' :
  connected h = true -> panel_getpins h = Some (st, h') -> (length (events h') < length (events h))%nat.
Proof.
  intros Hc. unfold panel_getpins. rewrite Hc. cbn [negb].
  destruct (select_loop (events h)) as [[ev evs]|] eqn:E; [|discriminate].
  apply select_loop_shorter in E. intros G.
  repeat case_match; simplify_eq; exact E.
Qed.

Lemma panel_wait_closed fuel : forall h, connected h = false -> panel_wait fuel h = None.
Proof.
  induction fuel as [|fuel IH]; intros h Hc; [reflexivity|].
  cbn [panel_wait]. unfold panel_getpins. rewrite Hc. cbn. apply IH. exact Hc.
Qed.

(** The fuel of [panel_read] is enough: a wait that ends with any fuel ends
    with it. *)
Lemma panel_wait_complete fuel : forall h r n, (length (events h) < n)%nat ->
  panel_wait fuel h = Some r -> panel_wait n h = Some r.
Proof.
  induction fuel as [|fuel IH]; intros h r n Hn; [discriminate|].
  destruct (connected h) eqn:Hc; [|rewrite panel_wait_closed by exact Hc; discriminate].
  destruct n as [|n]; [lia|]. cbn [panel_wait].
  destruct (panel_getpins h) as [[st h']|] eqn:E; [|discriminate].
  apply panel_getpins_uses_event in E; [|exact Hc].
  destruct (length st =? 0)%nat; [|auto]. apply IH. lia.
Qed.

(** Once the panel closes its connection while the emulator waits for its
    answer (after any number of interrupted calls), the wait never ends,
    whatever the fuel. *)
Theorem panel_gone_hangs n h evs fuel
  (Hc : connected h = true) (Hev : events h = repeat Eintr n ++ Ready (Some (Data [])) false :: evs) :
  panel_wait fuel h = None.
Proof.
  destruct fuel as [|fuel]; [reflexivity|]. cbn [panel_wait]. unfold panel_getpins. rewrite Hc. cbn [negb].
  assert (E : select_loop (events h) = Some (Ready (Some (Data [])) false, evs)).
  { rewrite Hev. clear. induction n as [|n IH]; [reflexivity|exact IH]. }
  rewrite E. cbn. apply panel_wait_closed. reflexivity.
Qed.

Lemma panel_gone_hangs_witness :
  panel_wait 1000 (panel (rdc_gpio_pci_init true true [] [Eintr; Ready (Some (Data [])) false])) = None.
Proof.
  apply (panel_gone_hangs 1 (panel (rdc_gpio_pci_init true true [] [Eintr; Ready (Some (Data [])) false])) []);
    reflexivity.
Defined.

(** ** Configuration space *)

Lemma word_bytes_value v len : len = 1 \/ len = 2 \/ len = 4 ->
  bytes_word (word_bytes v len) = v mod 2 ^ (8 * len).
Proof.
  intros Hlen. unfold word_bytes.
  assert (E : forall k, Z.shiftr v (8 * Z.of_nat k) = v / 2 ^ (8 * Z.of_nat k))
    by (intros k; apply Z.shiftr_div_pow2; lia).
  destruct Hlen as [-> | [-> | ->]]; unfold Z.to_nat, Pos.to_nat; cbn [Pos.iter_op Nat.add];
    cbn [seq map]; rewrite !E; cbn [bytes_word fold_right]; unfold u8;
    cbn [Z.of_nat Pos.of_succ_nat Pos.succ Z.mul Pos.mul Z.pow Z.pow_pos Pos.iter];
    Z.div_mod_to_equations; lia.
Qed.

Lemma length_word_bytes v len : 0 <= len -> Z.of_nat (length (word_bytes v len)) = len.
Proof. intros. unfold word_bytes. rewrite length_map, length_seq. lia. Qed.

(** Outside the GPIO data register, what is written to configuration space
    (a byte, a word or a dword that ends below its last byte) is read back, and
    neither access reaches the panel. *)
Theorem config_space_roundtrip a v len p
  (Hlen : len = 1 \/ len = 2 \/ len = 4) (Ha : 0 <= a) (Htop : a + len < 0x100)
  (Hwdt : a <> 0x44) (Hdata : a < 0x4c \/ 0x50 < a) :
  exists p', pci_write_config a v len p = p' /\
    panel p' = panel p /\
    pci_read_config a len p' = Some (v mod 2 ^ (8 * len), p').
Proof.
  eexists. split; [reflexivity|]. unfold pci_write_config, pci_read_config, sizeof_cfg_state.
  rewrite u32_id by lia. 
  destruct (Z.eqb_spec a 0x44); [contradiction|].
  destruct (Z.ltb_spec 0x100 (a + len)); [lia|].
  destruct (Z.leb_spec 0x100 (a + len)); [lia|].
  assert (E1 : (0x4c <=? a) && (a + len <=? 0x50) = false) by lia.
  assert (E2 : (0x4c <=? a) && (a <=? 0x50) = false) by lia.
  rewrite E1, E2. cbn [panel cfg_state]. split; [reflexivity|].
  rewrite <- (length_word_bytes v len) at 2 by lia. rewrite load_store_bytes.
  rewrite word_bytes_value by exact Hlen. reflexivity.
Qed.

Lemma config_space_roundtrip_witness :
  exists p', pci_write_config 0x48 0x12345678 4 (rdc_gpio_pci_init true true [] []) = p' /\
    panel p' = panel (rdc_gpio_pci_init true true [] []) /\
    pci_read_config 0x48 4 p' = Some (0x12345678, p').
Proof.
  apply (config_space_roundtrip 0x48 0x12345678 4); lia.
Defined.

(** The last bytes can be written but never read. *)
Lemma last_dword_unreadable v p :
  pci_read_config 0xfc 4 (pci_write_config 0xfc v 4 p) = Some (0xffffffff, pci_write_config 0xfc v 4 p) /\
  load_bytes (cfg_state (pci_write_config 0xfc v 4 p)) 0xfc 4 = word_bytes v 4.
Proof.
  split; [reflexivity|]. unfold pci_write_config. cbn -[load_bytes store_bytes word_bytes].
  rewrite <- (length_word_bytes v 4) at 2 by lia. apply load_store_bytes.
Qed.

(** ** Probing *)

(** After the driver is removed it cannot be bound again: the driver data
    that held the platform data is gone and the probe fails. *)
Lemma gpio_rebind_fails rs gone add d (p : PCIGPIOState) :
  Gpio.rdc321x_gpio_probe rs true add (Gpio.rdc321x_gpio_remove gone d).2 p =
  Some (-Southbridge.ENODEV, Gpio.NoData, p).
Proof. reflexivity. Qed.

(** The first probe, with the southbridge's cell, gives a standard device. *)
Lemma gpio_probe_standard p st evs :
  in_step (panel p) -> events (panel p) = answer st :: evs ->
  Forall (fun c => c <> 0) st -> (0 < length st < 100)%nat ->
  exists d p', Gpio.rdc321x_gpio_probe Southbridge.rdc321x_gpio_resources true 0
    (Gpio.Pdata (Southbridge.GpioPdata Southbridge.RDC321X_MAX_GPIO)) p =
    Some (0, Gpio.DevData d, p') /\ standard d /\ (Gpio.data_reg d).1 = pins_of_status st.
Proof.
  intros (Hc & Hs & _) Hev Hnz Hlen.
  destruct (read_data1 p st evs Hc Hs Hev Hnz Hlen) as (p' & E & _).
  eexists _, p'. split; [|split].
  - unfold Gpio.rdc321x_gpio_probe.
    change (Southbridge.platform_get_resource_byname Southbridge.rdc321x_gpio_resources (str "gpio-reg1"))
      with (Some (Southbridge.mkResource (str "gpio-reg1") 0x48 0x4f)).
    change (Southbridge.platform_get_resource_byname Southbridge.rdc321x_gpio_resources (str "gpio-reg2"))
      with (Some (Southbridge.mkResource (str "gpio-reg2") 0x84 0x8b)).
    cbn -[pci_read_config str]. change (72 + 4) with 0x4c. rewrite E. reflexivity.
  - repeat split.
  - reflexivity.
Qed.

End GpioSpec.
