(* ===== verification/RdcWdt.v ===== *)
(** The RDC321x watchdog driver (drivers/watchdog/rdc321x_wdt.c): its file
    operations and its kernel timer as a state machine over the southbridge's
    configuration space. *)
From Stdlib Require Import ZArith Lia.
From stdpp Require Import base list numbers strings.
From S2P Require Import Prelude RdcGpio Southbridge.

Module Wdt.

Open Scope Z_scope.

Definition RDC_WDT_EN : Z := 0x00800000.
Definition RDC_WDT_RST : Z := 0x00100000.
Definition RDC_WDT_CNT : Z := 0x00000001.
Definition RDC_CLS_TMR : Z := 0x80003844.

Definition EIO : Z := 5.
Definition EBUSY : Z := 16.
Definition EFAULT : Z := 14.
Definition EINVAL : Z := 22.
Definition ENOTTY : Z := 25.

(** The driver's statics, with whether the timer is pending, how often the
    completion was signalled, and the southbridge. *)
Record state (P : Type) : Type := mkState {
  ticks : Z;
  running : Z;
  queue : Z;
  default_ticks : Z;
  inuse : bool;
  base_reg : Z;
  pending : bool;
  stop : nat;
  sb_pdev : P
}.

Arguments mkState {P}.
Arguments ticks {P}.
Arguments running {P}.
Arguments queue {P}.
Arguments default_ticks {P}.
Arguments inuse {P}.
Arguments base_reg {P}.
Arguments pending {P}.
Arguments stop {P}.
Arguments sb_pdev {P}.

Section Driver.

Context {P : Type} `{PciConfig P}.

(** The statics at load time; [running] is not set again by the probe. *)
Definition loaded (p : P) : state P := mkState 1000 0 0 0 false 0 false 0 p.

(** [v0] is what the uninitialised variable holds. *)
Definition rdc321x_wdt_trigger (v0 : Z) (s : state P) : option (state P) :=
  let t := if negb (running s =? 0) then s32 (ticks s - 1) else ticks s in
  match read_config_dword (base_reg s) v0 (sb_pdev s) with
  | None => None
  | Some (_, val, p) =>
      let val := Z.lor val RDC_WDT_EN in
      let '(_, p) := write_config_dword (base_reg s) val p in
      if negb (queue s =? 0) && negb (t =? 0) then
        Some (mkState t (running s) (queue s) (default_ticks s) (inuse s) (base_reg s)
                true (stop s) p)
      else
        Some (mkState t (running s) (queue s) (default_ticks s) (inuse s) (base_reg s)
                false (S (stop s)) p)
  end.

Definition rdc321x_wdt_reset (s : state P) : state P :=
  mkState (default_ticks s) (running s) (queue s) (default_ticks s) (inuse s) (base_reg s)
    (pending s) (stop s) (sb_pdev s).

Definition rdc321x_wdt_start (s : state P) : state P :=
  let s :=
    if queue s =? 0 then
      let '(_, p) := write_config_dword (base_reg s) RDC_CLS_TMR (sb_pdev s) in
      let '(_, p) := write_config_dword (base_reg s) (Z.lor RDC_WDT_EN RDC_WDT_CNT) p in
      mkState (ticks s) (running s) 1 (default_ticks s) (inuse s) (base_reg s) true (stop s) p
    else s in
  mkState (ticks s) (s32 (running s + 1)) (queue s) (default_ticks s) (inuse s) (base_reg s)
    (pending s) (stop s) (sb_pdev s).

Definition rdc321x_wdt_stop (s : state P) : Z * state P :=
  (-EIO,
   mkState (default_ticks s) 0 (queue s) (default_ticks s) (inuse s) (base_reg s)
     (pending s) (stop s) (sb_pdev s)).

Definition set_inuse (b : bool) (s : state P) : state P :=
  mkState (ticks s) (running s) (queue s) (default_ticks s) b (base_reg s)
    (pending s) (stop s) (sb_pdev s).

(** [nonseekable_open] always succeeds. *)
Definition rdc321x_wdt_open (s : state P) : Z * state P :=
  if inuse s then (-EBUSY, s) else (0, set_inuse true s).

Definition rdc321x_wdt_release (s : state P) : Z * state P := (0, set_inuse false s).

(** The commands of the ioctl; [copied] is whether the user's pointer can be
    accessed. *)
Inductive wdioc : Type :=
  | KEEPALIVE | GETSTATUS (copied : bool) (v0 : Z) | GETSUPPORT (copied : bool)
  | SETOPTIONS (copied : bool) (value : Z) | OTHER.

Definition WDIOS_DISABLECARD : Z := 1.
Definition WDIOS_ENABLECARD : Z := 2.

(** The value copied to the user, when one is. *)
Definition rdc321x_wdt_ioctl (cmd : wdioc) (s : state P) : option (Z * option Z * state P) :=
  match cmd with
  | KEEPALIVE => Some (0, None, rdc321x_wdt_reset s)
  | GETSTATUS copied v0 =>
      match read_config_dword (base_reg s) v0 (sb_pdev s) with
      | None => None
      | Some (_, value, p) =>
          let s := mkState (ticks s) (running s) (queue s) (default_ticks s) (inuse s)
                     (base_reg s) (pending s) (stop s) p in
          if negb copied then Some (-EFAULT, None, s) else Some (0, Some value, s)
      end
  | GETSUPPORT copied => if negb copied then Some (-EFAULT, None, s) else Some (0, None, s)
  | SETOPTIONS copied value =>
      if negb copied then Some (-EFAULT, None, s)
      else if value =? WDIOS_ENABLECARD then Some (0, None, rdc321x_wdt_start s)
      else if value =? WDIOS_DISABLECARD then
        let '(err, s) := rdc321x_wdt_stop s in Some (err, None, s)
      else Some (-EINVAL, None, s)
  | OTHER => Some (-ENOTTY, None, s)
  end.

Definition rdc321x_wdt_write (count : Z) (s : state P) : Z * state P :=
  if count =? 0 then (-EIO, s) else (count, rdc321x_wdt_reset s).

(** [pdata] is whether there is platform data, [rs] the cell's resources and
    [registered] what [misc_register] returns. *)
Definition rdc321x_wdt_probe (pdata : bool) (rs : list Southbridge.resource) (registered : Z)
    (s : state P) : Z * state P :=
  if negb pdata then (-Southbridge.ENODEV, s)
  else
    match Southbridge.platform_get_resource_byname rs (str "wdt-reg") with
    | None => (-Southbridge.ENODEV, s)
    | Some r =>
        let base := Southbridge.rstart r in
        if registered <? 0 then
          (registered,
           mkState (ticks s) (running s) (queue s) (default_ticks s) (inuse s) base
             (pending s) (stop s) (sb_pdev s))
        else
          let '(_, p) := write_config_dword base RDC_WDT_RST (sb_pdev s) in
          (0, mkState (ticks s) (running s) 0 (ticks s) false base false 0 p)
    end.

(** Removal as far as the wait for the completion: what it waits for. *)
Definition rdc321x_wdt_remove (s : state P) : bool * state P :=
  if negb (queue s =? 0) then
    (true, mkState (ticks s) (running s) 0 (default_ticks s) (inuse s) (base_reg s)
             (pending s) (stop s) (sb_pdev s))
  else (false, s).

(** [wait_for_completion]: it returns, using up one completion, once there is
    one. *)
Definition wait_for_completion (s : state P) : option (state P) :=
  match stop s with
  | O => None
  | S n =>
      Some (mkState (ticks s) (running s) (queue s) (default_ticks s) (inuse s) (base_reg s)
              (pending s) n (sb_pdev s))
  end.

End Driver.

(** ** The state machine *)

Section Spec.

Context {P : Type} `{PciConfig P}.

(** What can happen to a bound driver: its timer fires, or a process calls a
    file operation. *)
Inductive op : Type := Fire (v0 : Z) | Open | Release | Ioctl (cmd : wdioc) | Write (count : Z).

Inductive step : state P -> op -> state P -> Prop :=
  | step_fire s v0 s' : pending s = true -> rdc321x_wdt_trigger v0 s = Some s' -> step s (Fire v0) s'
  | step_open s : step s Open (rdc321x_wdt_open s).2
  | step_release s : step s Release (rdc321x_wdt_release s).2
  | step_ioctl s cmd r out s' :
      rdc321x_wdt_ioctl cmd s = Some (r, out, s') -> step s (Ioctl cmd) s'
  | step_write s count : step s (Write count) (rdc321x_wdt_write count s).2.

Inductive steps : state P -> list op -> state P -> Prop :=
  | steps_nil s : steps s [] s
  | steps_cons s o s1 os s2 : step s o s1 -> steps s1 os s2 -> steps s (o :: os) s2.

(** What every operation keeps: the timer is pending exactly while the driver
    queues it and has not completed it. *)
Definition inv (s : state P) : Prop :=
  if queue s =? 0 then pending s = false /\ stop s = 0%nat
  else (pending s = true /\ stop s = 0%nat) \/ (pending s = false /\ stop s = 1%nat).

(** [trigger] in one equation. *)
Lemma trigger_eq v0 s s' : rdc321x_wdt_trigger v0 s = Some s' ->
  ticks s' = (if negb (running s =? 0) then s32 (ticks s - 1) else ticks s) /\
  running s' = running s /\ queue s' = queue s /\ default_ticks s' = default_ticks s /\
  base_reg s' = base_reg s /\
  pending s' = negb (queue s =? 0) && negb (ticks s' =? 0) /\
  stop s' = if pending s' then stop s else S (stop s).
Proof.
  unfold rdc321x_wdt_trigger. intros E. repeat case_match; simplify_eq; cbn; auto 10.
Qed.

Lemma step_queue s o s' : step s o s' -> queue s <> 0 -> queue s' = queue s.
Proof.
  intros Hs Hq. destruct Hs as [s v0 s' _ E|s|s|s cmd r out s' E|s count].
  - apply trigger_eq in E. tauto.
  - unfold rdc321x_wdt_open. case_match; reflexivity.
  - reflexivity.
  - destruct cmd; unfold rdc321x_wdt_ioctl in E; repeat case_match; simplify_eq; try reflexivity.
    + unfold rdc321x_wdt_start. case_match; [lia|reflexivity].
    + unfold rdc321x_wdt_stop in *. simplify_eq. reflexivity.
  - unfold rdc321x_wdt_write. case_match; reflexivity.
Qed.

Lemma start_queued s : queue s <> 0 ->
  rdc321x_wdt_start s =
  mkState (ticks s) (s32 (running s + 1)) (queue s) (default_ticks s) (inuse s) (base_reg s)
    (pending s) (stop s) (sb_pdev s).
Proof. intros Hq. unfold rdc321x_wdt_start. destruct (Z.eqb_spec (queue s) 0); [contradiction|reflexivity]. Qed.

Lemma step_inv s o s' : step s o s' -> inv s -> inv s'.
Proof.
  intros Hs. destruct Hs as [s v0 s' Hp E|s|s|s cmd r out s' E|s count].
  - unfold inv. apply trigger_eq in E as (_ & _ & -> & _ & _ & Hpend & Hstop). intros Hi.
    destruct (queue s =? 0); [destruct Hi; congruence|]. cbn [negb andb] in Hpend.
    destruct Hi as [[_ Hz]|[? _]]; [|congruence]. rewrite Hz in Hstop.
    destruct (pending s'); [left|right]; auto.
  - unfold rdc321x_wdt_open. case_match; auto.
  - auto.
  - destruct cmd; unfold rdc321x_wdt_ioctl in E; repeat case_match; simplify_eq; auto.
    + unfold inv, rdc321x_wdt_start. destruct (queue s =? 0) eqn:Hq.
      * destruct (write_config_dword _ _ _) as [? p1], (write_config_dword _ _ p1). cbn. tauto.
      * cbn. rewrite Hq. tauto.
    + unfold rdc321x_wdt_stop in *. simplify_eq. auto.
  - unfold rdc321x_wdt_write. case_match; auto.
Qed.

Lemma steps_inv s os s' : steps s os s' -> inv s -> inv s'.
Proof. induction 1; eauto using step_inv. Qed.

(** *** Feeding *)

(** [o] sets the driver's counter back to the full period. *)
Definition feeds (o : op) : bool :=
  match o with
  | Ioctl KEEPALIVE => true
  | Ioctl (SETOPTIONS copied v) => copied && (v =? WDIOS_DISABLECARD)
  | Write count => negb (count =? 0)
  | _ => false
  end.

(** The timer never fires [n] times in a row without being fed; [left] firings
    are left until then. *)
Fixpoint fed (n left : Z) (os : list op) : bool :=
  match os with
  | [] => true
  | Fire _ :: os' => (1 <? left) && fed n (left - 1) os'
  | o :: os' => if feeds o then fed n n os' else fed n left os'
  end.

(** The driver's counter covers what is left. *)
Definition covered (n left : Z) (s : state P) : Prop :=
  queue s <> 0 /\ pending s = true /\ default_ticks s = n /\ 0 < left <= ticks s /\ ticks s < 2 ^ 31.

Lemma step_covered s o s' n left :
  step s o s' -> 0 < n < 2 ^ 31 -> covered n left s ->
  match o with
  | Fire _ => 1 < left -> covered n (left - 1) s'
  | _ => covered n (if feeds o then n else left) s'
  end.
Proof.
  intros Hs Hn (Hq & Hp & Hd & Hl & Ht).
  destruct Hs as [s v0 s' _ E|s|s|s cmd r out s' E|s count]; unfold covered.
  - intros H1. apply trigger_eq in E as (Et & _ & -> & -> & _ & Hpend & _).
    assert (Hs32 : s32 (ticks s - 1) = ticks s - 1).
    { unfold s32. rewrite Z.mod_small by lia. cbv zeta. zcases. }
    rewrite Hs32 in Et.
    assert (left - 1 <= ticks s' /\ ticks s' < 2 ^ 31) by (destruct (negb (running s =? 0)); lia).
    rewrite Hpend. repeat split; lia.
  - cbn [feeds]. unfold rdc321x_wdt_open. case_match; cbn; repeat split; try lia; assumption.
  - cbn. repeat split; try lia; assumption.
  - destruct cmd as [|c v0|c|c v|]; unfold rdc321x_wdt_ioctl in E; cbn [feeds].
    4: { destruct c; cbn [negb andb] in *; [|simplify_eq; repeat split; try lia; assumption].
         unfold WDIOS_ENABLECARD, WDIOS_DISABLECARD in *.
         destruct (Z.eqb_spec v 2) as [->|]; cbn.
         - simplify_eq. rewrite start_queued by exact Hq. repeat split; cbn; try lia; assumption.
         - destruct (v =? 1); cbn in E; simplify_eq; cbn; repeat split; try lia; assumption. }
    all: repeat case_match; simplify_eq; cbn; repeat split; try lia; assumption.
  - cbn [feeds]. unfold rdc321x_wdt_write. destruct (count =? 0); cbn; repeat split; try lia; assumption.
Qed.

Lemma steps_covered s os s' n : steps s os s' -> forall left, 0 < n < 2 ^ 31 ->
  covered n left s -> fed n left os = true -> exists left', covered n left' s'.
Proof.
  induction 1 as [s|s o s1 os s2 Hs Hss IH]; intros left Hn Hc Hf; [eauto|].
  pose proof (step_covered _ _ _ n left Hs Hn Hc) as Hc1.
  destruct o; cbn [fed feeds] in *; try (eapply IH; eassumption).
  - apply andb_true_iff in Hf as [H1 Hf]. apply Z.ltb_lt in H1. eapply IH; eauto.
  - destruct cmd as [|c v0|c|c v|]; cbn [feeds] in *; try (eapply IH; eassumption).
    destruct (c && (v =? WDIOS_DISABLECARD)); eapply IH; eassumption.
  - destruct (negb (count =? 0)); eapply IH; eassumption.
Qed.

(** C25: a watchdog that is enabled and fed (written to, kept alive or disabled)
    before its timer has fired as often as a full period allows never lets the
    timer go, whatever else is called in between. *)
Theorem wdt_fed_never_expires s os s'
  (Hq : queue s <> 0) (Hp : pending s = true) (Ht : ticks s = default_ticks s)
  (Hn : 0 < default_ticks s < 2 ^ 31)
  (Hfed : fed (default_ticks s) (default_ticks s) os = true) (Hs : steps s os s') :
  pending s' = true.
Proof.
  destruct (steps_covered s os s' (default_ticks s) Hs (default_ticks s) Hn) as (l & _ & Hp' & _);
    [|exact Hfed|exact Hp'].
  repeat split; try assumption; lia.
Qed.

(** *** Expiry *)

Fixpoint fires (k : nat) (s : state P) : option (state P) :=
  match k with
  | O => Some s
  | S k' => match rdc321x_wdt_trigger 0 s with None => None | Some s => fires k' s end
  end.

(** Reads of the register return. *)
Definition reads_return (reg : Z) : Prop :=
  forall v0 p, exists r, read_config_dword (P := P) reg v0 p = Some r.

Lemma trigger_returns v0 s : reads_return (base_reg s) -> exists s', rdc321x_wdt_trigger v0 s = Some s'.
Proof.
  intros Hr. unfold rdc321x_wdt_trigger. destruct (Hr v0 (sb_pdev s)) as [[[e v] p] ->].
  destruct (write_config_dword _ _ p). case_match; eauto.
Qed.

Lemma fires_count k : forall s, reads_return (base_reg s) -> queue s <> 0 -> running s <> 0 ->
  pending s = true -> Z.of_nat k <= ticks s < 2 ^ 31 -> 0 < ticks s ->
  exists s', fires k s = Some s' /\ ticks s' = ticks s - Z.of_nat k /\
    pending s' = (Z.of_nat k <? ticks s).
Proof.
  induction k as [|k IH]; intros s Hr Hq Hrun Hp Hk Ht; cbn [fires].
  - exists s. split; [reflexivity|]. split; [lia|]. rewrite Hp. symmetry. apply Z.ltb_lt. lia.
  - destruct (trigger_returns 0 s Hr) as [s1 E]. rewrite E.
    apply trigger_eq in E as (Et & R1 & Q1 & _ & B1 & P1 & _).
    destruct (Z.eqb_spec (running s) 0); [contradiction|]. cbn [negb] in Et.
    assert (Hs32 : s32 (ticks s - 1) = ticks s - 1).
    { unfold s32. rewrite Z.mod_small by lia. cbv zeta. zcases. }
    rewrite Hs32 in Et. destruct (Z.eqb_spec (queue s) 0); [contradiction|]. cbn [negb andb] in P1.
    destruct (Z.eq_dec (ticks s) 1) as [E1|E1].
    + assert (k = 0%nat) as -> by lia. exists s1. cbn [fires]. split; [reflexivity|]. split; [lia|].
      rewrite P1, Et, E1. reflexivity.
    + assert (Hp1 : pending s1 = true) by (rewrite P1, negb_true_iff; apply Z.eqb_neq; lia).
      destruct (IH s1) as (s' & E' & T' & P'); [rewrite B1; exact Hr|congruence|congruence|exact Hp1|lia|lia|].
      exists s'. split; [exact E'|]. split; [lia|]. rewrite P', Et.
      destruct (Z.ltb_spec (Z.of_nat k) (ticks s - 1)), (Z.ltb_spec (Z.of_nat (S k)) (ticks s)); lia || reflexivity.
Qed.

(** An enabled watchdog nobody feeds is kept alive for exactly the firings
    its counter allows: the timer is queued again after each of them but the
    last, and after the last it is not. *)
Theorem wdt_unfed_expires s
  (Hr : reads_return (base_reg s)) (Hq : queue s <> 0) (Hrun : running s <> 0)
  (Hp : pending s = true) (Ht : 0 < ticks s < 2 ^ 31) :
  forall k, (k <= Z.to_nat (ticks s))%nat ->
    exists s', fires k s = Some s' /\ pending s' = (k <? Z.to_nat (ticks s))%nat.
Proof.
  intros k Hk. destruct (fires_count k s Hr Hq Hrun Hp ltac:(lia) ltac:(lia)) as (s' & E & _ & P').
  exists s'. split; [exact E|]. rewrite P'.
  destruct (Z.ltb_spec (Z.of_nat k) (ticks s)), (Nat.ltb_spec k (Z.to_nat (ticks s))); lia || reflexivity.
Qed.

Lemma step_expired s o s' : step s o s' -> queue s <> 0 -> pending s = false -> pending s' = false.
Proof.
  intros Hs Hq Hp. destruct Hs as [s v0 s' Hf E|s|s|s cmd r out s' E|s count].
  - congruence.
  - unfold rdc321x_wdt_open. destruct (inuse s); exact Hp.
  - exact Hp.
  - destruct cmd; unfold rdc321x_wdt_ioctl in E; repeat case_match; simplify_eq; try exact Hp.
    + rewrite start_queued by exact Hq. exact Hp.
    + unfold rdc321x_wdt_stop in *. simplify_eq. exact Hp.
  - unfold rdc321x_wdt_write. destruct (count =? 0); exact Hp.
Qed.

(** Once expired, the watchdog cannot be revived: whatever the processes
    call, the timer is never queued again and the hardware is left to reset
    the board. *)
Theorem wdt_expired_is_final s os s'
  (Hq : queue s <> 0) (Hp : pending s = false) (Hs : steps s os s') : pending s' = false.
Proof.
  induction Hs as [s|s o s1 os s2 Hs Hss IH]; [exact Hp|].
  apply IH; [|exact (step_expired _ _ _ Hs Hq Hp)].
  rewrite (step_queue _ _ _ Hs Hq). exact Hq.
Qed.

(** Removing the driver, whatever was called since it was bound, comes to
    an end (at once, or after the pending timer has fired once more), and no
    timer is left pending behind it. *)
Theorem wdt_remove_safe rs registered s0 s1 os s
  (Hprobe : rdc321x_wdt_probe true rs registered s0 = (0, s1)) (Hreg : 0 <= registered)
  (Hs : steps s1 os s) :
  let '(waits, t) := rdc321x_wdt_remove s in
  if waits then
    (exists u, wait_for_completion t = Some u /\ pending u = false) \/
    (pending t = true /\ forall v0 t', rdc321x_wdt_trigger v0 t = Some t' ->
       exists u, wait_for_completion t' = Some u /\ pending u = false)
  else pending t = false.
Proof.
  assert (Hi : inv s).
  { apply (steps_inv s1 os s Hs). unfold rdc321x_wdt_probe in Hprobe. cbn [negb] in Hprobe.
    case_match; [|simplify_eq]. destruct (Z.ltb_spec registered 0); [lia|].
    case_match; simplify_eq. split; reflexivity. }
  unfold inv in Hi. unfold rdc321x_wdt_remove. destruct (queue s =? 0); cbn [negb]; [tauto|].
  destruct Hi as [[Hp Hz]|[Hp Hz]].
  - right. split; [exact Hp|]. intros v0 t' E.
    apply trigger_eq in E as (_ & _ & _ & _ & _ & P' & S'). cbn in P'. rewrite P' in S'.
    unfold wait_for_completion. rewrite S'. eexists. split; [reflexivity|exact P'].
  - left. unfold wait_for_completion. cbn [stop]. rewrite Hz. eexists. split; [reflexivity|exact Hp].
Qed.

End Spec.

(** A watchdog just bound to the emulated southbridge and enabled. *)
Definition bound : state RdcGpio.PCIGPIOState :=
  (rdc321x_wdt_probe true Southbridge.rdc321x_wdt_resource 0
     (loaded (RdcGpio.rdc_gpio_pci_init true true [] []))).2.

Definition enabled : state RdcGpio.PCIGPIOState := rdc321x_wdt_start bound.

Lemma bound_probe :
  rdc321x_wdt_probe true Southbridge.rdc321x_wdt_resource 0
    (loaded (RdcGpio.rdc_gpio_pci_init true true [] [])) = (0, bound).
Proof. reflexivity. Qed.

Lemma wdt_reads_return : reads_return (P := RdcGpio.PCIGPIOState) 0x44.
Proof. intros v0 p. eexists. reflexivity. Qed.

Lemma wdt_fed_never_expires_witness :
  exists s', steps enabled [Open; Fire 0; Fire 0; Write 1; Fire 0; Ioctl KEEPALIVE; Release] s' /\
    pending s' = true.
Proof.
  assert (Hs : exists s', steps enabled [Open; Fire 0; Fire 0; Write 1; Fire 0; Ioctl KEEPALIVE; Release] s').
  { eexists. repeat (eapply steps_cons; [econstructor; reflexivity|]). apply steps_nil. }
  destruct Hs as [s' Hs]. exists s'. split; [exact Hs|].
  eapply (wdt_fed_never_expires enabled _ s'); [discriminate|reflexivity|reflexivity| | |exact Hs];
    [change (default_ticks enabled) with 1000; lia|].
  reflexivity.
Defined.

Lemma wdt_unfed_expires_witness :
  exists s', fires 1000 enabled = Some s' /\ pending s' = false.
Proof.
  apply (wdt_unfed_expires enabled wdt_reads_return) with (k := 1000%nat);
    change (ticks enabled) with 1000; try lia; try discriminate; reflexivity.
Defined.

Definition expired : state RdcGpio.PCIGPIOState :=
  mkState 0 1 1 1000 false 0x44 false 1 (RdcGpio.rdc_gpio_pci_init true true [] []).

Lemma wdt_expired_is_final_witness :
  exists s', steps expired [Open; Ioctl (SETOPTIONS true WDIOS_ENABLECARD); Write 1] s' /\
    pending s' = false.
Proof.
  assert (Hs : exists s', steps expired [Open; Ioctl (SETOPTIONS true WDIOS_ENABLECARD); Write 1] s').
  { eexists. repeat (eapply steps_cons; [econstructor; reflexivity|]). apply steps_nil. }
  destruct Hs as [s' Hs]. exists s'. split; [exact Hs|].
  apply (wdt_expired_is_final expired _ s') in Hs; [exact Hs|discriminate|reflexivity].
Defined.

Lemma wdt_remove_safe_witness :
  exists s, steps bound [Open; Ioctl (SETOPTIONS true WDIOS_ENABLECARD); Fire 0] s /\
    (rdc321x_wdt_remove s).1 = true /\
    forall t', rdc321x_wdt_trigger 0 (rdc321x_wdt_remove s).2 = Some t' ->
      exists u, wait_for_completion t' = Some u /\ pending u = false.
Proof.
  eexists. split.
  { repeat (eapply steps_cons; [econstructor; reflexivity|]). apply steps_nil. }
  split; [reflexivity|].
  intros t' E.
  match type of E with rdc321x_wdt_trigger 0 (rdc321x_wdt_remove ?s).2 = _ =>
    assert (Hss : steps bound [Open; Ioctl (SETOPTIONS true WDIOS_ENABLECARD); Fire 0] s)
      by (repeat (eapply steps_cons; [econstructor; reflexivity|]); apply steps_nil);
    pose proof (wdt_remove_safe _ _ _ _ _ s bound_probe (Z.le_refl 0) Hss) as Hw
  end.
  destruct Hw as [[u [Hu _]]|[_ Hw]]; [discriminate Hu|exact (Hw 0 t' E)].
Defined.

End Wdt.
