(* ===== verification/Crc32.v ===== *)
(** The kernel's CRC-32 (lib/crc32.c and the table generator
    lib/gen_crc32table.c), little-endian variant on a little-endian processor:
    the table-driven routine that takes four bytes at a time computes the same
    value as the bit-by-bit routine, whatever the alignment of the buffer. *)
From Stdlib Require Import ZArith Lia.
From stdpp Require Import base list numbers.
From S2P Require Import Prelude.

Module Crc32.

Open Scope Z_scope.

Definition CRCPOLY_LE : Z := 0xedb88320.
Definition CRC_LE_BITS : nat := 8.
Definition LE_TABLE_SIZE : nat := 256.

(** [(crc >> 1) ^ ((crc & 1) ? CRCPOLY_LE : 0)] *)
Definition crc_bit (crc : Z) : Z :=
  Z.lxor (Z.shiftr crc 1) (if anyset crc 1 then CRCPOLY_LE else 0).

(** ** One bit at a time *)

Fixpoint bit_loop (i : nat) (crc : Z) : Z :=
  match i with O => crc | S i' => bit_loop i' (crc_bit crc) end.

(** The variant for [CRC_LE_BITS == 1]. *)
Definition crc32_le_bits (crc : Z) (p : list Z) : Z :=
  foldl (fun crc b => bit_loop 8 (Z.lxor crc b)) crc p.

(** ** The table generator *)

(** [for (j = 0; j < LE_TABLE_SIZE; j += 2 * i)] *)
Fixpoint init_inner (fuel i j : nat) (crc : Z) (t : list Z) : list Z :=
  match fuel with
  | O => t
  | S fuel' =>
      if (j <? LE_TABLE_SIZE)%nat then
        init_inner fuel' i (j + 2 * i) crc (<[(i + j)%nat := Z.lxor crc (nth j t 0)]> t)
      else t
  end.

(** [for (i = 1 << (CRC_LE_BITS - 1); i; i >>= 1)] *)
Fixpoint init_outer (fuel i : nat) (crc : Z) (t : list Z) : list Z :=
  match fuel with
  | O => t
  | S fuel' =>
      if (i =? 0)%nat then t
      else
        let crc := crc_bit crc in
        init_outer fuel' (i / 2) crc (init_inner LE_TABLE_SIZE i 0 crc t)
  end.

(** [tab[0][crc & 0xff] ^ (crc >> 8)] *)
Definition table_step (t0 : list Z) (crc : Z) : Z :=
  Z.lxor (nth (Z.to_nat (Z.land crc 0xff)) t0 0) (Z.shiftr crc 8).

(** The static table starts zeroed. *)
Definition crc32init_le : list (list Z) :=
  let t0 := init_outer (S CRC_LE_BITS) (2 ^ (CRC_LE_BITS - 1)) 1 (repeat 0 LE_TABLE_SIZE) in
  let t1 := map (table_step t0) t0 in
  let t2 := map (table_step t0) t1 in
  let t3 := map (table_step t0) t2 in
  [t0; t1; t2; t3].

(** ** Four bytes at a time *)

Definition tab_entry (tab : list (list Z)) (k : nat) (i : Z) : Z := nth (Z.to_nat i) (nth k tab []) 0.

Definition DO_CRC (tab : list (list Z)) (crc x : Z) : Z :=
  Z.lxor (tab_entry tab 0 (Z.land (Z.lxor crc x) 255)) (Z.shiftr crc 8).

Definition DO_CRC4 (tab : list (list Z)) (crc : Z) : Z :=
  Z.lxor (Z.lxor (Z.lxor (tab_entry tab 3 (Z.land crc 255))
    (tab_entry tab 2 (Z.land (Z.shiftr crc 8) 255)))
    (tab_entry tab 1 (Z.land (Z.shiftr crc 16) 255)))
    (tab_entry tab 0 (Z.land (Z.shiftr crc 24) 255)).

(** [do ... while ((--len) && ((long)buf)&3)], from an address that is [a]
    modulo 4. *)
Fixpoint align_loop (tab : list (list Z)) (a crc : Z) (buf : list Z) : Z * list Z :=
  match buf with
  | [] => (crc, [])
  | b :: buf' =>
      let crc := DO_CRC tab crc b in
      let a := (a + 1) mod 4 in
      if negb (length buf' =? 0)%nat && negb (a =? 0) then align_loop tab a crc buf'
      else (crc, buf')
  end.

Definition word (buf : list Z) : Z :=
  nth 0 buf 0 + 0x100 * nth 1 buf 0 + 0x10000 * nth 2 buf 0 + 0x1000000 * nth 3 buf 0.

Fixpoint word_loop (tab : list (list Z)) (len : nat) (crc : Z) (buf : list Z) : Z * list Z :=
  match len with
  | O => (crc, buf)
  | S len' => word_loop tab len' (DO_CRC4 tab (Z.lxor crc (word buf))) (drop 4 buf)
  end.

Definition crc32_body (a crc : Z) (buf : list Z) (tab : list (list Z)) : Z :=
  let '(crc, buf) :=
    if negb (a =? 0) && negb (length buf =? 0)%nat then align_loop tab a crc buf else (crc, buf) in
  let rem_len := Nat.modulo (length buf) 4 in
  let '(crc, buf) := word_loop tab (length buf / 4) crc buf in
  foldl (DO_CRC tab) crc (take rem_len buf).

(** [a] is the buffer's address modulo 4. *)
Definition crc32_le (a crc : Z) (p : list Z) : Z := crc32_body a crc p crc32init_le.

Definition ether_crc_le (a : Z) (data : list Z) : Z := crc32_le a 0xffffffff data.

(** ** The bit step is linear *)

Lemma crc_bit_lxor x y : crc_bit (Z.lxor x y) = Z.lxor (crc_bit x) (crc_bit y).
Proof.
  assert (B : forall c, anyset c 1 = Z.testbit c 0).
  { intros c. unfold anyset. change 1 with (2 ^ 0) at 1. rewrite land_bit by lia.
    destruct (Z.testbit c 0); reflexivity. }
  unfold crc_bit. rewrite !B, Z.lxor_spec, Z.shiftr_lxor.
  destruct (Z.testbit x 0), (Z.testbit y 0); cbn [xorb];
    apply Z.bits_inj'; intros n Hn; rewrite !Z.lxor_spec, ?Z.bits_0;
    destruct (Z.testbit (Z.shiftr x 1) n), (Z.testbit (Z.shiftr y 1) n), (Z.testbit CRCPOLY_LE n);
    reflexivity.
Qed.

Lemma bit_loop_lxor n : forall x y,
  bit_loop n (Z.lxor x y) = Z.lxor (bit_loop n x) (bit_loop n y).
Proof.
  induction n as [|n IH]; intros x y; [reflexivity|]. cbn [bit_loop]. rewrite crc_bit_lxor. apply IH.
Qed.

Lemma bit_loop_add m n : forall c, bit_loop (m + n) c = bit_loop n (bit_loop m c).
Proof. induction m as [|m IH]; intros c; [reflexivity|]. cbn [bit_loop Nat.add]. apply IH. Qed.

(** Bits that are shifted out before they reach the end do not meet the
    polynomial. *)
Lemma bit_loop_shiftl n : forall c, bit_loop n (Z.shiftl c (Z.of_nat n)) = c.
Proof.
  induction n as [|n IH]; intros c; [apply Z.shiftl_0_r|]. cbn [bit_loop].
  replace (crc_bit (Z.shiftl c (Z.of_nat (S n)))) with (Z.shiftl c (Z.of_nat n)); [apply IH|].
  unfold crc_bit. replace (anyset (Z.shiftl c (Z.of_nat (S n))) 1) with false.
  - rewrite Z.lxor_0_r, Z.shiftr_shiftl_l by lia. f_equal. lia.
  - symmetry. unfold anyset. change 1 with (2 ^ 0) at 1. rewrite land_bit by lia.
    rewrite Z.shiftl_spec_low by lia. reflexivity.
Qed.

Lemma split_byte c : c = Z.lxor (Z.land c 255) (Z.shiftl (Z.shiftr c 8) 8).
Proof.
  apply Z.bits_inj'. intros n Hn. change 255 with (Z.ones 8).
  rewrite Z.lxor_spec, Z.land_spec.
  destruct (Z.lt_ge_cases n 8).
  - rewrite Z.ones_spec_low, Z.shiftl_spec_low by lia. rewrite andb_true_r, xorb_false_r. reflexivity.
  - rewrite Z.ones_spec_high, Z.shiftl_spec_high by lia. rewrite andb_false_r.
    rewrite Z.shiftr_spec by lia. cbn [xorb]. f_equal. lia.
Qed.

(** ** The table-driven routine, for any linear byte step *)

Definition is_byte (b : Z) : Prop := 0 <= b < 256.

(** [B] takes in the byte at the low end: one byte of the message after another. *)
Definition fold_bytes (B : Z -> Z) (crc : Z) (p : list Z) : Z := foldl (fun crc b => B (Z.lxor crc b)) crc p.

Lemma land_255 c : 0 <= Z.land c 255 < 256.
Proof. pose proof (land_le_r c 255 ltac:(lia)). lia. Qed.

Lemma lxor_range a b k : 0 <= k -> 0 <= a < 2 ^ k -> 0 <= b < 2 ^ k -> 0 <= Z.lxor a b < 2 ^ k.
Proof.
  intros Hk Ha Hb. assert (0 <= Z.lxor a b) by (apply Z.lxor_nonneg; lia). split; [assumption|].
  destruct (Z.eq_dec (Z.lxor a b) 0) as [->|]; [lia|]. apply Z.log2_lt_pow2; [lia|].
  pose proof (Z.log2_lxor a b ltac:(lia) ltac:(lia)).
  assert (L : forall x, 0 <= x < 2 ^ k -> Z.log2 x < k \/ x = 0).
  { intros x Hx. destruct (Z.eq_dec x 0); [auto|left; apply Z.log2_lt_pow2; lia]. }
  destruct (L a Ha) as [La | La], (L b Hb) as [Lb | Lb]; [lia| | |]; subst;
    rewrite ?Z.lxor_0_l, ?Z.lxor_0_r in *; lia.
Qed.

Lemma shiftr_range c m n : 0 <= m -> 0 <= n -> 0 <= c < 2 ^ (m + n) -> 0 <= Z.shiftr c m < 2 ^ n.
Proof.
  intros Hm Hn Hc. rewrite Z.pow_add_r in Hc by lia. rewrite Z.shiftr_div_pow2 by lia.
  split; [apply Z.div_pos; lia|apply Z.div_lt_upper_bound; lia].
Qed.

Lemma shiftl_range c m n : 0 <= m -> 0 <= n -> 0 <= c < 2 ^ n -> 0 <= Z.shiftl c m < 2 ^ (n + m).
Proof. intros Hm Hn Hc. rewrite Z.shiftl_mul_pow2, Z.pow_add_r by lia. nia. Qed.

Lemma add_shiftl_lxor a b k : 0 <= k -> 0 <= a < 2 ^ k -> a + 2 ^ k * b = Z.lxor a (Z.shiftl b k).
Proof.
  intros Hk Ha. rewrite <- Z.add_nocarry_lxor; [rewrite Z.shiftl_mul_pow2 by lia; lia|].
  apply Z.bits_inj'. intros n Hn. rewrite Z.land_spec, Z.bits_0.
  destruct (Z.lt_ge_cases n k); [rewrite Z.shiftl_spec_low by lia; apply andb_false_r|].
  rewrite <- (Z.mod_small a (2 ^ k)) by lia. rewrite Z.mod_pow2_bits_high by lia. reflexivity.
Qed.

(** The four bytes of a word, and the word of four bytes. *)
Definition join4 (b0 b1 b2 b3 : Z) : Z :=
  Z.lxor (Z.lxor (Z.lxor b0 (Z.shiftl b1 8)) (Z.shiftl b2 16)) (Z.shiftl b3 24).

Lemma word_join b0 b1 b2 b3 p : is_byte b0 -> is_byte b1 -> is_byte b2 ->
  word (b0 :: b1 :: b2 :: b3 :: p) = join4 b0 b1 b2 b3.
Proof.
  unfold word, is_byte, join4. cbn [nth]. intros H0 H1 H2.
  rewrite <- (add_shiftl_lxor b0 b1 8), <- (add_shiftl_lxor (b0 + 2 ^ 8 * b1) b2 16),
    <- (add_shiftl_lxor (b0 + 2 ^ 8 * b1 + 2 ^ 16 * b2) b3 24) by lia. reflexivity.
Qed.

Lemma split_word c : 0 <= c < 2 ^ 32 ->
  c = join4 (Z.land c 255) (Z.land (Z.shiftr c 8) 255) (Z.land (Z.shiftr c 16) 255) (Z.land (Z.shiftr c 24) 255).
Proof.
  intros Hc.
  assert (E3 : Z.land (Z.shiftr c 24) 255 = Z.shiftr c 24).
  { change 255 with (Z.ones 8). rewrite Z.land_ones by lia. apply Z.mod_small, shiftr_range; lia. }
  unfold join4. rewrite E3. rewrite (split_byte c) at 1. rewrite (split_byte (Z.shiftr c 8)) at 1.
  rewrite (split_byte (Z.shiftr (Z.shiftr c 8) 8)) at 1.
  rewrite !Z.shiftr_shiftr, !Z.shiftl_lxor, !Z.shiftl_shiftl by lia.
  cbn [Z.add Pos.add Pos.succ]. rewrite <- !Z.lxor_assoc. reflexivity.
Qed.

Lemma word_range b0 b1 b2 b3 p : is_byte b0 -> is_byte b1 -> is_byte b2 -> is_byte b3 ->
  0 <= word (b0 :: b1 :: b2 :: b3 :: p) < 2 ^ 32.
Proof. unfold word, is_byte. cbn [nth]. lia. Qed.

Section body.

Context (tab : list (list Z)) (B : Z -> Z).
Context (B_lxor : forall x y, 0 <= x < 2 ^ 32 -> 0 <= y < 2 ^ 32 -> B (Z.lxor x y) = Z.lxor (B x) (B y)).
Context (B_shiftl : forall c, 0 <= c < 2 ^ 24 -> B (Z.shiftl c 8) = c).
Context (B_range : forall c, 0 <= c < 2 ^ 32 -> 0 <= B c < 2 ^ 32).
(** Table [k] holds the effect of [k + 1] steps on a byte. *)
Context (tab_ok : forall k i, (k < 4)%nat -> is_byte i -> tab_entry tab k i = Nat.iter (S k) B i).

Lemma iter_range n c : 0 <= c < 2 ^ 32 -> 0 <= Nat.iter n B c < 2 ^ 32.
Proof. intros Hc. induction n as [|n IH]; [exact Hc|apply B_range, IH]. Qed.

Lemma iter_lxor n x y : 0 <= x < 2 ^ 32 -> 0 <= y < 2 ^ 32 ->
  Nat.iter n B (Z.lxor x y) = Z.lxor (Nat.iter n B x) (Nat.iter n B y).
Proof.
  intros Hx Hy. induction n as [|n IH]; [reflexivity|].
  change (B (Nat.iter n B (Z.lxor x y)) = Z.lxor (B (Nat.iter n B x)) (B (Nat.iter n B y))).
  rewrite IH. apply B_lxor; apply iter_range; assumption.
Qed.

(** Bytes above the lowest only move down. *)
Lemma iter_up b : is_byte b ->
  Nat.iter 4 B (Z.shiftl b 8) = Nat.iter 3 B b /\ Nat.iter 4 B (Z.shiftl b 16) = Nat.iter 2 B b /\
  Nat.iter 4 B (Z.shiftl b 24) = Nat.iter 1 B b.
Proof.
  unfold is_byte. intros Hb. pose proof (shiftl_range b 8 8 ltac:(lia) ltac:(lia) ltac:(lia)).
  pose proof (shiftl_range b 16 8 ltac:(lia) ltac:(lia) ltac:(lia)).
  change (Z.shiftl b 16) with (Z.shiftl b (8 + 8)). change (Z.shiftl b 24) with (Z.shiftl b (16 + 8)).
  rewrite <- !Z.shiftl_shiftl by lia. cbn [Nat.iter nat_rect]. rewrite !B_shiftl by (cbn in *; lia).
  change (Z.shiftl b 16) with (Z.shiftl b (8 + 8)). rewrite <- !Z.shiftl_shiftl by lia.
  rewrite !B_shiftl by (cbn in *; lia). auto.
Qed.

Lemma iter_join b0 b1 b2 b3 : is_byte b0 -> is_byte b1 -> is_byte b2 -> is_byte b3 ->
  Nat.iter 4 B (join4 b0 b1 b2 b3) =
    Z.lxor (Z.lxor (Z.lxor (Nat.iter 4 B b0) (Nat.iter 3 B b1)) (Nat.iter 2 B b2)) (Nat.iter 1 B b3).
Proof.
  intros H0 H1 H2 H3. destruct (iter_up b1 H1) as (E1 & _), (iter_up b2 H2) as (_ & E2 & _), (iter_up b3 H3) as (_ & _ & E3).
  unfold is_byte in *. unfold join4.
  pose proof (shiftl_range b1 8 8 ltac:(lia) ltac:(lia) ltac:(lia)).
  pose proof (shiftl_range b2 16 8 ltac:(lia) ltac:(lia) ltac:(lia)).
  pose proof (shiftl_range b3 24 8 ltac:(lia) ltac:(lia) ltac:(lia)).
  rewrite !iter_lxor by (repeat apply lxor_range; cbn in *; lia). rewrite E1, E2, E3. reflexivity.
Qed.

Lemma DO_CRC_byte crc x : 0 <= crc < 2 ^ 32 -> is_byte x -> DO_CRC tab crc x = B (Z.lxor crc x).
Proof.
  unfold is_byte. intros Hc Hx. unfold DO_CRC. pose proof (land_255 (Z.lxor crc x)).
  rewrite tab_ok by (lia || assumption). pose proof (lxor_range crc x 32 ltac:(lia) ltac:(lia) ltac:(lia)) as Hr.
  pose proof (shiftr_range (Z.lxor crc x) 8 24 ltac:(lia) ltac:(lia) Hr).
  rewrite (split_byte (Z.lxor crc x)) at 2. rewrite B_lxor by (try apply (shiftl_range _ 8 24); lia).
  rewrite B_shiftl by lia. cbn [Nat.iter nat_rect]. f_equal.
  rewrite Z.shiftr_lxor. replace (Z.shiftr x 8) with 0; [rewrite Z.lxor_0_r; reflexivity|].
  symmetry. rewrite Z.shiftr_div_pow2 by lia. apply Z.div_small. lia.
Qed.

Lemma DO_CRC4_word c : 0 <= c < 2 ^ 32 -> DO_CRC4 tab c = Nat.iter 4 B c.
Proof.
  intros Hc. unfold DO_CRC4. rewrite (split_word c Hc) at 5. rewrite iter_join by apply land_255.
  rewrite !tab_ok by (lia || apply land_255). reflexivity.
Qed.

Lemma four_bytes crc b0 b1 b2 b3 p : 0 <= crc < 2 ^ 32 -> is_byte b0 -> is_byte b1 -> is_byte b2 -> is_byte b3 ->
  Nat.iter 4 B (Z.lxor crc (word (b0 :: b1 :: b2 :: b3 :: p))) = fold_bytes B crc [b0; b1; b2; b3].
Proof.
  intros Hc H0 H1 H2 H3. pose proof (word_range b0 b1 b2 b3 p H0 H1 H2 H3) as Hw.
  rewrite iter_lxor by assumption. rewrite word_join, iter_join by assumption.
  unfold fold_bytes, is_byte in *. cbn [foldl].
  rewrite !B_lxor by (repeat first [apply lxor_range|apply B_range]; lia).
  cbn [Nat.iter nat_rect]. rewrite <- !Z.lxor_assoc. reflexivity.
Qed.

Lemma fold_range p : forall crc, Forall is_byte p -> 0 <= crc < 2 ^ 32 -> 0 <= fold_bytes B crc p < 2 ^ 32.
Proof.
  induction p as [|b p IH]; intros crc Hp Hc; [exact Hc|]. apply Forall_cons_1 in Hp as [Hb Hp].
  apply (IH _ Hp). apply B_range, lxor_range; unfold is_byte in Hb; lia.
Qed.

Lemma fold_app crc p q : fold_bytes B crc (p ++ q) = fold_bytes B (fold_bytes B crc p) q.
Proof. unfold fold_bytes. apply foldl_app. Qed.

Lemma step_range crc b : 0 <= crc < 2 ^ 32 -> is_byte b -> 0 <= B (Z.lxor crc b) < 2 ^ 32.
Proof. unfold is_byte. intros Hc Hb. apply B_range, lxor_range; lia. Qed.

Lemma tail_loop p : forall crc, Forall is_byte p -> 0 <= crc < 2 ^ 32 -> foldl (DO_CRC tab) crc p = fold_bytes B crc p.
Proof.
  induction p as [|b p IH]; intros crc Hp Hc; [reflexivity|]. apply Forall_cons_1 in Hp as [Hb Hp].
  cbn [foldl]. rewrite DO_CRC_byte by assumption. apply (IH _ Hp), step_range; assumption.
Qed.

Lemma word_loop_bytes n : forall crc p, Forall is_byte p -> (4 * n <= length p)%nat -> 0 <= crc < 2 ^ 32 ->
  word_loop tab n crc p = (fold_bytes B crc (take (4 * n) p), drop (4 * n) p).
Proof.
  induction n as [|n IH]; intros crc p Hp Hn Hc; [reflexivity|].
  destruct p as [|b0 [|b1 [|b2 [|b3 p]]]]; cbn [length] in Hn; try lia.
  pose proof Hp as Hall. repeat (apply Forall_cons_1 in Hall as [? Hall]).
  cbn [word_loop]. change (drop 4 (b0 :: b1 :: b2 :: b3 :: p)) with p.
  rewrite DO_CRC4_word, four_bytes by (try assumption; apply lxor_range; try lia; apply word_range; assumption).
  rewrite IH; [|exact Hall|lia|].
  - replace (4 * S n)%nat with (S (S (S (S (4 * n))))) by lia.
    change (take (S (S (S (S (4 * n))))) (b0 :: b1 :: b2 :: b3 :: p)) with ([b0; b1; b2; b3] ++ take (4 * n) p).
    rewrite fold_app. reflexivity.
  - apply fold_range; [|exact Hc]. repeat (apply Forall_cons_2; [assumption|]). apply Forall_nil_2.
Qed.

Lemma align_loop_bytes p : forall a crc, Forall is_byte p -> 0 <= crc < 2 ^ 32 ->
  exists n, align_loop tab a crc p = (fold_bytes B crc (take n p), drop n p).
Proof.
  induction p as [|b p IH]; intros a crc Hp Hc; [exists 0%nat; reflexivity|].
  apply Forall_cons_1 in Hp as [Hb Hp]. cbn [align_loop]. rewrite DO_CRC_byte by assumption.
  case_match; [|exists 1%nat; reflexivity].
  destruct (IH ((a + 1) mod 4) (B (Z.lxor crc b)) Hp (step_range crc b Hc Hb)) as [n ->]. exists (S n). reflexivity.
Qed.

Lemma crc32_body_bytes a crc p : 0 <= crc < 2 ^ 32 -> Forall is_byte p -> crc32_body a crc p tab = fold_bytes B crc p.
Proof.
  intros Hcrc Hp. unfold crc32_body.
  assert (Ha : exists n, (if negb (a =? 0) && negb (length p =? 0)%nat then align_loop tab a crc p else (crc, p)) =
                         (fold_bytes B crc (take n p), drop n p)).
  { case_match; [apply align_loop_bytes; assumption|exists 0%nat; reflexivity]. }
  destruct Ha as [n ->].
  assert (Hc1 : 0 <= fold_bytes B crc (take n p) < 2 ^ 32) by (apply fold_range; [apply Forall_take, Hp|exact Hcrc]).
  rewrite word_loop_bytes; [|apply Forall_drop, Hp| |exact Hc1].
  - set (q := drop n p). rewrite tail_loop;
      [|apply Forall_take, Forall_drop, Forall_drop, Hp|apply fold_range; [apply Forall_take, Forall_drop, Hp|exact Hc1]].
    rewrite <- !fold_app. f_equal.
    transitivity (take n p ++ q); [|apply take_drop]. rewrite <- ?app_assoc. f_equal.
    etransitivity; [|apply (take_drop (4 * (length q / 4)) q)]. f_equal. apply take_ge. rewrite length_drop.
    pose proof (Nat.div_mod_eq (length q) 4). lia.
  - pose proof (Nat.div_mod_eq (length (drop n p)) 4). lia.
Qed.

End body.

(** ** The little-endian step *)

Lemma crc32init_le_entry k i : (k < 4)%nat -> is_byte i -> tab_entry crc32init_le k i = Nat.iter (S k) (bit_loop 8) i.
Proof.
  intros Hk Hi.
  pose (P j := forallb (fun k => tab_entry crc32init_le k j =? Nat.iter (S k) (bit_loop 8) j) (seq 0 4)).
  assert (Hall : P i = true) by (apply (forall_range P 256); [vm_compute; reflexivity|exact Hi]).
  unfold P in Hall. rewrite forallb_forall in Hall. apply Z.eqb_eq, Hall, in_seq. lia.
Qed.

Lemma crc_bit_range c : 0 <= c < 2 ^ 32 -> 0 <= crc_bit c < 2 ^ 32.
Proof.
  intros Hc. unfold crc_bit. apply lxor_range; [lia| |unfold CRCPOLY_LE; case_match; lia].
  rewrite Z.shiftr_div_pow2 by lia. Z.div_mod_to_equations; lia.
Qed.

Lemma bit_loop_range n : forall c, 0 <= c < 2 ^ 32 -> 0 <= bit_loop n c < 2 ^ 32.
Proof. induction n as [|n IH]; intros c Hc; [exact Hc|]. apply IH, crc_bit_range, Hc. Qed.

Lemma crc32_le_fold a crc p : 0 <= crc < 2 ^ 32 -> Forall is_byte p -> crc32_le a crc p = crc32_le_bits crc p.
Proof.
  apply crc32_body_bytes.
  - intros x y _ _. apply bit_loop_lxor.
  - intros c _. apply (bit_loop_shiftl 8).
  - apply bit_loop_range.
  - apply crc32init_le_entry.
Qed.

(** C26: the table-driven CRC-32, with the tables the generator builds and
    whatever the alignment of the buffer, is the bit-by-bit CRC-32. *)
Theorem crc32_le_is_bitwise a crc p (Hcrc : 0 <= crc < 2 ^ 32) (Hp : Forall is_byte p) :
  crc32_le a crc p = crc32_le_bits crc p.
Proof. apply crc32_le_fold; assumption. Qed.

(** The check value of CRC-32. *)
Lemma crc32_le_is_bitwise_witness :
  crc32_le 3 0xffffffff [49; 50; 51; 52; 53; 54; 55; 56; 57] = Z.lxor 0xcbf43926 0xffffffff.
Proof.
  rewrite crc32_le_is_bitwise; [vm_compute; reflexivity|lia|].
  repeat (apply Forall_cons_2; [unfold is_byte; lia|]). apply Forall_nil_2.
Defined.

End Crc32.
