(* ===== verification/Crc32Be.v ===== *)
(** The rest of the kernel's CRC-32: the big-endian variant of lib/crc32.c with
    its tables (lib/gen_crc32table.c), bit reversal (lib/bitrev.c), and the unit
    test at the end of lib/crc32.c, whose checks hold for every input. *)
From Stdlib Require Import ZArith Lia.
From stdpp Require Import base list numbers.
From S2P Require Import Prelude Crc32.

Module Crc32Be.
Import Crc32.

Open Scope Z_scope.

Definition CRCPOLY_BE : Z := 0x04c11db7.
Definition CRC_BE_BITS : nat := 8.
Definition BE_TABLE_SIZE : nat := 256.

(** [(crc << 1) ^ ((crc & 0x80000000) ? CRCPOLY_BE : 0)] *)
Definition crc_bit_be (crc : Z) : Z :=
  Z.lxor (u32 (Z.shiftl crc 1)) (if anyset crc 0x80000000 then CRCPOLY_BE else 0).

(** ** One bit at a time *)

Fixpoint bit_loop_be (i : nat) (crc : Z) : Z :=
  match i with O => crc | S i' => bit_loop_be i' (crc_bit_be crc) end.

(** The variant for [CRC_BE_BITS == 1]. *)
Definition crc32_be_bits (crc : Z) (p : list Z) : Z :=
  foldl (fun crc b => bit_loop_be 8 (Z.lxor crc (u32 (Z.shiftl b 24)))) crc p.

(** ** The table generator *)

(** [for (j = 0; j < i; j++)] *)
Definition init_inner_be (i : nat) (crc : Z) (t : list Z) : list Z :=
  foldl (fun t j => <[(i + j)%nat := Z.lxor crc (nth j t 0)]> t) t (seq 0 i).

(** [for (i = 1; i < BE_TABLE_SIZE; i <<= 1)] *)
Fixpoint init_outer_be (fuel i : nat) (crc : Z) (t : list Z) : list Z :=
  match fuel with
  | O => t
  | S fuel' =>
      if (i <? BE_TABLE_SIZE)%nat then
        let crc := crc_bit_be crc in
        init_outer_be fuel' (2 * i) crc (init_inner_be i crc t)
      else t
  end.

(** [crc32table_be[0][(crc >> 24) & 0xff] ^ (crc << 8)] *)
Definition table_step_be (t0 : list Z) (crc : Z) : Z :=
  Z.lxor (nth (Z.to_nat (Z.land (Z.shiftr crc 24) 0xff)) t0 0) (u32 (Z.shiftl crc 8)).

Definition crc32init_be : list (list Z) :=
  let t0 := init_outer_be (S CRC_BE_BITS) 1 0x80000000 (repeat 0 BE_TABLE_SIZE) in
  let t1 := map (table_step_be t0) t0 in
  let t2 := map (table_step_be t0) t1 in
  let t3 := map (table_step_be t0) t2 in
  [t0; t1; t2; t3].

(** ** The table-driven routine on a little-endian processor *)

(** [___constant_swab32] *)
Definition swab32 (x : Z) : Z :=
  Z.lor (Z.lor (Z.lor (Z.shiftl (Z.land x 0x000000ff) 24) (Z.shiftl (Z.land x 0x0000ff00) 8))
    (Z.shiftr (Z.land x 0x00ff0000) 8)) (Z.shiftr (Z.land x 0xff000000) 24).

(** The generated table, each entry under [tobe]. *)
Definition crc32table_be : list (list Z) := map (map swab32) crc32init_be.

(** [a] is the buffer's address modulo 4. *)
Definition crc32_be (a crc : Z) (p : list Z) : Z := swab32 (crc32_body a (swab32 crc) p crc32table_be).

(** ** Bit reversal *)

Definition byte_rev_table : list Z := [
   0x00; 0x80; 0x40; 0xc0; 0x20; 0xa0; 0x60; 0xe0; 0x10; 0x90; 0x50; 0xd0; 0x30; 0xb0; 0x70; 0xf0;
   0x08; 0x88; 0x48; 0xc8; 0x28; 0xa8; 0x68; 0xe8; 0x18; 0x98; 0x58; 0xd8; 0x38; 0xb8; 0x78; 0xf8;
   0x04; 0x84; 0x44; 0xc4; 0x24; 0xa4; 0x64; 0xe4; 0x14; 0x94; 0x54; 0xd4; 0x34; 0xb4; 0x74; 0xf4;
   0x0c; 0x8c; 0x4c; 0xcc; 0x2c; 0xac; 0x6c; 0xec; 0x1c; 0x9c; 0x5c; 0xdc; 0x3c; 0xbc; 0x7c; 0xfc;
   0x02; 0x82; 0x42; 0xc2; 0x22; 0xa2; 0x62; 0xe2; 0x12; 0x92; 0x52; 0xd2; 0x32; 0xb2; 0x72; 0xf2;
   0x0a; 0x8a; 0x4a; 0xca; 0x2a; 0xaa; 0x6a; 0xea; 0x1a; 0x9a; 0x5a; 0xda; 0x3a; 0xba; 0x7a; 0xfa;
   0x06; 0x86; 0x46; 0xc6; 0x26; 0xa6; 0x66; 0xe6; 0x16; 0x96; 0x56; 0xd6; 0x36; 0xb6; 0x76; 0xf6;
   0x0e; 0x8e; 0x4e; 0xce; 0x2e; 0xae; 0x6e; 0xee; 0x1e; 0x9e; 0x5e; 0xde; 0x3e; 0xbe; 0x7e; 0xfe;
   0x01; 0x81; 0x41; 0xc1; 0x21; 0xa1; 0x61; 0xe1; 0x11; 0x91; 0x51; 0xd1; 0x31; 0xb1; 0x71; 0xf1;
   0x09; 0x89; 0x49; 0xc9; 0x29; 0xa9; 0x69; 0xe9; 0x19; 0x99; 0x59; 0xd9; 0x39; 0xb9; 0x79; 0xf9;
   0x05; 0x85; 0x45; 0xc5; 0x25; 0xa5; 0x65; 0xe5; 0x15; 0x95; 0x55; 0xd5; 0x35; 0xb5; 0x75; 0xf5;
   0x0d; 0x8d; 0x4d; 0xcd; 0x2d; 0xad; 0x6d; 0xed; 0x1d; 0x9d; 0x5d; 0xdd; 0x3d; 0xbd; 0x7d; 0xfd;
   0x03; 0x83; 0x43; 0xc3; 0x23; 0xa3; 0x63; 0xe3; 0x13; 0x93; 0x53; 0xd3; 0x33; 0xb3; 0x73; 0xf3;
   0x0b; 0x8b; 0x4b; 0xcb; 0x2b; 0xab; 0x6b; 0xeb; 0x1b; 0x9b; 0x5b; 0xdb; 0x3b; 0xbb; 0x7b; 0xfb;
   0x07; 0x87; 0x47; 0xc7; 0x27; 0xa7; 0x67; 0xe7; 0x17; 0x97; 0x57; 0xd7; 0x37; 0xb7; 0x77; 0xf7;
   0x0f; 0x8f; 0x4f; 0xcf; 0x2f; 0xaf; 0x6f; 0xef; 0x1f; 0x9f; 0x5f; 0xdf; 0x3f; 0xbf; 0x7f; 0xff].

Definition bitrev8 (byte : Z) : Z := nth (Z.to_nat byte) byte_rev_table 0.

Definition bitrev16 (x : Z) : Z := Z.lor (Z.shiftl (bitrev8 (Z.land x 0xff)) 8) (bitrev8 (Z.shiftr x 8)).

Definition bitrev32 (x : Z) : Z := Z.lor (Z.shiftl (bitrev16 (Z.land x 0xffff)) 16) (bitrev16 (Z.shiftr x 16)).

Definition ether_crc (a : Z) (data : list Z) : Z := bitrev32 (crc32_le a 0xffffffff data).

(** ** The unit test *)

Definition bytereverse (buf : list Z) : list Z := map bitrev8 buf.

Definition store_be (x : Z) : list Z := [u8 (Z.shiftr x 24); u8 (Z.shiftr x 16); u8 (Z.shiftr x 8); u8 x].

(** The complaints the test can print. *)
Inductive failure : Type :=
  | CancellationFail (crc : Z)
  | SplitFail (crc : Z)
  | ReversalFail (crc1 crc2 crc3 : Z)
  | EndiannessFail (crc1 crc2 : Z)
  | XorFail (crc3 crc1 crc2 : Z).

Definition unless (ok : bool) (f : failure) : list failure := if ok then [] else [f].

(** [for (i = 0; i <= len + 4; i++)]: the CRC of [buf] in two parts, the second
    at its own alignment. *)
Definition split_loop (crc32 : Z -> Z -> list Z -> Z) (a init : Z) (buf : list Z) : list failure :=
  concat (map (fun i =>
    let crc2 := crc32 a init (take i buf) in
    let crc2 := crc32 ((a + Z.of_nat i) mod 4) crc2 (drop i buf) in
    unless (crc2 =? 0) (SplitFail crc2)) (seq 0 (length buf + 1))).

(** The value returned and what is printed. *)
Definition test_step (a init : Z) (buf : list Z) : Z * list failure :=
  let len := length buf in
  let crc1 := crc32_be a init buf in
  let buf := buf ++ store_be crc1 in
  let crc2 := crc32_be a init buf in
  let f1 := unless (crc2 =? 0) (CancellationFail crc2) in
  let f2 := split_loop crc32_be a init buf in
  let buf := bytereverse buf in
  let init := bitrev32 init in
  let crc2 := bitrev32 crc1 in
  let f3 := unless (crc1 =? bitrev32 crc2) (ReversalFail crc1 crc2 (bitrev32 crc2)) in
  let crc1 := crc32_le a init (take len buf) in
  let f4 := unless (crc1 =? crc2) (EndiannessFail crc1 crc2) in
  let crc2 := crc32_le a init buf in
  let f5 := unless (crc2 =? 0) (CancellationFail crc2) in
  let f6 := split_loop crc32_le a init buf in
  (crc1, f1 ++ f2 ++ f3 ++ f4 ++ f5 ++ f6).

Definition SIZE : nat := 64.
Definition INIT1 : Z := 0.
Definition INIT2 : Z := 0.

Section unittest.

(** The values successive calls of [random] return, and the alignment of the
    three buffers. *)
Context (random : nat -> Z) (a1 a2 a3 : Z).

Definition random_garbage (n len : nat) : list Z := map (fun k => u8 (random (n + k)%nat)) (seq 0 len).

(** One turn of the loop of [main], after [n] calls of [random]. *)
Definition test_length (n i : nat) : list failure :=
  let buf1 := random_garbage n i in
  let buf2 := random_garbage (n + i) i in
  let buf3 := zip_with Z.lxor buf1 buf2 in
  let '(crc1, f1) := test_step a1 INIT1 buf1 in
  let '(crc2, f2) := test_step a2 INIT2 buf2 in
  let '(crc3, f3) := test_step a3 (Z.lxor INIT1 INIT2) buf3 in
  f1 ++ f2 ++ f3 ++ unless (crc3 =? Z.lxor crc1 crc2) (XorFail crc3 crc1 crc2).

Fixpoint test_lengths (fuel n i : nat) : list failure :=
  match fuel with
  | O => []
  | S fuel' => test_length n i ++ test_lengths fuel' (n + 2 * i) (i + 1)
  end.

(** [for (i = 0; i <= SIZE; i++)] *)
Definition main : list failure := test_lengths (SIZE + 1) 0 0.

End unittest.

(** ** Linear functions are determined by the powers of two *)

Definition linear (n : Z) (f : Z -> Z) : Prop :=
  forall x y, 0 <= x < 2 ^ n -> 0 <= y < 2 ^ n -> f (Z.lxor x y) = Z.lxor (f x) (f y).

Lemma linear_0 n f : 0 <= n -> linear n f -> f 0 = 0.
Proof. intros Hn Hf. pose proof (Hf 0 0 ltac:(lia) ltac:(lia)) as E. rewrite !Z.lxor_nilpotent in E. exact E. Qed.

Lemma linear_ext f g n : linear (Z.of_nat n) f -> linear (Z.of_nat n) g ->
  forallb (fun k => f (2 ^ Z.of_nat k) =? g (2 ^ Z.of_nat k)) (seq 0 n) = true ->
  forall c, 0 <= c < 2 ^ Z.of_nat n -> f c = g c.
Proof.
  intros Hf Hg Hall. rewrite forallb_forall in Hall.
  assert (H : forall m, (m <= n)%nat -> forall c, 0 <= c < 2 ^ Z.of_nat m -> f c = g c).
  { induction m as [|m IH]; intros Hm c Hc.
    - assert (c = 0) as -> by (cbn in Hc; lia). rewrite (linear_0 (Z.of_nat n) f), (linear_0 (Z.of_nat n) g) by (lia || assumption).
      reflexivity.
    - rewrite Nat2Z.inj_succ, Z.pow_succ_r in Hc by lia.
      assert (Hle : 2 * 2 ^ Z.of_nat m <= 2 ^ Z.of_nat n) by (rewrite <- Z.pow_succ_r by lia; apply Z.pow_le_mono_r; lia).
      pose proof (Z.mod_pos_bound c (2 ^ Z.of_nat m) ltac:(lia)) as Hlo.
      assert (E : c = Z.lxor (c mod 2 ^ Z.of_nat m) (Z.shiftl (c / 2 ^ Z.of_nat m) (Z.of_nat m))).
      { rewrite <- add_shiftl_lxor by lia. pose proof (Z.div_mod c (2 ^ Z.of_nat m)). lia. }
      assert (Hq : c / 2 ^ Z.of_nat m = 0 \/ c / 2 ^ Z.of_nat m = 1).
      { assert (0 <= c / 2 ^ Z.of_nat m < 2) by (split; [apply Z.div_pos; lia|apply Z.div_lt_upper_bound; lia]). lia. }
      rewrite E. destruct Hq as [-> | ->].
      + rewrite Z.shiftl_0_l, Z.lxor_0_r. apply IH; lia.
      + rewrite Z.shiftl_1_l, Hf, Hg by lia. f_equal; [apply IH; lia|]. apply Z.eqb_eq, Hall, in_seq. lia. }
  apply (H n). lia.
Qed.

Lemma linear_comp n f g : linear n f -> linear n g -> (forall x, 0 <= x < 2 ^ n -> 0 <= g x < 2 ^ n) ->
  linear n (fun x => f (g x)).
Proof. intros Hf Hg Hr x y Hx Hy. rewrite Hg by assumption. apply Hf; apply Hr; assumption. Qed.

Lemma lor_is_lxor a b k : 0 <= k -> 0 <= b < 2 ^ k -> Z.lor (Z.shiftl a k) b = Z.lxor (Z.shiftl a k) b.
Proof.
  intros Hk Hb. apply Z.bits_inj'. intros n Hn. rewrite Z.lor_spec, Z.lxor_spec.
  destruct (Z.lt_ge_cases n k); [rewrite Z.shiftl_spec_low by lia; destruct (Z.testbit b n); reflexivity|].
  rewrite <- (Z.mod_small b (2 ^ k)) by lia. rewrite Z.mod_pow2_bits_high by lia.
  destruct (Z.testbit _ n); reflexivity.
Qed.

Lemma land_lxor x y m : Z.land (Z.lxor x y) m = Z.lxor (Z.land x m) (Z.land y m).
Proof.
  apply Z.bits_inj'. intros n Hn. rewrite !Z.lxor_spec, !Z.land_spec, !Z.lxor_spec.
  destruct (Z.testbit x n), (Z.testbit y n), (Z.testbit m n); reflexivity.
Qed.

(** Rearranging sums of four. *)
Lemma lxor_swap a b c d : Z.lxor (Z.lxor a b) (Z.lxor c d) = Z.lxor (Z.lxor a c) (Z.lxor b d).
Proof. rewrite !Z.lxor_assoc. f_equal. rewrite <- !Z.lxor_assoc. f_equal. apply Z.lxor_comm. Qed.

(** *** The steps are linear *)

Lemma u32_lxor x y : u32 (Z.lxor x y) = Z.lxor (u32 x) (u32 y).
Proof. unfold u32. change 0x100000000 with (2 ^ 32). rewrite <- !Z.land_ones by lia. apply land_lxor. Qed.

Lemma crc_bit_be_lxor x y : crc_bit_be (Z.lxor x y) = Z.lxor (crc_bit_be x) (crc_bit_be y).
Proof.
  assert (B : forall c, anyset c 0x80000000 = Z.testbit c 31).
  { intros c. unfold anyset. change 0x80000000 with (2 ^ 31). rewrite land_bit by lia.
    destruct (Z.testbit c 31); reflexivity. }
  unfold crc_bit_be. rewrite !B, Z.lxor_spec, Z.shiftl_lxor, u32_lxor, lxor_swap. f_equal.
  destruct (Z.testbit x 31), (Z.testbit y 31); reflexivity.
Qed.

Lemma bit_loop_be_lxor n : forall x y, bit_loop_be n (Z.lxor x y) = Z.lxor (bit_loop_be n x) (bit_loop_be n y).
Proof. induction n as [|n IH]; intros x y; [reflexivity|]. cbn [bit_loop_be]. rewrite crc_bit_be_lxor. apply IH. Qed.

Lemma bit_loop_be_range n : forall c, 0 <= c < 2 ^ 32 -> 0 <= bit_loop_be n c < 2 ^ 32.
Proof.
  induction n as [|n IH]; intros c Hc; [exact Hc|]. apply IH. unfold crc_bit_be.
  apply lxor_range; [lia|apply u32_range|unfold CRCPOLY_BE; case_match; lia].
Qed.

(** *** Byte swapping *)

Definition masked (x : Z) : Z :=
  Z.lxor (Z.lxor (Z.lxor (Z.shiftl (Z.land x 0xff) 24) (Z.shiftl (Z.land x 0xff00) 8))
    (Z.shiftr (Z.land x 0xff0000) 8)) (Z.shiftr (Z.land x 0xff000000) 24).

Lemma swab32_masked x : swab32 x = masked x.
Proof.
  unfold swab32, masked. rewrite !Z.shiftl_land, !Z.shiftr_land.
  apply Z.bits_inj'. intros n Hn. rewrite !Z.lor_spec, !Z.lxor_spec, !Z.land_spec.
  assert (D : forall m m', Z.land m m' = 0 -> Z.testbit m n && Z.testbit m' n = false).
  { intros m m' E. rewrite <- Z.land_spec, E. apply Z.bits_0. }
  pose proof (D (Z.shiftl 0xff 24) (Z.shiftl 0xff00 8) eq_refl).
  pose proof (D (Z.shiftl 0xff 24) (Z.shiftr 0xff0000 8) eq_refl).
  pose proof (D (Z.shiftl 0xff 24) (Z.shiftr 0xff000000 24) eq_refl).
  pose proof (D (Z.shiftl 0xff00 8) (Z.shiftr 0xff0000 8) eq_refl).
  pose proof (D (Z.shiftl 0xff00 8) (Z.shiftr 0xff000000 24) eq_refl).
  pose proof (D (Z.shiftr 0xff0000 8) (Z.shiftr 0xff000000 24) eq_refl).
  destruct (Z.testbit (Z.shiftl 0xff 24) n), (Z.testbit (Z.shiftl 0xff00 8) n), (Z.testbit (Z.shiftr 0xff0000 8) n),
    (Z.testbit (Z.shiftr 0xff000000 24) n); try discriminate;
    rewrite ?andb_true_r, ?andb_false_r, ?orb_false_r, ?xorb_false_r; cbn [orb xorb]; rewrite ?xorb_false_l; reflexivity.
Qed.

Lemma swab32_lxor x y : swab32 (Z.lxor x y) = Z.lxor (swab32 x) (swab32 y).
Proof.
  rewrite !swab32_masked. unfold masked. rewrite !land_lxor, !Z.shiftl_lxor, !Z.shiftr_lxor.
  rewrite (lxor_swap _ _ (Z.shiftl (Z.land x 0xff00) 8)), (lxor_swap _ _ (Z.shiftr (Z.land x 0xff0000) 8)),
    (lxor_swap _ _ (Z.shiftr (Z.land x 0xff000000) 24)). reflexivity.
Qed.

Lemma swab32_range x : 0 <= swab32 x < 2 ^ 32.
Proof.
  rewrite swab32_masked. unfold masked.
  pose proof (land_le_r x 0xff ltac:(lia)). pose proof (land_le_r x 0xff00 ltac:(lia)).
  pose proof (land_le_r x 0xff0000 ltac:(lia)). pose proof (land_le_r x 0xff000000 ltac:(lia)).
  pose proof (shiftl_range (Z.land x 0xff) 24 8 ltac:(lia) ltac:(lia) ltac:(lia)).
  pose proof (shiftl_range (Z.land x 0xff00) 8 24 ltac:(lia) ltac:(lia) ltac:(lia)).
  pose proof (shiftr_range (Z.land x 0xff0000) 8 24 ltac:(lia) ltac:(lia) ltac:(lia)).
  pose proof (shiftr_range (Z.land x 0xff000000) 24 8 ltac:(lia) ltac:(lia) ltac:(lia)).
  repeat apply lxor_range; lia.
Qed.

Lemma linear_id n : linear n (fun x => x).
Proof. intros x y _ _. reflexivity. Qed.

Lemma swab32_linear : linear 32 swab32.
Proof. intros x y _ _. apply swab32_lxor. Qed.

Lemma swab32_swab32 x : 0 <= x < 2 ^ 32 -> swab32 (swab32 x) = x.
Proof.
  apply (linear_ext (fun x => swab32 (swab32 x)) (fun x => x) 32); [|apply linear_id|vm_compute; reflexivity].
  intros u v _ _. rewrite !swab32_lxor. reflexivity.
Qed.

Lemma swab32_byte b : is_byte b -> swab32 b = u32 (Z.shiftl b 24).
Proof.
  apply (linear_ext swab32 (fun b => u32 (Z.shiftl b 24)) 8); [|intros x y _ _; rewrite Z.shiftl_lxor; apply u32_lxor|vm_compute; reflexivity].
  intros x y _ _. apply swab32_lxor.
Qed.

(** ** The big-endian CRC *)

(** One byte, on the swapped remainder. *)
Definition byte_be (c : Z) : Z := swab32 (bit_loop_be 8 (swab32 c)).

Lemma byte_be_lxor x y : byte_be (Z.lxor x y) = Z.lxor (byte_be x) (byte_be y).
Proof. unfold byte_be. rewrite swab32_lxor, bit_loop_be_lxor. apply swab32_lxor. Qed.

Lemma byte_be_shiftl c : 0 <= c < 2 ^ 24 -> byte_be (Z.shiftl c 8) = c.
Proof.
  apply (linear_ext (fun c => byte_be (Z.shiftl c 8)) (fun c => c) 24); [|apply linear_id|vm_compute; reflexivity].
  intros x y _ _. rewrite Z.shiftl_lxor. apply byte_be_lxor.
Qed.

Lemma crc32table_be_entry k i : (k < 4)%nat -> is_byte i -> tab_entry crc32table_be k i = Nat.iter (S k) byte_be i.
Proof.
  intros Hk Hi.
  pose (P j := forallb (fun k => tab_entry crc32table_be k j =? Nat.iter (S k) byte_be j) (seq 0 4)).
  assert (Hall : P i = true) by (apply (forall_range P 256); [vm_compute; reflexivity|exact Hi]).
  unfold P in Hall. rewrite forallb_forall in Hall. apply Z.eqb_eq, Hall, in_seq. lia.
Qed.

Lemma byte_be_range c : 0 <= byte_be c < 2 ^ 32.
Proof. apply swab32_range. Qed.

(** The swapped remainder follows the bit-by-bit one. *)
Lemma fold_swapped p : forall crc, Forall is_byte p -> 0 <= crc < 2 ^ 32 ->
  fold_bytes byte_be (swab32 crc) p = swab32 (crc32_be_bits crc p).
Proof.
  induction p as [|b p IH]; intros crc Hp Hc; [reflexivity|]. apply Forall_cons_1 in Hp as [Hb Hp].
  unfold fold_bytes, crc32_be_bits in *. cbn [foldl].
  assert (E : byte_be (Z.lxor (swab32 crc) b) = swab32 (bit_loop_be 8 (Z.lxor crc (u32 (Z.shiftl b 24))))).
  { unfold byte_be. rewrite (swab32_lxor (swab32 crc) b), (swab32_swab32 crc Hc), (swab32_byte b Hb). reflexivity. }
  rewrite E. apply IH; [exact Hp|]. apply bit_loop_be_range, lxor_range; [lia|exact Hc|apply u32_range].
Qed.

Lemma crc32_be_bits_range p : forall crc, 0 <= crc < 2 ^ 32 -> 0 <= crc32_be_bits crc p < 2 ^ 32.
Proof.
  induction p as [|b p IH]; intros crc Hc; [exact Hc|]. apply IH, bit_loop_be_range, lxor_range; [lia|exact Hc|apply u32_range].
Qed.

Lemma crc32_be_body a crc p : Forall is_byte p ->
  crc32_body a (swab32 crc) p crc32table_be = fold_bytes byte_be (swab32 crc) p.
Proof.
  intros Hp. apply crc32_body_bytes; [|exact byte_be_shiftl| |exact crc32table_be_entry|apply swab32_range|exact Hp].
  - intros x y _ _. apply byte_be_lxor.
  - intros c _. apply byte_be_range.
Qed.

Lemma crc32_be_fold a crc p : 0 <= crc < 2 ^ 32 -> Forall is_byte p -> crc32_be a crc p = crc32_be_bits crc p.
Proof.
  intros Hc Hp. unfold crc32_be. rewrite crc32_be_body, fold_swapped by assumption.
  apply swab32_swab32, crc32_be_bits_range, Hc.
Qed.

(** ** Bit reversal *)

Lemma bitrev8_range x : is_byte x -> is_byte (bitrev8 x).
Proof.
  intros Hx. pose (P x := (0 <=? bitrev8 x) && (bitrev8 x <? 256)).
  assert (H : P x = true) by (apply (forall_range P 256); [vm_compute; reflexivity|exact Hx]).
  unfold P, is_byte in *. lia.
Qed.

Lemma linear_sum n f g : linear n f -> linear n g -> linear n (fun x => Z.lxor (f x) (g x)).
Proof. intros Hf Hg x y Hx Hy. rewrite Hf, Hg by assumption. apply lxor_swap. Qed.

Lemma linear_left n m k : linear n (fun x => Z.shiftl (Z.land x m) k).
Proof. intros x y _ _. rewrite land_lxor. apply Z.shiftl_lxor. Qed.

Lemma linear_right n m k : linear n (fun x => Z.shiftr (Z.land x m) k).
Proof. intros x y _ _. rewrite land_lxor. apply Z.shiftr_lxor. Qed.

(** The table moves each bit to its mirror image. *)
Definition mirror8 (x : Z) : Z :=
  Z.lxor (Z.lxor (Z.lxor (Z.shiftl (Z.land x 0x01) 7) (Z.shiftl (Z.land x 0x02) 5))
                 (Z.lxor (Z.shiftl (Z.land x 0x04) 3) (Z.shiftl (Z.land x 0x08) 1)))
         (Z.lxor (Z.lxor (Z.shiftr (Z.land x 0x10) 1) (Z.shiftr (Z.land x 0x20) 3))
                 (Z.lxor (Z.shiftr (Z.land x 0x40) 5) (Z.shiftr (Z.land x 0x80) 7))).

Lemma bitrev8_mirror x : is_byte x -> bitrev8 x = mirror8 x.
Proof.
  intros Hx. apply Z.eqb_eq. apply (forall_range (fun x => bitrev8 x =? mirror8 x) 256); [vm_compute; reflexivity|exact Hx].
Qed.

Lemma bitrev8_linear : linear 8 bitrev8.
Proof.
  intros x y Hx Hy. rewrite !bitrev8_mirror by (assumption || (apply (lxor_range x y 8); lia)).
  revert x y Hx Hy. change (linear 8 mirror8). repeat apply linear_sum; apply linear_left || apply linear_right.
Qed.

(** Reversing a wide word: reverse both halves and exchange them. *)
Lemma halves_linear n f : 0 <= n -> linear n f -> (forall x, 0 <= x < 2 ^ n -> 0 <= f x < 2 ^ n) ->
  let g x := Z.lor (Z.shiftl (f (Z.land x (Z.ones n))) n) (f (Z.shiftr x n)) in
  linear (n + n) g /\ forall x, 0 <= x < 2 ^ (n + n) -> 0 <= g x < 2 ^ (n + n).
Proof.
  intros Hn Hf Hr g.
  assert (Hlo : forall x, 0 <= Z.land x (Z.ones n) < 2 ^ n) by (intros x; rewrite Z.land_ones by lia; apply Z.mod_pos_bound; lia).
  assert (Hhi : forall x, 0 <= x < 2 ^ (n + n) -> 0 <= Z.shiftr x n < 2 ^ n) by (intros x Hx; apply shiftr_range; lia).
  assert (E : forall x, 0 <= x < 2 ^ (n + n) ->
            g x = Z.lxor (Z.shiftl (f (Z.land x (Z.ones n))) n) (f (Z.shiftr x n))).
  { intros x Hx. unfold g. apply lor_is_lxor; auto. }
  split.
  - intros x y Hx Hy. rewrite !E by (try apply lxor_range; lia).
    rewrite land_lxor, Z.shiftr_lxor, !Hf by auto. rewrite Z.shiftl_lxor. apply lxor_swap.
  - intros x Hx. rewrite E by exact Hx. pose proof (Hr _ (Hlo x)). pose proof (Hr _ (Hhi x Hx)) as H2.
    apply lxor_range; [lia|apply shiftl_range; lia|]. split; [lia|]. apply (Z.lt_le_trans _ (2 ^ n)); [lia|].
    apply Z.pow_le_mono_r; lia.
Qed.

Lemma bitrev16_linear : linear 16 bitrev16 /\ forall x, 0 <= x < 2 ^ 16 -> 0 <= bitrev16 x < 2 ^ 16.
Proof. apply (halves_linear 8 bitrev8); [lia|apply bitrev8_linear|apply bitrev8_range]. Qed.

Lemma bitrev32_linear : linear 32 bitrev32 /\ forall x, 0 <= x < 2 ^ 32 -> 0 <= bitrev32 x < 2 ^ 32.
Proof. apply (halves_linear 16 bitrev16); [lia|apply bitrev16_linear|apply bitrev16_linear]. Qed.

Lemma bitrev32_bitrev32 x : 0 <= x < 2 ^ 32 -> bitrev32 (bitrev32 x) = x.
Proof.
  destruct bitrev32_linear as [Hl Hr].
  apply (linear_ext (fun x => bitrev32 (bitrev32 x)) (fun x => x) 32); [|apply linear_id|vm_compute; reflexivity].
  apply linear_comp; assumption.
Qed.

Lemma bitrev8_high b : is_byte b -> bitrev32 (u32 (Z.shiftl b 24)) = bitrev8 b.
Proof.
  intros Hb. pose (P b := bitrev32 (u32 (Z.shiftl b 24)) =? bitrev8 b).
  assert (H : P b = true) by (apply (forall_range P 256); [vm_compute; reflexivity|exact Hb]). apply Z.eqb_eq, H.
Qed.

(** The little-endian step is the big-endian one, seen reversed. *)
Lemma step_reversed c : 0 <= c < 2 ^ 32 -> bit_loop 8 (bitrev32 c) = bitrev32 (bit_loop_be 8 c).
Proof.
  destruct bitrev32_linear as [Hl Hr].
  apply (linear_ext (fun c => bit_loop 8 (bitrev32 c)) (fun c => bitrev32 (bit_loop_be 8 c)) 32); [| |vm_compute; reflexivity].
  - apply (linear_comp 32 (bit_loop 8)); [intros x y _ _; apply bit_loop_lxor|exact Hl|exact Hr].
  - apply (linear_comp 32 bitrev32 (bit_loop_be 8)); [exact Hl|intros x y _ _; apply bit_loop_be_lxor|apply bit_loop_be_range].
Qed.

Lemma bits_reversed p : forall crc, Forall is_byte p -> 0 <= crc < 2 ^ 32 ->
  crc32_le_bits (bitrev32 crc) (bytereverse p) = bitrev32 (crc32_be_bits crc p).
Proof.
  induction p as [|b p IH]; intros crc Hp Hc; [reflexivity|]. apply Forall_cons_1 in Hp as [Hb Hp].
  unfold crc32_le_bits, crc32_be_bits in *. cbn [bytereverse map foldl].
  assert (Hx : 0 <= Z.lxor crc (u32 (Z.shiftl b 24)) < 2 ^ 32) by (apply lxor_range; [lia|exact Hc|apply u32_range]).
  assert (E : bit_loop 8 (Z.lxor (bitrev32 crc) (bitrev8 b)) = bitrev32 (bit_loop_be 8 (Z.lxor crc (u32 (Z.shiftl b 24))))).
  { rewrite <- step_reversed by exact Hx. f_equal. rewrite <- (bitrev8_high b Hb). symmetry.
    apply bitrev32_linear; [exact Hc|apply u32_range]. }
  rewrite E. apply IH; [exact Hp|apply bit_loop_be_range, Hx].
Qed.

(** ** The checks of the unit test *)

Lemma crc32_be_bits_app crc p q : crc32_be_bits crc (p ++ q) = crc32_be_bits (crc32_be_bits crc p) q.
Proof. unfold crc32_be_bits. apply foldl_app. Qed.

Lemma crc32_le_bits_app crc p q : crc32_le_bits crc (p ++ q) = crc32_le_bits (crc32_le_bits crc p) q.
Proof. unfold crc32_le_bits. apply foldl_app. Qed.

Lemma store_be_bytes x : Forall is_byte (store_be x).
Proof. unfold store_be, is_byte. repeat (apply Forall_cons_2; [apply u8_range|]). apply Forall_nil_2. Qed.

(** The CRC of the sum of two messages is the sum of their CRCs. *)
Lemma bits_xor p : forall q c d, length p = length q ->
  crc32_be_bits (Z.lxor c d) (zip_with Z.lxor p q) = Z.lxor (crc32_be_bits c p) (crc32_be_bits d q).
Proof.
  induction p as [|b p IH]; intros [|e q] c d Hlen; try discriminate Hlen; [reflexivity|].
  unfold crc32_be_bits in *. cbn [zip_with foldl]. rewrite <- IH by (cbn in Hlen; lia). f_equal.
  rewrite <- bit_loop_be_lxor. f_equal. rewrite Z.shiftl_lxor, u32_lxor. apply lxor_swap.
Qed.

Lemma store_be_xor x y : store_be (Z.lxor x y) = zip_with Z.lxor (store_be x) (store_be y).
Proof.
  assert (E : forall a b, u8 (Z.lxor a b) = Z.lxor (u8 a) (u8 b)).
  { intros a b. unfold u8. change 0x100 with (2 ^ 8). rewrite <- !Z.land_ones by lia. apply land_lxor. }
  unfold store_be. cbn [zip_with]. rewrite !Z.shiftr_lxor, !E. reflexivity.
Qed.

(** A message followed by its own CRC leaves nothing. *)
Lemma cancel c : 0 <= c < 2 ^ 32 -> crc32_be_bits c (store_be c) = 0.
Proof.
  apply (linear_ext (fun c => crc32_be_bits c (store_be c)) (fun _ => 0) 32); [| |vm_compute; reflexivity].
  - intros x y _ _. rewrite store_be_xor. apply bits_xor. reflexivity.
  - intros x y _ _. reflexivity.
Qed.

Lemma bytereverse_bytes p : Forall is_byte p -> Forall is_byte (bytereverse p).
Proof. intros Hp. apply Forall_map. apply (List.Forall_impl _ bitrev8_range Hp). Qed.

(** Splitting changes nothing when the whole leaves nothing. *)
Lemma split_quiet crc32 bits a init buf :
  (forall a c p, 0 <= c < 2 ^ 32 -> Forall is_byte p -> crc32 a c p = bits c p) ->
  (forall c p, 0 <= c < 2 ^ 32 -> Forall is_byte p -> 0 <= bits c p < 2 ^ 32) ->
  (forall c p q, bits c (p ++ q) = bits (bits c p) q) ->
  0 <= init < 2 ^ 32 -> Forall is_byte buf -> bits init buf = 0 -> split_loop crc32 a init buf = [].
Proof.
  intros Hb Hr Happ Hi Hbuf Hz. unfold split_loop.
  assert (E : forall i, crc32 ((a + Z.of_nat i) mod 4) (crc32 a init (take i buf)) (drop i buf) = 0).
  { intros i. rewrite (Hb a), Hb; auto using Forall_take, Forall_drop. rewrite <- Happ, take_drop. exact Hz. }
  induction (seq 0 (length buf + 1)) as [|i l IH]; [reflexivity|]. cbn [map concat]. rewrite E. exact IH.
Qed.

Lemma crc32_le_bits_range c p : 0 <= c < 2 ^ 32 -> Forall is_byte p -> 0 <= crc32_le_bits c p < 2 ^ 32.
Proof. intros Hc Hp. apply (fold_range (bit_loop 8)); auto. apply bit_loop_range. Qed.

Lemma test_step_quiet a init buf : 0 <= init < 2 ^ 32 -> Forall is_byte buf ->
  test_step a init buf = (bitrev32 (crc32_be_bits init buf), []).
Proof.
  intros Hi Hb. unfold test_step. rewrite (crc32_be_fold a init buf) by assumption.
  set (c := crc32_be_bits init buf). set (buf4 := buf ++ store_be c).
  assert (Hc : 0 <= c < 2 ^ 32) by (apply crc32_be_bits_range, Hi).
  assert (Hb4 : Forall is_byte buf4) by (apply Forall_app; auto using store_be_bytes).
  assert (Hz : crc32_be_bits init buf4 = 0) by (unfold buf4; rewrite crc32_be_bits_app; apply cancel, Hc).
  assert (Hri : 0 <= bitrev32 init < 2 ^ 32) by (apply bitrev32_linear, Hi).
  assert (Hrz : crc32_le_bits (bitrev32 init) (bytereverse buf4) = 0) by (rewrite bits_reversed, Hz by assumption; reflexivity).
  assert (Ht : take (length buf) (bytereverse buf4) = bytereverse buf).
  { unfold bytereverse, buf4. rewrite map_app, <- (length_map bitrev8 buf). apply take_app_length. }
  rewrite Ht, (crc32_be_fold a init buf4), Hz, !crc32_le_fold, Hrz, bits_reversed, bitrev32_bitrev32
    by auto using bytereverse_bytes.
  rewrite (split_quiet crc32_be crc32_be_bits) by
    (auto using crc32_be_fold, crc32_be_bits_app; intros; apply crc32_be_bits_range; assumption).
  rewrite (split_quiet crc32_le crc32_le_bits) by auto using crc32_le_fold, crc32_le_bits_range, crc32_le_bits_app, bytereverse_bytes.
  fold c. rewrite !Z.eqb_refl. reflexivity.
Qed.

Lemma garbage_bytes random n len : Forall is_byte (random_garbage random n len).
Proof. apply Forall_map, Forall_forall. intros k _. apply u8_range. Qed.

Lemma xor_bytes p q : Forall is_byte p -> Forall is_byte q -> Forall is_byte (zip_with Z.lxor p q).
Proof.
  intros Hp. revert q. induction Hp as [|b p Hb _ IH]; intros [|e q] Hq; try constructor.
  - inversion Hq. apply (lxor_range b e 8); [lia|assumption..].
  - inversion Hq. auto.
Qed.

Lemma test_length_quiet random a1 a2 a3 n i : test_length random a1 a2 a3 n i = [].
Proof.
  unfold test_length. rewrite (test_step_quiet a1), (test_step_quiet a2) by (apply garbage_bytes || (unfold INIT1, INIT2; lia)).
  rewrite (test_step_quiet a3) by ((apply xor_bytes; apply garbage_bytes) || (vm_compute; split; [discriminate|reflexivity])).
  rewrite bits_xor by (unfold random_garbage; rewrite !length_map, !length_seq; reflexivity).
  rewrite (proj1 bitrev32_linear) by (apply crc32_be_bits_range; unfold INIT1, INIT2; lia).
  rewrite Z.eqb_refl. reflexivity.
Qed.

(** ** Claims *)

(** C27: The big-endian CRC-32, which runs the little-endian processor's routine
    on swapped remainders and swapped tables, is the bit-by-bit big-endian
    CRC-32, whatever the alignment of the buffer. *)
Theorem crc32_be_is_bitwise a crc p (Hcrc : 0 <= crc < 2 ^ 32) (Hp : Forall is_byte p) :
  crc32_be a crc p = crc32_be_bits crc p.
Proof. apply crc32_be_fold; assumption. Qed.

(** The check value of CRC-32/MPEG-2. *)
Lemma crc32_be_is_bitwise_witness : crc32_be 1 0xffffffff [49; 50; 51; 52; 53; 54; 55; 56; 57] = 0x0376e6e7.
Proof.
  rewrite crc32_be_is_bitwise; [vm_compute; reflexivity|lia|].
  repeat (apply Forall_cons_2; [unfold is_byte; lia|]). apply Forall_nil_2.
Defined.

(** C28: The kernel's own CRC test cannot fail: whatever [random] returns and
    wherever the buffers lie, for every length it tries, a message followed by
    its CRC cancels, splitting a message anywhere changes nothing, the
    little-endian CRC of the bit-reversed message is the reversed big-endian CRC,
    and the CRC of the xor of two messages is the xor of their CRCs. *)
Theorem crc32_unittest_passes random a1 a2 a3 : main random a1 a2 a3 = [].
Proof.
  assert (H : forall fuel n i, test_lengths random a1 a2 a3 fuel n i = []); [|apply H].
  induction fuel as [|fuel IH]; intros n i; [reflexivity|]. cbn [test_lengths].
  rewrite test_length_quiet. apply IH.
Qed.

End Crc32Be.
