(* ===== verification/LinuxR6040Dev.v ===== *)
(** The rest of the Linux R6040 driver (drivers/net/r6040.c): the multicast
    filter, link changes, opening and closing the interface, and binding to the
    PCI device.  What the kernel's allocation and registration calls return is a
    parameter of each operation; what the driver holds is a ledger. *)
From Stdlib Require Import ZArith Lia.
From stdpp Require Import base list numbers.
From S2P Require Import Prelude R6040 LinuxR6040 Crc32.

Module Dev.

Import Driver.

Definition MAR0 : Z := 0x60.
Definition MAR1 : Z := 0x62.
Definition MAR2 : Z := 0x64.
Definition MAR3 : Z := 0x66.
Definition MID_1L : Z := 0x70.
Definition MID_1M : Z := 0x72.
Definition MID_1H : Z := 0x74.
Definition PHY_CC : Z := 0x88.
Definition MCAST_MAX : nat := 3.
Definition PHY1_ADDR : Z := 1.
Definition PHY2_ADDR : Z := 3.
Definition phy_table : list Z := [PHY1_ADDR; PHY2_ADDR].
Definition R6040_IO_SIZE : Z := 256.

Definition ENODEV : Z := 19.
Definition EIO : Z := 5.

Definition set_mcr0 (lp : r6040_private) (v : Z) : r6040_private :=
  mkPriv (rx_insert_ptr lp) (rx_remove_ptr lp) (tx_insert_ptr lp) (tx_remove_ptr lp) (rx_ring lp)
    (tx_ring lp) (tx_free_desc lp) v (dev_addr lp) (p_stats lp) (queue_stopped lp)
    (napi_scheduled lp) (delivered lp).

Definition set_rings (lp : r6040_private) (rx tx : Z) : r6040_private :=
  mkPriv (rx_insert_ptr lp) (rx_remove_ptr lp) (tx_insert_ptr lp) (tx_remove_ptr lp) rx tx
    (tx_free_desc lp) (mcr0 lp) (dev_addr lp) (p_stats lp) (queue_stopped lp) (napi_scheduled lp)
    (delivered lp).

Definition set_dev_addr (lp : r6040_private) (a : list Z) : r6040_private :=
  mkPriv (rx_insert_ptr lp) (rx_remove_ptr lp) (tx_insert_ptr lp) (tx_remove_ptr lp) (rx_ring lp)
    (tx_ring lp) (tx_free_desc lp) (mcr0 lp) a (p_stats lp) (queue_stopped lp) (napi_scheduled lp)
    (delivered lp).

(** Word [i] of an address. *)
Definition adrp (addr : list Z) (i : nat) : Z :=
  nth (2 * i) addr 0 + 0x100 * nth (2 * i + 1) addr 0.

(** What the driver holds. *)
Inductive res : Type :=
  | Irq | RxRing | TxRing | Enabled | Netdev | Regions | Iomap | Mdio | MdioIrq | MdioReg | Phy | NetReg.

#[global] Instance res_eq_dec : EqDecision res.
Proof. solve_decision. Defined.

Definition release (held : list res) (r : res) : list res := filter (fun x => x <> r) held.

Section Ops.
Context {D : Type} `{Nic D}.

(** ** The multicast filter *)

(** One address of the hash table loop; the addresses are aligned. *)
Definition hash_one (table : list Z) (addr : list Z) : list Z :=
  if negb (anyset (nth 0 addr 0) 1) then table
  else
    let crc := Z.shiftr (Crc32.ether_crc_le 0 addr) 26 in
    alter (fun w => Z.lor w (Z.shiftl 1 (15 - Z.land crc 0xf))) (Z.to_nat (Z.shiftr crc 4)) table.

(** Address filter slot [i]. *)
Definition write_slot (i : nat) (w0 w1 w2 : Z) (d : D) : D :=
  let d := iowrite16 w0 (MID_1L + 8 * Z.of_nat i) d in
  let d := iowrite16 w1 (MID_1M + 8 * Z.of_nat i) d in
  iowrite16 w2 (MID_1H + 8 * Z.of_nat i) d.

Fixpoint slot_loop (i : nat) (mcs : list (list Z)) (d : D) : nat * D :=
  match mcs with
  | [] => (i, d)
  | ha :: mcs' =>
      if (MCAST_MAX <=? i)%nat then (i, d)
      else slot_loop (S i) mcs' (write_slot i (adrp ha 0) (adrp ha 1) (adrp ha 2) d)
  end.

(** [while (i < MCAST_MAX)] *)
Fixpoint unused_loop (n i : nat) (d : D) : D :=
  match n with
  | O => d
  | S n' => unused_loop n' (S i) (write_slot i 0xffff 0xffff 0xffff d)
  end.

(** [promisc] and [allmulti] are the interface's flags, [mcs] its multicast
    addresses. *)
Definition r6040_multicast_list (promisc allmulti : bool) (mcs : list (list Z))
    (lp : r6040_private) (d : D) : r6040_private * D :=
  let d := restore_mac lp d in
  let '(r, d) := ioread16 MCR0 d in
  let reg := clear r 0x0120 in
  let '(reg, lp) :=
    if promisc then (Z.lor reg 0x0020, set_mcr0 lp (Z.lor (mcr0 lp) 0x0020))
    else if (MCAST_MAX <? length mcs)%nat || allmulti then (Z.lor reg 0x0020, lp)
    else (reg, lp) in
  let d := iowrite16 reg MCR0 d in
  let d :=
    if (MCAST_MAX <? length mcs)%nat then
      let hash_table := foldl hash_one [0; 0; 0; 0] mcs in
      let d := iowrite16 (nth 0 hash_table 0) MAR0 d in
      let d := iowrite16 (nth 1 hash_table 0) MAR1 d in
      let d := iowrite16 (nth 2 hash_table 0) MAR2 d in
      iowrite16 (nth 3 hash_table 0) MAR3 d
    else d in
  let '(i, d) := slot_loop 0 mcs d in
  (lp, unused_loop (MCAST_MAX - i) i d).

(** ** Link changes *)

Record link_state : Type := mkLink { old_link : Z; old_duplex : Z }.

Definition DUPLEX_FULL : Z := 1.

Definition r6040_adjust_link (link duplex : Z) (ls : link_state) (lp : r6040_private) (d : D)
  : link_state * r6040_private * D :=
  let ls := if negb (old_link ls =? link) then mkLink link (old_duplex ls) else ls in
  if negb (link =? 0) && negb (old_duplex ls =? duplex) then
    let lp := set_mcr0 lp (Z.lor (mcr0 lp) (if duplex =? DUPLEX_FULL then 0x8000 else 0)) in
    (mkLink (old_link ls) duplex, lp, iowrite16 (mcr0 lp) MCR0 d)
  else (ls, lp, d).

(** ** Opening and closing *)

(** [irq] is what [request_irq] returns, [rx] and [tx] are the rings allocated
    (0: none), [skbs] the buffers the allocator will give. *)
Definition r6040_open (irq rx tx : Z) (skbs : list sk_buff) (lp : r6040_private) (d : D)
    (held : list res) : Z * r6040_private * D * list res :=
  if negb (irq =? 0) then (irq, lp, d, held)
  else
    let held := Irq :: held in
    let d := r6040_mac_address lp d in
    let lp := set_rings lp rx (tx_ring lp) in
    if rx =? 0 then (- ENOMEM, lp, d, release held Irq)
    else
      let held := RxRing :: held in
      let lp := set_rings lp (rx_ring lp) tx in
      if tx =? 0 then (- ENOMEM, lp, d, release (release held RxRing) Irq)
      else
        let held := TxRing :: held in
        let '(ret, lp, d) := r6040_up skbs lp d in
        if negb (ret =? 0) then
          (ret, lp, d, release (release (release held TxRing) RxRing) Irq)
        else (0, set_queue lp false, d, held).

Definition r6040_close (lp : r6040_private) (d : D) (held : list res)
  : Z * r6040_private * D * list res :=
  let lp := set_queue lp true in
  let d := r6040_down lp d in
  let held := release held Irq in
  let '(lp, d) := r6040_free_rxbufs lp d in
  let '(lp, d) := r6040_free_txbufs lp d in
  let '(lp, held) :=
    if negb (rx_ring lp =? 0) then (set_rings lp 0 (tx_ring lp), release held RxRing) else (lp, held) in
  let '(lp, held) :=
    if negb (tx_ring lp =? 0) then (set_rings lp (rx_ring lp) 0, release held TxRing) else (lp, held) in
  (0, lp, d, held).

(** ** Binding *)

(** [found] is whether the bus has a PHY, [connect] what attaching to it gives. *)
Definition r6040_mii_probe (found : bool) (connect : Z) (held : list res)
  : Z * option link_state * list res :=
  if negb found then (- ENODEV, None, held)
  else if negb (connect =? 0) then (connect, None, held)
  else (0, Some (mkLink 0 (-1)), Phy :: held).

(** What the kernel's calls return during [r6040_init_one]. *)
Record env : Type := mkEnv {
  e_enable : Z; e_mask : Z; e_cmask : Z; e_len : Z; e_netdev : bool; e_regions : Z; e_iomap : bool;
  e_random : list Z; e_mdio : bool; e_irq : bool; e_mdioreg : Z; e_found : bool; e_connect : Z;
  e_register : Z
}.

(** The release sequence at the end of [r6040_init_one], from a label on. *)
Definition unwind (held : list res) (from : list res) : list res := foldl release held from.

Definition err_out_free_dev : list res := [Netdev].
Definition err_out_free_res : list res := Regions :: err_out_free_dev.
Definition err_out_unmap : list res := Iomap :: err_out_free_res.
Definition err_out_mdio : list res := Mdio :: err_out_unmap.
Definition err_out_mdio_irq : list res := MdioIrq :: err_out_mdio.
Definition err_out_mdio_unregister : list res := MdioReg :: err_out_mdio_irq.

(** The error code, the static [card_idx], what is held, and the device's state
    ([lp] is the zeroed private structure).  The code that
    [pci_request_regions] left in [err] is what the failures of the two
    allocations after it return. *)
Definition r6040_init_one (e : env) (card_idx : Z) (lp : r6040_private) (d : D) (held : list res)
  : Z * Z * list res * r6040_private * D :=
  if card_idx =? 0 then (0, card_idx, held, lp, d)
  else if negb (e_enable e =? 0) then (e_enable e, card_idx, held, lp, d)
  else
  let held := Enabled :: held in
  if negb (e_mask e =? 0) then (e_mask e, card_idx, held, lp, d)
  else if negb (e_cmask e =? 0) then (e_cmask e, card_idx, held, lp, d)
  else if e_len e <? R6040_IO_SIZE then (- EIO, card_idx, held, lp, d)
  else if negb (e_netdev e) then (- ENOMEM, card_idx, held, lp, d)
  else
  let held := Netdev :: held in
  let err := e_regions e in
  if negb (err =? 0) then (err, card_idx, unwind held err_out_free_dev, lp, d)
  else
  let held := Regions :: held in
  if negb (e_iomap e) then (- EIO, card_idx, unwind held err_out_free_res, lp, d)
  else
  let held := Iomap :: held in
  let '(cc, d) := ioread16 PHY_CC d in
  let d := if cc =? 0 then iowrite16 0x9f07 PHY_CC d else d in
  let card_idx := card_idx + 1 in
  let '(a0, d) := ioread16 MID_0L d in
  let '(a1, d) := ioread16 MID_0M d in
  let '(a2, d) := ioread16 MID_0H d in
  let addr :=
    if negb (negb (a0 =? 0) || negb (a1 =? 0) || negb (a2 =? 0)) then e_random e
    else flat_map (fun w => [u8 w; u8 (w / 0x100)]) [a0; a1; a2] in
  let lp := set_mcr0 (set_dev_addr lp addr) 0x1002 in
  if negb (e_mdio e) then (err, card_idx, unwind held err_out_unmap, lp, d)
  else
  let held := Mdio :: held in
  if negb (e_irq e) then (err, card_idx, unwind held err_out_mdio, lp, d)
  else
  let held := MdioIrq :: held in
  let err := e_mdioreg e in
  if negb (err =? 0) then (err, card_idx, unwind held err_out_mdio_irq, lp, d)
  else
  let held := MdioReg :: held in
  let '(err, _, held) := r6040_mii_probe (e_found e) (e_connect e) held in
  if negb (err =? 0) then (err, card_idx, unwind held err_out_mdio_unregister, lp, d)
  else
  let err := e_register e in
  if negb (err =? 0) then (err, card_idx, unwind held err_out_mdio_unregister, lp, d)
  else (0, card_idx, NetReg :: held, lp, d).

Definition r6040_remove_one (held : list res) : list res :=
  unwind held [NetReg; MdioReg; MdioIrq; Mdio; Regions; Netdev; Enabled].

End Ops.

End Dev.
