(* ===== verification/LinuxR6040DevSpec.v ===== *)
(** Correctness of the device operations of LinuxR6040Dev.v: what binding,
    opening and closing leave held on every path, and what the multicast filter
    puts into the emulated controller. *)
From Stdlib Require Import ZArith Lia.
From stdpp Require Import base list numbers.
From S2P Require Import Prelude R6040 R6040Spec LinuxR6040 LinuxR6040Spec Crc32 LinuxR6040Dev.

Module DevSpec.

Import Driver Dev.

(** The goal after a failure: what is held is known. *)
Ltac failed := let x := fresh in let Hx := fresh in solve [intros x Hx; vm_compute in Hx; intuition auto].

Section Ledger.
Context {D : Type} `{Nic D}.

(** ** Binding *)

(** Everything a bound driver holds. *)
Definition bound_res : list res :=
  [NetReg; Phy; MdioReg; MdioIrq; Mdio; Iomap; Regions; Netdev; Enabled].

(** Every call of the probe succeeds. *)
Definition all_ok (e : env) : bool :=
  (e_enable e =? 0) && (e_mask e =? 0) && (e_cmask e =? 0) && (R6040_IO_SIZE <=? e_len e) &&
  e_netdev e && (e_regions e =? 0) && e_iomap e && e_mdio e && e_irq e && (e_mdioreg e =? 0) &&
  e_found e && (e_connect e =? 0) && (e_register e =? 0).

(** C38: binding the first controller returns 0 and holds all it acquired when
    every call succeeds, and whatever fails leaves nothing behind but the PCI
    device's enabling (and the attached PHY, when it was the last registration
    that failed). *)
Theorem init_one_resources e card_idx lp d (Hidx : card_idx <> 0) :
  let '(err, _, held, _, _) := r6040_init_one e card_idx lp d [] in
  if all_ok e then err = 0 /\ held = bound_res
  else forall x, In x held -> x = Enabled \/ (x = Phy /\ e_register e <> 0).
Proof.
  destruct e as [enable mask cmask len netdev regions iomap random mdio irq mdioreg found connect reg].
  unfold r6040_init_one, r6040_mii_probe, all_ok. cbn [e_enable e_mask e_cmask e_len e_netdev
    e_regions e_iomap e_random e_mdio e_irq e_mdioreg e_found e_connect e_register].
  destruct (Z.eqb_spec card_idx 0); [contradiction|]. rewrite Z.leb_antisym.
  destruct (enable =? 0); [|intros x []].
  destruct (mask =? 0); [|failed]. destruct (cmask =? 0); [|failed].
  destruct (len <? R6040_IO_SIZE); [failed|]. destruct netdev; [|failed].
  destruct (regions =? 0) eqn:Er; [|failed]. destruct iomap; [|failed]. cbn [negb].
  do 4 destruct (ioread16 _ _).
  destruct mdio; [|failed]. destruct irq; [|failed].
  destruct (mdioreg =? 0); [|failed]. destruct found; [|failed]. cbn [negb].
  destruct (connect =? 0) eqn:Ec; cbn [negb]; [|rewrite Ec; failed].
  destruct (Z.eqb_spec reg 0); [split; reflexivity|].
  intros x Hx. vm_compute in Hx. intuition auto.
Qed.

(** The failures of the two allocations after [pci_request_regions] are
    reported as success, although everything has been released. *)
Lemma init_one_alloc_failure_reported_as_success e card_idx lp d :
  card_idx <> 0 -> e_enable e = 0 -> e_mask e = 0 -> e_cmask e = 0 -> R6040_IO_SIZE <= e_len e ->
  e_netdev e = true -> e_regions e = 0 -> e_iomap e = true -> e_mdio e = false ->
  let '(err, _, held, _, _) := r6040_init_one e card_idx lp d [] in err = 0 /\ held = [Enabled].
Proof.
  intros Hidx E1 E2 E3 E4 E5 E6 E7 E8. unfold r6040_init_one. rewrite E1, E2, E3, E5, E6, E7, E8.
  destruct (Z.eqb_spec card_idx 0); [contradiction|]. destruct (Z.ltb_spec (e_len e) R6040_IO_SIZE); [lia|].
  cbn [negb Z.eqb]. do 4 destruct (ioread16 _ _). split; reflexivity.
Qed.

(** Removal gives everything back but the register mapping and the PHY. *)
Lemma remove_one_leaks : r6040_remove_one bound_res = [Phy; Iomap].
Proof. reflexivity. Qed.

(** ** Opening and closing *)

Lemma free_bufs_rings lp (d : D) :
  rx_ring (r6040_free_rxbufs lp d).1 = rx_ring lp /\ tx_ring (r6040_free_rxbufs lp d).1 = tx_ring lp /\
  rx_ring (r6040_free_txbufs lp d).1 = rx_ring lp /\ tx_ring (r6040_free_txbufs lp d).1 = tx_ring lp.
Proof.
  unfold r6040_free_rxbufs, r6040_free_txbufs.
  destruct (free_bufs (Z.to_nat RX_DCNT) _ d), (free_bufs (Z.to_nat TX_DCNT) _ d). auto.
Qed.

Lemma up_rings skbs lp (d : D) :
  rx_ring (r6040_up skbs lp d).1.2 = rx_ring lp /\ tx_ring (r6040_up skbs lp d).1.2 = tx_ring lp.
Proof.
  unfold r6040_up, r6040_init_txbufs, r6040_alloc_rxbufs.
  destruct (alloc_loop _ _ _ _ _) as [[l|] d1].
  - cbn [negb Z.eqb]. do 2 destruct (r6040_phy_read _ _ _). split; reflexivity.
  - match goal with |- context [r6040_free_rxbufs ?l d1] => pose proof (free_bufs_rings l d1) as (E1 & E2 & _);
      destruct (r6040_free_rxbufs l d1) as [lp2 d2] end.
    cbn [fst snd negb Z.eqb Z.opp ENOMEM] in *. split; assumption.
Qed.

Lemma release_fresh held r : ~ In r held -> release held r = held.
Proof.
  intros Hn. unfold release. induction held as [|x held IH]; [reflexivity|].
  rewrite filter_cons. destruct (decide (x <> r)) as [_|Hx].
  - f_equal. apply IH. intros Hin. apply Hn. right. exact Hin.
  - exfalso. apply Hn. left. destruct (decide (x = r)); [assumption|contradiction].
Qed.

Lemma release_self held r : ~ In r held -> release (r :: held) r = held.
Proof.
  intros Hn. unfold release. rewrite filter_cons_False by auto. exact (release_fresh held r Hn).
Qed.

Lemma release_other held r x : x <> r -> release (x :: held) r = x :: release held r.
Proof. intros Hx. unfold release. rewrite filter_cons_True by exact Hx. reflexivity. Qed.

(** Opening the interface acquires the interrupt and both rings or, when it
    fails at any point, nothing; closing an opened interface gives back exactly
    what opening acquired and forgets the rings. *)
Theorem open_close_balanced irq rx tx skbs lp (d : D) held
  (Hirq : ~ In Irq held) (Hrx : ~ In RxRing held) (Htx : ~ In TxRing held) :
  let '(ret, lp1, d1, held1) := r6040_open irq rx tx skbs lp d held in
  if ret =? 0 then
    held1 = [TxRing; RxRing; Irq] ++ held /\
    let '(ret', lp2, _, held2) := r6040_close lp1 d1 held1 in
    ret' = 0 /\ held2 = held /\ rx_ring lp2 = 0 /\ tx_ring lp2 = 0
  else held1 = held.
Proof.
  assert (Hrx1 : ~ In RxRing (Irq :: held)) by (intros [?|?]; [discriminate|auto]).
  assert (Htx1 : ~ In TxRing (RxRing :: Irq :: held))
    by (intros [?|[?|?]]; [discriminate|discriminate|auto]).
  unfold r6040_open.
  destruct (irq =? 0) eqn:Ei; cbn [negb]; [|rewrite Ei; reflexivity].
  destruct (Z.eqb_spec rx 0) as [|Hrx0]; [apply release_self, Hirq|].
  destruct (Z.eqb_spec tx 0) as [|Htx0].
  { cbn [Z.eqb Z.opp ENOMEM]. rewrite (release_self _ RxRing Hrx1). apply release_self, Hirq. }
  set (lp0 := set_rings (set_rings lp rx _) _ tx).
  pose proof (up_rings skbs lp0 (r6040_mac_address lp d)) as [U1 U2].
  destruct (r6040_up skbs lp0 _) as [[ret lp1] d1]. cbn [fst snd] in U1, U2.
  destruct (ret =? 0) eqn:Er; cbn [negb].
  2: { rewrite Er, (release_self _ TxRing Htx1), (release_self _ RxRing Hrx1). apply release_self, Hirq. }
  cbn [Z.eqb]. split; [reflexivity|]. unfold r6040_close.
  set (lpq := set_queue (set_queue lp1 false) true).
  pose proof (free_bufs_rings lpq (r6040_down lpq d1)) as (F1 & F2 & _).
  destruct (r6040_free_rxbufs lpq _) as [lp2 d2].
  pose proof (free_bufs_rings lp2 d2) as (_ & _ & F3 & F4).
  destruct (r6040_free_txbufs lp2 d2) as [lp3 d3]. cbn [fst snd] in *.
  assert (R : rx_ring lp3 = rx /\ tx_ring lp3 = tx) by (split; [rewrite F3, F1|rewrite F4, F2]; assumption).
  destruct R as [-> R]. destruct (Z.eqb_spec rx 0); [contradiction|]. cbn [negb tx_ring set_rings].
  rewrite R. destruct (Z.eqb_spec tx 0); [contradiction|]. cbn [negb].
  split; [reflexivity|]. split; [|split; reflexivity].
  rewrite (release_other _ Irq TxRing), (release_other _ Irq RxRing) by discriminate.
  rewrite (release_self held Irq Hirq), (release_other _ RxRing TxRing) by discriminate.
  rewrite (release_self held RxRing Hrx). apply release_self, Htx.
Qed.

End Ledger.

(** ** The multicast filter on the emulated controller *)

Import R6040 R6040Spec.

(** Registers whose writes have no side effect. *)
Definition plain (r : Z) : bool :=
  negb (existsb (Z.eqb r)
    [MCR0_W; MCR1_W; MTPR_W; MMDIO_W; MISR_W; MIER_W; MRCNT_W; MTCNT_W]).

Lemma write_plain r a v s : Z.land a 0xff / 2 = r -> plain r = true ->
  iowrite16 v a s = set_reg s r (u16 v).
Proof.
  intros <- Hp. cbn [iowrite16 r6040_nic]. unfold r6040_ioport_writew. unfold plain in Hp.
  cbn [existsb] in Hp. rewrite negb_true_iff, !orb_false_iff in Hp.
  destruct Hp as (-> & -> & -> & -> & -> & -> & -> & -> & _). cbn [orb].
  change 0xffff with (Z.ones 16) at 1. rewrite Z.land_ones by lia.
  f_equal. apply Z.mod_small. apply u16_range.
Qed.

(** A step that only writes registers, those of [rs] to new values. *)
Definition regs_step (s s' : R6040State) (rs : Z -> option Z) : Prop :=
  ram s' = ram s /\ sent s' = sent s /\
  forall x, regs_w s' x = match rs x with Some v => v | None => regs_w s x end.

Lemma slot_step i w0 w1 w2 s : (i < 3)%nat ->
  regs_step s (write_slot i w0 w1 w2 s)
    (fun x => if x =? 0x38 + 4 * Z.of_nat i then Some (u16 w0)
              else if x =? 0x39 + 4 * Z.of_nat i then Some (u16 w1)
              else if x =? 0x3a + 4 * Z.of_nat i then Some (u16 w2) else None).
Proof.
  intros Hi. unfold write_slot.
  rewrite (write_plain (0x38 + 4 * Z.of_nat i) (MID_1L + 8 * Z.of_nat i)),
    (write_plain (0x39 + 4 * Z.of_nat i) (MID_1M + 8 * Z.of_nat i)),
    (write_plain (0x3a + 4 * Z.of_nat i) (MID_1H + 8 * Z.of_nat i))
    by (do 3 (destruct i as [|i]; [reflexivity|]); lia).
  split; [reflexivity|]. split; [reflexivity|]. intros x.
  cbn [regs_w set_reg]. unfold store. rewrite !u16_u16. repeat case_match; lia || congruence.
Qed.

(** Filter slot [i], word [j], as the driver wants it. *)
Definition slot_word (mcs : list (list Z)) (i j : nat) : Z :=
  match nth_error mcs i with Some a => adrp a j | None => 0xffff end.

Lemma slots_eq mcs s :
  (let '(i, d) := slot_loop 0 mcs s in unused_loop (MCAST_MAX - i) i d) =
  write_slot 2 (slot_word mcs 2 0) (slot_word mcs 2 1) (slot_word mcs 2 2)
    (write_slot 1 (slot_word mcs 1 0) (slot_word mcs 1 1) (slot_word mcs 1 2)
      (write_slot 0 (slot_word mcs 0 0) (slot_word mcs 0 1) (slot_word mcs 0 2) s)).
Proof. destruct mcs as [|a [|b [|c [|e mcs]]]]; reflexivity. Qed.

Lemma slots_regs mcs s :
  let s' := let '(i, d) := slot_loop 0 mcs s in unused_loop (MCAST_MAX - i) i d in
  ram s' = ram s /\ sent s' = sent s /\
  (forall x, x < 0x38 -> regs_w s' x = regs_w s x) /\
  (forall i j, (i < 3)%nat -> (j < 3)%nat ->
     regs_w s' (0x38 + 4 * Z.of_nat i + Z.of_nat j) = u16 (slot_word mcs i j)).
Proof.
  cbv zeta. rewrite slots_eq.
  match goal with |- context [write_slot 0 ?a ?b ?c s] =>
    destruct (slot_step 0 a b c s ltac:(lia)) as (A0 & B0 & C0); set (s0 := write_slot 0 a b c s) in * end.
  match goal with |- context [write_slot 1 ?a ?b ?c s0] =>
    destruct (slot_step 1 a b c s0 ltac:(lia)) as (A1 & B1 & C1); set (s1 := write_slot 1 a b c s0) in * end.
  match goal with |- context [write_slot 2 ?a ?b ?c s1] =>
    destruct (slot_step 2 a b c s1 ltac:(lia)) as (A2 & B2 & C2); set (s2 := write_slot 2 a b c s1) in * end.
  split; [congruence|]. split; [congruence|]. split.
  - intros x Hx. rewrite C2, C1, C0. zcases.
  - intros i j Hi Hj.
    do 3 (destruct i as [|i]; [do 3 (destruct j as [|j]; [rewrite C2, C1, C0; reflexivity|]); lia|]). lia.
Qed.

Lemma restore_mac_regs lp s :
  regs_step s (restore_mac lp s)
    (fun x => if x =? 0x34 then Some (u16 (addr_word lp 0))
              else if x =? 0x35 then Some (u16 (addr_word lp 1))
              else if x =? 0x36 then Some (u16 (addr_word lp 2)) else None).
Proof.
  unfold restore_mac. rewrite (write_plain 0x34 MID_0L), (write_plain 0x35 MID_0M),
    (write_plain 0x36 MID_0H) by reflexivity.
  split; [reflexivity|]. split; [reflexivity|]. intros x.
  cbn [regs_w set_reg]. unfold store. rewrite !u16_u16. repeat case_match; lia || congruence.
Qed.

(** Writing the mode register without turning transmission on. *)
Lemma write_mode_regs v s :
  Z.testbit (u16 v) 12 = Z.testbit (u16 (regs_w s 0)) 12 ->
  regs_step s (iowrite16 v MCR0 s) (fun x => if x =? 0 then Some (u16 v) else None).
Proof.
  intros Hb. cbn [iowrite16 r6040_nic]. unfold r6040_ioport_writew.
  change (Z.land MCR0 0xff / 2) with 0. change (0 =? MCR0_W) with true. cbv iota zeta.
  assert (Hn : BIT_SET (regs_w s 0) (u16 v) 12 = false).
  { unfold BIT_SET, anyset. rewrite !Z.shiftl_1_l, !land_bit by lia. rewrite u16_u16, Hb.
    destruct (Z.testbit (u16 (regs_w s 0)) 12); reflexivity. }
  rewrite Hn. split; [reflexivity|]. split; [reflexivity|]. intros x.
  cbn [regs_w set_reg]. unfold store. change 0xffff with (Z.ones 16). rewrite Z.land_ones by lia.
  change (u16 v mod 2 ^ 16) with (u16 (u16 v)). rewrite !u16_u16. repeat case_match; lia || congruence.
Qed.

Lemma hash_regs (many : bool) w0 w1 w2 w3 s :
  let s' := if many then iowrite16 w3 MAR3 (iowrite16 w2 MAR2 (iowrite16 w1 MAR1 (iowrite16 w0 MAR0 s)))
            else s in
  ram s' = ram s /\ sent s' = sent s /\
  (forall x, x < 0x30 \/ 0x33 < x -> regs_w s' x = regs_w s x).
Proof.
  cbv zeta. destruct many; [|auto].
  rewrite (write_plain 0x30 MAR0), (write_plain 0x31 MAR1), (write_plain 0x32 MAR2),
    (write_plain 0x33 MAR3) by reflexivity.
  split; [reflexivity|]. split; [reflexivity|]. intros x Hx.
  cbn [regs_w set_reg]. unfold store. zcases.
Qed.

(** The mode the driver wants: the two filter bits cleared, then promiscuous
    mode when all traffic is wanted. *)
Definition mode (all : bool) (r : Z) : Z :=
  if all then Z.lor (clear r 0x0120) 0x0020 else clear r 0x0120.

Lemma mode_bit all r b : 0 <= b < 16 ->
  Z.testbit (u16 (mode all r)) b =
  if b =? 5 then all else if b =? 8 then false else Z.testbit r b.
Proof.
  intros Hb. unfold u16. change 0x10000 with (2 ^ 16). rewrite Z.mod_pow2_bits_low by lia.
  assert (E : Z.testbit (clear r 0x0120) b = Z.testbit r b && negb ((b =? 5) || (b =? 8))).
  { unfold clear. rewrite Z.land_spec, Z.lnot_spec by lia. f_equal. f_equal.
    change 0x120 with (Z.lor (2 ^ 5) (2 ^ 8)). rewrite Z.lor_spec, !Z.pow2_bits_eqb by lia.
    rewrite (Z.eqb_sym 5), (Z.eqb_sym 8). reflexivity. }
  unfold mode. destruct all.
  - rewrite Z.lor_spec, E. change 0x20 with (2 ^ 5). rewrite Z.pow2_bits_eqb, (Z.eqb_sym 5) by lia.
    destruct (b =? 5), (b =? 8), (Z.testbit r b); reflexivity.
  - rewrite E. destruct (b =? 5), (b =? 8), (Z.testbit r b); reflexivity.
Qed.

Lemma adrp_range a j : Forall Crc32.is_byte a -> 0 <= adrp a j < 0x10000.
Proof.
  intros Ha. assert (B : forall k, 0 <= nth k a 0 < 256).
  { intros k. destruct (nth_in_or_default k a 0) as [Hin| ->]; [|lia].
    rewrite List.Forall_forall in Ha. exact (Ha _ Hin). }
  unfold adrp. pose proof (B (2 * j)%nat). pose proof (B (2 * j + 1)%nat). lia.
Qed.

Lemma slot_word_range mcs i j : Forall (Forall Crc32.is_byte) mcs -> 0 <= slot_word mcs i j < 0x10000.
Proof.
  intros Hm. unfold slot_word. destruct (nth_error mcs i) as [a|] eqn:E; [|lia].
  apply nth_error_In in E. rewrite List.Forall_forall in Hm. apply adrp_range, Hm, E.
Qed.

(** Setting the receive filter of the emulated controller: the station
    address and the first three multicast addresses are in the address
    registers and the unused slots hold the broadcast address; the controller
    is promiscuous exactly when it was asked to be, when all multicasts are
    wanted, or when there are more addresses than slots; the rest of the mode
    register is kept; no frame is sent and no memory changes. *)
Theorem multicast_filter_exact promisc allmulti mcs lp s
  (Hs : regs_ok s) (Haddr : Forall Crc32.is_byte (dev_addr lp))
  (Hmcs : Forall (Forall Crc32.is_byte) mcs) :
  let s' := (r6040_multicast_list promisc allmulti mcs lp s).2 in
  ram s' = ram s /\ sent s' = sent s /\
  (forall j, (j < 3)%nat -> regs_w s' (0x34 + Z.of_nat j) = addr_word lp j) /\
  (forall i j, (i < 3)%nat -> (j < 3)%nat ->
     regs_w s' (0x38 + 4 * Z.of_nat i + Z.of_nat j) = slot_word mcs i j) /\
  (forall b, 0 <= b < 16 -> Z.testbit (regs_w s' 0) b =
     if b =? 5 then promisc || allmulti || (3 <? length mcs)%nat
     else if b =? 8 then false else Z.testbit (regs_w s 0) b).
Proof.
  cbv zeta. unfold r6040_multicast_list.
  destruct (restore_mac_regs lp s) as (A0 & B0 & C0). set (s0 := restore_mac lp s) in *.
  change (ioread16 MCR0 s0) with (regs_w s0 0, s0). cbv beta iota.
  set (all := promisc || allmulti || (3 <? length mcs)%nat).
  set (rl := if promisc then _ else _).
  assert (Erl : rl.1 = mode all (regs_w s0 0)).
  { subst rl all. unfold mode. change MCAST_MAX with 3%nat.
    destruct promisc, allmulti, (3 <? length mcs)%nat; reflexivity. }
  destruct rl as [reg lp']. cbn [fst] in Erl. subst reg.
  assert (E0 : regs_w s0 0 = regs_w s 0) by (rewrite C0; reflexivity). rewrite E0.
  destruct (write_mode_regs (mode all (regs_w s 0)) s0) as (A1 & B1 & C1).
  { rewrite mode_bit by lia. rewrite E0, (u16_id (regs_w s 0)) by apply Hs. reflexivity. }
  set (s1 := iowrite16 _ MCR0 s0) in *. set (ht := foldl hash_one _ mcs).
  destruct (hash_regs (MCAST_MAX <? length mcs)%nat (nth 0 ht 0) (nth 1 ht 0) (nth 2 ht 0) (nth 3 ht 0) s1)
    as (A2 & B2 & C2).
  set (s2 := if (MCAST_MAX <? length mcs)%nat then _ else s1) in *.
  destruct (slots_regs mcs s2) as (A3 & B3 & C3 & D3).
  destruct (slot_loop 0 mcs s2) as [i s3]. cbn [snd]. set (s4 := unused_loop _ _ s3) in *.
  split; [congruence|]. split; [congruence|]. split; [|split].
  - intros j Hj. rewrite C3, C2, C1, C0 by lia.
    assert (R : u16 (addr_word lp j) = addr_word lp j) by (apply u16_id; exact (adrp_range (dev_addr lp) j Haddr)).
    do 3 (destruct j as [|j]; [exact R|]). lia.
  - intros i' j Hi Hj. rewrite D3 by assumption. apply u16_id, slot_word_range, Hmcs.
  - intros b Hb. rewrite C3, C2, C1 by lia. change (0 =? 0) with true. cbv iota. apply mode_bit, Hb.
Qed.

(** ** Filter and duplex settings that are never taken back *)

(** Promiscuous mode stays in the value every restart of the controller writes. *)
Lemma promisc_sticks mcs mcs' allmulti lp s :
  let '(lp1, s1) := r6040_multicast_list true allmulti mcs lp s in
  let '(lp2, _) := r6040_multicast_list false false mcs' lp1 s1 in
  Z.testbit (mcr0 lp2) 5 = true.
Proof.
  assert (M : forall p al m l (d : R6040State), mcr0 (r6040_multicast_list p al m l d).1 =
                if p then Z.lor (mcr0 l) 0x20 else mcr0 l).
  { intros p al m l d. unfold r6040_multicast_list. destruct (ioread16 MCR0 _).
    destruct p; [|destruct ((MCAST_MAX <? length m)%nat || al)]; destruct (slot_loop _ _ _); reflexivity. }
  pose proof (M true allmulti mcs lp s) as M1.
  destruct (r6040_multicast_list true allmulti mcs lp s) as [lp1 s1].
  pose proof (M false false mcs' lp1 s1) as M2.
  destruct (r6040_multicast_list false false mcs' lp1 s1) as [lp2 s2]. cbn [fst] in *.
  rewrite M2, M1, Z.lor_spec. apply orb_true_r.
Qed.

(** Once a full-duplex link was seen, a later half-duplex link leaves the
    full-duplex bit in the mode register. *)
Lemma full_duplex_sticks ls lp (s : R6040State) :
  old_duplex ls <> 1 ->
  let '(ls1, lp1, s1) := r6040_adjust_link 1 1 ls lp s in
  let '(_, lp2, _) := r6040_adjust_link 1 0 ls1 lp1 s1 in
  Z.testbit (mcr0 lp2) 15 = true.
Proof.
  intros Hd. unfold r6040_adjust_link.
  assert (E : forall l, (if negb (old_link ls =? l) then mkLink l (old_duplex ls) else ls) =
                        mkLink l (old_duplex ls)).
  { intros l. destruct (Z.eqb_spec (old_link ls) l) as [<-|]; [destruct ls|]; reflexivity. }
  rewrite E. cbn [old_duplex old_link]. destruct (Z.eqb_spec (old_duplex ls) 1); [contradiction|].
  cbn [negb andb Z.eqb old_duplex old_link Pos.eqb mcr0 set_mcr0 DUPLEX_FULL].
  rewrite !Z.lor_spec. cbn. rewrite orb_true_r. reflexivity.
Qed.

(** ** Witnesses *)

Definition good_env : env :=
  mkEnv 0 0 0 256 true 0 true [2; 0; 0; 0; 0; 1] true true 0 true 0 0.

Lemma init_one_resources_witness :
  let '(err, _, held, _, _) :=
    r6040_init_one good_env (-1) DriverSpec.zero_priv DriverSpec.zero_nic [] in
  err = 0 /\ held = bound_res.
Proof.
  pose proof (init_one_resources good_env (-1) DriverSpec.zero_priv DriverSpec.zero_nic) as Hw.
  change (all_ok good_env) with true in Hw. apply Hw. discriminate.
Defined.

Lemma open_close_balanced_witness :
  (r6040_open 0 0x2000 0 [] DriverSpec.zero_priv DriverSpec.zero_nic bound_res).2 = bound_res.
Proof.
  pose proof (open_close_balanced 0 0x2000 0 [] DriverSpec.zero_priv DriverSpec.zero_nic bound_res) as Hw.
  destruct (r6040_open 0 0x2000 0 [] DriverSpec.zero_priv DriverSpec.zero_nic bound_res)
    as [[[ret lp1] d1] held1] eqn:E.
  assert (Hret : (ret =? 0) = false) by (injection E as <- _ _ _; reflexivity).
  rewrite Hret in Hw. apply Hw; vm_compute; intuition discriminate.
Defined.

Lemma multicast_filter_exact_witness :
  let s' := (r6040_multicast_list false false [[1; 0; 94; 0; 0; 1]] DriverSpec.zero_priv DriverSpec.zero_nic).2 in
  regs_w s' 0x38 = 1 /\ regs_w s' 0x39 = 94 /\ regs_w s' 0x3a = 0x100 /\ regs_w s' 0x3c = 0xffff.
Proof.
  destruct (multicast_filter_exact false false [[1; 0; 94; 0; 0; 1]] DriverSpec.zero_priv
              DriverSpec.zero_nic) as (_ & _ & _ & W & _).
  - apply init_regs_ok.
  - repeat (apply Forall_cons_2; [unfold Crc32.is_byte; lia|]). apply Forall_nil_2.
  - apply Forall_cons_2; [|apply Forall_nil_2].
    repeat (apply Forall_cons_2; [unfold Crc32.is_byte; lia|]). apply Forall_nil_2.
  - cbv zeta. split; [apply (W 0%nat 0%nat); lia|]. split; [apply (W 0%nat 1%nat); lia|].
    split; [apply (W 0%nat 2%nat); lia|]. apply (W 1%nat 0%nat); lia.
Defined.

End DevSpec.
