(* ===== verification/LinuxR6040Rx.v ===== *)
(** From the wire to the stack: the receive ring shared by the emulated
    controller and the Linux driver refines a queue of frames.  The controller
    appends the frames it accepts, the driver's poll takes them from the front
    in order and hands the descriptors back with new buffers. *)
From Stdlib Require Import ZArith Lia.
From stdpp Require Import base list numbers.
From S2P Require Import Prelude R6040 R6040Spec LinuxR6040 LinuxR6040Spec.

Module RxSpec.
Import R6040 R6040Spec Driver DriverSpec.

Section Rings.

(** The address of the transmit ring, which shares the memory. *)
Context (tx : Z).

(** ** The ring as a queue *)

(** Two receive buffers that do not overlap. *)
Definition apart (a b : Z) : Prop := a + MAX_BUF_SIZE <= b \/ b + MAX_BUF_SIZE <= a.

(** A receive buffer in the address space and outside both rings. *)
Definition buf_ok (base b : Z) : Prop :=
  0 <= b /\ b + MAX_BUF_SIZE < 2 ^ 32 /\
  (b + MAX_BUF_SIZE <= base \/ base + sizeof_desc * RX_DCNT <= b) /\
  (b + MAX_BUF_SIZE <= tx \/ tx + sizeof_desc * TX_DCNT <= b).

(** The buffer of descriptor [i]. *)
Definition buf_at (m : mem) (base i : Z) : Z := load32 m (desc_at base i + 4).

(** The [j]th descriptor from [k] on. *)
Definition slot (k j : Z) : Z := (k + j) mod RX_DCNT.

(** A descriptor the controller has filled with frame [f]. *)
Definition holds (m : mem) (base i : Z) (f : list Z) : Prop :=
  load16 m (desc_at base i) = 0x4000 /\
  load16 m (desc_at base i + 2) = Z.of_nat (length f) + 4 /\
  load_bytes m (buf_at m base i) (Z.of_nat (length f)) = f /\
  Z.of_nat (length f) + 4 <= MAX_BUF_SIZE.

(** The ring holds the frames [q], the oldest at descriptor [k]; every other
    descriptor is with the controller. *)
Record rx_mem (base k : Z) (q : list (list Z)) (m : mem) : Prop := {
  rm_bytes : bytes_ok m;
  rm_base : 0 <= base /\ base + sizeof_desc * RX_DCNT < 2 ^ 32;
  rm_linked : linked m base RX_DCNT;
  rm_k : 0 <= k < RX_DCNT;
  rm_len : Z.of_nat (length q) <= RX_DCNT;
  rm_buf : forall i, 0 <= i < RX_DCNT -> buf_ok base (buf_at m base i);
  rm_apart : forall i j, 0 <= i < RX_DCNT -> 0 <= j < RX_DCNT -> i <> j ->
    apart (buf_at m base i) (buf_at m base j);
  rm_full : forall j f, q !! j = Some f -> holds m base (slot k (Z.of_nat j)) f;
  rm_free : forall j, Z.of_nat (length q) <= j < RX_DCNT ->
    load16 m (desc_at base (slot k j)) = DSC_OWNER_MAC
}.

Lemma slot_range k j : 0 <= slot k j < RX_DCNT.
Proof. apply Z.mod_pos_bound. unfold RX_DCNT. lia. Qed.

Lemma slot_inj k i j : 0 <= i < RX_DCNT -> 0 <= j < RX_DCNT -> slot k i = slot k j -> i = j.
Proof. unfold slot, RX_DCNT. intros Hi Hj E. Z.div_mod_to_equations. lia. Qed.

Lemma slot_succ k j : slot ((k + 1) mod RX_DCNT) j = slot k (j + 1).
Proof. unfold slot. rewrite Zplus_mod_idemp_l. f_equal. lia. Qed.

Lemma desc_in_ring base i : 0 <= i < RX_DCNT ->
  base <= desc_at base i /\ desc_at base i + 32 <= base + sizeof_desc * RX_DCNT.
Proof. unfold desc_at, sizeof_desc, RX_DCNT. lia. Qed.

(** What a change of memory away from a descriptor and its buffer leaves. *)
Lemma holds_ext m m' base i f :
  0 <= i < RX_DCNT -> holds m base i f ->
  (forall x, desc_at base i <= x < desc_at base i + 8 -> m' x = m x) ->
  (forall x, buf_at m base i <= x < buf_at m base i + MAX_BUF_SIZE -> m' x = m x) ->
  holds m' base i f.
Proof.
  intros Hi (H1 & H2 & H3 & H4) Ed Eb.
  assert (Hbuf : buf_at m' base i = buf_at m base i) by (apply load32_ext; intros x Hx; apply Ed; lia).
  unfold holds. rewrite Hbuf.
  rewrite (load16_ext m m' (desc_at base i)), (load16_ext m m' (desc_at base i + 2)) by (apply Ed; lia).
  repeat split; try assumption. etransitivity; [|exact H3]. apply load_bytes_ext.
  intros x Hx. apply Eb. lia.
Qed.

(** ** The controller appends *)

(** The registers reception may change. *)
Definition rx_reg (i : Z) : Prop :=
  i = 0x34 / 2 \/ i = 0x38 / 2 \/ i = RX_PKT_COUNT_W \/ i = MISR_W.

Lemma receive_regs s f :
  let '(r, s') := r6040_receive s f in
  (regs_ok s -> regs_ok s') /\ sent s' = sent s /\ (forall i, ~ rx_reg i -> regs_w s' i = regs_w s i) /\
  regs_w s' MISR_W = if anyset (load16 (ram s) (RX_START s)) 0x8000 then u16 (Z.lor (regs_w s MISR_W) 1)
                     else regs_w s MISR_W.
Proof.
  unfold r6040_receive, ReceiveOnePacket. cbn [read_desc dst].
  destruct (anyset (load16 (ram s) (RX_START s)) 0x8000); [|auto].
  split; [intros Hr; repeat apply (set_reg_ok _); exact Hr|]. split; [reflexivity|]. split; [|reflexivity].
  intros i Hi. unfold rx_reg in Hi.
  cbn [RX_START_SET r6040_update_irq set_irq set_reg set_ram regs_w]. rewrite !store_ne by tauto. reflexivity.
Qed.

Lemma append_mem base k q m f m' :
  rx_mem base k q m -> Z.of_nat (length q) < RX_DCNT ->
  Z.of_nat (length f) + 4 <= MAX_BUF_SIZE -> Forall (fun b => 0 <= b < 0x100) f ->
  let a := desc_at base (slot k (Z.of_nat (length q))) in
  let b := buf_at m base (slot k (Z.of_nat (length q))) in
  (forall x, m' x = store16 (store16 (store_bytes m b f) a 0x4000) (a + 2) (Z.of_nat (length f) + 4) x) ->
  rx_mem base k (q ++ [f]) m'.
Proof.
  intros Hm Hq Hf Hby a b Em. pose proof Hm as [Hb Hbase Hl Hk Hlen Hbuf Hap Hfull Hfree].
  set (i0 := slot k (Z.of_nat (length q))) in *.
  pose proof (slot_range k (Z.of_nat (length q))) as Hi0. fold i0 in Hi0.
  pose proof (desc_in_ring base i0 Hi0) as Hd0. fold a in Hd0.
  pose proof (Hbuf i0 Hi0) as (B1 & B2 & B3 & _). fold b in B1, B2, B3.
  assert (Hout : forall x, ~ (b <= x < b + MAX_BUF_SIZE) -> ~ (a <= x < a + 4) -> m' x = m x).
  { intros x Hx1 Hx2. rewrite Em, !store16_out by lia. apply store_bytes_out. lia. }
  assert (Hring : forall x, base <= x < base + sizeof_desc * RX_DCNT -> ~ (a <= x < a + 4) -> m' x = m x)
    by (intros x Hx1 Hx2; apply Hout; lia).
  assert (Hdesc : forall i x, 0 <= i < RX_DCNT -> i <> i0 ->
            desc_at base i <= x < desc_at base i + 32 -> m' x = m x).
  { intros i x Hi Hne Hx. pose proof (desc_in_ring base i Hi). apply Hring; [lia|].
    destruct (desc_at_apart base i i0 Hne) as [H1|H1]; fold a in H1; lia. }
  assert (Hbufs : forall i, 0 <= i < RX_DCNT -> buf_at m' base i = buf_at m base i).
  { intros i Hi. apply load32_ext. intros x Hx. pose proof (desc_in_ring base i Hi).
    destruct (Z.eq_dec i i0) as [->|Hne]; [apply Hring; fold a in Hx |- *; lia|apply (Hdesc i); lia]. }
  split; auto.
  - intros x. rewrite Em. apply bytes_ok_store16, bytes_ok_store16.
    apply bytes_ok_store_bytes; assumption.
  - apply (linked_ext m); [exact Hl|]. intros i x Hi Hx. pose proof (desc_in_ring base i Hi).
    destruct (Z.eq_dec i i0) as [->|Hne]; [apply Hring; fold a in Hx |- *; lia|apply (Hdesc i); lia].
  - rewrite length_app. cbn [length]. lia.
  - intros i Hi. rewrite Hbufs by exact Hi. apply Hbuf, Hi.
  - intros i j Hi Hj Hne. rewrite !Hbufs by assumption. apply Hap; assumption.
  - intros j g Hg. apply lookup_app_Some in Hg as [Hg|[Hge Hg]].
    + assert (Hj : (j < length q)%nat) by (apply lookup_lt_is_Some; eauto).
      assert (Hne : slot k (Z.of_nat j) <> i0) by (intros E; apply slot_inj in E; lia).
      pose proof (slot_range k (Z.of_nat j)) as Hi.
      apply (holds_ext m); [exact Hi|apply Hfull, Hg|intros x Hx; apply (Hdesc (slot k (Z.of_nat j))); lia|].
      intros x Hx. pose proof (Hbuf _ Hi) as (C1 & C2 & C3 & _).
      destruct (Hap _ _ Hi Hi0 Hne) as [H1|H1]; fold b in H1; apply Hout; lia.
    + apply list_lookup_singleton_Some in Hg as [Hj <-]. replace j with (length q) by lia. fold i0.
      unfold holds. rewrite Hbufs by exact Hi0. fold a b.
      split; [|split; [|split; [|exact Hf]]].
      * unfold load16. rewrite !Em, !(store16_out _ (a + 2)) by lia.
        apply (load16_store16 (store_bytes m b f) a 0x4000). lia.
      * unfold load16. rewrite !Em. apply load16_store16. unfold MAX_BUF_SIZE in Hf. lia.
      * apply list_of_bytes. intros i Hi. rewrite Em, !store16_out by lia.
        rewrite store_bytes_in by lia. f_equal. lia.
  - intros j Hj. rewrite length_app in Hj. cbn [length] in Hj.
    assert (Hne : slot k j <> i0) by (intros E; apply slot_inj in E; lia).
    rewrite <- (Hfree j) by lia. pose proof (slot_range k j) as Hi.
    apply load16_ext; apply (Hdesc (slot k j)); lia.
Qed.

(** ** The driver takes from the front *)

(** Handing descriptor [k] back, with its buffer or a new one. *)
Lemma take_mem base k f q m m' :
  rx_mem base k (f :: q) m ->
  let a := desc_at base k in
  bytes_ok m' ->
  (forall x, ~ (a <= x < a + 2) -> ~ (a + 4 <= x < a + 8) -> ~ (a + 24 <= x < a + 28) -> m' x = m x) ->
  load16 m' a = DSC_OWNER_MAC -> buf_ok base (buf_at m' base k) ->
  (forall i, 0 <= i < RX_DCNT -> i <> k -> apart (buf_at m' base k) (buf_at m base i)) ->
  rx_mem base ((k + 1) mod RX_DCNT) q m'.
Proof.
  intros [Hb Hbase Hl Hk Hlen Hbuf Hap Hfull Hfree] a Hb' Hout Hst Hnb Hnap. cbn [length] in *.
  pose proof (desc_in_ring base k Hk) as Hd. fold a in Hd.
  assert (Hdesc : forall i x, 0 <= i < RX_DCNT -> i <> k ->
            desc_at base i <= x < desc_at base i + 32 -> m' x = m x).
  { intros i x Hi Hne Hx. destruct (desc_at_apart base i k Hne) as [H1|H1]; fold a in H1; apply Hout; lia. }
  assert (Hbufs : forall i, 0 <= i < RX_DCNT -> i <> k -> buf_at m' base i = buf_at m base i).
  { intros i Hi Hne. apply load32_ext. intros x Hx. apply (Hdesc i); [exact Hi|exact Hne|lia]. }
  assert (Hslot : forall j, 0 <= j < RX_DCNT - 1 -> slot k (j + 1) <> k).
  { intros j Hj E. assert (E0 : slot k 0 = k) by (unfold slot; rewrite Z.add_0_r, Z.mod_small; lia).
    rewrite <- E0 in E at 2. apply slot_inj in E; lia. }
  split; auto.
  - apply (linked_ext m); [exact Hl|]. intros i x Hi Hx.
    destruct (Z.eq_dec i k) as [->|Hne]; [apply Hout; fold a in Hx; lia|apply (Hdesc i); lia].
  - apply Z.mod_pos_bound. unfold RX_DCNT. lia.
  - lia.
  - intros i Hi. destruct (Z.eq_dec i k) as [->|Hne]; [exact Hnb|rewrite Hbufs by assumption; apply Hbuf, Hi].
  - intros i j Hi Hj Hne. destruct (Z.eq_dec i k) as [->|Hik], (Z.eq_dec j k) as [->|Hjk];
      [contradiction|rewrite (Hbufs j) by assumption; apply Hnap; assumption| |
       rewrite !Hbufs by assumption; apply Hap; assumption].
    rewrite (Hbufs i) by assumption. destruct (Hnap i Hi Hik) as [?|?]; [right|left]; assumption.
  - intros j g Hg. rewrite slot_succ.
    assert (Hj : (j < length q)%nat) by (apply lookup_lt_is_Some; eauto).
    replace (Z.of_nat j + 1) with (Z.of_nat (S j)) by lia.
    assert (Hne : slot k (Z.of_nat (S j)) <> k)
      by (replace (Z.of_nat (S j)) with (Z.of_nat j + 1) by lia; apply Hslot; lia).
    pose proof (slot_range k (Z.of_nat (S j))) as Hi. pose proof (Hbuf _ Hi) as (C1 & C2 & C3 & _).
    apply (holds_ext m); [exact Hi|apply (Hfull (S j)), Hg| |].
    + intros x Hx. apply (Hdesc (slot k (Z.of_nat (S j)))); lia.
    + intros x Hx. apply Hout; lia.
  - intros j Hj. rewrite slot_succ. destruct (Z.eq_dec j (RX_DCNT - 1)) as [->|Hj1].
    + replace (slot k (RX_DCNT - 1 + 1)) with k; [exact Hst|]. unfold slot, RX_DCNT in *.
      Z.div_mod_to_equations. lia.
    + rewrite <- (Hfree (j + 1)) by lia. pose proof (slot_range k (j + 1)).
      apply load16_ext; apply (Hdesc (slot k (j + 1))); try lia; apply Hslot; lia.
Qed.

(** The addresses of the buffers an allocator gives. *)
Definition new_bufs (allocs : list (option sk_buff)) : list Z :=
  flat_map (fun o => match o with Some skb => [skb_dma skb] | None => [] end) allocs.

(** Memory not in use: new buffers are apart from each other, from the ring and
    from the buffers in it. *)
Definition fresh (base : Z) (m : mem) (bufs : list Z) : Prop :=
  Forall (fun b => buf_ok base b /\ forall i, 0 <= i < RX_DCNT -> apart b (buf_at m base i)) bufs /\
  ForallOrdPairs apart bufs.

(** The specification of a poll on the queue: the frames delivered, how many
    were dropped for want of a buffer, and the frames left. *)
Fixpoint poll_spec (limit : nat) (allocs : list (option sk_buff)) (q : list (list Z))
  : list (list Z) * Z * list (list Z) :=
  match limit, q with
  | S limit', f :: q' =>
      match allocs with
      | Some _ :: allocs' =>
          let '(D, n, q2) := poll_spec limit' allocs' q' in (f :: D, n, q2)
      | None :: allocs' => let '(D, n, q2) := poll_spec limit' allocs' q' in (D, n + 1, q2)
      | [] => let '(D, n, q2) := poll_spec limit' [] q' in (D, n + 1, q2)
      end
  | _, _ => ([], 0, q)
  end.

Lemma rx_front base k f q m : rx_mem base k (f :: q) m ->
  holds m base k f /\ load32 m (desc_at base k + OFF_vndescp) = desc_at base ((k + 1) mod RX_DCNT).
Proof.
  intros [Hb Hbase Hl Hk Hlen Hbuf Hap Hfull Hfree]. split.
  - assert (E : slot k (Z.of_nat 0) = k) by (unfold slot; rewrite Z.add_0_r, Z.mod_small; lia).
    rewrite <- E. apply Hfull. reflexivity.
  - apply (Hl k Hk).
Qed.

Lemma rx_empty base k m : rx_mem base k [] m -> load16 m (desc_at base k) = DSC_OWNER_MAC.
Proof.
  intros [Hb Hbase Hl Hk Hlen Hbuf Hap Hfull Hfree].
  assert (E : slot k 0 = k) by (unfold slot; rewrite Z.add_0_r, Z.mod_small; lia).
  rewrite <- E. apply Hfree. unfold RX_DCNT. cbn. lia.
Qed.

(** The memory after one descriptor is handed back, without and with a new
    buffer. *)
Definition rearmed (m : mem) (a : Z) : mem := store16 m (a + OFF_status) (u16 DSC_OWNER_MAC).

Definition refilled (m : mem) (a : Z) (skb : sk_buff) : mem :=
  rearmed (store32 (store32 m (a + OFF_skb_ptr) (u32 (skb_id skb))) (a + OFF_buf) (u32 (skb_dma skb))) a.

Lemma rearmed_ok base k f q m : rx_mem base k (f :: q) m ->
  rx_mem base ((k + 1) mod RX_DCNT) q (rearmed m (desc_at base k)) /\
  forall i, 0 <= i < RX_DCNT -> buf_at (rearmed m (desc_at base k)) base i = buf_at m base i.
Proof.
  intros Hm. pose proof Hm as [Hb Hbase Hl Hk Hlen Hbuf Hap Hfull Hfree]. set (a := desc_at base k).
  assert (Hout : forall x, ~ (a <= x < a + 2) -> rearmed m a x = m x)
    by (intros x Hx; unfold rearmed, OFF_status; apply store16_out; lia).
  assert (Hbufs : forall i, 0 <= i < RX_DCNT -> buf_at (rearmed m a) base i = buf_at m base i).
  { intros i Hi. apply load32_ext. intros x Hx. apply Hout.
    destruct (Z.eq_dec i k) as [->|Hne]; [fold a in Hx; lia|].
    destruct (desc_at_apart base i k Hne) as [H1|H1]; fold a in H1; lia. }
  split; [|exact Hbufs]. apply (take_mem base k f q m); fold a; auto.
  - apply bytes_ok_store16, Hb.
  - unfold rearmed, OFF_status. rewrite Z.add_0_r. apply load16_store16. unfold u16, DSC_OWNER_MAC. lia.
  - rewrite Hbufs by exact Hk. apply Hbuf, Hk.
  - intros i Hi Hne. rewrite Hbufs by exact Hk. apply Hap; auto.
Qed.

Lemma refilled_out m a skb x :
  ~ (a <= x < a + 2) -> ~ (a + 4 <= x < a + 8) -> ~ (a + 24 <= x < a + 28) -> refilled m a skb x = m x.
Proof.
  intros H1 H2 H3. unfold refilled, rearmed, OFF_status, OFF_buf, OFF_skb_ptr.
  rewrite store16_out, !store32_out by lia. reflexivity.
Qed.

Lemma refilled_fields m a skb : 0 <= skb_dma skb < 2 ^ 32 ->
  load16 (refilled m a skb) a = DSC_OWNER_MAC /\ load32 (refilled m a skb) (a + 4) = skb_dma skb.
Proof.
  intros Hd. unfold refilled, rearmed, OFF_status. rewrite Z.add_0_r. split.
  - apply load16_store16. unfold u16, DSC_OWNER_MAC. lia.
  - rewrite (u32_id (skb_dma skb)) by lia.
    etransitivity; [|apply (load32_store32 (store32 m (a + OFF_skb_ptr) (u32 (skb_id skb))) (a + OFF_buf)); lia].
    apply load32_ext. intros x Hx. unfold OFF_buf in *. apply store16_out; lia.
Qed.

Lemma bytes_ok_refilled m a skb : bytes_ok m -> bytes_ok (refilled m a skb).
Proof. intros Hb. apply bytes_ok_store16. repeat apply bytes_ok_store32. exact Hb. Qed.

Lemma refilled_ok base k f q m skb : rx_mem base k (f :: q) m -> buf_ok base (skb_dma skb) ->
  (forall i, 0 <= i < RX_DCNT -> apart (skb_dma skb) (buf_at m base i)) ->
  rx_mem base ((k + 1) mod RX_DCNT) q (refilled m (desc_at base k) skb) /\
  forall i, 0 <= i < RX_DCNT -> buf_at (refilled m (desc_at base k) skb) base i =
    if i =? k then skb_dma skb else buf_at m base i.
Proof.
  intros Hm Hnb Hnap. pose proof Hm as [Hb Hbase Hl Hk Hlen Hbuf Hap Hfull Hfree]. set (a := desc_at base k).
  pose proof Hnb as (N1 & N2 & _).
  destruct (refilled_fields m a skb) as [Hst Hown]; [unfold MAX_BUF_SIZE in *; lia|].
  assert (Hbufs : forall i, 0 <= i < RX_DCNT -> buf_at (refilled m a skb) base i =
            if i =? k then skb_dma skb else buf_at m base i).
  { intros i Hi. destruct (Z.eqb_spec i k) as [->|Hne]; [exact Hown|]. apply load32_ext. intros x Hx.
    destruct (desc_at_apart base i k Hne) as [H1|H1]; fold a in H1; apply refilled_out; lia. }
  split; [|exact Hbufs]. apply (take_mem base k f q m); fold a; auto.
  - apply bytes_ok_refilled, Hb.
  - intros x. apply refilled_out.
  - unfold buf_at. fold a. rewrite Hown. exact Hnb.
  - intros i Hi Hne. unfold buf_at at 1. fold a. rewrite Hown. apply Hnap, Hi.
Qed.

Lemma fresh_rearmed base k f q m bufs : rx_mem base k (f :: q) m -> fresh base m bufs ->
  fresh base (rearmed m (desc_at base k)) bufs.
Proof.
  intros Hm [H1 H2]. destruct (rearmed_ok base k f q m Hm) as [_ E]. split; [|exact H2].
  eapply List.Forall_impl; [|exact H1]. intros b [Hb Ha]. split; [exact Hb|].
  intros i Hi. rewrite E by exact Hi. apply Ha, Hi.
Qed.

Lemma fresh_refilled base k f q m skb bufs : rx_mem base k (f :: q) m ->
  fresh base m (skb_dma skb :: bufs) -> fresh base (refilled m (desc_at base k) skb) bufs.
Proof.
  intros Hm [H1 H2]. apply Forall_cons_1 in H1 as [[Hb Ha] H1].
  inversion H2 as [|x l Hx Hl]; subst. split; [|exact Hl].
  destruct (refilled_ok base k f q m skb Hm Hb Ha) as [_ E].
  rewrite List.Forall_forall in *. intros b Hin. destruct (H1 b Hin) as [Hb' Ha']. split; [exact Hb'|].
  intros i Hi. rewrite E by exact Hi. destruct (i =? k); [|apply Ha', Hi].
  destruct (Hx b Hin) as [H|H]; [right|left]; exact H.
Qed.

(** What a poll loop does to the driver's counters and to the stack. *)
Definition accounted (lp lp' : r6040_private) (D : list (list Z)) (n : Z) : Prop :=
  delivered lp' = delivered lp ++ D /\
  rx_packets (p_stats lp') = rx_packets (p_stats lp) + Z.of_nat (length D) /\
  rx_bytes (p_stats lp') = rx_bytes (p_stats lp) + Z.of_nat (length (concat D)) /\
  rx_dropped (p_stats lp') = rx_dropped (p_stats lp) + n.

Lemma accounted_refl lp : accounted lp lp [] 0.
Proof. unfold accounted. rewrite app_nil_r. cbn. split; [reflexivity|lia]. Qed.

Lemma accounted_trans lp lp1 lp2 D1 D2 n1 n2 :
  accounted lp lp1 D1 n1 -> accounted lp1 lp2 D2 n2 -> accounted lp lp2 (D1 ++ D2) (n1 + n2).
Proof.
  intros (A1 & A2 & A3 & A4) (B1 & B2 & B3 & B4). unfold accounted.
  rewrite concat_app, !length_app, B1, A1, app_assoc. repeat split; lia.
Qed.

(** The result [r] of a loop that has handled [count] descriptors before, for a
    queue [q] at descriptor [k] of memory [m], against the result [w] of the
    specification.  Only the ring changes. *)
Definition polled (base count k : Z) (q : list (list Z)) (lp : r6040_private) (m : mem)
    (r : Z * Z * r6040_private * R6040State) (w : list (list Z) * Z * list (list Z)) : Prop :=
  let '(c, desc, lp', s') := r in
  let '(D, n, q') := w in
  exists k', desc = desc_at base k' /\ slot k' (Z.of_nat (length q')) = slot k (Z.of_nat (length q)) /\
    rx_mem base k' q' (ram s') /\ accounted lp lp' D n /\ c = count + Z.of_nat (length D) + n /\
    forall x, ~ (base <= x < base + sizeof_desc * RX_DCNT) -> ram s' x = m x.

Lemma polled_stop base count k q lp s : rx_mem base k q (ram s) ->
  polled base count k q lp (ram s) (count, desc_at base k, lp, s) ([], 0, q).
Proof.
  intros Hm. exists k. pose proof (accounted_refl lp). cbn [length].
  repeat (split; [solve [auto]|]). split; [lia|auto].
Qed.

(** One descriptor handled, then the rest. *)
Lemma polled_next base count k f q lp lp1 m m1 r D1 n1 D n q' :
  accounted lp lp1 D1 n1 -> Z.of_nat (length D1) + n1 = 1 ->
  (forall x, ~ (base <= x < base + sizeof_desc * RX_DCNT) -> m1 x = m x) ->
  polled base (count + 1) ((k + 1) mod RX_DCNT) q lp1 m1 r (D, n, q') ->
  polled base count k (f :: q) lp m r (D1 ++ D, n1 + n, q').
Proof.
  intros Ha1 Hone Hm1. destruct r as [[[c desc] lp'] s']. intros (k' & -> & Hs & Hm' & Ha & -> & Ho).
  exists k'. rewrite length_app. pose proof (accounted_trans _ _ _ _ _ _ _ Ha1 Ha).
  rewrite slot_succ in Hs. cbn [length]. rewrite Nat2Z.inj_succ.
  repeat (split; [solve [auto]|]). split; [lia|]. intros x Hx. rewrite Ho by exact Hx. auto.
Qed.

(** The loop with this limit implements the specification. *)
Definition loop_ok (base : Z) (limit : nat) : Prop :=
  forall count k q allocs lp (s : R6040State),
  rx_mem base k q (ram s) -> fresh base (ram s) (new_bufs allocs) ->
  polled base count k q lp (ram s) (rx_loop limit count (desc_at base k) allocs lp s)
    (poll_spec limit allocs q).

(** A frame dropped for want of a buffer. *)
Lemma rx_loop_drop base limit count k f q allocs lp (s : R6040State) :
  loop_ok base limit -> rx_mem base k (f :: q) (ram s) -> fresh base (ram s) (new_bufs allocs) ->
  let s1 := put16 s (desc_at base k) DSC_OWNER_MAC in
  polled base count k (f :: q) lp (ram s)
    (rx_loop limit (count + 1) (load32 (ram s1) (desc_at base k + OFF_vndescp)) allocs
       (set_stats lp (bump (p_stats lp) 1 0 0 0 0 0 0)) s1)
    (let '(D, n, q') := poll_spec limit allocs q in (D, n + 1, q')).
Proof.
  intros IH Hm Hfr s1. destruct (rearmed_ok base k f q (ram s) Hm) as [Hm1 _].
  pose proof (fresh_rearmed _ _ _ _ _ _ Hm Hfr) as Hf1.
  unfold rearmed, OFF_status in Hm1, Hf1. rewrite Z.add_0_r in Hm1, Hf1.
  change (store16 _ _ _) with (ram s1) in Hm1. change (store16 _ _ _) with (ram s1) in Hf1.
  rewrite (proj2 (rm_linked _ _ _ _ Hm1 k (rm_k _ _ _ _ Hm))).
  specialize (IH (count + 1) ((k + 1) mod RX_DCNT) q allocs
    (set_stats lp (bump (p_stats lp) 1 0 0 0 0 0 0)) s1 Hm1 Hf1).
  destruct (poll_spec limit allocs q) as [[D n] q']. rewrite (Z.add_comm n).
  refine (polled_next base count k f q lp _ _ _ _ [] 1 D n q' _ eq_refl _ IH).
  - unfold accounted. cbn. rewrite app_nil_r. repeat split; lia.
  - pose proof (desc_in_ring base k (rm_k _ _ _ _ Hm)). intros x Hx. apply store16_out; lia.
Qed.

(** A frame delivered: the driver's state [lp1] accounts for it. *)
Lemma rx_loop_deliver base limit count k f q skb allocs lp lp1 (s s1 : R6040State) :
  loop_ok base limit -> rx_mem base k (f :: q) (ram s) ->
  fresh base (ram s) (skb_dma skb :: new_bufs allocs) ->
  ram s1 = refilled (ram s) (desc_at base k) skb -> accounted lp lp1 [f] 0 ->
  polled base count k (f :: q) lp (ram s)
    (rx_loop limit (count + 1) (load32 (ram s1) (desc_at base k + OFF_vndescp)) allocs lp1 s1)
    (let '(D, n, q') := poll_spec limit allocs q in (f :: D, n, q')).
Proof.
  intros IH Hm Hfr E Hacc. pose proof Hfr as [H1 _]. apply Forall_cons_1 in H1 as [[Hb Ha] _].
  destruct (refilled_ok base k f q (ram s) skb Hm Hb Ha) as [Hm1 _].
  pose proof (fresh_refilled _ _ _ _ _ _ _ Hm Hfr) as Hf1. rewrite <- E in Hm1, Hf1.
  specialize (IH (count + 1) ((k + 1) mod RX_DCNT) q allocs lp1 s1 Hm1 Hf1).
  rewrite (proj2 (rm_linked _ _ _ _ Hm1 k (rm_k _ _ _ _ Hm))).
  destruct (poll_spec limit allocs q) as [[D n] q'].
  refine (polled_next base count k f q lp lp1 _ _ _ [f] 0 D n q' Hacc eq_refl _ IH).
  pose proof (desc_in_ring base k (rm_k _ _ _ _ Hm)). intros x Hx. rewrite E. apply refilled_out; lia.
Qed.

Lemma rx_loop_queue base limit : loop_ok base limit.
Proof.
  induction limit as [|limit IH]; intros count k q allocs lp s Hm Hfr; cbn [rx_loop poll_spec].
  { apply polled_stop, Hm. }
  unfold get16, get32, OFF_status. rewrite Z.add_0_r. change (dma s) with (ram s).
  destruct q as [|f q].
  { rewrite (rx_empty base k (ram s) Hm). apply polled_stop, Hm. }
  destruct (rx_front base k f q (ram s) Hm) as [(F1 & F2 & F3 & F4) _]. rewrite F1.
  change (anyset 0x4000 DSC_OWNER_MAC) with false. change (anyset 0x4000 DSC_RX_ERR) with false. cbv iota.
  destruct allocs as [|[skb|] allocs].
  - exact (rx_loop_drop base limit count k f q [] lp s IH Hm Hfr).
  - apply (rx_loop_deliver base limit count k f q skb allocs lp _ s); auto.
    + unfold refilled, rearmed, OFF_status. rewrite Z.add_0_r. reflexivity.
    + unfold accounted, OFF_len, OFF_buf. rewrite F2. cbn. rewrite app_nil_r.
      replace (Z.of_nat (length f) + 4 - 4) with (Z.of_nat (length f)) by lia.
      unfold buf_at in F3. rewrite F3. repeat split; lia.
  - exact (rx_loop_drop base limit count k f q allocs lp s IH Hm Hfr).
Qed.

(** ** The controller and the driver together *)

(** The ring holds [q], the controller's receive pointer is at the first
    descriptor after it and the driver's at its front. *)
Record rx_inv (base k : Z) (q : list (list Z)) (lp : r6040_private) (s : R6040State) : Prop := {
  ri_mem : rx_mem base k q (ram s);
  ri_start : RX_START s = desc_at base (slot k (Z.of_nat (length q)));
  ri_remove : rx_remove_ptr lp = desc_at base k;
  ri_regs : regs_ok s;
  ri_size : regs_w s MRBSR_W = MAX_BUF_SIZE
}.

(** A frame the wire can carry. *)
Definition frame_ok (f : list Z) : Prop :=
  Z.of_nat (length f) + 4 <= MAX_BUF_SIZE /\ Forall (fun b => 0 <= b < 0x100) f.

Lemma receive_accepts base k q lp s f :
  rx_inv base k q lp s -> frame_ok f -> Z.of_nat (length q) < RX_DCNT ->
  let '(r, s') := r6040_receive s f in
  r = Z.of_nat (length f) /\ rx_inv base k (q ++ [f]) lp s' /\
  regs_w s' MISR_W = u16 (Z.lor (regs_w s MISR_W) 1) /\
  (forall x, ~ (base <= x < base + sizeof_desc * RX_DCNT) ->
     ~ (buf_at (ram s) base (slot k (Z.of_nat (length q))) <= x
        < buf_at (ram s) base (slot k (Z.of_nat (length q))) + MAX_BUF_SIZE) -> ram s' x = ram s x).
Proof.
  intros [Hm Hst Hrm Hr Hsz] [Hf Hby] Hq. pose proof Hm as [Hb Hbase Hl Hk Hlen Hbuf Hap Hfull Hfree].
  pose proof (slot_range k (Z.of_nat (length q))) as Hi. pose proof (desc_in_ring base _ Hi) as Hd.
  pose proof (Hfree _ (conj (Z.le_refl _) Hq)) as Hown. rewrite <- Hst in Hown, Hd.
  pose proof (Hbuf _ Hi) as Hbo. unfold buf_at in Hbo. rewrite <- Hst in Hbo. destruct Hbo as (B1 & B2 & B3 & _).
  pose proof (receive_regs s f) as Hregs. rewrite Hown in Hregs.
  change (anyset DSC_OWNER_MAC 0x8000) with true in Hregs. cbv iota in Hregs.
  destruct (receive_state s f Hb) as (s' & E & Hs' & Hram).
  - rewrite <- owned_status, Hown by exact Hb. reflexivity.
  - rewrite Hsz. exact Hf.
  - intros x Hx. lia.
  - rewrite E in *. destruct Hregs as (Hr' & _ & Hkeep & Hq'). rewrite Hown in Hram.
    split; [reflexivity|]. split; [|split; [exact Hq'|]].
    + rewrite Hst in Hram, Hs'. split; auto.
      * apply (append_mem base k q (ram s) f); auto.
      * rewrite Hs'. etransitivity; [apply (Hl _ Hi)|]. f_equal. unfold slot.
        rewrite Zplus_mod_idemp_l, length_app. f_equal. cbn [length]. lia.
      * rewrite Hkeep by (vm_compute; intuition discriminate). exact Hsz.
    + intros x Hx1 Hx2. unfold buf_at in Hx2. rewrite <- Hst in Hx2.
      rewrite Hram, !store16_out by lia. apply store_bytes_out. lia.
Qed.

Lemma receive_full base k q lp s f :
  rx_inv base k q lp s -> Z.of_nat (length q) = RX_DCNT -> r6040_receive s f = (0, s).
Proof.
  intros [Hm Hst Hrm Hr Hsz] Hq. apply receive_refuses; [apply Hm|]. rewrite Hst, Hq.
  destruct q as [|g q]; [discriminate|]. destruct (rx_front base k g q _ Hm) as [(F1 & _) _].
  pose proof (rm_k _ _ _ _ Hm). rewrite <- owned_status by apply Hm. unfold slot. rewrite <- Z.add_mod_idemp_r, Z.mod_same, Z.add_0_r by discriminate.
  rewrite Z.mod_small, F1 by assumption. reflexivity.
Qed.

(** What the transmit side keeps in the private structure. *)
Definition tx_side (lp : r6040_private) : Z * Z * Z * Z :=
  (tx_ring lp, tx_insert_ptr lp, tx_remove_ptr lp, tx_free_desc lp).

Lemma rx_loop_keeps limit : forall count desc allocs lp (s : R6040State),
  let '(_, _, lp', s') := rx_loop limit count desc allocs lp s in
  sent s' = sent s /\ tx_side lp' = tx_side lp /\ rx_ring lp' = rx_ring lp.
Proof.
  induction limit as [|limit IH]; intros count desc allocs lp s; cbn [rx_loop]; [auto|].
  destruct (anyset (get16 s (desc + OFF_status)) DSC_OWNER_MAC); [auto|].
  destruct (anyset (get16 s (desc + OFF_status)) DSC_RX_ERR); [|destruct allocs as [|[skb|] allocs]];
    match goal with |- context [rx_loop limit ?c ?d ?al ?l ?x] => exact (IH c d al l x) end.
Qed.

(** A poll of the ring: the queue changes as specified, the controller's
    receive pointer stays. *)
Lemma poll_queue base k q lp s budget allocs :
  rx_inv base k q lp s -> fresh base (ram s) (new_bufs allocs) ->
  let '(work, lp', s') := r6040_poll budget allocs lp s in
  let '(D, n, q') := poll_spec (Z.to_nat budget) allocs q in
  accounted lp lp' D n /\ work = Z.of_nat (length D) + n /\ (exists k', rx_inv base k' q' lp' s') /\
  sent s' = sent s /\ tx_side lp' = tx_side lp /\ rx_ring lp' = rx_ring lp /\
  (forall i, i <> MIER_W -> regs_w s' i = regs_w s i) /\
  (forall x, ~ (base <= x < base + sizeof_desc * RX_DCNT) -> ram s' x = ram s x).
Proof.
  intros [Hm Hst Hrm Hr Hsz] Hfr. unfold r6040_poll, r6040_rx. rewrite Hrm.
  pose proof (rx_loop_queue base (Z.to_nat budget) 0 k q allocs lp s Hm Hfr) as Hq.
  pose proof (rx_loop_regs (Z.to_nat budget) 0 (desc_at base k) allocs lp s) as Hregs.
  pose proof (rx_loop_keeps (Z.to_nat budget) 0 (desc_at base k) allocs lp s) as Hkeep.
  destruct (rx_loop _ _ _ allocs lp s) as [[[c desc] lp1] s1]. cbn [snd] in Hregs.
  destruct Hkeep as (K1 & K2 & K3).
  destruct (poll_spec _ allocs q) as [[D n] q']. destruct Hq as (k' & -> & Hs & Hm' & Ha & -> & Ho).
  assert (Hinv : rx_inv base k' q' (set_rx lp1 (rx_insert_ptr lp1) (desc_at base k')) s1).
  { split; auto; [|intros i; rewrite Hregs; apply Hr|rewrite Hregs; exact Hsz].
    unfold RX_START in *. rewrite Hregs, Hs. exact Hst. }
  destruct (_ <? budget); [|rewrite Hregs; eauto 10].
  split; [exact Ha|]. split; [reflexivity|]. split; [|split; [exact K1|split; [exact K2|split; [exact K3|split; [|exact Ho]]]]].
  2: { intros i Hi. etransitivity; [apply store_ne; exact Hi|]. rewrite Hregs. reflexivity. }
  exists k'. destruct Hinv as [I1 I2 I3 I4 I5].
  split; auto. intros i. apply (set_reg_ok _ _ _ I4).
Qed.

(** What can happen: a frame arrives, or the stack polls with what its
    allocator will give. *)
Inductive rx_op : Type :=
| Arrive (f : list Z)
| Poll (budget : Z) (allocs : list (option sk_buff)).

(** The queue the two promise: at most [RX_DCNT] frames, more are refused; a
    poll takes the oldest, at most [budget]. *)
Record rx_queue : Type := mkQueue { waiting : list (list Z); passed_up : list (list Z); dropped : Z }.

Definition queue_step (w : rx_queue) (op : rx_op) : rx_queue :=
  match op with
  | Arrive f =>
      if Z.of_nat (length (waiting w)) <? RX_DCNT
      then mkQueue (waiting w ++ [f]) (passed_up w) (dropped w) else w
  | Poll budget allocs =>
      let '(D, n, q') := poll_spec (Z.to_nat budget) allocs (waiting w) in
      mkQueue q' (passed_up w ++ D) (dropped w + n)
  end.

End Rings.

End RxSpec.
