(* ===== verification/LinuxR6040Duplex.v ===== *)
(** Driver and emulated controller in both directions: bringing the interface
    up establishes the transmit and the receive invariants, and any
    interleaving of transmissions, interrupts, arriving frames and polls refines
    a pair of queues. *)
From Stdlib Require Import ZArith Lia.
From stdpp Require Import base list numbers.
From S2P Require Import Prelude R6040 R6040Spec LinuxR6040 LinuxR6040Spec LinuxR6040Rx.

Module Duplex.
Import R6040 R6040Spec Driver DriverSpec RxSpec.

(** ** Filling the receive ring *)

(** The buffer the [i]th descriptor gets. *)
Definition given (skbs : list sk_buff) (i : Z) : Z := skb_dma (nth (Z.to_nat i) skbs (mkSkb 0 0 0)).

Lemma alloc_loop_ok base n : forall k skbs (s : R6040State),
  0 <= base -> base + sizeof_desc * RX_DCNT < 2 ^ 32 -> linked (ram s) base RX_DCNT -> bytes_ok (ram s) ->
  0 <= k < RX_DCNT -> k + Z.of_nat n = RX_DCNT -> (n <= length skbs)%nat ->
  Forall (fun skb => 0 <= skb_dma skb < 2 ^ 32) skbs ->
  exists m, alloc_loop n base (desc_at base k) skbs s = (Some (drop n skbs), set_ram s m) /\
    bytes_ok m /\ linked m base RX_DCNT /\
    (forall i, k <= i < RX_DCNT ->
       load16 m (desc_at base i) = DSC_OWNER_MAC /\ buf_at m base i = given skbs (i - k)) /\
    (forall x, ~ (desc_at base k <= x < base + sizeof_desc * RX_DCNT) -> m x = ram s x).
Proof.
  induction n as [|n IH]; intros k skbs s H0 Hlt Hl Hb Hk Hn Hlen Hs; [unfold RX_DCNT in *; lia|].
  destruct skbs as [|skb skbs]; [cbn in Hlen; lia|]. cbn [length] in Hlen.
  apply Forall_cons_1 in Hs as [Hd Hs]. cbn [alloc_loop drop].
  set (s1 := put16 _ _ DSC_OWNER_MAC). set (a := desc_at base k).
  assert (E1 : s1 = set_ram s (refilled (ram s) a skb)) by reflexivity.
  destruct (refilled_fields (ram s) a skb Hd) as [F1 F2].
  assert (Hl1 : linked (refilled (ram s) a skb) base RX_DCNT).
  { apply (linked_ext (ram s)); [exact Hl|]. intros i x Hi Hx. apply refilled_out;
      (destruct (Z.eq_dec i k) as [->|Hne]; [fold a in Hx; lia|];
       destruct (desc_at_apart base i k Hne) as [H1|H1]; fold a in H1; lia). }
  assert (Hv : get32 s1 (a + OFF_vndescp) = desc_at base ((k + 1) mod RX_DCNT))
    by (rewrite E1; apply (Hl1 k Hk)).
  rewrite Hv, E1. destruct (Z.eq_dec (k + 1) RX_DCNT) as [El|El].
  - rewrite El, Z.mod_same by discriminate. unfold desc_at at 1. rewrite Z.mul_0_r, Z.add_0_r, Z.eqb_refl.
    replace n with 0%nat by lia. exists (refilled (ram s) a skb). split; [reflexivity|].
    split; [apply bytes_ok_refilled, Hb|]. split; [exact Hl1|]. split.
    + intros i Hi. replace i with k by lia. rewrite Z.sub_diag. split; [exact F1|exact F2].
    + intros x Hx. apply refilled_out; unfold a, desc_at, sizeof_desc in *; lia.
  - rewrite Z.mod_small by lia. rewrite (proj2 (Z.eqb_neq _ base)) by (unfold desc_at, sizeof_desc; lia).
    destruct (IH (k + 1) skbs (set_ram s (refilled (ram s) a skb))) as (m & E & Bm & Lm & Fm & Om);
      auto; try lia; [apply bytes_ok_refilled, Hb|].
    exists m. split; [exact E|]. split; [exact Bm|]. split; [exact Lm|]. cbn [set_ram ram] in Om. split.
    + intros i Hi. destruct (Z.eq_dec i k) as [->|Hne].
      * fold a. unfold buf_at. fold a. rewrite Z.sub_diag.
        rewrite (load16_ext (refilled (ram s) a skb)), (load32_ext (refilled (ram s) a skb));
          [split; [exact F1|exact F2]| | |];
          intros; apply Om; unfold a, desc_at, sizeof_desc in *; lia.
      * destruct (Fm i ltac:(lia)) as [G1 G2]. split; [exact G1|]. rewrite G2. unfold given.
        replace (Z.to_nat (i - k)) with (S (Z.to_nat (i - (k + 1)))) by lia. reflexivity.
    + intros x Hx. rewrite Om by (unfold desc_at, sizeof_desc in *; lia).
      apply refilled_out; unfold a, desc_at, sizeof_desc, RX_DCNT in *; lia.
Qed.

(** ** What the two sides need of each other *)

Lemma rx_mem_ext tx base k q m m' :
  rx_mem tx base k q m -> bytes_ok m' ->
  (forall x, base <= x < base + sizeof_desc * RX_DCNT -> m' x = m x) ->
  (forall i x, 0 <= i < RX_DCNT -> buf_at m base i <= x < buf_at m base i + MAX_BUF_SIZE -> m' x = m x) ->
  rx_mem tx base k q m'.
Proof.
  intros [Hb Hbase Hl Hk Hlen Hbuf Hap Hfull Hfree] Hb' Er Eb.
  assert (Hd : forall i x, 0 <= i < RX_DCNT -> desc_at base i <= x < desc_at base i + 32 -> m' x = m x)
    by (intros i x Hi Hx; pose proof (desc_in_ring base i Hi); apply Er; lia).
  assert (Hbufs : forall i, 0 <= i < RX_DCNT -> buf_at m' base i = buf_at m base i)
    by (intros i Hi; apply load32_ext; intros x Hx; apply (Hd i); lia).
  split; auto.
  - apply (linked_ext m); [exact Hl|]. intros i x Hi Hx. apply (Hd i); lia.
  - intros i Hi. rewrite Hbufs by exact Hi. apply Hbuf, Hi.
  - intros i j Hi Hj Hne. rewrite !Hbufs by assumption. apply Hap; assumption.
  - intros j f Hf. pose proof (slot_range k (Z.of_nat j)) as Hi.
    apply (holds_ext m); [exact Hi|apply Hfull, Hf| |intros x; apply Eb, Hi].
    intros x Hx. apply (Hd (slot k (Z.of_nat j))); lia.
  - intros j Hj. rewrite <- (Hfree j Hj). pose proof (slot_range k j) as Hi.
    apply load16_ext; apply (Hd (slot k j)); lia.
Qed.

Lemma tx_inv_ext j lp lp' s s' :
  tx_inv j lp s -> tx_side lp' = tx_side lp -> bytes_ok (ram s') -> regs_ok s' ->
  (forall x, tx_ring lp <= x < tx_ring lp + sizeof_desc * TX_DCNT -> ram s' x = ram s x) ->
  regs_w s' (0x2c / 2) = regs_w s (0x2c / 2) -> regs_w s' (0x30 / 2) = regs_w s (0x30 / 2) ->
  tx_inv j lp' s'.
Proof.
  intros [Hb Hr Hbase Hl Hj Hins Hst Hh Hfree Hrem] [= E1 E2 E3 E4] Hb' Hr' Em R1 R2.
  assert (Hd : forall i x, 0 <= i < TX_DCNT -> desc_at (tx_ring lp) i <= x < desc_at (tx_ring lp) i + 32 ->
            ram s' x = ram s x)
    by (intros i x Hi Hx; apply Em; unfold desc_at, sizeof_desc, TX_DCNT in *; lia).
  split; rewrite ?E1, ?E2, ?E3, ?E4; auto.
  - apply (linked_ext (ram s)); [exact Hl|]. intros i x Hi Hx. apply (Hd i); lia.
  - unfold TX_START in *. rewrite R1, R2. exact Hst.
  - intros i Hi. unfold owned. rewrite (Hd i) by lia. apply Hh, Hi.
Qed.

Lemma rx_inv_ext tx base k q lp lp' s s' :
  rx_inv tx base k q lp s -> rx_remove_ptr lp' = rx_remove_ptr lp -> bytes_ok (ram s') -> regs_ok s' ->
  (forall x, base <= x < base + sizeof_desc * RX_DCNT -> ram s' x = ram s x) ->
  (forall i x, 0 <= i < RX_DCNT -> buf_at (ram s) base i <= x < buf_at (ram s) base i + MAX_BUF_SIZE ->
     ram s' x = ram s x) ->
  (forall i, i = 0x34 / 2 \/ i = 0x38 / 2 \/ i = MRBSR_W -> regs_w s' i = regs_w s i) ->
  rx_inv tx base k q lp' s'.
Proof.
  intros [Hm Hst Hrm Hr Hsz] E Hb' Hr' Em1 Em2 Hregs. split; auto.
  - apply (rx_mem_ext tx base k q (ram s)); auto.
  - unfold RX_START in *. rewrite !Hregs by auto. exact Hst.
  - congruence.
  - rewrite Hregs by auto. exact Hsz.
Qed.

(** The two rings do not overlap. *)
Definition rings_apart (lp : r6040_private) : Prop :=
  tx_ring lp + sizeof_desc * TX_DCNT <= rx_ring lp \/ rx_ring lp + sizeof_desc * RX_DCNT <= tx_ring lp.

(** ** The specification: two queues *)

(** The receive queue, the frames put on the wire, the free transmit
    descriptors and whether a transmission awaits its interrupt. *)
Record duplex : Type := mkDuplex {
  dx_queue : rx_queue; dx_wire : list (list Z); dx_room : Z; dx_done : bool
}.

(** The stack transmits buffer [skb] holding [f] (padded to 60 bytes); the
    interrupt handler runs; a frame arrives or the stack polls; the rest of the
    kernel writes to memory it owns. *)
Inductive dx_op : Type :=
| Send (skb : sk_buff) (f : list Z)
| Interrupt
| Rx (op : rx_op)
| Host (m : mem).

Definition duplex_step (d : duplex) (op : dx_op) : duplex :=
  match op with
  | Send _ f =>
      if dx_room d =? 0 then d
      else mkDuplex (dx_queue d) (dx_wire d ++ [f]) (dx_room d - 1) true
  | Interrupt => if dx_done d then mkDuplex (dx_queue d) (dx_wire d) TX_DCNT false else d
  | Rx op => mkDuplex (queue_step (dx_queue d) op) (dx_wire d) (dx_room d) (dx_done d)
  | Host _ => d
  end.

(** ** The implementation *)

(** Memory the driver and the controller do not use. *)
Definition untouched (lp : r6040_private) (m m' : mem) : Prop :=
  bytes_ok m' /\
  (forall x, tx_ring lp <= x < tx_ring lp + sizeof_desc * TX_DCNT -> m' x = m x) /\
  (forall x, rx_ring lp <= x < rx_ring lp + sizeof_desc * RX_DCNT -> m' x = m x) /\
  (forall i x, 0 <= i < RX_DCNT -> buf_at m (rx_ring lp) i <= x < buf_at m (rx_ring lp) i + MAX_BUF_SIZE ->
     m' x = m x).

Inductive dx_step : r6040_private * R6040State -> dx_op -> r6040_private * R6040State -> Prop :=
| step_send lp s skb r lp' s' :
    skb_ok lp skb -> r6040_start_xmit skb lp s = (r, lp', s') ->
    dx_step (lp, s) (Send skb (wire (ram s) skb)) (lp', s')
| step_interrupt lp s r lp' s' :
    r6040_interrupt lp s = (r, lp', s') -> dx_step (lp, s) Interrupt (lp', s')
| step_arrive lp s f r s' :
    frame_ok f -> r6040_receive s f = (r, s') -> dx_step (lp, s) (Rx (Arrive f)) (lp, s')
| step_poll lp s budget allocs work lp' s' :
    fresh (tx_ring lp) (rx_ring lp) (ram s) (new_bufs allocs) ->
    r6040_poll budget allocs lp s = (work, lp', s') ->
    dx_step (lp, s) (Rx (Poll budget allocs)) (lp', s')
| step_host lp s m : untouched lp (ram s) m -> dx_step (lp, s) (Host m) (lp, set_ram s m).

Inductive dx_steps : r6040_private * R6040State -> list dx_op -> r6040_private * R6040State -> Prop :=
| steps_nil c : dx_steps c [] c
| steps_cons c op c1 ops c2 : dx_step c op c1 -> dx_steps c1 ops c2 -> dx_steps c (op :: ops) c2.

(** The status register only ever shows reception and transmission. *)
Definition misr_ok (v : Z) : Prop := v = 0 \/ v = 1 \/ v = 0x10 \/ v = 0x11.

Record dx_refines (d : duplex) (c : r6040_private * R6040State) : Prop := {
  dr_tx : exists j, tx_inv j c.1 c.2;
  dr_rx : exists k, rx_inv (tx_ring c.1) (rx_ring c.1) k (waiting (dx_queue d)) c.1 c.2;
  dr_apart : rings_apart c.1;
  dr_misr : misr_ok (regs_w c.2 MISR_W);
  dr_up : delivered c.1 = passed_up (dx_queue d);
  dr_dropped : rx_dropped (p_stats c.1) = dropped (dx_queue d);
  dr_wire : sent c.2 = dx_wire d;
  dr_room : tx_free_desc c.1 = dx_room d;
  dr_done : anyset (regs_w c.2 MISR_W) TX_INTS = dx_done d
}.

(** A change outside the receive ring and its buffers, as transmission makes. *)
Lemma rx_inv_tx_change k q lp lp' s s' :
  rx_inv (tx_ring lp) (rx_ring lp) k q lp s -> rings_apart lp -> rx_side lp' = rx_side lp ->
  bytes_ok (ram s') -> regs_ok s' ->
  (forall x, ~ (tx_ring lp <= x < tx_ring lp + sizeof_desc * TX_DCNT) -> ram s' x = ram s x) ->
  (forall i, i = 0x34 / 2 \/ i = 0x38 / 2 \/ i = MRBSR_W -> regs_w s' i = regs_w s i) ->
  rx_inv (tx_ring lp) (rx_ring lp) k q lp' s'.
Proof.
  intros Hi Hap [= _ E2 _ _] Hb Hr Em Hregs. apply (rx_inv_ext _ _ k q lp lp' s s'); auto.
  - intros x Hx. apply Em. unfold rings_apart in Hap. lia.
  - intros i x Hi' Hx. destruct (rm_buf _ _ _ _ _ (ri_mem _ _ _ _ _ _ Hi) i Hi') as (_ & _ & _ & Hoff).
    apply Em. lia.
Qed.

Lemma tx_reg_disjoint i : i = 0x34 / 2 \/ i = 0x38 / 2 \/ i = MRBSR_W -> ~ tx_reg i.
Proof. intros [-> | [-> | ->]]; vm_compute; intuition discriminate. Qed.

Lemma rx_reg_disjoint i : i = 0x2c / 2 \/ i = 0x30 / 2 -> ~ rx_reg i.
Proof. intros [-> | ->]; vm_compute; intuition discriminate. Qed.

Lemma send_refines d lp s skb r lp' s' :
  dx_refines d (lp, s) -> skb_ok lp skb -> r6040_start_xmit skb lp s = (r, lp', s') ->
  dx_refines (duplex_step d (Send skb (wire (ram s) skb))) (lp', s').
Proof.
  intros [[j Htx] [k Hrx] Hap Hmi Hup Hdr Hw Hroom Hdone] Hskb E. cbn [fst snd duplex_step] in *.
  rewrite <- Hroom. destruct (Z.eqb_spec (tx_free_desc lp) 0) as [E0|E0].
  - unfold r6040_start_xmit in E. rewrite E0 in E. injection E as _ <- <-.
    split; auto; [exists j; destruct Htx; split; auto|exists k; destruct Hrx; split; auto].
  - pose proof (ti_free _ _ _ Htx).
    destruct (start_xmit_ok j lp s skb Htx Hskb ltac:(lia))
      as (lp1 & s1 & E1 & Hinv & L & F & B & M & RS & Q & G).
    rewrite E1 in E. injection E as _ <- <-.
    assert (Hrx' := rx_inv_tx_change k _ lp lp1 s s1 Hrx Hap RS (ti_bytes _ _ _ Hinv) (ti_regs _ _ _ Hinv) M
      (fun i Hi => G i (tx_reg_disjoint i Hi))).
    injection RS as R1 R2 R3 R4. cbn [dx_queue dx_wire dx_room dx_done].
    split; cbn [fst snd dx_queue dx_wire dx_room dx_done]; unfold rings_apart in *; rewrite ?B, ?R1; eauto; try congruence.
    + rewrite Q. destruct Hmi as [-> | [-> | [-> | ->]]]; vm_compute; auto.
    + rewrite Q. destruct Hmi as [-> | [-> | [-> | ->]]]; reflexivity.
Qed.

(** The interrupt handler as the three things it does: mask and acknowledge,
    reclaim when a transmission is complete, unmask. *)
Lemma interrupt_parts lp s :
  misr_ok (regs_w s MISR_W) ->
  exists lp1 mask,
    let s1 := set_reg (iowrite16 MSK_INT MIER s) MISR_W 0 in
    let '(lp2, s2) := if anyset (regs_w s MISR_W) TX_INTS then r6040_tx lp1 s1 else (lp1, s1) in
    (r6040_interrupt lp s).1.2 = lp2 /\ (r6040_interrupt lp s).2 = iowrite16 mask MIER s2 /\
    tx_side lp1 = tx_side lp /\ rx_side lp1 = rx_side lp.
Proof.
  intros Hm. unfold r6040_interrupt.
  change (ioread16 MIER s) with (regs_w s MIER_W, s). cbv beta iota.
  change (ioread16 MISR (iowrite16 MSK_INT MIER s))
    with (regs_w s MISR_W, set_reg (iowrite16 MSK_INT MIER s) MISR_W 0). cbv beta iota.
  set (s1 := set_reg _ MISR_W 0). destruct Hm as [-> | [-> | [-> | ->]]].
  - exists lp, (regs_w s MIER_W). repeat split.
  - exists (set_napi lp true), (clear (regs_w s MIER_W) RX_INTS). repeat split.
  - exists lp, (regs_w s MIER_W). change (anyset 0x10 RX_INTS) with false. change (anyset 0x10 TX_INTS) with true.
    change ((0x10 =? 0) || (0x10 =? 0xffff)) with false. cbv iota beta zeta.
    destruct (r6040_tx lp s1) as [lp2 s2]. repeat split.
  - exists (set_napi lp true), (clear (regs_w s MIER_W) RX_INTS).
    change (anyset 0x11 RX_INTS) with true. change (anyset 0x11 RX_NO_DESC) with false.
    change (anyset 0x11 RX_FIFO_FULL) with false. change (anyset 0x11 TX_INTS) with true.
    change ((0x11 =? 0) || (0x11 =? 0xffff)) with false. cbv iota beta zeta.
    destruct (r6040_tx (set_napi lp true) s1) as [lp2 s2]. repeat split.
Qed.

(** A change of the two interrupt registers. *)
Lemma refine_regs d lp s lp' s' :
  dx_refines d (lp, s) -> tx_side lp' = tx_side lp -> rx_side lp' = rx_side lp ->
  ram s' = ram s -> sent s' = sent s -> regs_ok s' ->
  (forall i, i <> MIER_W -> i <> MISR_W -> regs_w s' i = regs_w s i) -> misr_ok (regs_w s' MISR_W) ->
  dx_refines (mkDuplex (dx_queue d) (dx_wire d) (dx_room d) (anyset (regs_w s' MISR_W) TX_INTS)) (lp', s').
Proof.
  intros [[j Htx] [k Hrx] Hap Hmi Hup Hdr Hw Hroom Hdone] Et Er Em Es Hr Hregs Hmi'. cbn [fst snd] in *.
  assert (Hb : bytes_ok (ram s')) by (rewrite Em; apply Htx).
  assert (Htx' : tx_inv j lp' s').
  { apply (tx_inv_ext j lp lp' s s' Htx Et Hb Hr); [intros; rewrite Em; reflexivity| |];
      apply Hregs; vm_compute; discriminate. }
  assert (Hrx' : rx_inv (tx_ring lp) (rx_ring lp) k (waiting (dx_queue d)) lp' s').
  { apply (rx_inv_tx_change k _ lp lp' s s' Hrx Hap Er Hb Hr); [intros; rewrite Em; reflexivity|].
    intros i [-> | [-> | ->]]; apply Hregs; vm_compute; discriminate. }
  injection Et as T1 T2 T3 T4. injection Er as R1 R2 R3 R4.
  split; cbn [fst snd dx_queue dx_wire dx_room dx_done]; unfold rings_apart in *; rewrite ?T1, ?R1;
    eauto; congruence.
Qed.

(** Reclaiming. *)
Lemma reclaim_refines d lp s lp' s' :
  dx_refines d (lp, s) -> r6040_tx lp s = (lp', s') ->
  dx_refines (mkDuplex (dx_queue d) (dx_wire d) TX_DCNT (dx_done d)) (lp', s').
Proof.
  intros [[j Htx] [k Hrx] Hap Hmi Hup Hdr Hw Hroom Hdone] E. cbn [fst snd] in *.
  pose proof (r6040_tx_ok j lp s Htx) as Ht. pose proof (r6040_tx_regs lp s) as Hregs. rewrite E in Ht, Hregs.
  destruct Ht as (Hinv & F & B & _ & L & RS & M). cbn [snd] in Hregs.
  assert (Hrx' := rx_inv_tx_change k _ lp lp' s s' Hrx Hap RS (ti_bytes _ _ _ Hinv) (ti_regs _ _ _ Hinv) M
      (fun i _ => f_equal (fun g => g i) Hregs)).
  injection RS as R1 R2 R3 R4.
  split; cbn [fst snd dx_queue dx_wire dx_room dx_done]; unfold rings_apart in *; rewrite ?B, ?R1, ?Hregs;
    eauto; congruence.
Qed.

Lemma write_MIER_only v s :
  let s' := iowrite16 v MIER s in
  ram s' = ram s /\ sent s' = sent s /\ (regs_ok s -> regs_ok s') /\
  (forall i, i <> MIER_W -> regs_w s' i = regs_w s i).
Proof.
  split; [reflexivity|]. split; [reflexivity|]. split; [apply (set_reg_ok s)|].
  intros i Hi. apply store_ne, Hi.
Qed.

Lemma interrupt_refines d lp s r lp' s' :
  dx_refines d (lp, s) -> r6040_interrupt lp s = (r, lp', s') ->
  dx_refines (duplex_step d Interrupt) (lp', s').
Proof.
  intros Hd E. destruct (interrupt_parts lp s (dr_misr _ _ Hd)) as (lp1 & mask & Hp).
  rewrite E in Hp. cbn [fst snd] in Hp. set (s1 := set_reg (iowrite16 MSK_INT MIER s) MISR_W 0) in Hp.
  pose proof (dr_tx _ _ Hd) as [j Htx]. cbn [fst snd] in Htx.
  assert (Hack : tx_side lp1 = tx_side lp -> rx_side lp1 = rx_side lp ->
            dx_refines (mkDuplex (dx_queue d) (dx_wire d) (dx_room d) false) (lp1, s1)).
  { intros T R. apply (refine_regs d lp s lp1 s1 Hd T R); try reflexivity.
    - repeat apply (set_reg_ok _). apply Htx.
    - intros i H1 H2. cbn [s1 set_reg regs_w]. rewrite store_ne by exact H2. apply store_ne, H1.
    - left. reflexivity. }
  assert (Hend : forall d2 lp2 s2, dx_refines d2 (lp2, s2) -> dx_refines d2 (lp2, iowrite16 mask MIER s2)).
  { intros d2 lp2 s2 H2. destruct (write_MIER_only mask s2) as (M & L & R & G).
    destruct (dr_tx _ _ H2) as [j2 Htx2].
    assert (Q : regs_w (iowrite16 mask MIER s2) MISR_W = regs_w s2 MISR_W) by (apply G; vm_compute; discriminate).
    pose proof (refine_regs d2 lp2 s2 lp2 (iowrite16 mask MIER s2) H2 eq_refl eq_refl M L
      (R (ti_regs _ _ _ Htx2)) (fun i Hi _ => G i Hi)) as H3.
    pose proof (dr_done _ _ H2) as Hdone. cbn [snd] in Hdone.
    rewrite Q, Hdone in H3. destruct d2. apply H3, (dr_misr _ _ H2). }
  pose proof (dr_done _ _ Hd) as Hdone. cbn [snd] in Hdone.
  cbn [duplex_step]. rewrite <- Hdone.
  destruct (anyset (regs_w s MISR_W) TX_INTS) eqn:Ed.
  - destruct (r6040_tx lp1 s1) as [lp2 s2] eqn:Etx. destruct Hp as (-> & -> & T & R).
    apply Hend, (reclaim_refines _ lp1 s1 lp2 s2 (Hack T R) Etx).
  - destruct Hp as (-> & -> & T & R). apply Hend. specialize (Hack T R).
    destruct d. cbn in *. rewrite <- Hdone. exact Hack.
Qed.

Lemma arrive_refines d lp s f r s' :
  dx_refines d (lp, s) -> frame_ok f -> r6040_receive s f = (r, s') ->
  dx_refines (duplex_step d (Rx (Arrive f))) (lp, s').
Proof.
  intros [[j Htx] [k Hrx] Hap Hmi Hup Hdr Hw Hroom Hdone] Hf E. cbn [fst snd duplex_step queue_step] in *.
  pose proof (rm_len _ _ _ _ _ (ri_mem _ _ _ _ _ _ Hrx)) as Hlen.
  destruct (Z.ltb_spec (Z.of_nat (length (waiting (dx_queue d)))) RX_DCNT) as [Hl|Hl].
  - pose proof (receive_accepts _ _ k _ lp s f Hrx Hf Hl) as Hacc.
    pose proof (receive_regs s f) as Hregs. rewrite E in Hacc, Hregs.
    destruct Hacc as (_ & Hrx' & Q & Ho). destruct Hregs as (_ & L & G & _).
    set (i0 := slot k (Z.of_nat (length (waiting (dx_queue d))))) in *.
    destruct (rm_buf _ _ _ _ _ (ri_mem _ _ _ _ _ _ Hrx) i0 (slot_range _ _)) as (_ & _ & _ & Hoff).
    assert (Htx' : tx_inv j lp s').
    { apply (tx_inv_ext j lp lp s s' Htx eq_refl (rm_bytes _ _ _ _ _ (ri_mem _ _ _ _ _ _ Hrx')) (ri_regs _ _ _ _ _ _ Hrx')).
      - intros x Hx. unfold rings_apart in Hap. apply Ho; lia.
      - apply G, rx_reg_disjoint. auto.
      - apply G, rx_reg_disjoint. auto. }
    split; cbn [fst snd dx_queue dx_wire dx_room dx_done waiting passed_up dropped]; eauto; try congruence.
    + rewrite Q. destruct Hmi as [-> | [-> | [-> | ->]]]; vm_compute; auto.
    + rewrite Q, <- Hdone. destruct Hmi as [-> | [-> | [-> | ->]]]; reflexivity.
  - rewrite (receive_full _ _ k _ lp s f Hrx) in E by lia. injection E as _ <-. destruct d. split; eauto.
Qed.

Lemma poll_refines d lp s budget allocs work lp' s' :
  dx_refines d (lp, s) -> fresh (tx_ring lp) (rx_ring lp) (ram s) (new_bufs allocs) ->
  r6040_poll budget allocs lp s = (work, lp', s') ->
  dx_refines (duplex_step d (Rx (Poll budget allocs))) (lp', s').
Proof.
  intros [[j Htx] [k Hrx] Hap Hmi Hup Hdr Hw Hroom Hdone] Hf E. cbn [fst snd duplex_step queue_step] in *.
  pose proof (poll_queue _ _ k _ lp s budget allocs Hrx Hf) as Hq. rewrite E in Hq.
  destruct (poll_spec _ allocs (waiting (dx_queue d))) as [[D n] q'].
  destruct Hq as ((A1 & _ & _ & A4) & _ & [k' Hrx'] & L & T & RR & G & M).
  assert (Htx' : tx_inv j lp' s').
  { apply (tx_inv_ext j lp lp' s s' Htx T (rm_bytes _ _ _ _ _ (ri_mem _ _ _ _ _ _ Hrx')) (ri_regs _ _ _ _ _ _ Hrx')).
    - intros x Hx. unfold rings_apart in Hap. apply M. lia.
    - apply G. vm_compute. discriminate.
    - apply G. vm_compute. discriminate. }
  injection T as T1 T2 T3 T4.
  assert (Q : regs_w s' MISR_W = regs_w s MISR_W) by (apply G; vm_compute; discriminate).
  split; cbn [fst snd dx_queue dx_wire dx_room dx_done waiting passed_up dropped];
    unfold rings_apart in *; rewrite ?T1, ?RR, ?Q; eauto; congruence.
Qed.

Lemma host_refines d lp s m : dx_refines d (lp, s) -> untouched lp (ram s) m -> dx_refines d (lp, set_ram s m).
Proof.
  intros [[j Htx] [k Hrx] Hap Hmi Hup Hdr Hw Hroom Hdone] (Hb & M1 & M2 & M3). cbn [fst snd] in *.
  split; cbn [fst snd set_ram regs_w sent]; auto.
  - exists j. apply (tx_inv_ext j lp lp s (set_ram s m)); auto. apply Htx.
  - exists k. apply (rx_inv_ext _ _ k _ lp lp s (set_ram s m)); auto. apply Htx.
Qed.

(** C2: the driver and the controller together refine a pair of queues.  For any
    interleaving of transmissions, interrupts, frames arriving and polls, with
    the rest of the kernel writing to the memory it owns: the frames on the wire
    are those of the accepted buffers, unchanged and in order, and a buffer is
    refused only when no descriptor is free; the frames passed up are exactly
    the oldest of at most 128 waiting ones, unchanged and in order, dropped (and
    counted) only for want of a buffer; an interrupt after a transmission frees
    all transmit descriptors; neither direction disturbs the other. *)
Theorem duplex_refined d lp s ops lp' s' :
  dx_refines d (lp, s) -> dx_steps (lp, s) ops (lp', s') ->
  dx_refines (fold_left duplex_step ops d) (lp', s').
Proof.
  intros Hd Hs. revert d Hd. induction Hs as [c|c op c1 ops c2 H1 _ IH]; intros d Hd; [exact Hd|].
  apply IH. destruct H1.
  - eapply send_refines; eassumption.
  - eapply interrupt_refines; eassumption.
  - eapply arrive_refines; eassumption.
  - eapply poll_refines; eassumption.
  - apply host_refines; assumption.
Qed.

(** ** Bringing the interface up *)

(** What the accesses to the PHY leave alone. *)
Record quiet (s s' : R6040State) : Prop := {
  qt_ram : ram s' = ram s;
  qt_sent : sent s' = sent s;
  qt_regs : regs_ok s -> regs_ok s';
  qt_misr : regs_w s' MISR_W = regs_w s MISR_W
}.

#[local] Instance quiet_preorder : PreOrder quiet.
Proof.
  split; [intros s; split; auto|].
  intros s1 s2 s3 [A1 A2 A3 A4] [B1 B2 B3 B4]. split; [congruence|congruence|auto|congruence].
Qed.

Lemma quiet_set_reg s i v : i <> MISR_W -> quiet s (set_reg s i v).
Proof. intros Hi. split; auto; [apply set_reg_ok|]. cbn [set_reg regs_w]. apply store_ne. congruence. Qed.

Lemma quiet_busy s b : quiet s (set_busy s b).
Proof. split; auto. Qed.

Lemma quiet_mdio_command s val : quiet s (mdio_command s val).
Proof.
  unfold mdio_command. repeat case_match; try reflexivity; try (apply quiet_set_reg; vm_compute; discriminate).
  split; auto.
Qed.

Lemma quiet_write_MMDIO s v : quiet s (iowrite16 v MMDIO s).
Proof.
  change (iowrite16 v MMDIO s) with
    (set_reg (set_busy (mdio_command s (u16 v)) true) MMDIO_W (Z.land (Z.lor (u16 v) 0x6000) 0xffff)).
  transitivity (set_busy (mdio_command s (u16 v)) true).
  - transitivity (mdio_command s (u16 v)); [apply quiet_mdio_command|apply quiet_busy].
  - apply quiet_set_reg. vm_compute. discriminate.
Qed.

Lemma quiet_read_MMDIO s : quiet s (ioread16 MMDIO s).2.
Proof.
  destruct (phy_op_in_progress s) eqn:E.
  - rewrite read_MMDIO_busy by exact E. cbn [snd].
    transitivity (set_reg s MMDIO_W (clear (regs_w s MMDIO_W) 0x6000)); [|apply quiet_busy].
    apply quiet_set_reg. vm_compute. discriminate.
  - rewrite read_MMDIO_idle by exact E. reflexivity.
Qed.

Lemma quiet_mdio_wait mask s : quiet s (mdio_wait mask s).
Proof.
  unfold mdio_wait. generalize 2048%nat. intros n. revert s. induction n as [|n IH]; intros s; cbn [nloop]; [reflexivity|].
  pose proof (quiet_read_MMDIO s) as Hq. destruct (ioread16 MMDIO s) as [cmd s1]. cbn [snd] in Hq.
  destruct (negb (anyset cmd mask)); [exact Hq|]. etransitivity; [exact Hq|apply IH].
Qed.

Lemma quiet_phy_read phy reg s : quiet s (r6040_phy_read phy reg s).2.
Proof.
  unfold r6040_phy_read. etransitivity; [apply quiet_write_MMDIO|]. etransitivity; [apply quiet_mdio_wait|].
  split; auto.
Qed.

Lemma quiet_phy_write phy reg v s : quiet s (r6040_phy_write phy reg v s).
Proof.
  unfold r6040_phy_write. transitivity (iowrite16 v MMWD s).
  - apply (quiet_set_reg s MDIO_WRITE_W (Z.land (u16 v) 0xffff)). vm_compute. discriminate.
  - etransitivity; [apply quiet_write_MMDIO|apply quiet_mdio_wait].
Qed.

(** The buffers the allocator gives for the ring. *)
Definition pool_ok (lp : r6040_private) (skbs : list sk_buff) : Prop :=
  Forall (fun skb => buf_ok (tx_ring lp) (rx_ring lp) (skb_dma skb)) skbs /\
  ForallOrdPairs apart (map skb_dma skbs) /\ RX_DCNT <= Z.of_nat (length skbs).

Lemma given_ok lp skbs i : pool_ok lp skbs -> 0 <= i < RX_DCNT ->
  buf_ok (tx_ring lp) (rx_ring lp) (given skbs i).
Proof.
  intros (H1 & _ & Hl) Hi. rewrite List.Forall_forall in H1. unfold given. apply H1, nth_In. lia.
Qed.

Lemma pairs_apart l : ForallOrdPairs apart l -> forall i j, (i < j < length l)%nat ->
  apart (nth i l 0) (nth j l 0).
Proof.
  induction 1 as [|a l Ha Hl IH]; intros i j Hij; [cbn in Hij; lia|]. cbn [length] in Hij.
  destruct j as [|j]; [lia|]. rewrite List.Forall_forall in Ha.
  destruct i as [|i]; cbn [nth]; [apply Ha, nth_In; lia|apply IH; lia].
Qed.

Lemma given_apart lp skbs i j : pool_ok lp skbs -> 0 <= i < RX_DCNT -> 0 <= j < RX_DCNT -> i <> j ->
  apart (given skbs i) (given skbs j).
Proof.
  intros (_ & H2 & Hl) Hi Hj Hne. unfold given.
  assert (E : forall i, skb_dma (nth i skbs (mkSkb 0 0 0)) = nth i (map skb_dma skbs) 0)
    by (intros n; symmetry; apply (map_nth skb_dma skbs (mkSkb 0 0 0))).
  rewrite !E. destruct (Z.lt_total i j) as [H|[H|H]]; [|contradiction|].
  - apply pairs_apart; [exact H2|]. rewrite length_map. lia.
  - apply or_comm, pairs_apart; [exact H2|]. rewrite length_map. lia.
Qed.

Lemma alloc_rxbufs_ok skbs lp (s : R6040State) :
  pool_ok lp skbs -> bytes_ok (ram s) -> 0 <= rx_ring lp -> rx_ring lp + sizeof_desc * RX_DCNT < 2 ^ 32 ->
  exists m, r6040_alloc_rxbufs skbs lp s = (0, set_rx lp (rx_ring lp) (rx_ring lp), set_ram s m) /\
    rx_mem (tx_ring lp) (rx_ring lp) 0 [] m /\
    (forall x, ~ (rx_ring lp <= x < rx_ring lp + sizeof_desc * RX_DCNT) -> m x = ram s x).
Proof.
  intros Hp Hb H0 Hlt. unfold r6040_alloc_rxbufs. cbn [set_rx rx_ring].
  destruct (init_ring_state (rx_ring lp) (Z.to_nat RX_DCNT) s) as (m1 & E1 & Hl1 & Ho1 & Hb1);
    [unfold RX_DCNT; lia|exact H0|rewrite Z2Nat.id by discriminate; exact Hlt|].
  rewrite E1. rewrite Z2Nat.id in Hl1, Ho1 by discriminate. pose proof Hp as (P1 & _ & P3).
  assert (Hd0 : desc_at (rx_ring lp) 0 = rx_ring lp) by (unfold desc_at; lia).
  destruct (alloc_loop_ok (rx_ring lp) (Z.to_nat RX_DCNT) 0 skbs (set_ram s m1)) as (m & E & Bm & Lm & Fm & Om);
    auto; [unfold RX_DCNT; lia|lia| |].
  { eapply List.Forall_impl; [|exact P1]. intros skb (B1 & B2 & _). unfold MAX_BUF_SIZE in B2. lia. }
  rewrite Hd0 in E, Om. rewrite E. exists m. split; [reflexivity|]. split.
  - split; auto; cbn [length]; try (unfold RX_DCNT; lia).
    + intros i Hi. destruct (Fm i ltac:(lia)) as [_ ->]. rewrite Z.sub_0_r. apply given_ok; assumption.
    + intros i j Hi Hj Hne. destruct (Fm i ltac:(lia)) as [_ ->]. destruct (Fm j ltac:(lia)) as [_ ->].
      rewrite !Z.sub_0_r. apply (given_apart lp); assumption.
    + intros j f Hf. discriminate.
    + intros j Hj. apply Fm. pose proof (slot_range 0 j). lia.
  - intros x Hx. rewrite Om by exact Hx. apply Ho1. intros i Hi. unfold desc_at, sizeof_desc, RX_DCNT in *. lia.
Qed.

(** The memory and the registers the interface is brought up in: rings allocated
    apart, no transmit descriptor handed over. *)
Record up_ok (lp : r6040_private) (s : R6040State) : Prop := {
  uo_bytes : bytes_ok (ram s);
  uo_regs : regs_ok s;
  uo_misr : misr_ok (regs_w s MISR_W);
  uo_tx : 0 <= tx_ring lp /\ tx_ring lp + sizeof_desc * TX_DCNT < 2 ^ 32;
  uo_rx : 0 <= rx_ring lp /\ rx_ring lp + sizeof_desc * RX_DCNT < 2 ^ 32;
  uo_apart : rings_apart lp;
  uo_host : forall i, 0 <= i < TX_DCNT -> owned (ram s) (desc_at (tx_ring lp) i) = false
}.

(** The last step of [r6040_up], on rings that are set up. *)
Lemma mac_regs_ready lp s sent0 :
  regs_ok s -> misr_ok (regs_w s MISR_W) -> sent s = sent0 ->
  0 <= tx_ring lp /\ tx_ring lp + sizeof_desc * TX_DCNT < 2 ^ 32 -> rings_apart lp ->
  linked (ram s) (tx_ring lp) TX_DCNT ->
  (forall i, 0 <= i < TX_DCNT -> owned (ram s) (desc_at (tx_ring lp) i) = false) ->
  rx_mem (tx_ring lp) (rx_ring lp) 0 [] (ram s) ->
  tx_insert_ptr lp = tx_ring lp -> tx_remove_ptr lp = tx_ring lp -> tx_free_desc lp = TX_DCNT ->
  rx_remove_ptr lp = rx_ring lp ->
  dx_refines (mkDuplex (mkQueue [] (delivered lp) (rx_dropped (p_stats lp))) sent0 TX_DCNT
    (anyset (regs_w s MISR_W) TX_INTS)) (lp, r6040_init_mac_regs lp s).
Proof.
  intros Hr Hmi Hsent [T1 T2] Hap Hl Hh Hm E1 E2 E3 E4.
  assert (D0 : forall base, desc_at base 0 = base) by (intros base; unfold desc_at; lia).
  destruct (init_mac_regs_programs lp s) as [M R L A0 A1 A2 A3 B I Q]; auto.
  { apply Hm. } { unfold sizeof_desc, TX_DCNT in *. lia. }
  { rewrite <- (D0 (tx_ring lp)). apply Hh. unfold TX_DCNT. lia. }
  split; cbn [fst snd dx_queue waiting passed_up dropped dx_wire dx_room dx_done]; rewrite ?Q; auto; [| |congruence].
  - exists 0. split; rewrite ?M; auto; [apply Hm|unfold TX_DCNT; lia|rewrite D0; exact E1| |rewrite E3; unfold TX_DCNT; lia|].
    + rewrite D0. apply TX_START_halves; [unfold sizeof_desc, TX_DCNT in *; lia|exact A0|exact A1].
    + rewrite E3, Z.mod_same, D0 by discriminate. exact E2.
  - exists 0. split; rewrite ?M; auto; [|rewrite D0; exact E4].
    unfold RX_START. rewrite A2, A3, addr_halves; [symmetry; apply D0|].
    pose proof (rm_base _ _ _ _ _ Hm). unfold sizeof_desc, RX_DCNT in *. lia.
Qed.

Lemma up_state skbs lp s :
  up_ok lp s -> pool_ok lp skbs ->
  let '(ret, lp', s') := r6040_up skbs lp s in
  ret = 0 /\
  dx_refines (mkDuplex (mkQueue [] (delivered lp) (rx_dropped (p_stats lp))) (sent s) TX_DCNT
    (anyset (regs_w s MISR_W) TX_INTS)) (lp', s').
Proof.
  intros [Hb Hr Hmi [T1 T2] [R1 R2] Hap Hh] Hp. unfold r6040_up, r6040_init_txbufs.
  destruct (init_ring_state (tx_ring lp) (Z.to_nat TX_DCNT) s) as (m1 & -> & Hl1 & Ho1 & Hb1);
    [unfold TX_DCNT; lia|exact T1|rewrite Z2Nat.id by discriminate; exact T2|].
  rewrite Z2Nat.id in Hl1, Ho1 by discriminate. set (lp1 := set_tx lp _ _ _).
  destruct (alloc_rxbufs_ok skbs lp1 (set_ram s m1)) as (m & -> & Hm & Ho); auto.
  cbn [negb Z.eqb]. cbn [lp1 set_tx tx_ring rx_ring set_ram ram] in Hm, Ho. set (lp2 := set_rx lp1 _ _).
  pose proof (quiet_phy_read 30 17 (set_ram s m)) as Q1.
  change (set_ram (set_ram s m1) m) with (set_ram s m).
  destruct (r6040_phy_read 30 17 (set_ram s m)) as [v s2]. cbn [snd] in Q1.
  pose proof (quiet_phy_write 30 17 (Z.lor v 0x4000) s2) as Q2.
  set (s3 := r6040_phy_write 30 17 (Z.lor v 0x4000) s2) in *.
  pose proof (quiet_phy_read 30 17 s3) as Q3. destruct (r6040_phy_read 30 17 s3) as [v' s4]. cbn [snd] in Q3.
  set (s5 := r6040_phy_write 0 30 0x01F0 _).
  assert (Q : quiet (set_ram s m) s5).
  { etransitivity; [exact Q1|]. etransitivity; [exact Q2|]. etransitivity; [exact Q3|].
    etransitivity; [apply quiet_phy_write|]. etransitivity; [apply quiet_phy_write|]. apply quiet_phy_write. }
  clearbody s5. clear Q1 Q2 Q3 s2 s3 s4 v v'. destruct Q as [Q1 Q2 Q3 Q4]. cbn [set_ram ram sent regs_w] in *.
  split; [reflexivity|].
  assert (Htxm : forall x, tx_ring lp <= x < tx_ring lp + sizeof_desc * TX_DCNT -> m x = m1 x)
    by (intros x Hx; apply Ho; unfold rings_apart in Hap; lia).
  pose proof (mac_regs_ready lp2 s5 (sent s)) as Hready. rewrite Q1, Q4 in Hready.
  apply Hready; clear Hready; auto; cbn [lp2 lp1 set_rx set_tx tx_ring].
  - apply (linked_ext m1); [exact Hl1|]. intros i x Hi Hx. apply Htxm. unfold desc_at, sizeof_desc, TX_DCNT in *. lia.
  - intros i Hi. unfold owned. rewrite Htxm by (unfold desc_at, sizeof_desc, TX_DCNT in *; lia).
    rewrite Ho1; [apply Hh, Hi|]. intros k Hk. unfold desc_at, sizeof_desc in *. lia.
Qed.

(** Bringing the interface up: [r6040_up] with buffers for the whole ring
    succeeds and leaves driver and controller agreeing on both rings, with
    nothing waiting and all transmit descriptors free, ready for any traffic. *)
Theorem up_ready skbs lp s :
  up_ok lp s -> pool_ok lp skbs ->
  let '(ret, lp', s') := r6040_up skbs lp s in
  ret = 0 /\
  dx_refines (mkDuplex (mkQueue [] (delivered lp) (rx_dropped (p_stats lp))) (sent s) TX_DCNT
    (anyset (regs_w s MISR_W) TX_INTS)) (lp', s').
Proof. exact (up_state skbs lp s). Qed.

Lemma alloc_loop_regs n : forall ring desc skbs (s : R6040State),
  regs_w (snd (alloc_loop n ring desc skbs s)) = regs_w s /\ sent (snd (alloc_loop n ring desc skbs s)) = sent s.
Proof.
  induction n as [|n IH]; intros ring desc skbs s; cbn [alloc_loop]; [auto|].
  destruct skbs as [|skb skbs]; [auto|]. set (s1 := put16 _ _ DSC_OWNER_MAC).
  destruct (get32 s1 (desc + OFF_vndescp) =? ring); [auto|apply (IH ring _ skbs s1)].
Qed.

Lemma free_bufs_regs n : forall desc (s : R6040State),
  regs_w (snd (free_bufs n desc s)) = regs_w s /\ sent (snd (free_bufs n desc s)) = sent s.
Proof.
  induction n as [|n IH]; intros desc s; cbn [free_bufs]; [auto|].
  set (s1 := if negb _ then _ else s).
  assert (E : regs_w s1 = regs_w s /\ sent s1 = sent s) by (unfold s1; case_match; auto).
  destruct (IH (get32 s1 (desc + OFF_vndescp)) s1) as [-> ->]. exact E.
Qed.

(** With fewer buffers than descriptors the allocation loop stops. *)
Lemma alloc_loop_short base n : forall k skbs (s : R6040State),
  linked (ram s) base RX_DCNT -> 0 <= k < RX_DCNT -> k + Z.of_nat n = RX_DCNT ->
  (length skbs < n)%nat -> fst (alloc_loop n base (desc_at base k) skbs s) = None.
Proof.
  induction n as [|n IH]; intros k skbs s Hl Hk Hn Hlen; [lia|].
  destruct skbs as [|skb skbs]; cbn [length alloc_loop] in *; [reflexivity|].
  set (s1 := put16 _ _ DSC_OWNER_MAC).
  assert (Hl1 : linked (ram s1) base RX_DCNT).
  { apply (linked_ext (ram s)); [exact Hl|]. intros i x Hi Hx.
    change (ram s1) with (refilled (ram s) (desc_at base k) skb). apply refilled_out;
      (destruct (Z.eq_dec i k) as [->|Hne]; [lia|];
       destruct (desc_at_apart base i k Hne) as [H1|H1]; lia). }
  assert (Hv : get32 s1 (desc_at base k + OFF_vndescp) = desc_at base ((k + 1) mod RX_DCNT))
    by apply (Hl1 k Hk).
  rewrite Hv, Z.mod_small by lia. rewrite (proj2 (Z.eqb_neq _ base)) by (unfold desc_at, sizeof_desc; lia).
  apply IH; auto; lia.
Qed.

(** Without buffers for the whole ring [r6040_up] fails with [-ENOMEM] and
    the controller's registers are left alone: the interface is not started. *)
Theorem up_out_of_memory skbs lp s :
  0 <= tx_ring lp /\ tx_ring lp + sizeof_desc * TX_DCNT < 2 ^ 32 ->
  0 <= rx_ring lp /\ rx_ring lp + sizeof_desc * RX_DCNT < 2 ^ 32 ->
  Z.of_nat (length skbs) < RX_DCNT ->
  let '(ret, lp', s') := r6040_up skbs lp s in
  ret = - ENOMEM /\ regs_w s' = regs_w s /\ sent s' = sent s.
Proof.
  intros [T1 T2] [R1 R2] Hlen. unfold r6040_up, r6040_init_txbufs.
  destruct (init_ring_state (tx_ring lp) (Z.to_nat TX_DCNT) s) as (m1 & -> & _);
    [unfold TX_DCNT; lia|exact T1|rewrite Z2Nat.id by discriminate; exact T2|].
  unfold r6040_alloc_rxbufs. cbn [set_rx set_tx rx_ring].
  destruct (init_ring_state (rx_ring lp) (Z.to_nat RX_DCNT) (set_ram s m1)) as (m2 & -> & Hl & _);
    [unfold RX_DCNT; lia|exact R1|rewrite Z2Nat.id by discriminate; exact R2|].
  set (s2 := set_ram (set_ram s m1) m2). rewrite Z2Nat.id in Hl by discriminate.
  pose proof (alloc_loop_short (rx_ring lp) (Z.to_nat RX_DCNT) 0 skbs s2 Hl) as Hnone.
  pose proof (alloc_loop_regs (Z.to_nat RX_DCNT) (rx_ring lp) (rx_ring lp) skbs s2) as Hregs.
  replace (desc_at (rx_ring lp) 0) with (rx_ring lp) in Hnone by (unfold desc_at; lia).
  destruct (alloc_loop _ _ _ skbs s2) as [[l|] s3]; cbn [fst snd] in *; [discriminate Hnone; unfold RX_DCNT in *; lia|].
  unfold r6040_free_rxbufs. cbn [set_rx rx_insert_ptr].
  pose proof (free_bufs_regs (Z.to_nat RX_DCNT) (rx_ring lp) s3) as Hfree.
  destruct (free_bufs _ _ s3) as [ptr s4]. cbn [negb Z.eqb Z.opp ENOMEM]. cbn [snd] in Hfree.
  destruct Hregs as [G1 G2], Hfree as [G3 G4]. split; [reflexivity|]. rewrite G3, G4, G1, G2. auto.
Qed.

(** ** Instances *)

(** Buffers 2 KiB apart from an address on. *)
Definition sample_pool (n : nat) : list sk_buff :=
  map (fun i => mkSkb (1 + Z.of_nat i) (0x100000 + 0x800 * Z.of_nat i) MAX_BUF_SIZE) (seq 0 n).

Lemma sample_pool_apart n : forall a,
  ForallOrdPairs apart (map skb_dma (map (fun i => mkSkb (1 + Z.of_nat i) (0x100000 + 0x800 * Z.of_nat i)
    MAX_BUF_SIZE) (seq a n))).
Proof.
  induction n as [|n IH]; intros a; cbn [seq map]; constructor; [|apply IH].
  rewrite List.Forall_forall. intros b Hb. apply in_map_iff in Hb as (skb & <- & Hb).
  apply in_map_iff in Hb as (i & <- & Hi). apply in_seq in Hi.
  left. cbn [skb_dma]. unfold MAX_BUF_SIZE. lia.
Qed.

Lemma sample_pool_ok : pool_ok zero_priv (sample_pool 128).
Proof.
  split; [|split; [apply sample_pool_apart|cbn; unfold RX_DCNT; lia]].
  rewrite List.Forall_forall. intros skb Hs. apply in_map_iff in Hs as (i & <- & Hi). apply in_seq in Hi.
  unfold buf_ok, sizeof_desc, RX_DCNT, TX_DCNT, MAX_BUF_SIZE. cbn [skb_dma zero_priv tx_ring rx_ring]. lia.
Qed.

Lemma zero_up_ok : up_ok zero_priv zero_nic.
Proof.
  split; [exact zero_bytes|apply init_regs_ok|left; reflexivity| | | |reflexivity];
    unfold rings_apart, sizeof_desc, RX_DCNT, TX_DCNT; cbn; lia.
Qed.

Lemma up_ready_witness :
  let '(ret, lp', s') := r6040_up (sample_pool 128) zero_priv zero_nic in
  ret = 0 /\ dx_refines (mkDuplex (mkQueue [] [] 0) [] TX_DCNT false) (lp', s').
Proof. exact (up_ready (sample_pool 128) zero_priv zero_nic zero_up_ok sample_pool_ok). Defined.

Lemma up_out_of_memory_witness :
  let '(ret, lp', s') := r6040_up (sample_pool 100) zero_priv zero_nic in
  ret = - ENOMEM /\ regs_w s' = regs_w zero_nic /\ sent s' = [].
Proof.
  apply (up_out_of_memory (sample_pool 100) zero_priv zero_nic); vm_compute; auto; split; congruence.
Defined.

(** A run: a frame arrives, the interrupt handler runs, the stack polls with
    one new buffer, transmits, and the handler runs again. *)
Definition sample_frame : list Z := [1; 2; 3; 4; 5; 6; 7; 8; 9; 10; 11; 12; 8; 0; 42].

Lemma sample_frame_ok : frame_ok sample_frame.
Proof.
  split; [vm_compute; discriminate|]. unfold sample_frame.
  repeat (apply Forall_cons_2; [lia|]). apply Forall_nil_2.
Qed.

Definition run0 : Z * r6040_private * R6040State := r6040_up (sample_pool 128) zero_priv zero_nic.

Definition run1 : Z * R6040State := r6040_receive run0.2 sample_frame.

Definition run2 : irqreturn * r6040_private * R6040State := r6040_interrupt run0.1.2 run1.2.

Definition new_skb : sk_buff := mkSkb 500 0x200000 MAX_BUF_SIZE.

Definition run3 : Z * r6040_private * R6040State := r6040_poll 64 [Some new_skb] run2.1.2 run2.2.

Definition out_skb : sk_buff := mkSkb 600 0x300000 14.

Definition run4 : Z * r6040_private * R6040State := r6040_start_xmit out_skb run3.1.2 run3.2.

Definition run5 : irqreturn * r6040_private * R6040State := r6040_interrupt run4.1.2 run4.2.

Lemma run0_ready : dx_refines (mkDuplex (mkQueue [] [] 0) [] TX_DCNT false) (run0.1.2, run0.2).
Proof.
  pose proof (up_state (sample_pool 128) zero_priv zero_nic zero_up_ok sample_pool_ok) as Hu.
  unfold run0. destruct (r6040_up (sample_pool 128) zero_priv zero_nic) as [[ret lp] s]. exact (proj2 Hu).
Qed.

Lemma run1_eq : r6040_receive run0.2 sample_frame = (run1.1, run1.2).
Proof. unfold run1. destruct (r6040_receive run0.2 sample_frame). reflexivity. Qed.

Lemma run2_eq : r6040_interrupt run0.1.2 run1.2 = (run2.1.1, run2.1.2, run2.2).
Proof. unfold run2. destruct (r6040_interrupt run0.1.2 run1.2) as [[r lp] s]. reflexivity. Qed.

Lemma run3_eq : r6040_poll 64 [Some new_skb] run2.1.2 run2.2 = (run3.1.1, run3.1.2, run3.2).
Proof. unfold run3. destruct (r6040_poll 64 [Some new_skb] run2.1.2 run2.2) as [[r lp] s]. reflexivity. Qed.

Lemma run4_eq : r6040_start_xmit out_skb run3.1.2 run3.2 = (run4.1.1, run4.1.2, run4.2).
Proof. unfold run4. destruct (r6040_start_xmit out_skb run3.1.2 run3.2) as [[r lp] s]. reflexivity. Qed.

Lemma run5_eq : r6040_interrupt run4.1.2 run4.2 = (run5.1.1, run5.1.2, run5.2).
Proof. unfold run5. destruct (r6040_interrupt run4.1.2 run4.2) as [[r lp] s]. reflexivity. Qed.

Lemma out_skb_ok : skb_ok run3.1.2 out_skb.
Proof. vm_compute. repeat split; try congruence. right. congruence. Qed.

Lemma run_fresh : fresh (tx_ring run2.1.2) (rx_ring run2.1.2) (ram run2.2) (new_bufs [Some new_skb]).
Proof.
  split; [|repeat constructor]. apply Forall_cons_2; [|apply Forall_nil_2]. split.
  - vm_compute. repeat split; try congruence; right; congruence.
  - intros i Hi. right.
    assert (E : (buf_at (ram run2.2) (rx_ring run2.1.2) i + MAX_BUF_SIZE <=? 0x200000) = true);
      [|apply Z.leb_le in E; exact E].
    apply (forall_range (fun i => buf_at (ram run2.2) (rx_ring run2.1.2) i + MAX_BUF_SIZE <=? 0x200000) 128);
      [vm_compute; reflexivity|exact Hi].
Qed.

Lemma duplex_refined_witness :
  dx_steps (run0.1.2, run0.2)
    [Rx (Arrive sample_frame); Interrupt; Rx (Poll 64 [Some new_skb]);
     Send out_skb (wire (ram run3.2) out_skb); Interrupt] (run5.1.2, run5.2) /\
  dx_refines (mkDuplex (mkQueue [] [sample_frame] 0) [wire (ram run3.2) out_skb] TX_DCNT false)
    (run5.1.2, run5.2).
Proof.
  assert (Hs : dx_steps (run0.1.2, run0.2)
    [Rx (Arrive sample_frame); Interrupt; Rx (Poll 64 [Some new_skb]);
     Send out_skb (wire (ram run3.2) out_skb); Interrupt] (run5.1.2, run5.2)).
  { eapply steps_cons; [apply (step_arrive _ _ _ run1.1 run1.2)|].
    { exact sample_frame_ok. }
    { exact run1_eq. }
    eapply steps_cons; [apply (step_interrupt _ _ _ _ _ run2_eq)|].
    eapply steps_cons; [apply (step_poll _ _ _ _ _ _ _ run_fresh run3_eq)|].
    eapply steps_cons; [apply (step_send _ _ _ _ _ _ out_skb_ok run4_eq)|].
    eapply steps_cons; [apply (step_interrupt _ _ _ _ _ run5_eq)|]. apply steps_nil. }
  split; [exact Hs|].
  exact (duplex_refined (mkDuplex (mkQueue [] [] 0) [] TX_DCNT false) _ _ _ _ _ run0_ready Hs).
Defined.

End Duplex.
