(* ===== verification/PortIO.v ===== *)
(** Programs that access I/O ports from user space: the machine as an interface
    ([inb], [outb], [inl], [outl], [ioperm], [nanosleep]) and computations on it
    whose waiting loops may not come back. *)
From Stdlib Require Import ZArith Lia.
From stdpp Require Import base list numbers option.
From S2P Require Import Prelude.

(** ** Computations that may not come back *)

(** A computation on a machine [D]; [None] when a loop has used up its fuel. *)
Definition io (D A : Type) : Type := D -> option (A * D).

#[export] Instance io_ret D : MRet (io D) := fun _ a d => Some (a, d).

#[export] Instance io_bind D : MBind (io D) := fun _ _ k m d =>
  match m d with Some (a, d') => k a d' | None => None end.

(** ** The machine *)

(** I/O ports, [ioperm] (its result) and [nanosleep] in milliseconds. *)
Class Ports (D : Type) : Type := {
  inb : Z -> D -> Z * D;
  outb : Z -> Z -> D -> D;
  inl_ : Z -> D -> Z * D;
  outl : Z -> Z -> D -> D;
  ioperm : Z -> Z -> D -> Z * D;
  nanosleep : Z -> D -> D
}.
