(* ===== verification/BiffProp.v ===== *)
(** The Propeller loader biffprop (openwrt/package/feeds/bifferos/biffprop):
    the handshake with the boot loader of a Propeller chip over a 16550 serial
    port, and the upload of an image in its three-bits-per-byte encoding.

    Port accesses are an interface; the serial line and the chip at its other
    end are the laws of a second one.  Messages for the user are not modelled,
    except the positions of the errors the handshake reports. *)
From Stdlib Require Import ZArith Lia.
From stdpp Require Import base list numbers option.
From S2P Require Import Prelude PortIO.

Module Loader.

(** The contents of a file as [open] and [read] give them. *)
Inductive file : Type := NoFile | ReadError | Bytes (bs : list Z).

Definition CONTROL : Z := 0x80003848.

Definition DATA : Z := 0x8000384c.

Definition BIT_RST : Z := Z.shiftl 1 12.

Definition CMD_SHUTDOWN : Z := 0.

Definition CMD_RUN : Z := 1.

Definition sizeof_lfsr_data : nat := 500.

(** [sizeof(buffer)]. *)
Definition sizeof_buffer : Z := 0x8001.

(** ** The pseudo-random sequence *)

Definition lfsr_next (seed : Z) : Z :=
  u8 (Z.lor (Z.land (Z.shiftl seed 1) 0xfe)
    (Z.land (Z.lxor (Z.lxor (Z.lxor (Z.shiftr seed 7) (Z.shiftr seed 5)) (Z.shiftr seed 4))
               (Z.shiftr seed 1)) 1)).

Fixpoint lfsr_loop (n : nat) (seed : Z) : list Z :=
  match n with
  | O => []
  | S n' => Z.land seed 0x01 :: lfsr_loop n' (lfsr_next seed)
  end.

(** The seed is 'P'. *)
Definition lfsr_init : list Z := lfsr_loop sizeof_lfsr_data 0x50.

(** ** Encoding *)

(** The ten bytes of three bits and the last of two. *)
Fixpoint long_loop (n : nat) (value : Z) : list Z * Z :=
  match n with
  | O => ([], value)
  | S n' =>
      let tmp := u8 (Z.lor (Z.lor (Z.lor 0x92 (Z.land value 0x01)) (Z.shiftl (Z.land value 2) 2))
                       (Z.shiftl (Z.land value 4) 4)) in
      let '(bs, rest) := long_loop n' (Z.shiftr value 3) in (tmp :: bs, rest)
  end.

Definition long_bytes (value : Z) : list Z :=
  let '(bs, rest) := long_loop 10 value in
  bs ++ [u8 (Z.lor (Z.lor 0xf2 (Z.land rest 0x01)) (Z.shiftl (Z.land rest 2) 2))].

Section Program.
Context {D : Type} `{Ports D} (fuel : nat).

(** ** The serial port *)

Definition in8 (port : Z) : io D Z := fun d => Some (inb port d).

Definition out8 (v port : Z) : io D unit := fun d => Some (tt, outb (u8 v) port d).

Definition mdelay (ms : Z) : io D unit := fun d => Some (tt, nanosleep ms d).

Definition RST_LOW : io D unit := fun d => Some (tt, outl 0 0xcfc d).

Definition RST_HIGH : io D unit := fun d => Some (tt, outl BIT_RST 0xcfc d).

(** [while (!cond);]. *)
Fixpoint wait (n : nat) (cond : io D bool) : io D unit :=
  match n with
  | O => fun _ => None
  | S n' => b ← cond; if (b : bool) then mret tt else wait n' cond
  end.

Definition tx_byte (p : Z) : io D unit :=
  _ ← wait fuel (v ← in8 (0x3f8 + 5); mret (anyset v (Z.shiftl 1 5)));
  out8 p 0x3f8.

Definition rx_ready : io D bool := v ← in8 (0x3f8 + 5); mret (anyset v 1).

Definition rx_byte : io D Z := _ ← wait fuel rx_ready; in8 0x3f8.

(** [for (...) tx_byte(...)] over the bytes to send. *)
Fixpoint tx_bytes (bs : list Z) : io D unit :=
  match bs with
  | [] => mret tt
  | b :: bs' => _ ← tx_byte b; tx_bytes bs'
  end.

Definition writeLong (value : Z) : io D unit := tx_bytes (long_bytes value).

(** ** The handshake *)

(** The check of the second half of the sequence from [i] on: the positions
    whose byte was not the expected one. *)
Fixpoint check_loop (expected : list Z) (i : Z) : io D (list Z) :=
  match expected with
  | [] => mret []
  | e :: expected' =>
      _ ← tx_byte 0xf9;
      received ← rx_byte;
      errs ← check_loop expected' (i + 1);
      mret (if Z.lor e 0xfe =? received then errs else i :: errs)
  end.

Fixpoint version_loop (n : nat) (version : Z) : io D Z :=
  match n with
  | O => mret version
  | S n' =>
      _ ← tx_byte 0xf9;
      let version := Z.shiftr version 1 in
      received ← rx_byte;
      version_loop n' (Z.lor version (if received =? 0xff then 0x80 else 0))
  end.

Definition prop_connect : io D (Z * list Z) :=
  let lfsr_data := lfsr_init in
  _ ← RST_LOW;
  _ ← mdelay 15;
  _ ← RST_HIGH;
  _ ← mdelay 90;
  _ ← tx_byte 0xf9;
  _ ← tx_bytes (map (fun b => Z.lor b 0xfe) (take 250 lfsr_data));
  errs ← check_loop (drop 250 lfsr_data) 250;
  version ← version_loop 8 0;
  mret (version, errs).

(** ** The upload *)

(** [while (count) { writeLong( *ptr); count--; ptr++; }]. *)
Fixpoint words_loop (count : nat) (ptr : Z) (m : mem) : io D unit :=
  match count with
  | O => mret tt
  | S count' => _ ← writeLong (load32 m ptr); words_loop count' (ptr + 4) m
  end.

(** Pacing until the chip answers. *)
Fixpoint pace_loop (n : nat) : io D unit :=
  match n with
  | O => fun _ => None
  | S n' =>
      _ ← tx_byte 0xf9;
      _ ← mdelay 50;
      b ← rx_ready;
      if (b : bool) then mret tt else pace_loop n'
  end.

(** The memory [m] has the buffer at address 0.  The result is the response. *)
Definition prop_upload (m : mem) (len : Z) : io D Z :=
  let count := len / 4 in
  _ ← writeLong CMD_RUN;
  _ ← writeLong count;
  _ ← words_loop (Z.to_nat count) 0 m;
  _ ← pace_loop fuel;
  rx_byte.

(** ** The program *)

(** 0, or the exit status when the ports are not granted. *)
Definition prop_init : io D Z := fun d =>
  let '(res, d) := ioperm 0xcf8 8 d in
  if negb (res =? 0) then Some (-1, d)
  else
    let '(res, d) := ioperm 0x3f8 8 d in
    if negb (res =? 0) then Some (-1, d)
    else
      let d := outl CONTROL 0xcf8 d in
      let '(tmp, d) := inl_ 0xcfc d in
      let d := outl (Z.lor tmp BIT_RST) 0xcfc d in
      let d := outl DATA 0xcf8 d in
      Some (0, outl BIT_RST 0xcfc d).

(** The length and the buffer; 0 when the file cannot be used. *)
Definition Load (f : file) : Z * mem :=
  match f with
  | NoFile => (0, fun _ => 0)
  | ReadError => (0, fun _ => 0)
  | Bytes bs =>
      let got := take (Z.to_nat sizeof_buffer) bs in
      let res := Z.of_nat (length got) in
      let buffer := store_bytes (fun _ => 0) 0 got in
      if res =? sizeof_buffer then (0, buffer)
      else if negb (Z.rem res 4 =? 0) then (0, buffer)
      else (res, buffer)
  end.

(** The exit status; [prop_init] runs before the arguments are looked at. *)
Definition main (argc : Z) (f : file) : io D Z :=
  res ← prop_init;
  if negb (res =? 0) then mret (-1)
  else if negb (argc =? 2) then mret (-1)
  else
    let '(length, buffer) := Load f in
    if length =? 0 then mret 1
    else
      _ ← prop_connect;
      _ ← prop_upload buffer length;
      mret 0.

End Program.

End Loader.
