(* ===== verification/BiffPropSpec.v ===== *)
(** What the Propeller loader sends: the handshake, the image in the encoding the
    chip's boot loader decodes, and nothing at all for a file it refuses. *)
From Stdlib Require Import ZArith Lia.
From stdpp Require Import base list numbers option.
From S2P Require Import Prelude PortIO BiffProp.

Module LoaderSpec.
Import Loader.

(** ** The encoding *)

(** The three bits of a byte, as the boot loader of the chip reads them. *)
Definition three_bits (b : Z) : Z :=
  Z.b2z (Z.testbit b 0) + 2 * Z.b2z (Z.testbit b 3) + 4 * Z.b2z (Z.testbit b 6).

Definition two_bits (b : Z) : Z := Z.b2z (Z.testbit b 0) + 2 * Z.b2z (Z.testbit b 3).

(** Ten bytes of three bits, least significant first, and one of two. *)
Fixpoint decode_long (n : nat) (bs : list Z) : option (Z * list Z) :=
  match n, bs with
  | O, b :: bs' => Some (two_bits b, bs')
  | S n', b :: bs' =>
      '(v, rest) ← decode_long n' bs'; Some (three_bits b + 8 * v, rest)
  | _, [] => None
  end.

Fixpoint decode_longs (count : nat) (bs : list Z) : option (list Z * list Z) :=
  match count with
  | O => Some ([], bs)
  | S count' =>
      '(v, bs) ← decode_long 10 bs;
      '(vs, rest) ← decode_longs count' bs;
      Some (v :: vs, rest)
  end.

(** What the chip makes of a stream: the command, the number of words, the
    words; and the bytes that follow. *)
Definition decode_upload (bs : list Z) : option (Z * list Z * list Z) :=
  '(cmd, bs) ← decode_long 10 bs;
  '(count, bs) ← decode_long 10 bs;
  '(words, rest) ← decode_longs (Z.to_nat count) bs;
  Some (cmd, words, rest).

Definition enc3 (value : Z) : Z :=
  u8 (Z.lor (Z.lor (Z.lor 0x92 (Z.land value 0x01)) (Z.shiftl (Z.land value 2) 2))
    (Z.shiftl (Z.land value 4) 4)).

Definition enc2 (value : Z) : Z := u8 (Z.lor (Z.lor 0xf2 (Z.land value 0x01)) (Z.shiftl (Z.land value 2) 2)).

Lemma land_low v k : 0 <= k < 8 -> Z.land v k = Z.land (v mod 8) k.
Proof.
  intros Hk. change 8 with (2 ^ 3) at 1. rewrite <- Z.land_ones by lia. rewrite <- Z.land_assoc. f_equal.
  symmetry. rewrite Z.land_comm, Z.land_ones by lia. apply Z.mod_small. exact Hk.
Qed.

Lemma enc3_bits v : three_bits (enc3 v) = v mod 8.
Proof.
  assert (E : enc3 v = enc3 (v mod 8))
    by (unfold enc3; rewrite (land_low v 1), (land_low v 2), (land_low v 4) by lia; reflexivity).
  rewrite E. apply Z.eqb_eq.
  apply (forall_range (fun r => three_bits (enc3 r) =? r) 8); [vm_compute; reflexivity|].
  apply Z.mod_pos_bound. lia.
Qed.

Lemma enc2_bits v : 0 <= v < 4 -> two_bits (enc2 v) = v.
Proof.
  intros Hv. apply Z.eqb_eq.
  apply (forall_range (fun r => two_bits (enc2 r) =? r) 4); [vm_compute; reflexivity|exact Hv].
Qed.

Lemma long_loop_decodes n : forall v rest, 0 <= v < 4 * 8 ^ Z.of_nat n ->
  let '(bs, w) := long_loop n v in decode_long n (bs ++ enc2 w :: rest) = Some (v, rest).
Proof.
  induction n as [|n IH]; intros v rest Hv; cbn [long_loop].
  - cbn [app decode_long]. rewrite enc2_bits by lia. reflexivity.
  - rewrite Nat2Z.inj_succ, Z.pow_succ_r in Hv by lia.
    assert (Hs : Z.shiftr v 3 = v / 8) by (rewrite Z.shiftr_div_pow2 by lia; reflexivity).
    specialize (IH (Z.shiftr v 3) rest). rewrite Hs in *.
    destruct (long_loop n (v / 8)) as [bs w]. cbn [app decode_long].
    rewrite IH by (split; [apply Z.div_pos; lia|apply Z.div_lt_upper_bound; lia]). cbn.
    fold (enc3 v). rewrite enc3_bits. do 2 f_equal. Z.div_mod_to_equations. lia.
Qed.

(** A 32-bit word is what the chip decodes from its eleven bytes. *)
Lemma long_roundtrip v rest : 0 <= v < 2 ^ 32 -> decode_long 10 (long_bytes v ++ rest) = Some (v, rest).
Proof.
  intros Hv. unfold long_bytes. pose proof (long_loop_decodes 10 v rest) as Hd.
  destruct (long_loop 10 v) as [bs w]. rewrite <- app_assoc. apply Hd.
  change (4 * 8 ^ Z.of_nat 10) with (2 ^ 32). exact Hv.
Qed.

Lemma longs_roundtrip vs rest : Forall (fun v => 0 <= v < 2 ^ 32) vs ->
  decode_longs (length vs) (flat_map long_bytes vs ++ rest) = Some (vs, rest).
Proof.
  induction 1 as [|v vs Hv _ IH]; [reflexivity|]. cbn [length decode_longs flat_map].
  rewrite <- app_assoc, long_roundtrip by exact Hv. cbn. rewrite IH. reflexivity.
Qed.

Lemma long_bytes_ok v : Forall (fun b => 0 <= b < 0x100) (long_bytes v).
Proof.
  unfold long_bytes.
  assert (Hl : forall n w, Forall (fun b => 0 <= b < 0x100) (long_loop n w).1).
  { induction n as [|n IH]; intros w; cbn [long_loop]; [apply Forall_nil_2|].
    specialize (IH (Z.shiftr w 3)). destruct (long_loop n (Z.shiftr w 3)). apply Forall_cons_2; [apply u8_range|exact IH]. }
  specialize (Hl 10%nat v). destruct (long_loop 10 v) as [bs w]. apply Forall_app.
  split; [exact Hl|]. apply Forall_cons_2; [apply u8_range|apply Forall_nil_2].
Qed.

(** ** The image *)

(** The little-endian words of an image. *)
Fixpoint le_words (bs : list Z) : list Z :=
  match bs with
  | b0 :: b1 :: b2 :: b3 :: bs' => (b0 + 0x100 * b1 + 0x10000 * (b2 + 0x100 * b3)) :: le_words bs'
  | _ => []
  end.

Lemma le_words_range bs : Forall (fun b => 0 <= b < 0x100) bs -> Forall (fun v => 0 <= v < 2 ^ 32) (le_words bs).
Proof.
  revert bs. fix IH 1. intros [|b0 [|b1 [|b2 [|b3 bs]]]] Hb; cbn [le_words]; try apply Forall_nil_2.
  apply Forall_cons_1 in Hb as [H0 Hb]. apply Forall_cons_1 in Hb as [H1 Hb].
  apply Forall_cons_1 in Hb as [H2 Hb]. apply Forall_cons_1 in Hb as [H3 Hb].
  apply Forall_cons_2; [lia|apply IH, Hb].
Qed.

Lemma le_words_length n : forall bs, length bs = (4 * n)%nat -> length (le_words bs) = n.
Proof.
  induction n as [|n IH]; intros bs Hl.
  - destruct bs; [reflexivity|discriminate].
  - destruct bs as [|b0 [|b1 [|b2 [|b3 bs]]]]; cbn [length] in Hl; try lia. cbn [le_words length].
    f_equal. apply IH. lia.
Qed.

(** The stream for an image of [count] words. *)
Definition stream (words : list Z) : list Z :=
  long_bytes CMD_RUN ++ long_bytes (Z.of_nat (length words)) ++ flat_map long_bytes words.

Lemma stream_decodes words : Forall (fun v => 0 <= v < 2 ^ 32) words -> Z.of_nat (length words) < 2 ^ 32 ->
  decode_upload (stream words) = Some (CMD_RUN, words, []).
Proof.
  intros Hw Hl. unfold decode_upload, stream. rewrite long_roundtrip by (vm_compute; split; congruence).
  cbn [mbind option_bind]. rewrite long_roundtrip by lia. cbn [mbind option_bind].
  rewrite Nat2Z.id. pose proof (longs_roundtrip words [] Hw) as Hd. rewrite app_nil_r in Hd.
  rewrite Hd. reflexivity.
Qed.

(** ** The chip's sequence *)

(** The boot loader of the chip generates the sequence with a shift register of
    eight stages, stage 7 first: the stages 7, 5, 4 and 1 are fed back into
    stage 0, which is also the output, and it starts with the letter P. *)
Definition clock_register (r : list bool) : list bool :=
  match r with
  | [b7; b6; b5; b4; b3; b2; b1; b0] => [b6; b5; b4; b3; b2; b1; b0; xorb b7 (xorb b5 (xorb b4 b1))]
  | _ => r
  end.

Definition seed_P : list bool := [false; true; false; true; false; false; false; false].

Fixpoint chip_bits (n : nat) (r : list bool) : list bool :=
  match n with O => [] | S n' => List.last r false :: chip_bits n' (clock_register r) end.

(** A bit on the line: a short or a long pulse. *)
Definition bit_byte (b : bool) : Z := if b then 0xff else 0xfe.

Definition register_value (r : list bool) : Z := fold_left (fun v b => 2 * v + Z.b2z b) r 0.

Lemma lfsr_next_clock r : length r = 8%nat ->
  lfsr_next (register_value r) = register_value (clock_register r) /\ length (clock_register r) = 8%nat /\
  Z.land (register_value r) 1 = Z.b2z (List.last r false).
Proof.
  intros Hl. do 8 (destruct r as [|[] r]; [discriminate| |]; cbn [length] in Hl).
  all: destruct r; [|discriminate]; vm_compute; auto.
Qed.

Lemma lfsr_loop_bits n : forall r, length r = 8%nat -> lfsr_loop n (register_value r) = map Z.b2z (chip_bits n r).
Proof.
  induction n as [|n IH]; intros r Hr; [reflexivity|]. destruct (lfsr_next_clock r Hr) as (E1 & E2 & E3).
  cbn [lfsr_loop chip_bits map]. rewrite E1, E3, (IH _ E2). reflexivity.
Qed.

Lemma lfsr_init_bits : lfsr_init = map Z.b2z (chip_bits 500 seed_P).
Proof. exact (lfsr_loop_bits 500 seed_P eq_refl). Qed.

(** ** The serial line *)

(** A 16550 and the chip behind it.  The transmitter-empty bit comes on within
    [lag] looks at the line status, a byte that has arrived shows within [lag]
    looks, nothing is lost, and [reply] is what the chip answers to a byte after
    those sent before it. *)
Class Serial (D : Type) `{Ports D} : Type := {
  line : D -> list Z;
  inbox : D -> list Z;
  busy : D -> nat;
  late : D -> nat;
  lag : nat;
  reply : list Z -> Z -> list Z;
  busy_lag : forall d, (busy d <= lag)%nat;
  late_lag : forall d, (late d <= lag)%nat;
  lsr_tx : forall d, anyset (inb (0x3f8 + 5) d).1 (Z.shiftl 1 5) = (busy d =? 0)%nat;
  lsr_rx : forall d, anyset (inb (0x3f8 + 5) d).1 1 =
    (late d =? 0)%nat && match inbox d with [] => false | _ => true end;
  lsr_keeps : forall d, let d' := (inb (0x3f8 + 5) d).2 in
    line d' = line d /\ inbox d' = inbox d /\ busy d' = pred (busy d) /\
    (inbox d <> [] -> late d' = pred (late d));
  thr_write : forall d p, busy d = 0%nat -> 0 <= p < 0x100 ->
    let d' := outb p 0x3f8 d in
    line d' = line d ++ [p] /\ inbox d' = inbox d ++ reply (line d) p /\
    (inbox d <> [] -> late d' = late d);
  rbr_read : forall d b bs, late d = 0%nat -> inbox d = b :: bs ->
    let '(v, d') := inb 0x3f8 d in v = b /\ line d' = line d /\ inbox d' = bs;
  sleep_keeps : forall ms d, let d' := nanosleep ms d in
    line d' = line d /\ inbox d' = inbox d /\ (late d' <= late d)%nat;
  outl_keeps : forall v p d, line (outl v p d) = line d /\ inbox (outl v p d) = inbox d;
  inl_keeps : forall p d, line (inl_ p d).2 = line d /\ inbox (inl_ p d).2 = inbox d;
  ioperm_keeps : forall p n d, line (ioperm p n d).2 = line d /\ inbox (ioperm p n d).2 = inbox d
}.

Section Proofs.
Context {D : Type} `{Serial D} (fuel : nat) (Hfuel : (lag < fuel)%nat).

(** What the chip answers to a sequence of bytes after [sent]. *)
Fixpoint talk (sent bs : list Z) : list Z :=
  match bs with
  | [] => []
  | b :: bs' => reply sent b ++ talk (sent ++ [b]) bs'
  end.

Lemma talk_app sent bs1 bs2 : talk sent (bs1 ++ bs2) = talk sent bs1 ++ talk (sent ++ bs1) bs2.
Proof.
  revert sent. induction bs1 as [|b bs1 IH]; intros sent; cbn [app talk]; [now rewrite app_nil_r|].
  rewrite IH, <- !app_assoc. reflexivity.
Qed.

Lemma wait_tx n : forall d, (busy d < n)%nat ->
  exists d', wait n (v ← in8 (0x3f8 + 5); mret (anyset v (Z.shiftl 1 5))) d = Some (tt, d') /\
    line d' = line d /\ inbox d' = inbox d /\ busy d' = 0%nat /\
    (inbox d <> [] -> (late d' <= pred (late d))%nat).
Proof.
  induction n as [|n IH]; intros d Hn; [lia|]. cbn [wait].
  pose proof (lsr_tx d) as Ht. destruct (lsr_keeps d) as (K1 & K2 & K3 & K4).
  unfold mbind, io_bind, in8, mret, io_ret.
  destruct (inb (0x3f8 + 5) d) as [v d1] eqn:E. cbn [fst snd] in *. rewrite Ht.
  destruct (Nat.eqb_spec (busy d) 0) as [E0|E0].
  - exists d1. rewrite K3, E0. repeat (split; [assumption || reflexivity|]). intros Hi. rewrite K4 by exact Hi. lia.
  - destruct (IH d1) as (d' & W & L & I & B & T); [lia|]. exists d'.
    unfold mbind, io_bind, in8, mret, io_ret in W. rewrite W, L, I.
    repeat (split; [assumption || reflexivity|]). intros Hi. specialize (K4 Hi).
    rewrite K2 in T. specialize (T Hi). lia.
Qed.

Lemma tx_byte_ok p d : 0 <= p < 0x100 ->
  exists d', tx_byte fuel p d = Some (tt, d') /\ line d' = line d ++ [p] /\
    inbox d' = inbox d ++ reply (line d) p /\ (inbox d <> [] -> (late d' <= pred (late d))%nat).
Proof.
  intros Hp. pose proof (busy_lag d). destruct (wait_tx fuel d) as (d1 & W & L & I & B & T); [lia|].
  unfold tx_byte. unfold mbind at 1, io_bind at 1. rewrite W. unfold out8. rewrite u8_id by exact Hp.
  destruct (thr_write d1 p B Hp) as (L' & I' & T'). eexists. split; [reflexivity|].
  rewrite L', I', L, I. split; [reflexivity|]. split; [reflexivity|].
  intros Hi. rewrite T' by (rewrite I; exact Hi). auto.
Qed.

Lemma tx_bytes_ok bs : forall d, Forall (fun b => 0 <= b < 0x100) bs ->
  exists d', tx_bytes fuel bs d = Some (tt, d') /\ line d' = line d ++ bs /\
    inbox d' = inbox d ++ talk (line d) bs.
Proof.
  induction bs as [|b bs IH]; intros d Hbs; cbn [tx_bytes talk].
  - exists d. rewrite !app_nil_r. auto.
  - apply Forall_cons_1 in Hbs as [Hb Hbs]. destruct (tx_byte_ok b d Hb) as (d1 & E & L & I & _).
    destruct (IH d1 Hbs) as (d2 & E2 & L2 & I2). exists d2.
    unfold mbind, io_bind. rewrite E, E2, L2, I2, L, I, <- !app_assoc. auto.
Qed.

Lemma rx_ready_eq d : rx_ready d = Some (anyset (inb (0x3f8 + 5) d).1 1, (inb (0x3f8 + 5) d).2).
Proof. unfold rx_ready, mbind, io_bind, in8, mret, io_ret. destruct (inb (0x3f8 + 5) d). reflexivity. Qed.

Lemma rx_byte_ok d b bs : inbox d = b :: bs ->
  exists d', rx_byte fuel d = Some (b, d') /\ line d' = line d /\ inbox d' = bs.
Proof.
  intros Hi. unfold rx_byte.
  assert (Hw : forall n d, (late d < n)%nat -> inbox d = b :: bs ->
    exists d', wait n rx_ready d = Some (tt, d') /\ line d' = line d /\ inbox d' = b :: bs /\ late d' = 0%nat).
  { clear d Hi. induction n as [|n IH]; intros d Hn Hi; [lia|]. cbn [wait].
    pose proof (lsr_rx d) as Hr. destruct (lsr_keeps d) as (K1 & K2 & _ & K4).
    specialize (K4 ltac:(rewrite Hi; discriminate)). rewrite Hi in Hr, K2.
    unfold mbind, io_bind. rewrite rx_ready_eq, Hr, andb_true_r.
    set (d1 := (inb (0x3f8 + 5) d).2) in *.
    destruct (Nat.eqb_spec (late d) 0) as [E0|E0].
    - exists d1. repeat (split; [assumption || reflexivity|]). lia.
    - destruct (IH d1) as (d' & W & L & I & T); [lia|exact K2|]. exists d'. rewrite W, L. auto. }
  pose proof (late_lag d). destruct (Hw fuel d) as (d1 & W & L & I & T); [lia|exact Hi|].
  unfold mbind, io_bind. rewrite W. unfold in8. pose proof (rbr_read d1 b bs T I) as Hr.
  destruct (inb 0x3f8 d1) as [v d2]. destruct Hr as (-> & L2 & I2). exists d2. rewrite L2. auto.
Qed.

(** ** The handshake *)

(** After [sent] the chip answers each pacing byte with one byte of [rs]. *)
Fixpoint answers (sent rs : list Z) : Prop :=
  match rs with
  | [] => True
  | r :: rs' => reply sent 0xf9 = [r] /\ answers (sent ++ [0xf9]) rs'
  end.

Lemma answers_app sent rs1 rs2 :
  answers sent (rs1 ++ rs2) -> answers sent rs1 /\ answers (sent ++ replicate (length rs1) 0xf9) rs2.
Proof.
  revert sent. induction rs1 as [|r rs1 IH]; intros sent; cbn [app answers length replicate].
  - rewrite app_nil_r. auto.
  - intros [H1 H2]. apply IH in H2 as [H2 H3]. rewrite <- app_assoc in H3. auto.
Qed.

(** One pacing byte and its answer. *)
Lemma exchange_ok d r {A} (k : Z -> io D A) : inbox d = [] -> reply (line d) 0xf9 = [r] ->
  exists d', (_ ← tx_byte fuel 0xf9; received ← rx_byte fuel; k received) d = k r d' /\
    line d' = line d ++ [0xf9] /\ inbox d' = [].
Proof.
  intros Hi Hr. destruct (tx_byte_ok 0xf9 d ltac:(lia)) as (d1 & E1 & L1 & I1 & _).
  rewrite Hi, Hr in I1. destruct (rx_byte_ok d1 r [] I1) as (d2 & E2 & L2 & I2).
  exists d2. unfold mbind, io_bind. rewrite E1, E2, L2, L1. auto.
Qed.

(** The positions at which the answers differ from the sequence. *)
Fixpoint mismatches (expected rs : list Z) (i : Z) : list Z :=
  match expected, rs with
  | e :: expected', r :: rs' =>
      if Z.lor e 0xfe =? r then mismatches expected' rs' (i + 1) else i :: mismatches expected' rs' (i + 1)
  | _, _ => []
  end.

Lemma check_loop_ok expected : forall rs i d, length rs = length expected -> answers (line d) rs -> inbox d = [] ->
  exists d', check_loop fuel expected i d = Some (mismatches expected rs i, d') /\
    line d' = line d ++ replicate (length rs) 0xf9 /\ inbox d' = [].
Proof.
  induction expected as [|e expected IH]; intros [|r rs] i d Hlen Ha Hi; try discriminate; cbn [check_loop].
  - exists d. cbn. rewrite app_nil_r. auto.
  - destruct Ha as [Hr Ha].
    destruct (exchange_ok d r (fun received => errs ← check_loop fuel expected (i + 1);
      mret (if Z.lor e 0xfe =? received then errs else i :: errs)) Hi Hr) as (d1 & E1 & L1 & I1).
    rewrite E1. rewrite <- L1 in Ha. destruct (IH rs (i + 1) d1) as (d2 & E2 & L2 & I2); auto.
    exists d2. unfold mbind, io_bind. rewrite E2. cbn [mismatches length replicate]. split; [reflexivity|].
    rewrite L2, L1, <- app_assoc. auto.
Qed.

Lemma version_loop_ok rs : forall v d, answers (line d) rs -> inbox d = [] ->
  exists d', version_loop fuel (length rs) v d =
      Some (fold_left (fun v r => Z.lor (Z.shiftr v 1) (if r =? 0xff then 0x80 else 0)) rs v, d') /\
    line d' = line d ++ replicate (length rs) 0xf9 /\ inbox d' = [].
Proof.
  induction rs as [|r rs IH]; intros v d Ha Hi; cbn [length version_loop].
  - exists d. cbn. rewrite app_nil_r. auto.
  - destruct Ha as [Hr Ha].
    destruct (exchange_ok d r (fun received => version_loop fuel (length rs)
      (Z.lor (Z.shiftr v 1) (if received =? 0xff then 0x80 else 0))) Hi Hr) as (d1 & E1 & L1 & I1).
    cbv zeta. rewrite E1. rewrite <- L1 in Ha.
    destruct (IH (Z.lor (Z.shiftr v 1) (if r =? 0xff then 0x80 else 0)) d1 Ha I1) as (d2 & E2 & L2 & I2).
    exists d2. rewrite E2. split; [reflexivity|]. cbn [length replicate]. rewrite L2, L1, <- app_assoc. auto.
Qed.

(** Eight answers as a number, least significant bit first. *)
Fixpoint bits_of (rs : list Z) : Z :=
  match rs with [] => 0 | r :: rs' => (if r =? 0xff then 1 else 0) + 2 * bits_of rs' end.

Lemma version_value rs : length rs = 8%nat ->
  fold_left (fun v r => Z.lor (Z.shiftr v 1) (if r =? 0xff then 0x80 else 0)) rs 0 = bits_of rs.
Proof.
  intros Hl. do 8 (destruct rs as [|? rs]; [discriminate|]). destruct rs; [|discriminate].
  cbn [fold_left bits_of]. repeat case_match; reflexivity.
Qed.

(** The bytes that open the conversation: the calibration pulse and the first
    250 bits of the chip's sequence, one a byte. *)
Definition greeting : list Z := 0xf9 :: map bit_byte (take 250 (chip_bits 500 seed_P)).

(** What the chip answers with. *)
Definition answer_bits : list Z := map Z.b2z (drop 250 (chip_bits 500 seed_P)).

Lemma greeting_sent : greeting = 0xf9 :: map (fun b => Z.lor b 0xfe) (take 250 lfsr_init).
Proof.
  unfold greeting. rewrite lfsr_init_bits, firstn_map, map_map. apply (f_equal (cons 0xf9)), map_ext. intros []; reflexivity.
Qed.

Lemma answers_expected : drop 250 lfsr_init = answer_bits.
Proof. unfold answer_bits. rewrite lfsr_init_bits, skipn_map. reflexivity. Qed.

Lemma greeting_ok : Forall (fun b => 0 <= b < 0x100) greeting.
Proof.
  apply List.Forall_forall. intros b Hb.
  assert (E : forallb (fun b => (0 <=? b) && (b <? 0x100)) greeting = true) by (vm_compute; reflexivity).
  rewrite forallb_forall in E. specialize (E b Hb). apply andb_prop in E as [E1 E2].
  apply Z.leb_le in E1. apply Z.ltb_lt in E2. lia.
Qed.

(** A chip that listens to the greeting and then answers each pacing byte: the
    rest of the sequence as [seq], then its version. *)
Record chip_answers (sent seq version : list Z) : Prop := {
  ca_silent : talk sent greeting = [];
  ca_answers : answers (sent ++ greeting) (seq ++ version);
  ca_seq : length seq = 250%nat;
  ca_version : length version = 8%nat
}.

Lemma prop_connect_ok seq version d : inbox d = [] -> chip_answers (line d) seq version ->
  exists d', prop_connect fuel d = Some (bits_of version, mismatches answer_bits seq 250, d') /\
    line d' = line d ++ greeting ++ replicate 258 0xf9 /\ inbox d' = [].
Proof.
  intros Hi [Cs Ca Cq Cv]. unfold prop_connect.
  set (d1 := nanosleep 90 (outl BIT_RST 0xcfc (nanosleep 15 (outl 0 0xcfc d)))).
  assert (K : line d1 = line d /\ inbox d1 = inbox d).
  { unfold d1. destruct (sleep_keeps 90 (outl BIT_RST 0xcfc (nanosleep 15 (outl 0 0xcfc d)))) as (-> & -> & _).
    destruct (outl_keeps BIT_RST 0xcfc (nanosleep 15 (outl 0 0xcfc d))) as [-> ->].
    destruct (sleep_keeps 15 (outl 0 0xcfc d)) as (-> & -> & _). apply outl_keeps. }
  destruct K as [L1 I1].
  destruct (tx_bytes_ok greeting d1 greeting_ok) as (d2 & E2 & L2 & I2).
  rewrite L1 in L2, I2. rewrite I1, Hi, Cs in I2.
  rewrite <- L2 in Ca. apply answers_app in Ca as [Ca1 Ca2].
  destruct (check_loop_ok (drop 250 lfsr_init) seq 250 d2) as (d3 & E3 & L3 & I3); auto.
  rewrite <- L3 in Ca2. destruct (version_loop_ok version 0 d3 Ca2 I3) as (d4 & E4 & L4 & I4).
  rewrite Cv in E4. rewrite version_value in E4 by exact Cv.
  exists d4. rewrite greeting_sent in E2. cbn [tx_bytes] in E2. rewrite <- answers_expected.
  unfold mbind, io_bind in *. unfold RST_LOW, RST_HIGH, mdelay. fold d1.
  destruct (tx_byte fuel 0xf9 d1) as [[[] d1']|]; [|discriminate]. rewrite E2, E3, E4. unfold mret, io_ret.
  split; [reflexivity|]. split; [|exact I4]. rewrite L4, L3, L2, Cq, Cv, <- !app_assoc. reflexivity.
Qed.

(** ** The upload *)

Lemma words_loop_ok n : forall bs ptr m d, length bs = (4 * n)%nat ->
  (forall i, (i < length bs)%nat -> m (ptr + Z.of_nat i) = nth i bs 0) ->
  exists d', words_loop fuel n ptr m d = Some (tt, d') /\
    line d' = line d ++ flat_map long_bytes (le_words bs) /\
    inbox d' = inbox d ++ talk (line d) (flat_map long_bytes (le_words bs)).
Proof.
  induction n as [|n IH]; intros bs ptr m d Hl Hm; cbn [words_loop].
  - destruct bs; [|discriminate]. exists d. cbn. rewrite !app_nil_r. auto.
  - destruct bs as [|b0 [|b1 [|b2 [|b3 bs]]]]; cbn [length] in Hl; try lia. cbn [le_words flat_map].
    assert (Ew : load32 m ptr = b0 + 0x100 * b1 + 0x10000 * (b2 + 0x100 * b3)).
    { pose proof (Hm 0%nat ltac:(cbn; lia)) as M0. pose proof (Hm 1%nat ltac:(cbn; lia)) as M1.
      pose proof (Hm 2%nat ltac:(cbn; lia)) as M2. pose proof (Hm 3%nat ltac:(cbn; lia)) as M3.
      cbn [nth] in M0, M1, M2, M3. unfold load32, load16. rewrite <- M0, <- M1, <- M2, <- M3.
      rewrite <- !Z.add_assoc. cbn. rewrite Z.add_0_r. reflexivity. }
    rewrite Ew. set (w := b0 + 0x100 * b1 + 0x10000 * (b2 + 0x100 * b3)). unfold writeLong.
    destruct (tx_bytes_ok (long_bytes w) d (long_bytes_ok w)) as (d1 & E1 & L1 & I1).
    destruct (IH bs (ptr + 4) m d1) as (d2 & E2 & L2 & I2); [lia| |].
    { intros i Hi. specialize (Hm (S (S (S (S i)))) ltac:(cbn [length]; lia)). cbn [nth] in Hm.
      rewrite <- Hm. f_equal. lia. }
    exists d2. unfold mbind, io_bind. rewrite E1, E2. split; [reflexivity|].
    rewrite L2, I2, L1, I1, talk_app, <- !app_assoc. auto.
Qed.

(** The chip stays silent for [n] pacing bytes and answers the next with [r]. *)
Fixpoint responds (sent : list Z) (n : nat) (r : Z) : Prop :=
  match n with
  | O => exists more, reply sent 0xf9 = r :: more
  | S n' => reply sent 0xf9 = [] /\ responds (sent ++ [0xf9]) n' r
  end.

(** One round of pacing. *)
Lemma pace_round n d :
  exists d' b, pace_loop fuel (S n) d = (if b : bool then Some (tt, d') else pace_loop fuel n d') /\
    line d' = line d ++ [0xf9] /\ inbox d' = inbox d ++ reply (line d) 0xf9 /\
    (b = true -> inbox d' <> []) /\
    (b = false -> inbox d' <> [] -> inbox d <> [] -> (late d' < late d)%nat).
Proof.
  cbn [pace_loop]. destruct (tx_byte_ok 0xf9 d ltac:(lia)) as (d1 & E1 & L1 & I1 & T1).
  destruct (sleep_keeps 50 d1) as (L2 & I2 & T2). set (d2 := nanosleep 50 d1) in *.
  pose proof (lsr_rx d2) as Hr. destruct (lsr_keeps d2) as (L3 & I3 & _ & T3).
  exists (inb (0x3f8 + 5) d2).2, (anyset (inb (0x3f8 + 5) d2).1 1).
  unfold mbind at 1, io_bind at 1. rewrite E1. unfold mdelay. unfold mbind, io_bind. fold d2.
  rewrite rx_ready_eq. split; [destruct (anyset _ 1); reflexivity|]. rewrite L3, L2, L1, I3, I2, I1.
  split; [reflexivity|]. split; [reflexivity|]. rewrite I2, I1 in *. rewrite Hr. split.
  - intros Hb. apply andb_prop in Hb as [_ Hb]. intros E. rewrite E in Hb. discriminate.
  - intros Hb Hne Hi. specialize (T1 Hi). specialize (T3 Hne).
    destruct (inbox d ++ reply (line d) 0xf9); [contradiction|]. rewrite andb_true_r in Hb.
    apply Nat.eqb_neq in Hb. lia.
Qed.

(** A byte has arrived: it shows within the lag. *)
Lemma pace_pending n : forall d r bs, inbox d = r :: bs -> (late d < n)%nat ->
  exists k d' bs', pace_loop fuel n d = Some (tt, d') /\ line d' = line d ++ replicate k 0xf9 /\ inbox d' = r :: bs'.
Proof.
  induction n as [|n IH]; intros d r bs Hi Hn; [lia|].
  destruct (pace_round n d) as (d1 & b & E & L & I & _ & Hf). rewrite Hi in I, Hf. cbn [app] in I.
  destruct b.
  - exists 1%nat, d1, (bs ++ reply (line d) 0xf9). auto.
  - specialize (Hf eq_refl ltac:(rewrite I; discriminate) ltac:(discriminate)).
    destruct (IH d1 r _ I ltac:(lia)) as (k & d2 & bs' & E2 & L2 & I2).
    exists (S k), d2, bs'. rewrite E, E2, L2, L, <- app_assoc. auto.
Qed.

Lemma pace_ok r n : forall d fuel', inbox d = [] -> responds (line d) n r -> (n + lag + 1 < fuel')%nat ->
  exists k d' bs, pace_loop fuel fuel' d = Some (tt, d') /\ line d' = line d ++ replicate k 0xf9 /\
    inbox d' = r :: bs /\ (n < k)%nat.
Proof.
  induction n as [|n IH]; intros d fuel' Hi Hr Hf; (destruct fuel' as [|f]; [lia|]);
    destruct (pace_round f d) as (d1 & b & E & L & I & Ht & _); rewrite Hi in I; cbn [app] in I.
  - destruct Hr as [more Hr]. rewrite Hr in I. destruct b.
    + exists 1%nat, d1, more. auto.
    + pose proof (late_lag d1).
      destruct (pace_pending f d1 r more I ltac:(lia)) as (k & d2 & bs' & E2 & L2 & I2).
      exists (S k), d2, bs'. rewrite E, E2, L2, L, <- app_assoc. repeat (split; [auto|]). lia.
  - destruct Hr as [Hr0 Hr]. rewrite Hr0 in I. destruct b; [destruct (Ht eq_refl I)|].
    rewrite <- L in Hr. destruct (IH d1 f I Hr ltac:(lia)) as (k & d2 & bs' & E2 & L2 & I2 & Hk).
    exists (S k), d2, bs'. rewrite E, E2, L2, L, <- app_assoc. repeat (split; [auto|]). lia.
Qed.

Lemma prop_upload_ok bs m d n r :
  (exists k, length bs = (4 * k)%nat) -> Z.of_nat (length bs) < 2 ^ 32 ->
  (forall i, (i < length bs)%nat -> m (Z.of_nat i) = nth i bs 0) ->
  inbox d = [] -> talk (line d) (stream (le_words bs)) = [] ->
  responds (line d ++ stream (le_words bs)) n r -> (n + lag + 1 < fuel)%nat ->
  exists k d', prop_upload fuel m (Z.of_nat (length bs)) d = Some (r, d') /\
    line d' = line d ++ stream (le_words bs) ++ replicate k 0xf9.
Proof.
  intros [c Hc] Hlen Hm Hi Hs Hr Hf. unfold prop_upload.
  assert (Ec : Z.of_nat (length bs) / 4 = Z.of_nat (length (le_words bs)))
    by (rewrite (le_words_length c) by exact Hc; rewrite Hc, Nat2Z.inj_mul, Z.mul_comm, Z.div_mul by lia; reflexivity).
  rewrite Ec, Nat2Z.id, (le_words_length c) by exact Hc.
  unfold stream in *. rewrite (le_words_length c) in * by exact Hc. rewrite !talk_app in Hs.
  apply app_nil in Hs as [S1 S2]. apply app_nil in S2 as [S2 S3].
  destruct (tx_bytes_ok (long_bytes CMD_RUN) d (long_bytes_ok _)) as (d1 & E1 & L1 & I1).
  destruct (tx_bytes_ok (long_bytes (Z.of_nat c)) d1 (long_bytes_ok _)) as (d2 & E2 & L2 & I2).
  destruct (words_loop_ok c bs 0 m d2 Hc) as (d3 & E3 & L3 & I3); [intros i Hi'; apply Hm, Hi'|].
  rewrite L1 in L2, I2. rewrite L2 in L3, I3.
  rewrite S1, app_nil_r in I1. rewrite S2, app_nil_r in I2. rewrite S3, app_nil_r in I3.
  assert (L3' : line d3 = line d ++ long_bytes CMD_RUN ++ long_bytes (Z.of_nat c) ++ flat_map long_bytes (le_words bs))
    by (rewrite L3, <- !app_assoc; reflexivity).
  rewrite <- L3' in Hr.
  destruct (pace_ok r n d3 fuel) as (k & d4 & more & E4 & L4 & I4 & _); [congruence|exact Hr|exact Hf|].
  destruct (rx_byte_ok d4 r more I4) as (d5 & E5 & L5 & _).
  exists k, d5. unfold writeLong, mbind, io_bind in *. rewrite E1, E2, E3, E4, E5. split; [reflexivity|].
  rewrite L5, L4, L3', <- !app_assoc. reflexivity.
Qed.

(** ** The program *)

Lemma Load_ok bs : (exists k, length bs = (4 * k)%nat) -> Z.of_nat (length bs) < sizeof_buffer ->
  (Load (Bytes bs)).1 = Z.of_nat (length bs) /\
  forall i, (i < length bs)%nat -> (Load (Bytes bs)).2 (Z.of_nat i) = nth i bs 0.
Proof.
  intros [k Hk] Hl. unfold Load. rewrite take_ge by lia. rewrite (proj2 (Z.eqb_neq _ _)) by lia.
  replace (Z.rem (Z.of_nat (length bs)) 4) with 0; [|rewrite Z.rem_mod_nonneg, Hk by lia; Z.div_mod_to_equations; lia].
  cbn [Z.eqb negb fst snd]. split; [reflexivity|].
  intros i Hi. rewrite store_bytes_in by lia. f_equal. lia.
Qed.

Lemma prop_init_keeps d : exists res d', prop_init d = Some (res, d') /\ line d' = line d /\ inbox d' = inbox d /\
  ((forall p n d0, (ioperm p n d0).1 = 0) -> res = 0).
Proof.
  unfold prop_init. destruct (ioperm_keeps 0xcf8 8 d) as [L1 I1].
  destruct (ioperm 0xcf8 8 d) as [r1 d1] eqn:E1. cbn [snd] in L1, I1.
  destruct (negb (r1 =? 0)) eqn:N1.
  { exists (-1), d1. repeat (split; [auto|]). intros Hg. specialize (Hg 0xcf8 8 d). rewrite E1 in Hg.
    cbn in Hg. subst r1. discriminate. }
  destruct (ioperm_keeps 0x3f8 8 d1) as [L2 I2].
  destruct (ioperm 0x3f8 8 d1) as [r2 d2] eqn:E2. cbn [snd] in L2, I2.
  destruct (negb (r2 =? 0)) eqn:N2.
  { exists (-1), d2. split; [reflexivity|]. split; [congruence|]. split; [congruence|].
    intros Hg. specialize (Hg 0x3f8 8 d1). rewrite E2 in Hg. cbn in Hg. subst r2. discriminate. }
  destruct (outl_keeps CONTROL 0xcf8 d2) as [L3 I3]. set (d3 := outl CONTROL 0xcf8 d2) in *.
  destruct (inl_keeps 0xcfc d3) as [L4 I4]. destruct (inl_ 0xcfc d3) as [v d4]. cbn [snd] in L4, I4.
  eexists 0, _. split; [reflexivity|]. rewrite !(proj1 (outl_keeps _ _ _)), !(proj2 (outl_keeps _ _ _)).
  split; [congruence|]. split; [congruence|auto].
Qed.

(** C9: an image is uploaded as the chip will read it.  The file holds bytes, is
    not empty, is a multiple of four bytes and at most 32 KiB long; the ports are
    granted, nothing waits on the line, and the chip follows the protocol: silent
    through the greeting, one byte for each of the 258 pacing bytes, silent
    through the image, and an answer after some pacing bytes.  Then [biffprop]
    terminates with status 0, having sent exactly the calibration pulse, the first
    250 bits of the chip's shift-register sequence, the pacing bytes, a stream
    from which the chip decodes the run command and the little-endian words of
    the file, and pacing bytes; and the handshake reports exactly the positions
    at which the chip's answers differ from the rest of its sequence. *)
Theorem biffprop_uploads bs d seq version n r :
  Forall (fun b => 0 <= b < 0x100) bs -> bs <> [] ->
  (exists k, length bs = (4 * k)%nat) -> Z.of_nat (length bs) <= 0x8000 ->
  (forall p len d0, (ioperm p len d0).1 = 0) -> inbox d = [] ->
  chip_answers (line d) seq version ->
  let sent := line d ++ greeting ++ replicate 258 0xf9 in
  talk sent (stream (le_words bs)) = [] -> responds (sent ++ stream (le_words bs)) n r ->
  (n + lag + 1 < fuel)%nat ->
  (exists k d' str, main fuel 2 (Bytes bs) d = Some (0, d') /\
    line d' = sent ++ str ++ replicate k 0xf9 /\ decode_upload str = Some (CMD_RUN, le_words bs, [])) /\
  exists d1 d2, prop_init d = Some (0, d1) /\
    prop_connect fuel d1 = Some (bits_of version, mismatches answer_bits seq 250, d2).
Proof.
  intros Hb Hne Hk Hl Hg Hi Hc sent Ht Hr Hf. unfold main.
  destruct (prop_init_keeps d) as (res & d1 & E1 & L1 & I1 & Hres). rewrite (Hres Hg) in E1.
  rewrite <- L1 in Hc. destruct (prop_connect_ok seq version d1) as (d2 & E2 & L2 & I2); [congruence|exact Hc|].
  rewrite L1 in L2. fold sent in L2. rewrite <- L2 in Ht, Hr.
  destruct (Load_ok bs Hk) as [Hlen Hm]; [unfold sizeof_buffer; lia|].
  destruct (Load (Bytes bs)) as [len buffer]. cbn [fst snd] in Hlen, Hm. subst len.
  destruct (prop_upload_ok bs buffer d2 n r) as (k & d3 & E3 & L3); auto; [lia|].
  split; [|eauto].
  exists k, d3, (stream (le_words bs)). unfold mbind, io_bind. rewrite E1. cbn [negb Z.eqb Pos.eqb].
  rewrite (proj2 (Z.eqb_neq _ 0)) by (destruct bs; [contradiction|cbn; lia]).
  rewrite E2, E3. split; [reflexivity|]. split; [rewrite L3, L2; reflexivity|].
  apply stream_decodes; [apply le_words_range, Hb|]. destruct Hk as [c Hk].
  rewrite (le_words_length c) by exact Hk. lia.
Qed.

(** C40: a file that cannot be an image is refused before the chip is touched: when
    the file is missing, unreadable, empty, longer than 32 KiB or not a multiple
    of four bytes, or the arguments are wrong, the program ends with a nonzero
    status and has sent nothing. *)
Theorem biffprop_refuses argc f d :
  argc <> 2 \/
  match f with
  | Bytes bs => bs = [] \/ 0x8000 < Z.of_nat (length bs) \/ Z.of_nat (length bs) mod 4 <> 0
  | _ => True
  end ->
  exists status d', main fuel argc f d = Some (status, d') /\ status <> 0 /\ line d' = line d.
Proof.
  clear Hfuel. intros Hbad. unfold main. destruct (prop_init_keeps d) as (res & d1 & E1 & L1 & _ & _).
  unfold mbind, io_bind. rewrite E1. destruct (negb (res =? 0)); [exists (-1), d1; auto|].
  destruct (Z.eqb_spec argc 2) as [Ha|Ha]; cbn [negb]; [|exists (-1), d1; auto].
  destruct Hbad as [Hbad|Hbad]; [contradiction|].
  assert (Hz : (Load f).1 = 0).
  { destruct f as [| |bs]; [reflexivity|reflexivity|]. unfold Load, sizeof_buffer.
    destruct (Z.eqb_spec (Z.of_nat (length (take (Z.to_nat 0x8001) bs))) 0x8001) as [E|E]; [reflexivity|].
    rewrite length_take in *. destruct Hbad as [-> | [Hb|Hb]]; [reflexivity|lia|].
    replace (Nat.min (Z.to_nat 0x8001) (length bs)) with (length bs) by lia.
    rewrite Z.rem_mod_nonneg by lia. rewrite (proj2 (Z.eqb_neq _ 0)) by exact Hb. reflexivity. }
  destruct (Load f) as [len buffer]. cbn [fst] in Hz. subst len. exists 1, d1. auto.
Qed.

End Proofs.

(** ** An instance *)

(** A serial port whose transmitter needs two looks and whose receiver shows a
    byte after one, and a chip that takes an image of one word. *)
Record uart : Type := mkUart {
  u_line : list Z; u_inbox : list Z; u_busy : nat; u_late : nat; u_pci : list (Z * Z)
}.

Definition u_lag : nat := 2.

Definition ubusy (d : uart) : nat := Nat.min u_lag (u_busy d).

Definition ulate (d : uart) : nat := Nat.min u_lag (u_late d).

(** The chip counts the bytes it has seen: the greeting, the rest of the
    sequence, eight version bits (version 1), the image, and its answer to the
    third pacing byte. *)
Definition chip (sent : list Z) (b : Z) : list Z :=
  let n := length sent in
  if (n <? 251)%nat then []
  else if (n <? 501)%nat then [bit_byte (nth (n - 1) (chip_bits 500 seed_P) false)]
  else if (n =? 501)%nat then [0xff]
  else if (n <? 509)%nat then [0xfe]
  else if (n =? 509 + 33 + 2)%nat then [0xfe] else [].

Definition u_lsr (d : uart) : Z :=
  (if (ubusy d =? 0)%nat then 0x20 else 0) +
  (if (ulate d =? 0)%nat && match u_inbox d with [] => false | _ => true end then 1 else 0).

#[export] Instance uart_ports : Ports uart := {|
  inb := fun port d =>
    if port =? 0x3f8 + 5 then
      (u_lsr d, mkUart (u_line d) (u_inbox d) (pred (ubusy d)) (pred (ulate d)) (u_pci d))
    else match u_inbox d with
         | b :: bs => (b, mkUart (u_line d) bs (u_busy d) 1 (u_pci d))
         | [] => (0, d)
         end;
  outb := fun p port d =>
    mkUart (u_line d ++ [p]) (u_inbox d ++ chip (u_line d) p) 2
      (match u_inbox d with [] => 1 | _ => ulate d end) (u_pci d);
  inl_ := fun port d => (0, d);
  outl := fun v port d => mkUart (u_line d) (u_inbox d) (u_busy d) (u_late d) (u_pci d ++ [(port, v)]);
  ioperm := fun _ _ d => (0, d);
  nanosleep := fun _ d => d
|}.

Lemma u_lsr_bits d : anyset (u_lsr d) (Z.shiftl 1 5) = (ubusy d =? 0)%nat /\
  anyset (u_lsr d) 1 = (ulate d =? 0)%nat && match u_inbox d with [] => false | _ => true end.
Proof. unfold u_lsr. repeat case_match; split; reflexivity. Qed.

#[export] Instance uart_serial : Serial uart.
Proof.
  refine {| line := u_line; inbox := u_inbox; busy := ubusy; late := ulate; lag := u_lag; reply := chip |}.
  - intros d. unfold ubusy. lia.
  - intros d. unfold ulate. lia.
  - intros d. apply u_lsr_bits.
  - intros d. apply u_lsr_bits.
  - intros d. cbn [inb uart_ports Z.eqb snd u_line u_inbox u_busy u_late]. change (0x3f8 + 5 =? 0x3f8 + 5) with true.
    cbn [snd u_line u_inbox]. unfold ubusy, ulate, u_lag. cbn [u_busy u_late]. repeat split; intros; lia.
  - intros d p _ Hp. cbn [outb uart_ports u_line u_inbox]. split; [reflexivity|]. split; [reflexivity|].
    intros Hi. unfold ulate at 1. cbn [u_late]. destruct (u_inbox d); [contradiction|]. unfold ulate, u_lag. lia.
  - intros d b bs Hl Hi. cbn [inb uart_ports]. change (0x3f8 =? 0x3f8 + 5) with false. cbv iota.
    rewrite Hi. auto.
  - intros ms d. auto.
  - auto.
  - auto.
  - auto.
Defined.

Definition new_uart : uart := mkUart [] [] 0 0 [].

Definition sample_image : list Z := [0x78; 0x56; 0x34; 0x12].

Lemma chip_answers_sample :
  chip_answers [] (map bit_byte (drop 250 (chip_bits 500 seed_P))) [0xff; 0xfe; 0xfe; 0xfe; 0xfe; 0xfe; 0xfe; 0xfe].
Proof. split; [vm_compute; reflexivity|vm_compute; repeat split|vm_compute; reflexivity|reflexivity]. Qed.

Lemma biffprop_uploads_witness :
  (exists k d' str, main 20 2 (Bytes sample_image) new_uart = Some (0, d') /\
    u_line d' = ([] ++ greeting ++ replicate 258 0xf9) ++ str ++ replicate k 0xf9 /\
    decode_upload str = Some (CMD_RUN, [0x12345678], [])) /\
  exists d1 d2, prop_init new_uart = Some (0, d1) /\ prop_connect 20 d1 = Some (1, [], d2).
Proof.
  assert (Hfuel : (u_lag < 20)%nat) by (unfold u_lag; lia).
  apply (@biffprop_uploads uart uart_ports uart_serial 20 Hfuel sample_image new_uart
    (map bit_byte (drop 250 (chip_bits 500 seed_P))) [0xff; 0xfe; 0xfe; 0xfe; 0xfe; 0xfe; 0xfe; 0xfe] 2 0xfe).
  - repeat (apply Forall_cons_2; [lia|]). apply Forall_nil_2.
  - discriminate.
  - exists 1%nat. reflexivity.
  - vm_compute. discriminate.
  - reflexivity.
  - reflexivity.
  - exact chip_answers_sample.
  - vm_compute. reflexivity.
  - vm_compute. repeat split. exists []. reflexivity.
  - cbn [lag uart_serial]. unfold u_lag. lia.
Defined.

Lemma biffprop_refuses_witness :
  exists status d', main 20 2 (Bytes [1; 2; 3]) new_uart = Some (status, d') /\ status <> 0 /\ u_line d' = [].
Proof.
  apply (@biffprop_refuses uart uart_ports uart_serial 20 2 (Bytes [1; 2; 3]) new_uart). right. right. right. vm_compute. discriminate.
Defined.

End LoaderSpec.
