(* ===== verification/Jtag.v ===== *)
(** The JTAG boot-loader programmer: the assembler routines that drive the test
    access port through GPIO pins (tiny/busybox-1.22.1/gpio/jtag.S), the routines
    on top of them (rdc.c) and the applet biffjtag (biffjtag.c).

    The assembler works on the ports interface.  The C code works on the
    interface of jtag.h, of which the assembler is an instance, and on the
    files it opens.  Messages are not modelled. *)
From Stdlib Require Import ZArith Lia.
From stdpp Require Import base list numbers option.
From S2P Require Import Prelude PortIO.

Module Jtag.

(** ** jtag.S *)

Definition PORT : Z := 0xcfd.

Definition BIT_TDO_POS : Z := 1.

Definition BIT_TDI_POS : Z := 5.

Definition BIT_TDI : Z := Z.shiftl 1 BIT_TDI_POS.

Definition BIT_TCK : Z := Z.shiftl 1 (12 - 8).

Definition BIT_TMS : Z := Z.shiftl 1 (11 - 8).

Definition BIT_TDO : Z := Z.shiftl 1 BIT_TDO_POS.

Section Asm.
Context {D : Type} `{Ports D}.

Fixpoint delay (n : nat) (d : D) : D :=
  match n with O => d | S n' => delay n' (snd (inb PORT d)) end.

(** Clock low with the levels, then clock high. *)
Definition set_state (value : Z) (d : D) : D :=
  outb (Z.lor (Z.lor BIT_TDO value) BIT_TCK) PORT (outb (Z.lor BIT_TDO value) PORT d).

Definition set_state_0_1 (d : D) : D := set_state BIT_TDI d.

Definition set_state_1_0 (d : D) : D := set_state BIT_TMS d.

Definition set_state_0_0 (d : D) : D := set_state 0 d.

Definition any_to_reset (d : D) : D :=
  set_state_1_0 (set_state_1_0 (set_state_1_0 (set_state_1_0 (set_state_1_0 d)))).

Definition idle_to_shift_ir (d : D) : D :=
  set_state_0_0 (set_state_0_0 (set_state_1_0 (set_state_1_0 d))).

Definition idle_to_reset (d : D) : D := set_state_1_0 (set_state_1_0 (set_state_1_0 d)).

Definition idle_to_shift_dr (d : D) : D := set_state_0_0 (set_state_0_0 (set_state_1_0 d)).

Definition reset_to_idle (d : D) : D := set_state_0_0 (set_state_1_0 (set_state_1_0 d)).

Definition shift_to_update (d : D) : D := set_state_1_0 (set_state_1_0 d).

Definition update_to_shift_dr (d : D) : D := set_state_0_0 (set_state_0_0 (set_state_1_0 d)).

Definition update_to_idle (d : D) : D := set_state_0_0 d.

Definition shift_to_idle (d : D) : D := set_state_0_0 (shift_to_update d).

(** The low [n] bits of [ebx] out, least significant first. *)
Fixpoint shift_in (n : nat) (ebx : Z) (d : D) : D :=
  match n with
  | O => d
  | S n' =>
      let al := Z.lor (Z.shiftl (Z.land ebx 1) BIT_TDI_POS) BIT_TDO in
      let d := outb al PORT d in
      let d := outb (Z.lor al BIT_TCK) PORT d in
      shift_in n' (Z.shiftr ebx 1) d
  end.

(** One bit in, at position [value - 1] of [ebx]. *)
Definition sample (value ebx : Z) (d : D) : Z * D :=
  let ebx := Z.shiftr ebx 1 in
  let d := outb (Z.lor BIT_TDO BIT_TCK) PORT d in
  let d := outb BIT_TDO PORT d in
  let '(al, d) := inb PORT d in
  let eax := Z.shiftl (Z.land al BIT_TDO) (value - BIT_TDO_POS - 1) in
  (Z.lor ebx eax, d).

Fixpoint sample_loop (n : nat) (value ebx : Z) (d : D) : Z * D :=
  match n with
  | O => (ebx, d)
  | S n' => let '(ebx, d) := sample value ebx d in sample_loop n' value ebx d
  end.

Definition shift_out (value : Z) (d : D) : Z * D := sample_loop (Z.to_nat value) value 0 d.

Definition write_ir (value : Z) (d : D) : D :=
  shift_to_idle (shift_in 8 (Z.land value 0xff) (idle_to_shift_ir d)).

Definition read_dr (value : Z) (d : D) : Z * D :=
  let '(eax, d) := shift_out value d in (eax, shift_to_update d).

Definition write_dr (value : nat) (ebx : Z) (d : D) : D := shift_to_update (shift_in value ebx d).

(** One round of [jtag_init.loop]: the status, the port back in idle. *)
Definition init_round (d : D) : Z * D :=
  let d := reset_to_idle d in
  let d := write_ir 0x01 d in
  let d := delay 60 d in
  let d := write_ir 0x0f d in
  let d := delay 60 d in
  let d := idle_to_shift_dr d in
  let '(ebx, d) := shift_out 16 d in
  (ebx, shift_to_idle d).

Fixpoint init_loop (fuel : nat) (d : D) : option (Z * D) :=
  match fuel with
  | O => None
  | S fuel' =>
      let '(ebx, d) := init_round d in
      if Z.land ebx 0xffff =? 0 then init_loop fuel' (idle_to_reset d) else Some (ebx, d)
  end.

Definition MemAccess_impl (value1 value2 : Z) (d : D) : D :=
  let d := write_ir 0x11 d in
  let d := idle_to_shift_dr d in
  let d := write_dr 32 value1 d in
  let d := update_to_shift_dr d in
  write_dr 8 value2 d.

Definition ReadMem16_impl (addr : Z) (d : D) : Z * D :=
  let d := MemAccess_impl addr 0x19 d in
  let d := update_to_shift_dr d in
  let '(eax, d) := read_dr 16 d in
  (eax, update_to_idle d).

Definition WriteMem16_impl (addr val : Z) (d : D) : D :=
  let d := MemAccess_impl addr 0x1d d in
  let d := update_to_shift_dr d in
  let d := write_dr 16 val d in
  update_to_idle d.

End Asm.

(** ** jtag.h *)

Class JtagOps (D : Type) : Type := {
  jtag_init : D -> option (Z * D);
  jtag_MemAccess : Z -> Z -> D -> D;
  jtag_ReadMem16 : Z -> D -> Z * D;
  jtag_WriteMem16 : Z -> Z -> D -> D;
  jtag_write_ir : Z -> D -> D;
  jtag_idle_to_shift_dr : D -> D;
  jtag_read_dr8 : D -> Z * D;
  jtag_read_dr16 : D -> Z * D;
  jtag_read_dr32 : D -> Z * D;
  jtag_update_to_idle : D -> D;
  jtag_update_to_shift_dr : D -> D;
  jtag_write_dr32 : Z -> D -> D
}.

(** The assembler, with the rounds [jtag_init] is given to see a status. *)
Definition asm_jtag {D : Type} `{Ports D} (fuel : nat) : JtagOps D := {|
  jtag_init := fun d => init_loop fuel (any_to_reset d);
  jtag_MemAccess := MemAccess_impl;
  jtag_ReadMem16 := ReadMem16_impl;
  jtag_WriteMem16 := WriteMem16_impl;
  jtag_write_ir := write_ir;
  jtag_idle_to_shift_dr := idle_to_shift_dr;
  jtag_read_dr8 := read_dr 8;
  jtag_read_dr16 := read_dr 16;
  jtag_read_dr32 := read_dr 32;
  jtag_update_to_idle := update_to_idle;
  jtag_update_to_shift_dr := update_to_shift_dr;
  jtag_write_dr32 := write_dr 32
|}.

End Jtag.
