(* ===== verification/BiffJtag.v ===== *)
(** The C code of the JTAG boot-loader programmer (rdc.c and biffjtag.c in
    tiny/busybox-1.22.1/gpio), over the interface of jtag.h, the I/O ports and
    the files it opens. *)
From Stdlib Require Import ZArith Lia.
From stdpp Require Import base list numbers option strings.
From S2P Require Import Prelude PortIO Jtag.

Module BiffJtag.
Import Jtag.

(** ** Files *)

(** [open] gives a descriptor, [write] the number of bytes written, [read] what
    was read (its length is the result; [None] for an error). *)
Class Files (D : Type) : Type := {
  open_create : list Z -> D -> Z * D;
  open_rdonly : list Z -> D -> Z * D;
  fwrite : Z -> list Z -> D -> Z * D;
  fread : Z -> Z -> D -> option (list Z) * D
}.

(** How a run ends early: [_exit] with a status. *)
Definition exits (A : Type) : Type := Z + A.

Definition CONTROL : Z := 0x80003848.

Definition DATA : Z := 0x8000384c.

Definition RDC_TMS : Z := Z.shiftl 1 11.

Definition RDC_TDI : Z := Z.shiftl 1 13.

Definition RDC_TDO : Z := Z.shiftl 1 9.

Definition RDC_TCK : Z := Z.shiftl 1 12.

Section Rdc.
Context {D : Type} `{Ports D} `{JtagOps D} (fuel : nat).

(** ** rdc.c *)

Definition rdc_init : io D (exits Z) := fun d =>
  let '(res, d) := ioperm 0xcf8 8 d in
  if negb (res =? 0) then Some (inl (-1), d)
  else
    let d := outl CONTROL 0xcf8 d in
    let '(tmp, d) := inl_ 0xcfc d in
    let d := outl (Z.lor tmp (Z.lor (Z.lor (Z.lor RDC_TDI RDC_TCK) RDC_TMS) RDC_TDO)) 0xcfc d in
    let d := outl DATA 0xcf8 d in
    let d := outl RDC_TDO 0xcfc d in
    match jtag_init d with
    | None => None
    | Some (ready, d) => if negb (ready =? 0x8381) then Some (inr (-1), d) else Some (inr 0, d)
    end.

(** The 32-bit identification. *)
Definition rdc_Detect (d : D) : Z * D :=
  let d := jtag_WriteMem16 0xffffaaaa 0xaaaa d in
  let d := jtag_WriteMem16 0xffff5554 0x5555 d in
  let d := jtag_WriteMem16 0xffffaaaa 0x9090 d in
  let '(r, d) := jtag_ReadMem16 0xffff0000 d in
  let ret := u32 (Z.shiftl r 8) in
  let '(r, d) := jtag_ReadMem16 0xffff0200 d in
  let ret := u32 (Z.shiftl (Z.lor ret r) 16) in
  let '(r, d) := jtag_ReadMem16 0xffff0002 d in
  let ret := Z.lor ret r in
  (ret, jtag_WriteMem16 0xffff0000 0xf0f0 d).

(** [while (0xffff != r) r = jtag_ReadMem16(addr);] from [r = 1]. *)
Fixpoint erase_wait (n : nat) (addr : Z) (d : D) : option (unit * D) :=
  match n with
  | O => None
  | S n' =>
      let '(r, d) := jtag_ReadMem16 addr d in
      if negb (0xffff =? r) then erase_wait n' addr d else Some (tt, d)
  end.

Definition erase_writes (addr : Z) (d : D) : D :=
  let d := jtag_WriteMem16 0xffffaaaa 0xaaaa d in
  let d := jtag_WriteMem16 0xffff5554 0x5555 d in
  let d := jtag_WriteMem16 0xffffaaaa 0x8080 d in
  let d := jtag_WriteMem16 0xffffaaaa 0xaaaa d in
  let d := jtag_WriteMem16 0xffff5554 0x5555 d in
  jtag_WriteMem16 addr 0x3030 d.

Definition rdc_EonSectorErase (addr : Z) : io D unit := fun d => erase_wait fuel addr (erase_writes addr d).

Definition program_writes (addr value : Z) (d : D) : D :=
  let d := jtag_WriteMem16 0xffffaaaa 0xaaaa d in
  let d := jtag_WriteMem16 0xffff5554 0x5555 d in
  let d := jtag_WriteMem16 0xffffaaaa 0xa0a0 d in
  jtag_WriteMem16 addr value d.

(** One look at the cell, counting. *)
Definition program_step (addr value : Z) (p : Z * D) : (Z * D) + (Z * D) :=
  let '(i, d) := p in
  let '(r, d) := jtag_ReadMem16 addr d in
  if negb (value =? r) then
    let i := i + 1 in
    if 10000000 <? i then inr (-1, d) else inl (i, d)
  else inr (0, d).

(** The count passes 10000000 before the bound is reached. *)
Definition rdc_EonProgram (addr value : Z) (d : D) : Z * D :=
  match ploop 10000002 (program_step addr value) (0, program_writes addr value d) with
  | inl (_, d) => (-1, d)
  | inr r => r
  end.

Definition Status (d : D) : Z * D :=
  let d := jtag_write_ir 0x0f d in
  let d := jtag_idle_to_shift_dr d in
  let '(r, d) := jtag_read_dr16 d in
  (Z.land r 0xffff, jtag_update_to_idle d).

Fixpoint read_words (data_length : nat) (d : D) : list Z * D :=
  match data_length with
  | O => ([], d)
  | S n' =>
      let '(v, d) := jtag_read_dr32 d in
      let d := match n' with O => jtag_update_to_idle d | _ => jtag_update_to_shift_dr d end in
      let '(vs, d) := read_words n' d in (v :: vs, d)
  end.

Definition ReadData32 (command data_length : Z) (d : D) : list Z * D :=
  let d := jtag_write_ir command d in
  if negb (data_length =? 0) then
    let d := jtag_idle_to_shift_dr d in
    read_words (Z.to_nat (data_length / 4)) d
  else ([], d).

Fixpoint write_words (data_length : nat) (data : mem) (ptr : Z) (d : D) : D :=
  match data_length with
  | O => d
  | S n' =>
      let d := jtag_write_dr32 (load32 data ptr) d in
      let d := match n' with O => jtag_update_to_idle d | _ => jtag_update_to_shift_dr d end in
      write_words n' data (ptr + 4) d
  end.

Definition WriteData (command : Z) (data : mem) (ptr data_length : Z) (d : D) : D :=
  let d := jtag_write_ir command d in
  if negb (data_length =? 0) then
    let d := jtag_idle_to_shift_dr d in
    write_words (Z.to_nat (data_length / 4)) data ptr d
  else d.

Definition ResetFlags (d : D) : D :=
  let tosend := store32 (store32 (store32 (fun _ => 0) 0 0x2) 4 0xff00) 8 0x9090f000 in
  WriteData 0x0d tosend 0 12 d.

Fixpoint dump_bytes (count : nat) (d : D) : list Z * D :=
  match count with
  | O => ([], d)
  | S n' =>
      let d := jtag_update_to_shift_dr d in
      let '(v, d) := jtag_read_dr8 d in
      let '(vs, d) := dump_bytes n' d in (Z.land v 0xff :: vs, d)
  end.

(** The bytes stored in the buffer from its start. *)
Definition DumpMem (addr count : Z) (d : D) : list Z * D :=
  if 0x80 <? count then ([], d)
  else
    let d := ResetFlags d in
    let d := jtag_MemAccess addr 0x18 d in
    let '(vs, d) := dump_bytes (Z.to_nat count) d in
    (vs, jtag_update_to_idle d).

Definition RunCode (data : mem) (ptr count : Z) (d : D) : Z * D :=
  let d := ResetFlags d in
  let d := WriteData 0x06 data ptr count d in
  let d := WriteData 0x02 data ptr 0 d in
  let '(s1, d) := Status d in
  if s1 =? 0x8381 then (0, d) else (-1, d).

Definition rdc_eax (d : D) : Z * D :=
  let '(vs, d) := ReadData32 0x0e 4 d in (hd 0 vs, d).

Definition bus_control_bin : list Z :=
  [0x04; 0xba; 0xf8; 0x0c; 0x90; 0x08; 0x66; 0xb8; 0x40; 0x38; 0x00; 0x80;
   0x90; 0x90; 0x04; 0x66; 0xef; 0x90; 0x90; 0x04; 0xba; 0xfc; 0x0c; 0x90;
   0x08; 0x66; 0xb8; 0x00; 0x06; 0xff; 0x87; 0x90; 0x90; 0x04; 0x66; 0xef;
   0x90; 0x90].

Definition bus_control_bin_len : Z := 38.

(** [while (ptr < end_ptr)]; each round advances. *)
Fixpoint bus_loop (n : nat) (m : mem) (ptr : Z) (d : D) : Z * D :=
  match n with
  | O => (0, d)
  | S n' =>
      if ptr <? bus_control_bin_len then
        let length := m ptr in
        let ptr := ptr + 1 in
        let '(ret, d) := RunCode m ptr length d in
        if negb (ret =? 0) then (ret, d) else bus_loop n' m (ptr + length) d
      else (0, d)
  end.

Definition rdc_bus_control (d : D) : Z * D :=
  bus_loop (Z.to_nat bus_control_bin_len) (store_bytes (fun _ => 0) 0 bus_control_bin) 0 d.

(** The buffer after the call. *)
Definition rdc_Dump80 (address : Z) (buffer : mem) (d : D) : mem * D :=
  let d := ResetFlags d in
  let '(vs, d) := DumpMem address 0x80 d in
  (store_bytes buffer 0 vs, d).

(** [for (i = 0; i < total; i += 0x80)]. *)
Fixpoint dump_loop (n : nat) (address i : Z) (buffer : mem) (d : D) : mem * D :=
  match n with
  | O => (buffer, d)
  | S n' =>
      let d := ResetFlags d in
      let '(vs, d) := DumpMem (u32 (address + i)) 0x80 d in
      dump_loop n' address (i + 0x80) (store_bytes buffer i vs) d
  end.

Definition rdc_Dump2000 (address : Z) (buffer : mem) (d : D) : mem * D :=
  dump_loop (Z.to_nat (0x2000 / 0x80)) address 0 buffer d.

Definition rdc_DumpSector (address : Z) (buffer : mem) (d : D) : mem * D :=
  dump_loop (Z.to_nat (0x10000 / 0x80)) address 0 buffer d.

(** ** biffjtag.c *)

Context `{Files D}.

(** [sizeof(buffer)]. *)
Definition sizeof_buffer : Z := 0x10000.

Definition DumpBIOS (fname : list Z) (buffer : mem) (d : D) : mem * D :=
  let '(buffer, d) := rdc_DumpSector 0xffff0000 buffer d in
  let '(fd, d) := open_create fname d in
  let '(_, d) := fwrite fd (load_bytes buffer 0 sizeof_buffer) d in
  (buffer, d).

Fixpoint dump_all_loop (n : nat) (addr count fd : Z) (buffer : mem) (d : D) : mem * D :=
  match n with
  | O => (buffer, d)
  | S n' =>
      let '(buffer, d) := rdc_DumpSector (u32 (addr + count * 0x10000)) buffer d in
      let '(_, d) := fwrite fd (load_bytes buffer 0 sizeof_buffer) d in
      dump_all_loop n' addr (count + 1) fd buffer d
  end.

Definition DumpAll (addr : Z) (fname : list Z) (buffer : mem) (d : D) : mem * D :=
  let '(fd, d) := open_create fname d in
  let max := u32 (0xffffff00 - addr) / 0x10000 + 1 in
  dump_all_loop (Z.to_nat max) addr 0 fd buffer d.

(** The exit status when the file cannot be written. *)
Definition DumpMAC (base : Z) (buffer : mem) (d : D) : exits mem * D :=
  let base := u32 (base + 0x4000) in
  let base := u32 (base + 1036) in
  let '(buffer, d) := rdc_Dump80 base buffer d in
  let '(fd, d) := open_create (str "mac.bin") d in
  let buffer := store (store buffer 6 0) 7 0 in
  let '(res, d) := fwrite fd (load_bytes buffer 0 8) d in
  (if negb (res =? 8) then inl 1 else inr buffer, d).

Definition DumpConfig (base : Z) (buffer : mem) (d : D) : exits mem * D :=
  let base := u32 (base + 0x4000) in
  let '(buffer, d) := rdc_Dump2000 base buffer d in
  let '(fd, d) := open_create (str "config.bin") d in
  let '(res, d) := fwrite fd (load_bytes buffer 0 0x2000) d in
  (if negb (res =? 0x2000) then inl 1 else inr buffer, d).

(** [for (off = 0; off < limit; off += 2)] of both programming routines; whether
    every halfword was programmed. *)
Fixpoint program_loop (n : nat) (addr off : Z) (buffer : mem) (d : D) : bool * D :=
  match n with
  | O => (true, d)
  | S n' =>
      let val := load16 buffer off in
      if val =? 0xffff then program_loop n' addr (off + 2) buffer d
      else
        let '(res, d) := rdc_EonProgram (u32 (addr + off)) val d in
        if negb (res =? 0) then (false, d) else program_loop n' addr (off + 2) buffer d
  end.

(** The buffer after [read]. *)
Definition read_into (buffer : mem) (r : option (list Z)) : mem :=
  match r with Some bs => store_bytes buffer 0 bs | None => buffer end.

Definition read_result (r : option (list Z)) : Z :=
  match r with Some bs => Z.of_nat (length bs) | None => -1 end.

Definition ProgramConfig (base : Z) (fname : list Z) (buffer : mem) : io D bool := fun d =>
  let addr := base in
  let '(fd, d) := open_rdonly fname d in
  let '(r, d) := fread fd sizeof_buffer d in
  let buffer := read_into buffer r in
  if negb (read_result r =? 0x2000) then Some (false, d)
  else
    match rdc_EonSectorErase base d with
    | None => None
    | Some (_, d) => Some (program_loop (Z.to_nat (0x2000 / 2)) addr 0 buffer d)
    end.

Definition EraseBootloader : io D unit := rdc_EonSectorErase 0xffff0000.

(** [off < 0xffff] takes the last halfword in. *)
Definition ProgramBootloader (fname : list Z) (buffer : mem) (d : D) : bool * D :=
  let addr := 0xffff0000 in
  let '(fd, d) := open_rdonly fname d in
  let '(r, d) := fread fd sizeof_buffer d in
  let buffer := read_into buffer r in
  if negb (read_result r =? sizeof_buffer) then (false, d)
  else program_loop (Z.to_nat (0x10000 / 2)) addr 0 buffer d.

(** The base address of the flash, 0 when it is not known. *)
Definition Manufacturer (d : D) : Z * D :=
  let '(ret, d) := rdc_Detect d in
  (if ret =? 0x7f1c225b then 0xfff00000
   else if ret =? 0x7f1c22f9 then 0xffc00000
   else if ret =? 0x7f1c22cb then 0xff800000
   else if ret =? 0xc2c222cb then 0xff800000
   else 0, d).

Definition eqs (a b : list Z) : bool := bool_decide (a = b).

(** The exit status. *)
Definition biffjtag_main (argc : Z) (cmd arg : list Z) : io D Z := fun d =>
  if negb (argc =? 3) then Some (-1, d)
  else
    match rdc_init d with
    | None => None
    | Some (inl status, d) => Some (status, d)
    | Some (inr res, d) =>
        if negb (res =? 0) then Some (-1, d)
        else
          let '(res, d) := rdc_bus_control d in
          if negb (res =? 0) then Some (1, d)
          else
            let '(base, d) := Manufacturer d in
            let buffer : mem := fun _ => 0 in
            if base =? 0 then Some (1, d)
            else if eqs cmd (str "dump") then
              let '(_, d) := DumpBIOS arg buffer d in Some (0, d)
            else if eqs cmd (str "erase") then
              match EraseBootloader d with None => None | Some (_, d) => Some (0, d) end
            else if eqs cmd (str "program") then
              match EraseBootloader d with
              | None => None
              | Some (_, d) => let '(_, d) := ProgramBootloader arg buffer d in Some (0, d)
              end
            else if eqs cmd (str "mac") then
              let '(r, d) := DumpMAC base buffer d in
              Some (match r with inl status => status | inr _ => 0 end, d)
            else if eqs cmd (str "dumpconfig") then
              let '(r, d) := DumpConfig base buffer d in
              Some (match r with inl status => status | inr _ => 0 end, d)
            else if eqs cmd (str "programconfig") then
              match ProgramConfig base (str "config.bin") buffer d with
              | None => None
              | Some (_, d) => Some (0, d)
              end
            else if eqs cmd (str "dumpall") then
              let '(_, d) := DumpAll base arg buffer d in Some (0, d)
            else Some (0, d)
    end.

End Rdc.

End BiffJtag.
