(* ===== verification/JtagSpec.v ===== *)
(** The JTAG routines against the IEEE 1149.1 test access port: every assembler
    routine takes the port between the states its name says, reads give the bits
    of the register least significant first, and the C code calls each routine
    only in the state it is written for. *)
From Stdlib Require Import ZArith Lia.
From stdpp Require Import base list numbers option strings.
From S2P Require Import Prelude PortIO Jtag BiffJtag.

Module JtagSpec.
Import Jtag BiffJtag.

(** ** The test access port *)

Inductive tap : Type :=
| TEST_LOGIC_RESET | RUN_TEST_IDLE
| SELECT_DR | CAPTURE_DR | SHIFT_DR | EXIT1_DR | PAUSE_DR | EXIT2_DR | UPDATE_DR
| SELECT_IR | CAPTURE_IR | SHIFT_IR | EXIT1_IR | PAUSE_IR | EXIT2_IR | UPDATE_IR.

#[export] Instance tap_eq_dec : EqDecision tap.
Proof. solve_decision. Defined.

(** The state after a rising clock edge with the given mode select. *)
Definition tap_step (t : tap) (tms : bool) : tap :=
  match t, tms with
  | TEST_LOGIC_RESET, true => TEST_LOGIC_RESET | TEST_LOGIC_RESET, false => RUN_TEST_IDLE
  | RUN_TEST_IDLE, true => SELECT_DR | RUN_TEST_IDLE, false => RUN_TEST_IDLE
  | SELECT_DR, true => SELECT_IR | SELECT_DR, false => CAPTURE_DR
  | CAPTURE_DR, true => EXIT1_DR | CAPTURE_DR, false => SHIFT_DR
  | SHIFT_DR, true => EXIT1_DR | SHIFT_DR, false => SHIFT_DR
  | EXIT1_DR, true => UPDATE_DR | EXIT1_DR, false => PAUSE_DR
  | PAUSE_DR, true => EXIT2_DR | PAUSE_DR, false => PAUSE_DR
  | EXIT2_DR, true => UPDATE_DR | EXIT2_DR, false => SHIFT_DR
  | UPDATE_DR, true => SELECT_DR | UPDATE_DR, false => RUN_TEST_IDLE
  | SELECT_IR, true => TEST_LOGIC_RESET | SELECT_IR, false => CAPTURE_IR
  | CAPTURE_IR, true => EXIT1_IR | CAPTURE_IR, false => SHIFT_IR
  | SHIFT_IR, true => EXIT1_IR | SHIFT_IR, false => SHIFT_IR
  | EXIT1_IR, true => UPDATE_IR | EXIT1_IR, false => PAUSE_IR
  | PAUSE_IR, true => EXIT2_IR | PAUSE_IR, false => PAUSE_IR
  | EXIT2_IR, true => UPDATE_IR | EXIT2_IR, false => SHIFT_IR
  | UPDATE_IR, true => SELECT_DR | UPDATE_IR, false => RUN_TEST_IDLE
  end.

(** A machine with a test access port on the pins: a rising edge of TCK steps the
    port with the level of TMS; while it shifts data the bits of the register
    come out, one for each rising edge, and show on TDO while TCK is low. *)
Class TapPins (D : Type) `{Ports D} : Type := {
  tap_of : D -> tap;
  tck : D -> bool;
  upcoming : D -> nat -> bool;
  outb_tap : forall v d, tap_of (outb v PORT d) =
    if negb (tck d) && Z.testbit v 4 then tap_step (tap_of d) (Z.testbit v 3) else tap_of d;
  outb_tck : forall v d, tck (outb v PORT d) = Z.testbit v 4;
  outb_bits : forall v d i, tap_of d = SHIFT_DR ->
    upcoming (outb v PORT d) i =
      if negb (tck d) && Z.testbit v 4 then upcoming d (S i) else upcoming d i;
  inb_keeps : forall d, let d' := (inb PORT d).2 in
    tap_of d' = tap_of d /\ tck d' = tck d /\ (forall i, upcoming d' i = upcoming d i);
  inb_tdo : forall d, tap_of d = SHIFT_DR -> tck d = false ->
    Z.testbit (inb PORT d).1 BIT_TDO_POS = upcoming d 0
}.

Section Asm.
Context {D : Type} `{TapPins D}.

Lemma set_state_tap v d : Z.testbit v 4 = false ->
  tap_of (set_state v d) = tap_step (tap_of d) (Z.testbit v 3) /\ tck (set_state v d) = true.
Proof.
  intros Hv. unfold set_state. set (lo := Z.lor BIT_TDO v).
  assert (E4 : Z.testbit lo 4 = false) by (unfold lo; rewrite Z.lor_spec, Hv; reflexivity).
  assert (E3 : Z.testbit (Z.lor lo BIT_TCK) 3 = Z.testbit v 3)
    by (unfold lo; rewrite !Z.lor_spec; cbn; apply orb_false_r).
  assert (E4' : Z.testbit (Z.lor lo BIT_TCK) 4 = true) by (rewrite Z.lor_spec; apply orb_true_r).
  rewrite outb_tap, outb_tck, outb_tck, E4, E4', E3, outb_tap, E4, andb_false_r. auto.
Qed.

(** The three clockings of the assembler. *)
Lemma tap_1_0 d : tap_of (set_state_1_0 d) = tap_step (tap_of d) true /\ tck (set_state_1_0 d) = true.
Proof. exact (set_state_tap BIT_TMS d eq_refl). Qed.

Lemma tap_0_0 d : tap_of (set_state_0_0 d) = tap_step (tap_of d) false /\ tck (set_state_0_0 d) = true.
Proof. exact (set_state_tap 0 d eq_refl). Qed.

Ltac walk := repeat first [rewrite (proj1 (tap_1_0 _)) | rewrite (proj1 (tap_0_0 _))].

(** Five clocks with TMS high reset the port whatever state it is in. *)
Lemma any_to_reset_tap d : tap_of (any_to_reset d) = TEST_LOGIC_RESET.
Proof. unfold any_to_reset. walk. destruct (tap_of d); reflexivity. Qed.

Lemma idle_to_shift_ir_tap d : tap_of d = RUN_TEST_IDLE -> tap_of (idle_to_shift_ir d) = SHIFT_IR.
Proof. intros E. unfold idle_to_shift_ir. walk. rewrite E. reflexivity. Qed.

Lemma idle_to_reset_tap d : tap_of d = RUN_TEST_IDLE -> tap_of (idle_to_reset d) = TEST_LOGIC_RESET.
Proof. intros E. unfold idle_to_reset. walk. rewrite E. reflexivity. Qed.

Lemma idle_to_shift_dr_tap d : tap_of d = RUN_TEST_IDLE -> tap_of (idle_to_shift_dr d) = SHIFT_DR.
Proof. intros E. unfold idle_to_shift_dr. walk. rewrite E. reflexivity. Qed.

Lemma reset_to_idle_tap d : tap_of d = TEST_LOGIC_RESET -> tap_of (reset_to_idle d) = RUN_TEST_IDLE.
Proof. intros E. unfold reset_to_idle. walk. rewrite E. reflexivity. Qed.

Lemma shift_to_update_tap d : tap_of d = SHIFT_DR -> tap_of (shift_to_update d) = UPDATE_DR.
Proof. intros E. unfold shift_to_update. walk. rewrite E. reflexivity. Qed.

Lemma shift_to_idle_tap d : tap_of d = SHIFT_DR \/ tap_of d = SHIFT_IR -> tap_of (shift_to_idle d) = RUN_TEST_IDLE.
Proof. intros E. unfold shift_to_idle, shift_to_update. walk. destruct E as [-> | ->]; reflexivity. Qed.

Lemma update_to_shift_dr_tap d : tap_of d = UPDATE_DR -> tap_of (update_to_shift_dr d) = SHIFT_DR.
Proof. intros E. unfold update_to_shift_dr. walk. rewrite E. reflexivity. Qed.

Lemma update_to_idle_tap d : tap_of d = UPDATE_DR -> tap_of (update_to_idle d) = RUN_TEST_IDLE.
Proof. intros E. unfold update_to_idle. walk. rewrite E. reflexivity. Qed.

Lemma delay_tap n : forall d, tap_of (delay n d) = tap_of d.
Proof. induction n as [|n IH]; intros d; cbn [delay]; [reflexivity|]. rewrite IH. apply inb_keeps. Qed.

(** Shifting keeps the port in its shift state. *)
Lemma shift_in_tap n : forall ebx d, tap_of d = SHIFT_DR \/ tap_of d = SHIFT_IR ->
  tap_of (shift_in n ebx d) = tap_of d.
Proof.
  induction n as [|n IH]; intros ebx d Hd; cbn [shift_in]; [reflexivity|].
  set (al := Z.lor _ BIT_TDO).
  assert (E4 : Z.testbit al 4 = false /\ Z.testbit al 3 = false).
  { unfold al. change BIT_TDO with 2. rewrite !Z.lor_spec, !Z.shiftl_spec by lia.
    unfold BIT_TDI_POS. rewrite !Z.testbit_neg_r by lia. split; reflexivity. }
  destruct E4 as [E4 E3].
  assert (E : tap_of (outb (Z.lor al BIT_TCK) PORT (outb al PORT d)) = tap_of d).
  { rewrite outb_tap, outb_tck, E4, !Z.lor_spec, E3, outb_tap, E4, andb_false_r.
    change (Z.testbit BIT_TCK 4) with true. change (Z.testbit BIT_TCK 3) with false. cbn [negb orb andb].
    destruct Hd as [-> | ->]; reflexivity. }
  rewrite IH; rewrite E; [reflexivity|exact Hd].
Qed.

(** ** Reading a register *)

(** Whether the next clocking of [sample] is a rising edge. *)
Definition edge (d : D) : nat := if tck d then 0 else 1.

Lemma sample_spec value ebx d : tap_of d = SHIFT_DR -> 2 <= value ->
  let '(r, d') := sample value ebx d in
  tap_of d' = SHIFT_DR /\ tck d' = false /\ (forall i, upcoming d' i = upcoming d (i + edge d)) /\
  r = Z.lor (Z.shiftr ebx 1) (Z.shiftl (Z.b2z (upcoming d (edge d))) (value - 1)).
Proof.
  intros Ht Hv. unfold sample. set (d1 := outb (Z.lor BIT_TDO BIT_TCK) PORT d).
  assert (T1 : tap_of d1 = SHIFT_DR).
  { unfold d1. rewrite outb_tap, Ht. destruct (negb (tck d) && _); reflexivity. }
  assert (U1 : forall i, upcoming d1 i = upcoming d (i + edge d)).
  { intros i. unfold d1, edge. rewrite outb_bits by exact Ht. change (Z.testbit (Z.lor BIT_TDO BIT_TCK) 4) with true.
    destruct (tck d); cbn [negb andb]; f_equal; lia. }
  assert (C1 : tck d1 = true) by (unfold d1; rewrite outb_tck; reflexivity).
  set (d2 := outb BIT_TDO PORT d1).
  assert (T2 : tap_of d2 = SHIFT_DR) by (unfold d2; rewrite outb_tap, C1, T1; reflexivity).
  assert (U2 : forall i, upcoming d2 i = upcoming d1 i)
    by (intros i; unfold d2; rewrite outb_bits, C1 by exact T1; reflexivity).
  assert (C2 : tck d2 = false) by (unfold d2; rewrite outb_tck; reflexivity).
  pose proof (inb_tdo d2 T2 C2) as Hb. destruct (inb_keeps d2) as (T3 & C3 & U3).
  destruct (inb PORT d2) as [al d3]. cbn [fst snd] in *.
  split; [congruence|]. split; [congruence|].
  split; [intros i; rewrite U3, U2, U1; reflexivity|].
  rewrite U2, U1 in Hb. f_equal.
  change BIT_TDO with (2 ^ 1). rewrite land_bit by lia. unfold BIT_TDO_POS in *. rewrite Hb.
  rewrite !Z.shiftl_mul_pow2 by lia.
  assert (E : 2 ^ (value - 1) = 2 ^ 1 * 2 ^ (value - 1 - 1)) by (rewrite <- Z.pow_add_r by lia; f_equal; lia).
  rewrite E. cbn [Nat.add]. ring.
Qed.

Lemma sample_loop_bits value n : forall ebx d,
  tap_of d = SHIFT_DR -> 2 <= value -> Z.of_nat n <= value -> 0 <= ebx < 2 ^ value ->
  let '(r, d') := sample_loop n value ebx d in
  tap_of d' = SHIFT_DR /\ 0 <= r < 2 ^ value /\
  forall p, 0 <= p < value ->
    Z.testbit r p = if p <? value - Z.of_nat n then Z.testbit ebx (p + Z.of_nat n)
                    else upcoming d (Z.to_nat (p - (value - Z.of_nat n)) + edge d).
Proof.
  induction n as [|n IH]; intros ebx d Ht Hv Hn He; cbn [sample_loop].
  - split; [exact Ht|]. split; [exact He|]. intros p Hp. rewrite (proj2 (Z.ltb_lt _ _)) by lia. f_equal. lia.
  - pose proof (sample_spec value ebx d Ht Hv) as Hs. destruct (sample value ebx d) as [ebx1 d1].
    destruct Hs as (T1 & C1 & U1 & E1).
    assert (H2 : 2 ^ value = 2 * 2 ^ (value - 1)) by (rewrite <- Z.pow_succ_r by lia; f_equal; lia).
    assert (He1 : 0 <= ebx1 < 2 ^ value).
    { rewrite E1. apply lor_range; [lia| |].
      - rewrite Z.shiftr_div_pow2 by lia. change (2 ^ 1) with 2. Z.div_mod_to_equations. lia.
      - rewrite Z.shiftl_mul_pow2 by lia. destruct (upcoming d (edge d)); cbn [Z.b2z]; lia. }
    specialize (IH ebx1 d1 T1 Hv ltac:(lia) He1). destruct (sample_loop n value ebx1 d1) as [r d2].
    destruct IH as (T2 & Hr & Hb). split; [exact T2|]. split; [exact Hr|]. intros p Hp. rewrite Hb by exact Hp.
    assert (Hbit : forall q, 0 <= q < value -> Z.testbit ebx1 q =
              if q =? value - 1 then upcoming d (edge d) else Z.testbit ebx (q + 1)).
    { intros q Hq. rewrite E1, Z.lor_spec, Z.shiftr_spec, Z.shiftl_spec by lia.
      destruct (Z.eqb_spec q (value - 1)) as [->|Hne].
      - replace (value - 1 + 1) with value by lia. rewrite Z.sub_diag, Z.b2z_bit0.
        rewrite (Z.bits_above_log2 ebx value); [reflexivity|lia|].
        destruct (Z.eq_dec ebx 0) as [->|]; [cbn; lia|]. apply Z.log2_lt_pow2; lia.
      - rewrite (Z.testbit_neg_r _ (q - (value - 1))) by lia. apply orb_false_r. }
    unfold edge at 1. rewrite C1. rewrite Nat2Z.inj_succ.
    destruct (Z.ltb_spec p (value - Z.of_nat n)) as [Hlt|Hge].
    + rewrite Hbit by lia. destruct (Z.eqb_spec (p + Z.of_nat n) (value - 1)) as [E|E].
      * rewrite (proj2 (Z.ltb_ge _ _)) by lia. f_equal. lia.
      * rewrite (proj2 (Z.ltb_lt _ _)) by lia. f_equal. lia.
    + rewrite (proj2 (Z.ltb_ge p (value - Z.succ (Z.of_nat n)))) by lia. rewrite U1. f_equal. lia.
Qed.

(** The first [n] bits of a stream as a number, the first the least significant. *)
Fixpoint bits_value (n : nat) (f : nat -> bool) : Z :=
  match n with O => 0 | S n' => Z.b2z (f 0%nat) + 2 * bits_value n' (fun i => f (S i)) end.

Lemma bits_value_testbit n : forall f p, 0 <= p ->
  Z.testbit (bits_value n f) p = (p <? Z.of_nat n) && f (Z.to_nat p).
Proof.
  induction n as [|n IH]; intros f p Hp; cbn [bits_value].
  - rewrite Z.bits_0. destruct (Z.ltb_spec p (Z.of_nat 0)); [lia|reflexivity].
  - rewrite Z.add_comm. destruct (Z.eq_dec p 0) as [->|Hne].
    + rewrite Z.testbit_0_r. reflexivity.
    + replace p with (Z.succ (p - 1)) at 1 by lia. rewrite Z.testbit_succ_r by lia. rewrite IH by lia.
      replace (Z.to_nat p) with (S (Z.to_nat (p - 1))) by lia.
      destruct (Z.ltb_spec (p - 1) (Z.of_nat n)), (Z.ltb_spec p (Z.of_nat (S n))); try lia; reflexivity.
Qed.

Lemma shift_out_value value d : tap_of d = SHIFT_DR -> tck d = true -> 2 <= value ->
  let '(r, d') := shift_out value d in
  r = bits_value (Z.to_nat value) (upcoming d) /\ tap_of d' = SHIFT_DR.
Proof.
  intros Ht Hc Hv. unfold shift_out.
  pose proof (sample_loop_bits value (Z.to_nat value) 0 d Ht Hv ltac:(lia) ltac:(split; [lia|apply Z.pow_pos_nonneg; lia])) as Hs.
  destruct (sample_loop (Z.to_nat value) value 0 d) as [r d']. destruct Hs as (T & Hr & Hb).
  split; [|exact T]. apply Z.bits_inj'. intros p Hp. rewrite bits_value_testbit by exact Hp.
  rewrite Z2Nat.id in * by lia. destruct (Z.ltb_spec p value) as [Hlt|Hge]; cbn [andb].
  - rewrite Hb by lia. rewrite (proj2 (Z.ltb_ge _ _)) by lia. unfold edge. rewrite Hc. f_equal. lia.
  - destruct (Z.eq_dec r 0) as [->|]; [apply Z.bits_0|]. apply Z.bits_above_log2; [lia|].
    apply Z.log2_lt_pow2; [lia|]. eapply Z.lt_le_trans; [apply Hr|]. apply Z.pow_le_mono_r; lia.
Qed.

(** A data register is read correctly: with the port shifting data, [read_dr]
    of 8, 16 or 32 bits returns the register, least significant bit first, and
    leaves the port in Update-DR. *)
Theorem read_dr_value value d :
  tap_of d = SHIFT_DR -> tck d = true -> value = 8 \/ value = 16 \/ value = 32 ->
  let '(r, d') := read_dr value d in
  r = bits_value (Z.to_nat value) (upcoming d) /\ 0 <= r < 2 ^ value /\ tap_of d' = UPDATE_DR.
Proof.
  intros Ht Hc Hv. unfold read_dr. pose proof (shift_out_value value d Ht Hc ltac:(lia)) as Hs.
  assert (Hr : forall n f, 0 <= bits_value n f < 2 ^ Z.of_nat n).
  { induction n as [|n IH]; intros f; cbn [bits_value]; [cbn; lia|].
    specialize (IH (fun i => f (S i))). rewrite Nat2Z.inj_succ, Z.pow_succ_r by lia.
    destruct (f 0%nat); cbn [Z.b2z]; lia. }
  destruct (shift_out value d) as [r d']. destruct Hs as [-> T]. split; [reflexivity|]. split.
  - specialize (Hr (Z.to_nat value) (upcoming d)). rewrite Z2Nat.id in Hr by lia. exact Hr.
  - apply shift_to_update_tap, T.
Qed.

(** ** What jtag.h promises of the port *)

Lemma shift_out_tap value d : tap_of d = SHIFT_DR -> 2 <= value -> tap_of (shift_out value d).2 = SHIFT_DR.
Proof.
  intros Ht Hv. unfold shift_out.
  pose proof (sample_loop_bits value (Z.to_nat value) 0 d Ht Hv ltac:(lia) ltac:(split; [lia|apply Z.pow_pos_nonneg; lia])) as Hs.
  destruct (sample_loop (Z.to_nat value) value 0 d) as [r d']. apply Hs.
Qed.

Lemma write_ir_tap v d : tap_of d = RUN_TEST_IDLE -> tap_of (write_ir v d) = RUN_TEST_IDLE.
Proof.
  intros E. apply idle_to_shift_ir_tap in E. unfold write_ir. apply shift_to_idle_tap. right.
  rewrite shift_in_tap; auto.
Qed.

Lemma write_dr_tap n v d : tap_of d = SHIFT_DR -> tap_of (write_dr n v d) = UPDATE_DR.
Proof. intros E. unfold write_dr. apply shift_to_update_tap. rewrite shift_in_tap; auto. Qed.

Lemma read_dr_tap n d : tap_of d = SHIFT_DR -> 2 <= n -> tap_of (read_dr n d).2 = UPDATE_DR.
Proof.
  intros E Hn. pose proof (shift_out_tap n d E Hn) as Hs. unfold read_dr.
  destruct (shift_out n d). apply shift_to_update_tap, Hs.
Qed.

Lemma MemAccess_tap a c d : tap_of d = RUN_TEST_IDLE -> tap_of (MemAccess_impl a c d) = UPDATE_DR.
Proof.
  intros E. apply write_dr_tap, update_to_shift_dr_tap, write_dr_tap, idle_to_shift_dr_tap, write_ir_tap, E.
Qed.

Lemma ReadMem16_tap a d : tap_of d = RUN_TEST_IDLE -> tap_of (ReadMem16_impl a d).2 = RUN_TEST_IDLE.
Proof.
  intros E. unfold ReadMem16_impl. pose proof (update_to_shift_dr_tap _ (MemAccess_tap a 0x19 d E)) as T.
  pose proof (read_dr_tap 16 _ T ltac:(lia)) as T2. destruct (read_dr 16 _). apply update_to_idle_tap, T2.
Qed.

Lemma WriteMem16_tap a v d : tap_of d = RUN_TEST_IDLE -> tap_of (WriteMem16_impl a v d) = RUN_TEST_IDLE.
Proof. intros E. apply update_to_idle_tap, write_dr_tap, update_to_shift_dr_tap, MemAccess_tap, E. Qed.

Lemma init_round_tap d : tap_of d = TEST_LOGIC_RESET -> tap_of (init_round d).2 = RUN_TEST_IDLE.
Proof.
  intros E. unfold init_round. set (d1 := idle_to_shift_dr _).
  assert (T : tap_of d1 = SHIFT_DR).
  { apply idle_to_shift_dr_tap. rewrite delay_tap. apply write_ir_tap. rewrite delay_tap.
    apply write_ir_tap, reset_to_idle_tap, E. }
  pose proof (shift_out_tap 16 d1 T ltac:(lia)) as T2. destruct (shift_out 16 d1).
  apply shift_to_idle_tap. left. exact T2.
Qed.

Lemma init_loop_tap fuel : forall d v d', tap_of d = TEST_LOGIC_RESET -> init_loop fuel d = Some (v, d') ->
  tap_of d' = RUN_TEST_IDLE.
Proof.
  induction fuel as [|fuel IH]; intros d v d' E Hl; cbn [init_loop] in Hl; [discriminate|].
  pose proof (init_round_tap d E) as T. destruct (init_round d) as [ebx d1]. cbn [snd] in T.
  destruct (Z.land ebx 0xffff =? 0); [|congruence].
  eapply IH; [|exact Hl]. apply idle_to_reset_tap, T.
Qed.

End Asm.

(** ** The C code keeps to the states *)

Create HintDb tap.

(** The machine with a flag that goes off when a routine of jtag.h is called
    with the port in another state than the routine is written for. *)
Record watched (D : Type) : Type := mkW { wd : D; wok : bool }.

Arguments mkW {D}. Arguments wd {D}. Arguments wok {D}.

Definition lift {D A : Type} (f : D -> A * D) (w : watched D) : A * watched D :=
  let '(a, d) := f (wd w) in (a, mkW d (wok w)).

Definition lift_ {D : Type} (f : D -> D) (w : watched D) : watched D := mkW (f (wd w)) (wok w).

#[export] Instance watched_ports D `{Ports D} : Ports (watched D) := {|
  inb p := lift (inb p); outb v p := lift_ (outb v p); inl_ p := lift (inl_ p);
  outl v p := lift_ (outl v p); ioperm p n := lift (ioperm p n); nanosleep ms := lift_ (nanosleep ms)
|}.

#[export] Instance watched_files D `{Files D} : Files (watched D) := {|
  open_create n := lift (open_create n); open_rdonly n := lift (open_rdonly n);
  fwrite fd bs := lift (fwrite fd bs); fread fd n := lift (fread fd n)
|}.

(** Working with files does not move the pins. *)
Class QuietFiles (D : Type) `{TapPins D} `{Files D} : Prop := {
  open_create_tap : forall n d, tap_of (open_create n d).2 = tap_of d;
  open_rdonly_tap : forall n d, tap_of (open_rdonly n d).2 = tap_of d;
  fwrite_tap : forall fd bs d, tap_of (fwrite fd bs d).2 = tap_of d;
  fread_tap : forall fd n d, tap_of (fread fd n d).2 = tap_of d
}.

Section Watch.
Context {D : Type} `{QuietFiles D} (fuel : nat).

Definition expect {A : Type} (t : tap) (f : D -> A * D) (w : watched D) : A * watched D :=
  let '(a, d) := f (wd w) in (a, mkW d (wok w && bool_decide (tap_of (wd w) = t))).

Definition expect_ (t : tap) (f : D -> D) (w : watched D) : watched D :=
  mkW (f (wd w)) (wok w && bool_decide (tap_of (wd w) = t)).

#[local] Instance watched_jtag : JtagOps (watched D) := {|
  jtag_init := fun w => match init_loop fuel (any_to_reset (wd w)) with
                        | Some (v, d) => Some (v, mkW d (wok w)) | None => None end;
  jtag_MemAccess a c := expect_ RUN_TEST_IDLE (MemAccess_impl a c);
  jtag_ReadMem16 a := expect RUN_TEST_IDLE (ReadMem16_impl a);
  jtag_WriteMem16 a v := expect_ RUN_TEST_IDLE (WriteMem16_impl a v);
  jtag_write_ir v := expect_ RUN_TEST_IDLE (write_ir v);
  jtag_idle_to_shift_dr := expect_ RUN_TEST_IDLE idle_to_shift_dr;
  jtag_read_dr8 := expect SHIFT_DR (read_dr 8);
  jtag_read_dr16 := expect SHIFT_DR (read_dr 16);
  jtag_read_dr32 := expect SHIFT_DR (read_dr 32);
  jtag_update_to_idle := expect_ UPDATE_DR update_to_idle;
  jtag_update_to_shift_dr := expect_ UPDATE_DR update_to_shift_dr;
  jtag_write_dr32 v := expect_ SHIFT_DR (write_dr 32 v)
|}.

(** Everything in order so far, the port in state [t]. *)
Definition at_ (t : tap) (w : watched D) : Prop := wok w = true /\ tap_of (wd w) = t.

Lemma expect_at {A} t t' (f : D -> A * D) w :
  at_ t w -> (tap_of (wd w) = t -> tap_of (f (wd w)).2 = t') -> at_ t' (expect t f w).2.
Proof.
  intros [Ho Ht] Hf. specialize (Hf Ht). unfold expect, at_. destruct (f (wd w)). cbn [snd wok wd] in *.
  rewrite Ho, bool_decide_true by exact Ht. auto.
Qed.

Lemma expect_at_ t t' (f : D -> D) w :
  at_ t w -> (tap_of (wd w) = t -> tap_of (f (wd w)) = t') -> at_ t' (expect_ t f w).
Proof.
  intros [Ho Ht] Hf. specialize (Hf Ht). unfold expect_, at_. cbn [wok wd].
  rewrite Ho, bool_decide_true by exact Ht. auto.
Qed.

#[local] Notation "'RTI'" := (at_ RUN_TEST_IDLE).

Lemma at_MemAccess a c w : RTI w -> at_ UPDATE_DR (jtag_MemAccess a c w).
Proof. intros Hw. apply (expect_at_ _ _ _ _ Hw), MemAccess_tap. Qed.

Lemma at_ReadMem16 a w : RTI w -> RTI (jtag_ReadMem16 a w).2.
Proof. intros Hw. apply (expect_at _ _ _ _ Hw), ReadMem16_tap. Qed.

Lemma at_WriteMem16 a v w : RTI w -> RTI (jtag_WriteMem16 a v w).
Proof. intros Hw. apply (expect_at_ _ _ _ _ Hw), WriteMem16_tap. Qed.

Lemma at_write_ir v w : RTI w -> RTI (jtag_write_ir v w).
Proof. intros Hw. apply (expect_at_ _ _ _ _ Hw), write_ir_tap. Qed.

Lemma at_idle_to_shift_dr w : RTI w -> at_ SHIFT_DR (jtag_idle_to_shift_dr w).
Proof. intros Hw. apply (expect_at_ _ _ _ _ Hw), idle_to_shift_dr_tap. Qed.

Lemma at_read_dr8 w : at_ SHIFT_DR w -> at_ UPDATE_DR (jtag_read_dr8 w).2.
Proof. intros Hw. apply (expect_at _ _ _ _ Hw). intros E. apply read_dr_tap; [exact E|lia]. Qed.

Lemma at_read_dr16 w : at_ SHIFT_DR w -> at_ UPDATE_DR (jtag_read_dr16 w).2.
Proof. intros Hw. apply (expect_at _ _ _ _ Hw). intros E. apply read_dr_tap; [exact E|lia]. Qed.

Lemma at_read_dr32 w : at_ SHIFT_DR w -> at_ UPDATE_DR (jtag_read_dr32 w).2.
Proof. intros Hw. apply (expect_at _ _ _ _ Hw). intros E. apply read_dr_tap; [exact E|lia]. Qed.

Lemma at_update_to_idle w : at_ UPDATE_DR w -> RTI (jtag_update_to_idle w).
Proof. intros Hw. apply (expect_at_ _ _ _ _ Hw), update_to_idle_tap. Qed.

Lemma at_update_to_shift_dr w : at_ UPDATE_DR w -> at_ SHIFT_DR (jtag_update_to_shift_dr w).
Proof. intros Hw. apply (expect_at_ _ _ _ _ Hw), update_to_shift_dr_tap. Qed.

Lemma at_write_dr32 v w : at_ SHIFT_DR w -> at_ UPDATE_DR (jtag_write_dr32 v w).
Proof. intros Hw. apply (expect_at_ _ _ _ _ Hw), write_dr_tap. Qed.

#[local] Hint Resolve at_MemAccess at_ReadMem16 at_WriteMem16 at_write_ir at_idle_to_shift_dr
  at_read_dr8 at_read_dr16 at_read_dr32 at_update_to_idle at_update_to_shift_dr at_write_dr32 : tap.

(** Run the next call of a body and record where it leaves the port. *)
Ltac call_to t :=
  match goal with
  | |- context [match ?e with pair _ _ => _ end] =>
      let r := fresh "r" in let w := fresh "w" in let E := fresh "E" in let Hw := fresh "Hw" in
      destruct e as [r w] eqn:E;
      assert (Hw : at_ t w) by (apply (f_equal snd) in E; cbn [snd] in E; rewrite <- E; eauto with tap);
      clear E; cbn [fst snd]
  end.

Ltac call := call_to RUN_TEST_IDLE.

Lemma at_Detect w : RTI w -> RTI (rdc_Detect w).2.
Proof. intros Hw. unfold rdc_Detect. do 3 call. auto with tap. Qed.

Lemma at_erase_wait n a : forall w r w', RTI w -> erase_wait n a w = Some (r, w') -> RTI w'.
Proof.
  induction n as [|n IH]; intros w r w' Hw; cbn [erase_wait]; [discriminate|]. call.
  destruct (negb (0xffff =? r0)); intros E; [eauto|]. congruence.
Qed.

Lemma at_SectorErase a w r w' : RTI w -> rdc_EonSectorErase fuel a w = Some (r, w') -> RTI w'.
Proof. intros Hw. apply at_erase_wait. unfold erase_writes. auto 10 with tap. Qed.

Lemma at_Program a v w : RTI w -> RTI (rdc_EonProgram a v w).2.
Proof.
  intros Hw. unfold rdc_EonProgram. rewrite ploop_nloop.
  assert (Hstep : forall (k : nat) (p : Z * watched D), RTI p.2 ->
    match program_step a v p with inl q => RTI q.2 | inr q => RTI q.2 end).
  { intros _ [i w0] Hw0. cbn [snd] in Hw0. unfold program_step. call.
    destruct (negb (v =? r)); [destruct (10000000 <? i + 1)|]; assumption. }
  assert (Hinit : RTI (0, program_writes a v w).2) by (unfold program_writes; cbn [snd]; auto 10 with tap).
  pose proof (nloop_ind _ (fun _ p => RTI p.2) (fun p => RTI p.2) Hstep (Pos.to_nat 10000002) 0%nat _ Hinit) as Hn.
  revert Hn. generalize (nloop (Pos.to_nat 10000002) (program_step a v) (0, program_writes a v w)).
  intros [[i w1]|[i w1]] Hend; exact Hend.
Qed.

Lemma at_Status w : RTI w -> RTI (Status w).2.
Proof. intros Hw. unfold Status. call_to UPDATE_DR. auto with tap. Qed.

Lemma at_read_words n : forall w, at_ SHIFT_DR w -> RTI (read_words (S n) w).2.
Proof.
  induction n as [|n IH]; intros w Hw; cbn [read_words]; call_to UPDATE_DR; [auto with tap|].
  pose proof (IH (jtag_update_to_shift_dr w0) ltac:(auto with tap)) as Hr. cbn [read_words] in Hr.
  destruct (let '(_, _) := _ in _) as [vs w2]. exact Hr.
Qed.

Lemma at_write_words n m : forall ptr w, at_ SHIFT_DR w -> RTI (write_words (S n) m ptr w).
Proof.
  induction n as [|n IH]; intros ptr w Hw; cbn [write_words]; [auto with tap|].
  apply (IH (ptr + 4)). auto with tap.
Qed.

Lemma at_WriteData c m ptr len w : RTI w -> len = 0 \/ 4 <= len -> RTI (WriteData c m ptr len w).
Proof.
  intros Hw Hl. unfold WriteData. destruct (Z.eqb_spec len 0); cbn [negb]; [auto with tap|].
  destruct (Z.to_nat (len / 4)) as [|k] eqn:E; [|apply at_write_words; auto with tap].
  exfalso. pose proof (Z.div_le_mono 4 len 4 ltac:(lia) ltac:(lia)). change (4 / 4) with 1 in *. lia.
Qed.

Lemma at_ReadData32 c len w : RTI w -> len = 0 \/ 4 <= len -> RTI (ReadData32 c len w).2.
Proof.
  intros Hw Hl. unfold ReadData32. destruct (Z.eqb_spec len 0); cbn [negb snd]; [auto with tap|].
  destruct (Z.to_nat (len / 4)) as [|k] eqn:E; [|apply at_read_words; auto with tap].
  exfalso. pose proof (Z.div_le_mono 4 len 4 ltac:(lia) ltac:(lia)). change (4 / 4) with 1 in *. lia.
Qed.

Lemma at_ResetFlags w : RTI w -> RTI (ResetFlags w).
Proof. intros Hw. apply at_WriteData; [exact Hw|lia]. Qed.

#[local] Hint Resolve at_Detect at_Program at_Status at_ResetFlags : tap.

Lemma at_dump_bytes n : forall w, at_ UPDATE_DR w -> at_ UPDATE_DR (dump_bytes n w).2.
Proof.
  induction n as [|n IH]; intros w Hw; cbn [dump_bytes]; [exact Hw|]. call_to UPDATE_DR.
  specialize (IH w0 Hw0). destruct (dump_bytes n w0). exact IH.
Qed.

Lemma at_DumpMem a c w : RTI w -> RTI (DumpMem a c w).2.
Proof.
  intros Hw. unfold DumpMem. destruct (0x80 <? c); [exact Hw|].
  pose proof (at_dump_bytes (Z.to_nat c) (jtag_MemAccess a 0x18 (ResetFlags w)) ltac:(auto with tap)) as Hd.
  destruct (dump_bytes _ _). cbn [snd] in *. auto with tap.
Qed.

#[local] Hint Resolve at_DumpMem : tap.

Lemma at_RunCode m ptr c w : RTI w -> c = 0 \/ 4 <= c -> RTI (RunCode m ptr c w).2.
Proof.
  intros Hw Hc. unfold RunCode. set (w1 := WriteData 0x02 _ _ _ _).
  assert (Hw1 : RTI w1) by (unfold w1; apply at_WriteData; [apply at_WriteData; auto with tap|lia]).
  call. destruct (r =? 0x8381); exact Hw0.
Qed.

Lemma at_dump_loop n a : forall i m w, RTI w -> RTI (dump_loop n a i m w).2.
Proof. induction n as [|n IH]; intros i m w Hw; cbn [dump_loop]; [exact Hw|]. call. auto. Qed.

Lemma at_Dump80 a m w : RTI w -> RTI (rdc_Dump80 a m w).2.
Proof. intros Hw. unfold rdc_Dump80. call. exact Hw0. Qed.

#[local] Hint Resolve at_dump_loop at_Dump80 : tap.

(** The lengths in the bus-control code. *)
Definition chunk_starts : list Z := [0; 5; 14; 19; 24; 33; 38].

Lemma at_bus_loop n : forall ptr w, In ptr chunk_starts -> RTI w ->
  RTI (bus_loop n (store_bytes (fun _ => 0) 0 bus_control_bin) ptr w).2.
Proof.
  set (m := store_bytes (fun _ => 0) 0 bus_control_bin).
  induction n as [|n IH]; intros ptr w Hp Hw; cbn [bus_loop]; [exact Hw|].
  destruct (Z.ltb_spec ptr bus_control_bin_len) as [Hlt|]; [|exact Hw].
  assert (Hm : (m ptr = 0 \/ 4 <= m ptr) /\ In (ptr + 1 + m ptr) chunk_starts).
  { unfold bus_control_bin_len in Hlt. cbn [chunk_starts In] in Hp. split.
    - right. repeat destruct Hp as [<- | Hp]; try (vm_compute; discriminate); lia.
    - repeat destruct Hp as [<- | Hp]; try (vm_compute; tauto); lia. }
  destruct Hm as [Hm Hn]. pose proof (at_RunCode m (ptr + 1) (m ptr) w Hw Hm) as Hr.
  destruct (RunCode m (ptr + 1) (m ptr) w) as [ret w1]. cbn [snd] in Hr.
  destruct (negb (ret =? 0)); [exact Hr|apply IH; assumption].
Qed.

Lemma at_bus_control w : RTI w -> RTI (rdc_bus_control w).2.
Proof. intros Hw. apply at_bus_loop; [left; reflexivity|exact Hw]. Qed.

Lemma at_lift {A} t (f : D -> A * D) w : (forall d, tap_of (f d).2 = tap_of d) -> at_ t w -> at_ t (lift f w).2.
Proof.
  intros Hf [Ho Ht]. unfold lift, at_. specialize (Hf (wd w)). destruct (f (wd w)). cbn [snd wok wd] in *.
  split; [exact Ho|congruence].
Qed.

Lemma at_open_create t n (w : watched D) : at_ t w -> at_ t (open_create n w).2.
Proof. apply at_lift, open_create_tap. Qed.

Lemma at_open_rdonly t n (w : watched D) : at_ t w -> at_ t (open_rdonly n w).2.
Proof. apply at_lift, open_rdonly_tap. Qed.

Lemma at_fwrite t fd bs (w : watched D) : at_ t w -> at_ t (fwrite fd bs w).2.
Proof. apply at_lift, fwrite_tap. Qed.

Lemma at_fread t fd n (w : watched D) : at_ t w -> at_ t (fread fd n w).2.
Proof. apply at_lift, fread_tap. Qed.

#[local] Hint Resolve at_bus_control at_open_create at_open_rdonly at_fwrite at_fread : tap.

Lemma at_DumpBIOS n m (w : watched D) : RTI w -> RTI (DumpBIOS n m w).2.
Proof. intros Hw. unfold DumpBIOS, rdc_DumpSector. do 3 call. assumption. Qed.

Lemma at_dump_all n a fd : forall c m (w : watched D), RTI w -> RTI (dump_all_loop n a c fd m w).2.
Proof.
  induction n as [|n IH]; intros c m w Hw; cbn [dump_all_loop]; [exact Hw|].
  unfold rdc_DumpSector. do 2 call. auto.
Qed.

Lemma at_DumpAll a n m (w : watched D) : RTI w -> RTI (DumpAll a n m w).2.
Proof. intros Hw. unfold DumpAll. call. apply at_dump_all. assumption. Qed.

Lemma at_DumpMAC b m (w : watched D) : RTI w -> RTI (DumpMAC b m w).2.
Proof. intros Hw. unfold DumpMAC. do 3 call. assumption. Qed.

Lemma at_DumpConfig b m (w : watched D) : RTI w -> RTI (DumpConfig b m w).2.
Proof. intros Hw. unfold DumpConfig, rdc_Dump2000. do 3 call. assumption. Qed.

Lemma at_program_loop n a m : forall off w, RTI w -> RTI (program_loop n a off m w).2.
Proof.
  induction n as [|n IH]; intros off w Hw; cbn [program_loop]; [exact Hw|].
  destruct (load16 m off =? 0xffff); [auto|]. call. destruct (negb (r =? 0)); auto.
Qed.

#[local] Hint Resolve at_program_loop at_DumpBIOS at_DumpAll at_DumpMAC at_DumpConfig : tap.

Lemma at_ProgramConfig b n m (w : watched D) r w' : RTI w -> ProgramConfig fuel b n m w = Some (r, w') -> RTI w'.
Proof.
  intros Hw. unfold ProgramConfig. do 2 call. destruct (negb (read_result r1 =? 0x2000)); [congruence|].
  destruct (rdc_EonSectorErase fuel b w1) as [[u w2]|] eqn:E; [|discriminate].
  apply at_SectorErase in E; [|assumption]. pose proof (at_program_loop (Z.to_nat (0x2000 / 2)) b (read_into m r1) 0 w2 E) as Hp.
  revert Hp. generalize (program_loop (Z.to_nat (0x2000 / 2)) b 0 (read_into m r1) w2).
  intros q Hq [= ->]. exact Hq.
Qed.

Lemma at_ProgramBootloader n m (w : watched D) : RTI w -> RTI (ProgramBootloader n m w).2.
Proof.
  intros Hw. unfold ProgramBootloader. do 2 call. destruct (negb _); [assumption|]. auto with tap.
Qed.

Lemma at_Manufacturer (w : watched D) : RTI w -> RTI (Manufacturer w).2.
Proof. intros Hw. unfold Manufacturer. call. assumption. Qed.

#[local] Hint Resolve at_ProgramBootloader at_Manufacturer : tap.

(** [rdc_init] either gives up before it touches the port, or leaves it idle. *)
Lemma at_rdc_init d r w :
  rdc_init (mkW d true) = Some (r, w) ->
  wok w = true /\ match r with inl _ => (ioperm 0xcf8 8 d).1 <> 0 | inr _ => RTI w end.
Proof.
  unfold rdc_init. cbn [ioperm watched_ports]. unfold lift at 1. cbn [wd wok].
  destruct (ioperm 0xcf8 8 d) as [res d1]. cbn [fst].
  destruct (Z.eqb_spec res 0) as [|Hne]; cbn [negb].
  - cbn [outl inl_ watched_ports]. unfold lift, lift_. cbn [wd wok].
    destruct (inl_ 0xcfc (outl CONTROL 0xcf8 d1)) as [tmp d2]. cbn [wd wok jtag_init watched_jtag].
    match goal with |- context [init_loop fuel (any_to_reset ?x)] => set (d3 := x) end.
    destruct (init_loop fuel (any_to_reset d3)) as [[ready d4]|] eqn:E; [|discriminate].
    apply init_loop_tap in E; [|apply any_to_reset_tap].
    destruct (negb (ready =? 0x8381)); intros [= <- <-]; (split; [reflexivity|split; [reflexivity|exact E]]).
  - intros [= <- <-]. split; [reflexivity|exact Hne].
Qed.

(** What a run that ends has done. *)
Lemma run_in_order argc cmd arg d status w :
  biffjtag_main fuel argc cmd arg (mkW d true) = Some (status, w) ->
  wok w = true /\ (argc = 3 -> (ioperm 0xcf8 8 d).1 = 0 -> tap_of (wd w) = RUN_TEST_IDLE).
Proof.
  assert (Hidle : forall w', RTI w' -> wok w' = true /\
            (argc = 3 -> (ioperm 0xcf8 8 d).1 = 0 -> tap_of (wd w') = RUN_TEST_IDLE))
    by (intros w' [H1' H2']; auto).
  unfold biffjtag_main. destruct (Z.eqb_spec argc 3) as [|Hne]; cbn [negb].
  2: { intros [= <- <-]. split; [reflexivity|contradiction]. }
  destruct (rdc_init (mkW d true)) as [[[st|res] w1]|] eqn:Ei; [| |discriminate];
    apply at_rdc_init in Ei as [Hok Hi].
  { intros [= <- <-]. split; [exact Hok|contradiction]. }
  destruct (negb (res =? 0)); [intros [= <- <-]; auto|].
  call. destruct (negb (r =? 0)); [intros [= <- <-]; auto|].
  call. destruct (r0 =? 0); [intros [= <- <-]; auto|].
  repeat (destruct (eqs _ _)).
  - call. intros [= <- <-]. auto.
  - destruct (EraseBootloader fuel w2) as [[u w3]|] eqn:E; [|discriminate].
    apply at_SectorErase in E; [|assumption]. intros [= <- <-]. auto.
  - destruct (EraseBootloader fuel w2) as [[u w3]|] eqn:E; [|discriminate].
    apply at_SectorErase in E; [|assumption]. call. intros [= <- <-]. auto.
  - call. intros [= <- <-]. auto.
  - call. intros [= <- <-]. auto.
  - destruct (ProgramConfig fuel _ _ _ w2) as [[u w3]|] eqn:E; [|discriminate].
    apply at_ProgramConfig in E; [|assumption]. intros [= <- <-]. auto.
  - call. intros [= <- <-]. auto.
  - intros [= <- <-]. auto.
Qed.

(** Where the port and the cell are after a number of looks. *)
Definition rounds (n : nat) (d : D) : D := Nat.iter n (fun d => idle_to_reset (init_round d).2) d.

Definition looks (n : nat) (a : Z) (w : watched D) : watched D := Nat.iter n (fun w => (jtag_ReadMem16 a w).2) w.

(** The debug port shows no status in any of its rounds, each started from
    Test-Logic-Reset. *)
Definition no_status (d : D) : Prop :=
  forall n, (n < fuel)%nat ->
    tap_of (rounds n d) = TEST_LOGIC_RESET /\ Z.land (init_round (rounds n d)).1 0xffff = 0.

(** The erase sequence for [a] is sent from an idle port, and none of the looks,
    each made from an idle port, shows the erased value. *)
Definition never_erased (a : Z) (w : watched D) : Prop :=
  RTI w /\ forall n, (n < fuel)%nat ->
    RTI (looks n a (erase_writes a w)) /\ (jtag_ReadMem16 a (looks n a (erase_writes a w))).1 <> 0xffff.

Lemma rounds_S n d : rounds (S n) d = rounds n (idle_to_reset (init_round d).2).
Proof. unfold rounds. rewrite Nat.iter_succ_r. reflexivity. Qed.

Lemma looks_S n a w : looks (S n) a w = looks n a (jtag_ReadMem16 a w).2.
Proof. unfold looks. rewrite Nat.iter_succ_r. reflexivity. Qed.

Lemma init_stuck k : forall d, tap_of d = TEST_LOGIC_RESET -> init_loop k d = None ->
  forall n, (n < k)%nat -> tap_of (rounds n d) = TEST_LOGIC_RESET /\ Z.land (init_round (rounds n d)).1 0xffff = 0.
Proof.
  induction k as [|k IH]; intros d Hd E n Hn; [lia|]. cbn [init_loop] in E.
  pose proof (init_round_tap d Hd) as T.
  assert (Hz : Z.land (init_round d).1 0xffff = 0 /\ init_loop k (idle_to_reset (init_round d).2) = None).
  { destruct (init_round d) as [ebx d1]. cbn [fst snd].
    destruct (Z.eqb_spec (Z.land ebx 0xffff) 0); [auto|discriminate]. }
  destruct n as [|n]; [split; [exact Hd|apply Hz]|]. rewrite rounds_S.
  apply IH; [apply idle_to_reset_tap, T|apply Hz|lia].
Qed.

Lemma wait_stuck a k : forall w, RTI w -> erase_wait k a w = None ->
  forall n, (n < k)%nat -> RTI (looks n a w) /\ (jtag_ReadMem16 a (looks n a w)).1 <> 0xffff.
Proof.
  induction k as [|k IH]; intros w Hw E n Hn; [lia|]. cbn [erase_wait] in E.
  assert (Hz : (jtag_ReadMem16 a w).1 <> 0xffff /\ erase_wait k a (jtag_ReadMem16 a w).2 = None).
  { destruct (jtag_ReadMem16 a w) as [r w1]. cbn [fst snd].
    destruct (Z.eqb_spec 0xffff r); [discriminate|split; [congruence|exact E]]. }
  destruct n as [|n]; [split; [exact Hw|apply Hz]|]. rewrite looks_S.
  apply IH; [auto with tap|apply Hz|lia].
Qed.

Lemma erase_stuck a w : RTI w -> rdc_EonSectorErase fuel a w = None -> never_erased a w.
Proof.
  intros Hw E. split; [exact Hw|]. apply (wait_stuck a fuel); [|exact E].
  unfold erase_writes. auto 10 with tap.
Qed.

(** The device when [jtag_init] is called. *)
Definition port_set_up (d : D) : D :=
  let d := outl CONTROL 0xcf8 (ioperm 0xcf8 8 d).2 in
  let '(tmp, d) := inl_ 0xcfc d in
  outl RDC_TDO 0xcfc (outl DATA 0xcf8
    (outl (Z.lor tmp (Z.lor (Z.lor (Z.lor RDC_TDI RDC_TCK) RDC_TMS) RDC_TDO)) 0xcfc d)).

Lemma rdc_init_waits d : rdc_init (mkW d true) = None -> no_status (any_to_reset (port_set_up d)).
Proof.
  unfold rdc_init, port_set_up. cbn [ioperm watched_ports]. unfold lift at 1. cbn [wd wok].
  destruct (ioperm 0xcf8 8 d) as [res d1]. cbn [snd]. destruct (negb (res =? 0)); [discriminate|].
  cbn [outl inl_ watched_ports]. unfold lift, lift_. cbn [wd wok].
  destruct (inl_ 0xcfc (outl CONTROL 0xcf8 d1)) as [tmp d2]. cbn [wd wok jtag_init watched_jtag].
  match goal with |- context [init_loop fuel (any_to_reset ?x)] => set (d3 := x) end.
  destruct (init_loop fuel (any_to_reset d3)) as [[v d4]|] eqn:E; [destruct (negb (v =? 0x8381)); discriminate|].
  intros _. exact (init_stuck fuel _ (any_to_reset_tap d3) E).
Qed.

(** The sector a command erases, and the machine when it comes to that. *)
Definition to_erase (cmd : list Z) (base : Z) (w : watched D) : option (Z * watched D) :=
  if eqs cmd (str "erase") || eqs cmd (str "program") then Some (0xffff0000, w)
  else if eqs cmd (str "programconfig") then
    let '(fd, w) := open_rdonly (str "config.bin") w in
    let '(q, w) := fread fd sizeof_buffer w in
    if read_result q =? 0x2000 then Some (base, w) else None
  else None.

(** A run that does not end is waiting for the status or for an erase. *)
Lemma run_waits argc cmd arg d :
  biffjtag_main fuel argc cmd arg (mkW d true) = None ->
  no_status (any_to_reset (port_set_up d)) \/
  exists w0 w1 base w2 a w,
    rdc_init (mkW d true) = Some (inr 0, w0) /\ rdc_bus_control w0 = (0, w1) /\
    Manufacturer w1 = (base, w2) /\ to_erase cmd base w2 = Some (a, w) /\ never_erased a w.
Proof.
  unfold biffjtag_main. destruct (negb (argc =? 3)); [discriminate|].
  destruct (rdc_init (mkW d true)) as [[[st|res] w0]|] eqn:Ei; [discriminate| |intros _; left; exact (rdc_init_waits d Ei)].
  apply at_rdc_init in Ei as Hw0. destruct Hw0 as [_ Hw0]. destruct (Z.eqb_spec res 0) as [->|]; [|discriminate].
  pose proof (at_bus_control w0 Hw0) as Hw1. destruct (rdc_bus_control w0) as [r w1] eqn:Eb. cbn [negb snd] in *.
  destruct (Z.eqb_spec r 0) as [->|]; [|discriminate].
  pose proof (at_Manufacturer w1 Hw1) as Hw2. destruct (Manufacturer w1) as [base w2] eqn:Em. cbn [negb snd] in *.
  destruct (base =? 0); [discriminate|]. intros Hnone. right. exists w0, w1, base, w2.
  cut (exists a w, to_erase cmd base w2 = Some (a, w) /\ RTI w /\ rdc_EonSectorErase fuel a w = None).
  { intros (a & w & Ht & Hw & He). exists a, w. do 3 (split; [first [assumption|reflexivity]|]).
    auto using erase_stuck. }
  revert Hnone. unfold to_erase, EraseBootloader.
  destruct (eqs cmd (str "dump")); [destruct (DumpBIOS _ _ _); discriminate|].
  destruct (eqs cmd (str "erase")); cbn [orb].
  { destruct (rdc_EonSectorErase fuel 0xffff0000 w2) as [[? ?]|] eqn:E; [discriminate|eauto]. }
  destruct (eqs cmd (str "program")).
  { destruct (rdc_EonSectorErase fuel 0xffff0000 w2) as [[? w3]|] eqn:E; [|eauto].
    destruct (ProgramBootloader arg _ w3). discriminate. }
  destruct (eqs cmd (str "mac")); [destruct (DumpMAC _ _ _); discriminate|].
  destruct (eqs cmd (str "dumpconfig")); [destruct (DumpConfig _ _ _); discriminate|].
  destruct (eqs cmd (str "programconfig")).
  2: { destruct (eqs cmd (str "dumpall")); [destruct (DumpAll _ _ _ _)|]; discriminate. }
  unfold ProgramConfig. do 2 call. destruct (read_result r0 =? 0x2000); [|discriminate]. cbn [negb].
  destruct (rdc_EonSectorErase fuel base w3) as [[? w4]|] eqn:E; [|eauto].
  generalize (program_loop (Z.to_nat (0x2000 / 2)) base 0 (read_into (fun _ => 0) r0) w4). intros [? ?]. discriminate.
Qed.

(** C8: the test access port is driven by the book.  Whatever the arguments, the
    data read back from the chip, the files and the state the port was in, biffjtag
    calls every routine of jtag.h with the port in the state the routine is
    written for.  A run that ends has done so, and once the ports are granted it
    leaves the port in Run-Test/Idle.  A run that does not end waits at one of two
    places: either the debug port shows no status in any round of [jtag_init],
    every round starting from Test-Logic-Reset; or everything before was in order,
    the chip was recognised and a sector's erase sequence has been sent, and none
    of the looks at the sector, every one made from Run-Test/Idle, shows the
    erased value.  Nothing is assumed of the chip. *)
Theorem tap_discipline argc cmd arg d :
  (forall status w, biffjtag_main fuel argc cmd arg (mkW d true) = Some (status, w) ->
     wok w = true /\ (argc = 3 -> (ioperm 0xcf8 8 d).1 = 0 -> tap_of (wd w) = RUN_TEST_IDLE)) /\
  (biffjtag_main fuel argc cmd arg (mkW d true) = None ->
   no_status (any_to_reset (port_set_up d)) \/
   exists w0 w1 base w2 a w,
     rdc_init (mkW d true) = Some (inr 0, w0) /\ rdc_bus_control w0 = (0, w1) /\
     Manufacturer w1 = (base, w2) /\ to_erase cmd base w2 = Some (a, w) /\ never_erased a w).
Proof. split; [exact (run_in_order argc cmd arg d)|exact (run_waits argc cmd arg d)]. Qed.

End Watch.

(** ** An instance *)

(** A port whose data register captures the status 0x8381. *)
Record pins : Type := mkPins { pin_tap : tap; pin_tck : bool; pin_bits : nat -> bool }.

Definition captured (i : nat) : bool := Z.testbit 0x8381 (Z.of_nat i).

Definition pins_out (v : Z) (d : pins) : pins :=
  if negb (pin_tck d) && Z.testbit v 4 then
    let t := tap_step (pin_tap d) (Z.testbit v 3) in
    mkPins t (Z.testbit v 4)
      (match pin_tap d with SHIFT_DR => fun i => pin_bits d (S i) | _ => captured end)
  else mkPins (pin_tap d) (Z.testbit v 4) (pin_bits d).

#[export] Instance pins_ports : Ports pins := {|
  inb _ d := (if negb (pin_tck d) && pin_bits d 0%nat then BIT_TDO else 0, d);
  outb v _ d := pins_out v d;
  inl_ _ d := (0, d);
  outl v _ d := d;
  ioperm _ _ d := (0, d);
  nanosleep _ d := d
|}.

#[export] Instance pins_files : Files pins := {|
  open_create _ d := (3, d); open_rdonly _ d := (3, d);
  fwrite _ bs d := (Z.of_nat (length bs), d); fread _ _ d := (None, d)
|}.

#[export] Instance pins_tap : TapPins pins.
Proof.
  refine {| tap_of := pin_tap; tck := pin_tck; upcoming := pin_bits |}; cbn [inb outb pins_ports].
  - intros v d. unfold pins_out. destruct (negb (pin_tck d) && Z.testbit v 4); reflexivity.
  - intros v d. unfold pins_out. destruct (negb (pin_tck d) && Z.testbit v 4); reflexivity.
  - intros v d i E. unfold pins_out. rewrite E. destruct (negb (pin_tck d) && Z.testbit v 4); reflexivity.
  - intros d. auto.
  - intros d _ E. rewrite E. cbn [negb andb fst]. destruct (pin_bits d 0); reflexivity.
Defined.

#[export] Instance pins_quiet : QuietFiles pins.
Proof. split; reflexivity. Qed.

(** From the middle of a scan. *)
Definition start_pins : pins := mkPins PAUSE_IR true captured.

(** It shows a status in the first round. *)
Lemma pins_answer : ~ no_status 5 (any_to_reset (port_set_up start_pins)).
Proof. intros Hn. destruct (Hn 0%nat ltac:(lia)) as [_ Hz]. revert Hz. vm_compute. discriminate. Qed.

Lemma tap_discipline_witness :
  match @biffjtag_main (watched pins) _ (watched_jtag 5) 5 _ 3 (str "dump") (str "f") (mkW start_pins true) with
  | Some (status, w) => wok w = true /\ (3 = 3 -> 0 = 0 -> pin_tap (wd w) = RUN_TEST_IDLE)
  | None => False
  end.
Proof.
  destruct (tap_discipline 5 3 (str "dump") (str "f") start_pins) as [Hrun Hends].
  destruct (@biffjtag_main (watched pins) _ (watched_jtag 5) 5 _ 3 (str "dump") (str "f") (mkW start_pins true))
    as [[status w]|].
  - exact (Hrun status w eq_refl).
  - destruct (Hends eq_refl) as [Hn|(w0 & w1 & base & w2 & a & w & _ & _ & _ & Ht & _)];
      [exact (pins_answer Hn)|discriminate Ht].
Defined.

Lemma read_dr_value_witness :
  let '(r, d') := read_dr 16 (mkPins SHIFT_DR true captured) in
  r = 0x8381 /\ 0 <= r < 2 ^ 16 /\ pin_tap d' = UPDATE_DR.
Proof.
  pose proof (read_dr_value 16 (mkPins SHIFT_DR true captured) eq_refl eq_refl (or_intror (or_introl eq_refl))) as Hr.
  destruct (read_dr 16 (mkPins SHIFT_DR true captured)) as [r d']. exact Hr.
Defined.

End JtagSpec.
