(* ===== verification/BiffJtagSpec.v ===== *)
(** Programming and dumping the flash over JTAG: against a chip that follows the
    Eon command set behind a debug port that reads and writes memory, the boot
    loader programmed is the one dumped. *)
From Stdlib Require Import ZArith Lia.
From stdpp Require Import base list numbers option strings.
From S2P Require Import Prelude PortIO Jtag BiffJtag.

Module JtagFlash.
Import Jtag BiffJtag.

(** ** The chip behind the port *)

(** Reading [a] gives other values [n] times and then [v]. *)
Inductive settles {D : Type} `{JtagOps D} (a v : Z) : nat -> D -> D -> Prop :=
| settles_done d d' : jtag_ReadMem16 a d = (v, d') -> settles a v 0 d d'
| settles_more n d d1 d' r :
    jtag_ReadMem16 a d = (r, d1) -> r <> v -> settles a v n d1 d' -> settles a v (S n) d d'.

(** The command set of the Eon EN29LV640 on a 16-bit bus: a command is a
    sequence of write cycles, decoded on eleven lines of the word address and on
    the low data byte.  While an operation runs, the array no longer reads; the
    operation running was started at [e_at] and goes on for [e_busy] more looks. *)
Inductive command : Type := CIdle | CU1 | CU2 | CProgram | CE1 | CE2 | CE3.

Record eon : Type := mkEon { e_mem : mem; e_cmd : command; e_busy : nat; e_at : Z }.

Definition eon_cycle (word byte a v : Z) : bool := ((a / 2) mod 0x800 =? word) && (Z.land v 0xff =? byte).

(** A write cycle of the documented sequences, in a chip with the sectors [base]
    and [len]; an operation it starts takes [n] looks.  Programming only clears
    bits.  What other cycles do is left open ([None]). *)
Definition eon_write (base len : Z -> Z) (n : nat) (a v : Z) (e : eon) : option eon :=
  let go c := Some (mkEon (e_mem e) c 0 (e_at e)) in
  match e_busy e, e_cmd e with
  | S _, _ => None
  | O, CIdle => if eon_cycle 0x555 0xaa a v then go CU1 else None
  | O, CU1 => if eon_cycle 0x2aa 0x55 a v then go CU2 else None
  | O, CU2 => if eon_cycle 0x555 0xa0 a v then go CProgram else if eon_cycle 0x555 0x80 a v then go CE1 else None
  | O, CProgram => Some (mkEon (store16 (e_mem e) a (Z.land v (load16 (e_mem e) a))) CIdle n a)
  | O, CE1 => if eon_cycle 0x555 0xaa a v then go CE2 else None
  | O, CE2 => if eon_cycle 0x2aa 0x55 a v then go CE3 else None
  | O, CE3 => if Z.land v 0xff =? 0x30 then Some (mkEon (fill (e_mem e) (base a) (len a) 0xff) CIdle n a) else None
  end.

(** A look at [a] gives [v]: the array, or, where an operation runs, a status
    whose bit 7 is the complement of the one to come (DQ7, "data polling"). *)
Definition eon_read (a v : Z) (e e' : eon) : Prop :=
  match e_busy e with
  | O => v = load16 (e_mem e) a /\ e' = e
  | S n => e' = mkEon (e_mem e) (e_cmd e) n (e_at e) /\
           (a = e_at e -> Z.testbit v 7 = negb (Z.testbit (load16 (e_mem e) a) 7))
  end.

(** The chip reads its array, of bytes, and waits for a command. *)
Definition quiet (e : eon) : Prop := e_cmd e = CIdle /\ e_busy e = 0%nat /\ bytes_ok (e_mem e).

(** Where the TAP rests between two routines. *)
Inductive stage : Type := AtReset | AtIdle | AtShift | AtUpdate.

(** The instructions that start nothing by themselves: load machine code, set
    flags, status query and memory access. *)
Definition starts_nothing (c : Z) : bool := (c =? 0x06) || (c =? 0x0d) || (c =? 0x0f) || (c =? 0x11).

(** A debug port whose memory accesses (instruction 0x11) reach a chip that
    occupies the addresses from [fl_lo] to the top of the address space and ends
    its operations within [fl_polls] looks.  [fl_ptr]: where an access that reads
    bytes has got to. *)
Class EonFlash (D : Type) `{JtagOps D} : Type := {
  fl_lo : Z;
  fl_polls : nat;
  fl_sec_base : Z -> Z;
  fl_sec_len : Z -> Z;
  fl_chip : D -> eon;
  fl_stage : D -> stage;
  fl_ir : D -> Z;
  fl_ptr : D -> option Z;
  fl_lo_pos : 0 <= fl_lo;
  fl_lo_even : fl_lo mod 2 = 0;
  fl_top : fl_lo <= 0xffff0000 /\ fl_sec_base 0xffff0000 = 0xffff0000 /\ fl_sec_len 0xffff0000 = 0x10000;
  fl_sector : forall a, fl_lo <= a < 2 ^ 32 -> a mod 2 = 0 ->
    fl_sec_base a <= a /\ a + 2 <= fl_sec_base a + fl_sec_len a;
  fl_patience : Z.of_nat fl_polls <= 10000000;
  fl_read : forall d a, fl_stage d = AtIdle -> e_cmd (fl_chip d) = CIdle ->
    fl_lo <= a < 2 ^ 32 -> a mod 2 = 0 ->
    let '(v, d') := jtag_ReadMem16 a d in fl_stage d' = AtIdle /\ eon_read a v (fl_chip d) (fl_chip d');
  fl_write : forall d a v, fl_stage d = AtIdle -> fl_lo <= a < 2 ^ 32 -> a mod 2 = 0 -> 0 <= v < 0x10000 ->
    let d' := jtag_WriteMem16 a v d in
    fl_stage d' = AtIdle /\ exists n, (n <= fl_polls)%nat /\
      forall e, eon_write fl_sec_base fl_sec_len n a v (fl_chip d) = Some e -> fl_chip d' = e;
  fl_instr : forall d c, fl_stage d = AtIdle -> starts_nothing c = true ->
    let d' := jtag_write_ir c d in fl_stage d' = AtIdle /\ fl_ir d' = c /\ fl_chip d' = fl_chip d;
  fl_shift : forall d, fl_stage d = AtIdle ->
    let d' := jtag_idle_to_shift_dr d in fl_stage d' = AtShift /\ fl_ir d' = fl_ir d /\ fl_chip d' = fl_chip d;
  fl_data : forall d v, fl_stage d = AtShift -> fl_ir d <> 0x11 ->
    let d' := jtag_write_dr32 v d in fl_stage d' = AtUpdate /\ fl_ir d' = fl_ir d /\ fl_chip d' = fl_chip d;
  fl_again : forall d, fl_stage d = AtUpdate ->
    let d' := jtag_update_to_shift_dr d in
    fl_stage d' = AtShift /\ fl_ir d' = fl_ir d /\ fl_ptr d' = fl_ptr d /\ fl_chip d' = fl_chip d;
  fl_done : forall d, fl_stage d = AtUpdate ->
    let d' := jtag_update_to_idle d in fl_stage d' = AtIdle /\ fl_chip d' = fl_chip d;
  fl_access : forall d a, fl_stage d = AtIdle -> 0 <= a < 2 ^ 32 ->
    let d' := jtag_MemAccess a 0x18 d in
    fl_stage d' = AtUpdate /\ fl_ptr d' = Some a /\ fl_chip d' = fl_chip d;
  fl_byte : forall d a, fl_stage d = AtShift -> fl_ptr d = Some a -> quiet (fl_chip d) -> fl_lo <= a < 2 ^ 32 ->
    let '(v, d') := jtag_read_dr8 d in
    Z.land v 0xff = e_mem (fl_chip d) a /\ fl_stage d' = AtUpdate /\ fl_ptr d' = Some (a + 1) /\
    fl_chip d' = fl_chip d
}.

Definition fl_mem {D : Type} {JO : JtagOps D} {EF : EonFlash D} (d : D) : mem := e_mem (fl_chip d).

(** The port is idle and the chip waits for a command. *)
Definition fl_ready {D : Type} {JO : JtagOps D} {EF : EonFlash D} (d : D) : Prop :=
  fl_stage d = AtIdle /\ quiet (fl_chip d).

Definition fl_stream {D : Type} {JO : JtagOps D} {EF : EonFlash D} (a : Z) (d : D) : Prop :=
  fl_stage d = AtUpdate /\ fl_ptr d = Some a /\ quiet (fl_chip d).

Lemma even_next x : x mod 2 = 0 -> (x + 2) mod 2 = 0.
Proof. intros E. rewrite <- E. replace (x + 2) with (x + 1 * 2) by lia. apply Z.mod_add. lia. Qed.

Lemma fill_keeps_bytes m b l v : 0 <= v < 0x100 -> bytes_ok m -> bytes_ok (fill m b l v).
Proof. intros Hv Hm x. unfold fill. destruct (_ && _); [exact Hv|apply Hm]. Qed.

Section Chip.
Context {D : Type} {JO : JtagOps D} {EF : EonFlash D}.

(** *** What follows for the routines *)

(** One cycle of a command. *)
Lemma cycle_ok d m c q a v c' : fl_stage d = AtIdle -> fl_chip d = mkEon m c 0 q ->
  0xffff0000 <= a < 2 ^ 32 -> a mod 2 = 0 -> 0 <= v < 0x10000 ->
  (forall n, eon_write fl_sec_base fl_sec_len n a v (mkEon m c 0 q) = Some (mkEon m c' 0 q)) ->
  fl_stage (jtag_WriteMem16 a v d) = AtIdle /\ fl_chip (jtag_WriteMem16 a v d) = mkEon m c' 0 q.
Proof.
  intros Hs Hc Ha Hev Hv Hw. pose proof (proj1 fl_top). rewrite <- Hc in Hw.
  destruct (fl_write d a v Hs ltac:(lia) Hev Hv) as (Hs' & n & _ & He). split; [exact Hs'|]. apply He, Hw.
Qed.

(** The two cycles that unlock a command, at its start or in the middle. *)
Lemma unlock_ok d m c q : fl_stage d = AtIdle -> fl_chip d = mkEon m c 0 q -> c = CIdle \/ c = CE1 ->
  let d' := jtag_WriteMem16 0xffff5554 0x5555 (jtag_WriteMem16 0xffffaaaa 0xaaaa d) in
  fl_stage d' = AtIdle /\ fl_chip d' = mkEon m (match c with CIdle => CU2 | _ => CE3 end) 0 q.
Proof.
  intros Hs Hc Hor.
  destruct (cycle_ok d m c q 0xffffaaaa 0xaaaa (match c with CIdle => CU1 | _ => CE2 end) Hs Hc) as [S1 C1];
    [lia|reflexivity|lia|destruct Hor as [-> | ->]; reflexivity|].
  apply (cycle_ok _ _ _ _ _ _ _ S1 C1); [lia|reflexivity|lia|destruct Hor as [-> | ->]; reflexivity].
Qed.

(** An operation that runs is over after [n] looks. *)
Lemma looks_settle m a v n : forall d, fl_stage d = AtIdle -> fl_chip d = mkEon m CIdle n a ->
  fl_lo <= a < 2 ^ 32 -> a mod 2 = 0 -> bytes_ok m -> load16 m a = v ->
  exists d', settles a v n d d' /\ fl_ready d' /\ fl_mem d' = m.
Proof.
  induction n as [|n IH]; intros d Hs Hc Ha Hev Hb Hv.
  - pose proof (fl_read d a Hs ltac:(rewrite Hc; reflexivity) Ha Hev) as Hr.
    destruct (jtag_ReadMem16 a d) as [r d'] eqn:Er. destruct Hr as [Hs' He]. rewrite Hc in He. unfold eon_read in He. cbn [e_busy e_mem e_cmd e_at] in He.
    destruct He as [-> Hc']. exists d'. rewrite Hv in Er.
    split; [apply settles_done, Er|]. unfold fl_ready, fl_mem, quiet. rewrite Hc'. auto.
  - pose proof (fl_read d a Hs ltac:(rewrite Hc; reflexivity) Ha Hev) as Hr.
    destruct (jtag_ReadMem16 a d) as [r d1] eqn:Er. destruct Hr as [Hs' He]. rewrite Hc in He. unfold eon_read in He. cbn [e_busy e_mem e_cmd e_at] in He.
    destruct He as [Hc' Hq]. destruct (IH d1 Hs' Hc' Ha Hev Hb Hv) as (d' & Hst & Hr' & Hm). exists d'.
    split; [|auto]. eapply settles_more; [exact Er| |exact Hst]. intros Ev. specialize (Hq eq_refl).
    rewrite Ev, Hv in Hq. destruct (Z.testbit v 7); discriminate Hq.
Qed.

Lemma ready_chip d : fl_ready d -> fl_stage d = AtIdle /\ fl_chip d = mkEon (fl_mem d) CIdle 0 (e_at (fl_chip d)).
Proof. intros (Hs & Hc & Hb & _). split; [exact Hs|]. unfold fl_mem. destruct (fl_chip d). cbn in *. congruence. Qed.

Lemma fl_erase d a : fl_ready d -> fl_lo <= a < 2 ^ 32 -> a mod 2 = 0 ->
  exists n d', (n <= fl_polls)%nat /\ settles a 0xffff n (erase_writes a d) d' /\ fl_ready d' /\
    fl_mem d' = fill (fl_mem d) (fl_sec_base a) (fl_sec_len a) 0xff.
Proof.
  intros Hr Ha Hev. destruct (ready_chip d Hr) as [Hs Hc].
  destruct (unlock_ok _ _ _ _ Hs Hc (or_introl eq_refl)) as [S2 C2].
  destruct (cycle_ok _ _ _ _ 0xffffaaaa 0x8080 CE1 S2 C2) as [S3 C3]; [lia|reflexivity|lia|reflexivity|].
  destruct (unlock_ok _ _ _ _ S3 C3 (or_intror eq_refl)) as [S5 C5].
  destruct (fl_write _ a 0x3030 S5 Ha Hev ltac:(lia)) as (S6 & n & Hn & C6).
  rewrite C5 in C6. specialize (C6 _ eq_refl). cbn [e_mem] in C6.
  destruct (fl_sector a Ha Hev) as [B0 B1].
  destruct (looks_settle _ a 0xffff n _ S6 C6 Ha Hev) as (d' & Hst & Hr' & Hm).
  { apply fill_keeps_bytes; [lia|apply Hr]. }
  { unfold load16. rewrite !fill_in by lia. reflexivity. }
  exists n, d'. auto.
Qed.

Lemma fl_program d a v : fl_ready d -> fl_lo <= a -> a + 2 <= 2 ^ 32 -> a mod 2 = 0 -> 0 <= v < 0x10000 ->
  fl_mem d a = 0xff -> fl_mem d (a + 1) = 0xff ->
  exists n d', (n <= fl_polls)%nat /\ settles a v n (program_writes a v d) d' /\ fl_ready d' /\
    fl_mem d' = store16 (fl_mem d) a v.
Proof.
  intros Hr Ha Ha2 Hev Hv E0 E1. destruct (ready_chip d Hr) as [Hs Hc].
  destruct (unlock_ok _ _ _ _ Hs Hc (or_introl eq_refl)) as [S2 C2].
  destruct (cycle_ok _ _ _ _ 0xffffaaaa 0xa0a0 CProgram S2 C2) as [S3 C3]; [lia|reflexivity|lia|reflexivity|].
  destruct (fl_write _ a v S3 ltac:(lia) Hev Hv) as (S4 & n & Hn & C4).
  rewrite C3 in C4. specialize (C4 _ eq_refl). cbn [e_mem] in C4.
  assert (El : load16 (fl_mem d) a = Z.ones 16) by (unfold load16; rewrite E0, E1; reflexivity).
  rewrite El, Z.land_ones, Z.mod_small in C4 by lia.
  destruct (looks_settle _ a v n _ S4 C4 ltac:(lia) Hev) as (d' & Hst & Hr' & Hm);
    [apply bytes_ok_store16, Hr|apply load16_store16, Hv|].
  exists n, d'. auto.
Qed.

Lemma write_words_ok data n : forall ptr d, fl_stage d = AtShift -> fl_ir d <> 0x11 ->
  fl_stage (write_words (S n) data ptr d) = AtIdle /\ fl_chip (write_words (S n) data ptr d) = fl_chip d.
Proof.
  induction n as [|n IH]; intros ptr d Hs Hi; destruct (fl_data d (load32 data ptr) Hs Hi) as (S1 & I1 & C1).
  - cbn [write_words]. destruct (fl_done _ S1) as [S2 C2]. split; [exact S2|congruence].
  - destruct (fl_again _ S1) as (S2 & I2 & _ & C2).
    destruct (IH (ptr + 4) _ S2 ltac:(congruence)) as [S3 C3]. split; [exact S3|].
    etransitivity; [exact C3|congruence].
Qed.

Lemma fl_flags d : fl_ready d -> fl_ready (ResetFlags d) /\ fl_mem (ResetFlags d) = fl_mem d.
Proof.
  intros [Hs Hq]. destruct (fl_instr d 0x0d Hs eq_refl) as (S1 & I1 & C1).
  destruct (fl_shift _ S1) as (S2 & I2 & C2).
  pose proof (write_words_ok (store32 (store32 (store32 (fun _ => 0) 0 0x2) 4 0xff00) 8 0x9090f000) 2 0 _ S2
    ltac:(rewrite I2, I1; discriminate)) as [S3 C3].
  assert (C : fl_chip (ResetFlags d) = fl_chip d) by (etransitivity; [exact C3|congruence]).
  split; [split; [exact S3|rewrite C; exact Hq]|unfold fl_mem; rewrite C; reflexivity].
Qed.

Lemma fl_start d a : fl_ready d -> 0 <= a < 2 ^ 32 ->
  fl_stream a (jtag_MemAccess a 0x18 d) /\ fl_mem (jtag_MemAccess a 0x18 d) = fl_mem d.
Proof.
  intros [Hs Hq] Ha. destruct (fl_access d a Hs Ha) as (S1 & P1 & C1). unfold fl_stream, fl_mem. rewrite C1. auto.
Qed.

Lemma fl_next d a : fl_stream a d -> fl_lo <= a < 2 ^ 32 ->
  let '(v, d') := jtag_read_dr8 (jtag_update_to_shift_dr d) in
  Z.land v 0xff = fl_mem d a /\ fl_stream (a + 1) d' /\ fl_mem d' = fl_mem d.
Proof.
  intros (Hs & Hp & Hq) Ha. destruct (fl_again d Hs) as (S1 & _ & P1 & C1).
  pose proof (fl_byte _ a S1 ltac:(congruence) ltac:(rewrite C1; exact Hq) Ha) as Hb.
  destruct (jtag_read_dr8 _) as [v d']. unfold fl_stream, fl_mem. rewrite C1 in Hb. destruct Hb as (-> & S2 & P2 & ->). auto.
Qed.

Lemma fl_stop d a : fl_stream a d ->
  fl_ready (jtag_update_to_idle d) /\ fl_mem (jtag_update_to_idle d) = fl_mem d.
Proof. intros (Hs & _ & Hq). destruct (fl_done d Hs) as [S1 C1]. unfold fl_ready, fl_mem. rewrite C1. auto. Qed.

Context (fuel : nat) (Hfuel : (fl_polls < fuel)%nat).

(** ** Erasing and programming *)

Lemma erase_wait_ok a n : forall d d' k, settles a 0xffff n d d' -> (n < k)%nat -> erase_wait k a d = Some (tt, d').
Proof.
  induction n as [|n IH]; intros d d' k Hs Hk; (destruct k as [|k]; [lia|]); cbn [erase_wait];
    inversion Hs as [? ? E|? ? ? ? ? E Hne Hs']; subst; rewrite E.
  - reflexivity.
  - destruct (Z.eqb_spec 0xffff r) as [Er|]; [congruence|]. apply IH; [exact Hs'|lia].
Qed.

Lemma SectorErase_ok d a : fl_ready d -> fl_lo <= a < 2 ^ 32 -> a mod 2 = 0 ->
  exists d', rdc_EonSectorErase fuel a d = Some (tt, d') /\ fl_ready d' /\
    fl_mem d' = fill (fl_mem d) (fl_sec_base a) (fl_sec_len a) 0xff.
Proof.
  intros Hr Ha Hev. destruct (fl_erase d a Hr Ha Hev) as (n & d' & Hn & Hs & Hr' & Hm). exists d'.
  unfold rdc_EonSectorErase. rewrite (erase_wait_ok a n _ d' fuel Hs) by lia. auto.
Qed.

Lemma program_steps a v n : forall i d d' N, settles a v n d d' -> i + Z.of_nat n <= 10000000 -> (n < N)%nat ->
  nloop N (program_step a v) (i, d) = inr (0, d').
Proof.
  induction n as [|n IH]; intros i d d' N Hs Hi HN; (destruct N as [|N]; [lia|]); cbn [nloop program_step];
    inversion Hs as [? ? E|? ? ? ? ? E Hne Hs']; subst; rewrite E.
  - rewrite Z.eqb_refl. reflexivity.
  - rewrite (proj2 (Z.eqb_neq v r)) by congruence. cbn [negb].
    rewrite (proj2 (Z.ltb_ge 10000000 (i + 1))) by lia. apply IH; [exact Hs'|lia|lia].
Qed.

Lemma Program_ok d a v : fl_ready d -> fl_lo <= a -> a + 2 <= 2 ^ 32 -> a mod 2 = 0 -> 0 <= v < 0x10000 ->
  fl_mem d a = 0xff -> fl_mem d (a + 1) = 0xff ->
  exists d', rdc_EonProgram a v d = (0, d') /\ fl_ready d' /\
    fl_mem d' = store16 (fl_mem d) a v.
Proof.
  intros Hr Ha Ha2 Hev Hv E0 E1. destruct (fl_program d a v Hr Ha Ha2 Hev Hv E0 E1) as (n & d' & Hn & Hs & Hr' & Hm).
  exists d'. pose proof fl_patience as Hp. unfold rdc_EonProgram. rewrite ploop_nloop.
  rewrite (program_steps a v n 0 _ d' (Pos.to_nat 10000002) Hs); [auto|lia|lia].
Qed.

(** A buffer programmed over erased cells. *)
Lemma program_loop_ok addr buffer n : forall off d, bytes_ok buffer -> fl_ready d -> fl_lo <= addr ->
  0 <= off -> (addr + off) mod 2 = 0 -> addr + off + 2 * Z.of_nat n <= 2 ^ 32 ->
  (forall x, addr + off <= x < addr + off + 2 * Z.of_nat n -> fl_mem d x = 0xff) ->
  exists d', program_loop n addr off buffer d = (true, d') /\ fl_ready d' /\
    forall x, fl_mem d' x =
      if (addr + off <=? x) && (x <? addr + off + 2 * Z.of_nat n) then buffer (x - addr) else fl_mem d x.
Proof.
  induction n as [|n IH]; intros off d Hb Hr Hlo Hoff Hev Hend Her; cbn [program_loop].
  - exists d. split; [reflexivity|]. split; [exact Hr|]. intros x. repeat zcase; try reflexivity; lia.
  - pose proof fl_lo_pos. pose proof (even_next _ Hev) as Hev'. rewrite <- Z.add_assoc in Hev'. pose proof (Hb off) as B0. pose proof (Hb (off + 1)) as B1.
    assert (Hv : load16 buffer off = buffer off + 0x100 * buffer (off + 1)) by reflexivity.
    destruct (Z.eqb_spec (load16 buffer off) 0xffff) as [E|E].
    + destruct (IH (off + 2) d) as (d' & E' & Hr' & Hm); auto; try lia; [intros x Hx; apply Her; lia|].
      exists d'. split; [exact E'|]. split; [exact Hr'|]. intros x. rewrite Hm.
      destruct (Z.eq_dec x (addr + off)) as [->|]; [|destruct (Z.eq_dec x (addr + off + 1)) as [->|]].
      * rewrite Her by lia. repeat zcase; try lia. replace (addr + off - addr) with off by lia. lia.
      * rewrite Her by lia. repeat zcase; try lia. replace (addr + off + 1 - addr) with (off + 1) by lia. lia.
      * repeat zcase; try reflexivity; lia.
    + rewrite u32_id by lia.
      destruct (Program_ok d (addr + off) (load16 buffer off)) as (d1 & E1 & R1 & M1); auto; try lia;
        [apply Her; lia|apply Her; lia|].
      rewrite E1. cbn [Z.eqb negb].
      destruct (IH (off + 2) d1) as (d' & E' & Hr' & Hm); auto; try lia.
      { intros x Hx. rewrite M1 by lia. rewrite store16_out by lia. apply Her. lia. }
      exists d'. split; [exact E'|]. split; [exact Hr'|]. intros x. rewrite Hm.
      destruct (load16_bytes buffer off ltac:(lia) ltac:(lia)) as [L0 L1].
      destruct (Z.eq_dec x (addr + off)) as [->|]; [|destruct (Z.eq_dec x (addr + off + 1)) as [->|]].
      * rewrite M1, store16_lo, L0 by lia. repeat zcase; try lia. f_equal. lia.
      * rewrite M1, store16_hi, L1 by lia. repeat zcase; try lia. f_equal. lia.
      * rewrite M1, store16_out by lia. repeat zcase; try reflexivity; lia.
Qed.

(** ** Dumping *)

Lemma dump_bytes_ok n : forall a d, fl_stream a d -> fl_lo <= a -> a + Z.of_nat n <= 2 ^ 32 ->
  let '(vs, d') := dump_bytes n d in
  vs = load_bytes (fl_mem d) a (Z.of_nat n) /\ fl_stream (a + Z.of_nat n) d' /\ fl_mem d' = fl_mem d.
Proof.
  induction n as [|n IH]; intros a d Hs Hlo Hend; cbn [dump_bytes].
  - rewrite Z.add_0_r. auto.
  - pose proof (fl_next d a Hs ltac:(lia)) as Hn.
    destruct (jtag_read_dr8 (jtag_update_to_shift_dr d)) as [v d1]. destruct Hn as (Hv & Hs1 & Hm1).
    specialize (IH (a + 1) d1 Hs1 ltac:(lia) ltac:(lia)). destruct (dump_bytes n d1) as [vs d2].
    destruct IH as (-> & Hs2 & Hm2). rewrite Hv, Hm1 in *.
    split; [|split; [replace (a + Z.of_nat (S n)) with (a + 1 + Z.of_nat n) by lia; exact Hs2|congruence]].
    unfold load_bytes. rewrite !Nat2Z.id. cbn [seq map]. rewrite Z.add_0_r. f_equal.
    rewrite <- seq_shift, map_map. apply map_ext. intros i. f_equal. lia.
Qed.

Lemma DumpMem_ok a c d : fl_ready d -> fl_lo <= a < 2 ^ 32 -> 0 <= c <= 0x80 -> a + c <= 2 ^ 32 ->
  let '(vs, d') := DumpMem a c d in
  vs = load_bytes (fl_mem d) a c /\ fl_ready d' /\ fl_mem d' = fl_mem d.
Proof.
  intros Hr Hlo Hc Hend. unfold DumpMem. rewrite (proj2 (Z.ltb_ge 0x80 c)) by lia.
  destruct (fl_flags d Hr) as [Hr1 Hm1]. pose proof fl_lo_pos.
  destruct (fl_start (ResetFlags d) a Hr1 ltac:(lia)) as [Hs2 Hm2].
  pose proof (dump_bytes_ok (Z.to_nat c) a _ Hs2 ltac:(lia) ltac:(lia)) as Hd.
  destruct (dump_bytes (Z.to_nat c) (jtag_MemAccess a 0x18 (ResetFlags d))) as [vs d3].
  destruct Hd as (-> & Hs3 & Hm3). rewrite Z2Nat.id in * by lia.
  destruct (fl_stop d3 _ Hs3) as [Hr4 Hm4]. rewrite Hm2, Hm1.
  split; [reflexivity|]. split; [exact Hr4|congruence].
Qed.

Lemma dump_loop_ok address n : forall i buffer d, fl_ready d -> fl_lo <= address + i -> 0 <= address -> 0 <= i ->
  address + i + 0x80 * Z.of_nat n <= 2 ^ 32 ->
  let '(buffer', d') := dump_loop n address i buffer d in
  (forall x, buffer' x = if (i <=? x) && (x <? i + 0x80 * Z.of_nat n) then fl_mem d (address + x) else buffer x) /\
  fl_ready d' /\ fl_mem d' = fl_mem d.
Proof.
  induction n as [|n IH]; intros i buffer d Hr Hlo H0 Hi Hend; cbn [dump_loop].
  - split; [|auto]. intros x. repeat zcase; try reflexivity; lia.
  - destruct (fl_flags d Hr) as [Hr1 Hm1]. rewrite u32_id by lia.
    pose proof (DumpMem_ok (address + i) 0x80 (ResetFlags d) Hr1 ltac:(lia) ltac:(lia) ltac:(lia)) as Hd.
    destruct (DumpMem (address + i) 0x80 (ResetFlags d)) as [vs d2]. destruct Hd as (-> & Hr2 & Hm2).
    specialize (IH (i + 0x80) (store_bytes buffer i (load_bytes (fl_mem (ResetFlags d)) (address + i) 0x80)) d2
      Hr2 ltac:(lia) H0 ltac:(lia) ltac:(lia)).
    destruct (dump_loop n address (i + 0x80) _ d2) as [b' d3]. destruct IH as (Hb & Hr3 & Hm3).
    split; [|split; [exact Hr3|congruence]]. intros x. rewrite Hb, Hm2, Hm1.
    destruct (decide (i <= x < i + 0x80)) as [Hx|Hx].
    + rewrite store_bytes_in by (rewrite length_load_bytes; lia). rewrite nth_load_bytes by lia.
      repeat zcase; try lia. f_equal. lia.
    + rewrite store_bytes_out by (rewrite length_load_bytes; lia). repeat zcase; try reflexivity; lia.
Qed.

(** ** The commands *)

Context {FD : Files D}.

(** The file holds [bs], whenever it is opened and read; working with it leaves
    the flash alone. *)
Definition reads_as (fname bs : list Z) : Prop :=
  forall d, let '(fd, d1) := open_rdonly fname d in
    let '(r, d2) := fread fd sizeof_buffer d1 in
    r = Some bs /\ fl_mem d2 = fl_mem d /\ (fl_ready d -> fl_ready d2).

Lemma file_buffer bs : Forall (fun b => 0 <= b < 0x100) bs ->
  bytes_ok (read_into (fun _ => 0) (Some bs)) /\
  forall x, 0 <= x < Z.of_nat (length bs) -> read_into (fun _ => 0) (Some bs) x = nth (Z.to_nat x) bs 0.
Proof.
  intros Hb. cbn [read_into]. split.
  - apply bytes_ok_store_bytes; [intros a; lia|exact Hb].
  - intros x Hx. rewrite store_bytes_in by lia. f_equal. lia.
Qed.

(** C10: the boot loader written over JTAG is the one in the file.  Behind an
    idle debug port a chip with the documented Eon commands, of a 64 KiB top
    sector, waits for a command, and ends its operations within the looks the
    waits allow (ten million at most).  For a file of 64 KiB, erasing and
    programming then terminate and report success, the top sector holds the file
    and the rest of the flash is as before; a dump of the sector gives the file
    back. *)
Theorem jtag_program_dump fname bs buffer d :
  fl_ready d -> reads_as fname bs -> Forall (fun b => 0 <= b < 0x100) bs ->
  Z.of_nat (length bs) = 0x10000 ->
  exists d1 d2, EraseBootloader fuel d = Some (tt, d1) /\
    ProgramBootloader fname (fun _ => 0) d1 = (true, d2) /\
    (forall x, fl_lo <= x < 2 ^ 32 -> fl_mem d2 x =
       if 0xffff0000 <=? x then nth (Z.to_nat (x - 0xffff0000)) bs 0 else fl_mem d x) /\
    load_bytes (rdc_DumpSector 0xffff0000 buffer d2).1 0 sizeof_buffer = bs.
Proof.
  intros Hr Hf Hb Hl. destruct fl_top as (Hlo & Sb & Sl). pose proof fl_lo_pos as Hpos.
  destruct (SectorErase_ok d 0xffff0000 Hr ltac:(lia) eq_refl) as (d1 & E1 & R1 & M1). rewrite Sb, Sl in M1.
  specialize (Hf d1). destruct (open_rdonly fname d1) as [fd d2] eqn:Eo.
  destruct (fread fd sizeof_buffer d2) as [r d3] eqn:Ef. destruct Hf as (-> & Hm3 & Hr3).
  destruct (file_buffer bs Hb) as [Hbb Hbuf].
  pose proof (program_loop_ok 0xffff0000 (read_into (fun _ => 0) (Some bs)) (Z.to_nat (0x10000 / 2)) 0 d3) as Hp.
  rewrite Z2Nat.id in Hp by (vm_compute; discriminate). change (0x10000 / 2) with 0x8000 in Hp at 1 2 4.
  destruct Hp as (d4 & E4 & R4 & M4); auto; try lia.
  { intros x Hx. rewrite Hm3, M1 by lia. apply fill_in. lia. }
  assert (Hmem : forall x, fl_lo <= x < 2 ^ 32 -> fl_mem d4 x =
            if 0xffff0000 <=? x then nth (Z.to_nat (x - 0xffff0000)) bs 0 else fl_mem d x).
  { intros x Hx. rewrite M4 by exact Hx. destruct (Z.leb_spec 0xffff0000 x).
    - repeat zcase; try lia. apply Hbuf. lia.
    - repeat zcase; try lia. rewrite Hm3, M1 by exact Hx. apply fill_out. lia. }
  exists d1, d4. split; [exact E1|]. split.
  - unfold ProgramBootloader. rewrite Eo, Ef. cbn [read_result]. rewrite Hl. exact E4.
  - split; [exact Hmem|]. unfold rdc_DumpSector.
    pose proof (dump_loop_ok 0xffff0000 (Z.to_nat (0x10000 / 0x80)) 0 buffer d4 R4 ltac:(lia) ltac:(lia)
      ltac:(lia) ltac:(vm_compute; discriminate)) as Hd.
    change (Z.of_nat (Z.to_nat (0x10000 / 0x80))) with 512 in Hd.
    destruct (dump_loop (Z.to_nat (0x10000 / 0x80)) 0xffff0000 0 buffer d4) as [b' d5].
    destruct Hd as (Hb' & _ & _). unfold sizeof_buffer. rewrite <- Hl. apply list_of_bytes. intros i Hi.
    cbn [fst]. rewrite Hb', Hmem by lia. repeat zcase; try lia. f_equal. lia.
Qed.

(** "programconfig" does not put back what "dumpconfig" saved.  With 8 KiB
    sectors at the bottom of the flash, the configuration file goes over the
    first sector, at the base of the flash, and the configuration block, 16 KiB
    above, keeps its old contents. *)
Theorem programconfig_misplaced fname cfg d :
  fl_ready d -> reads_as fname cfg -> Forall (fun b => 0 <= b < 0x100) cfg ->
  Z.of_nat (length cfg) = 0x2000 -> fl_lo + 0x10000 <= 2 ^ 32 ->
  fl_sec_base fl_lo = fl_lo -> fl_sec_len fl_lo = 0x2000 ->
  exists d', ProgramConfig fuel fl_lo fname (fun _ => 0) d = Some (true, d') /\
    (forall i, 0 <= i < 0x2000 -> fl_mem d' (fl_lo + i) = nth (Z.to_nat i) cfg 0) /\
    load_bytes (rdc_Dump2000 (u32 (fl_lo + 0x4000)) (fun _ => 0) d').1 0 0x2000 =
    load_bytes (fl_mem d) (fl_lo + 0x4000) 0x2000.
Proof.
  intros Hr Hf Hb Hl Htop Sb Sl. pose proof fl_lo_pos as Hpos. specialize (Hf d). unfold ProgramConfig.
  destruct (open_rdonly fname d) as [fd d1]. destruct (fread fd sizeof_buffer d1) as [r d2].
  destruct Hf as (-> & Hm2 & Hr2). cbn [read_result]. rewrite Hl. cbn [Z.eqb Pos.eqb negb].
  assert (Hin : fl_lo <= fl_lo < 2 ^ 32) by lia.
  destruct (SectorErase_ok d2 fl_lo (Hr2 Hr) Hin fl_lo_even) as (d3 & E3 & R3 & M3). rewrite Sb, Sl in M3.
  destruct (file_buffer cfg Hb) as [Hbb Hbuf].
  pose proof (program_loop_ok fl_lo (read_into (fun _ => 0) (Some cfg)) (Z.to_nat (0x2000 / 2)) 0 d3) as Hp.
  rewrite Z2Nat.id in Hp by (vm_compute; discriminate). change (0x2000 / 2) with 0x1000 in Hp at 1 2 4.
  destruct Hp as (d4 & E4 & R4 & M4); auto; try lia.
  { rewrite Z.add_0_r. apply fl_lo_even. }
  { intros x Hx. rewrite M3 by lia. apply fill_in. lia. }
  exists d4. split; [rewrite E3, E4; reflexivity|]. split.
  - intros i Hi. rewrite M4 by lia. repeat zcase; try lia. rewrite Hbuf by lia. f_equal. lia.
  - rewrite u32_id by lia. unfold rdc_Dump2000.
    assert (A1 : fl_lo <= fl_lo + 0x4000 + 0) by lia. assert (A2 : 0 <= fl_lo + 0x4000) by lia.
    assert (A3 : fl_lo + 0x4000 + 0 + 0x80 * Z.of_nat (Z.to_nat (0x2000 / 0x80)) <= 2 ^ 32)
      by (change (Z.of_nat (Z.to_nat (0x2000 / 0x80))) with 64; lia).
    pose proof (dump_loop_ok (fl_lo + 0x4000) (Z.to_nat (0x2000 / 0x80)) 0 (fun _ => 0) d4 R4 A1 A2 (Z.le_refl 0) A3) as Hd.
    change (Z.of_nat (Z.to_nat (0x2000 / 0x80))) with 64 in Hd.
    destruct (dump_loop _ (fl_lo + 0x4000) 0 _ d4) as [b' d5]. destruct Hd as (Hb' & _ & _). cbn [fst].
    apply (nth_ext _ _ 0 0); rewrite !length_load_bytes; [reflexivity|]. intros i Hi.
    rewrite !nth_load_bytes by lia. rewrite Hb'. repeat zcase; try lia.
    rewrite M4 by lia. repeat zcase; try lia. rewrite M3 by lia. rewrite fill_out, Hm2 by lia. reflexivity.
Qed.

End Chip.

(** ** An instance *)

(** A debug port in front of an 8 MiB chip that is busy for two looks. *)
Record jchip : Type := mkJ { j_stage : stage; j_ir : Z; j_ptr : option Z; j_chip : eon }.

Definition j_lo : Z := 0xff800000.

Definition j_sec_len (a : Z) : Z := if a <? j_lo + 0x10000 then 0x2000 else 0x10000.

Definition j_sec_base (a : Z) : Z := a - (a - j_lo) mod j_sec_len a.

Definition eon_look (a : Z) (e : eon) : Z * eon :=
  match e_busy e with
  | O => (load16 (e_mem e) a, e)
  | S n => (if Z.testbit (load16 (e_mem e) a) 7 then 0 else 0x80, mkEon (e_mem e) (e_cmd e) n (e_at e))
  end.

Lemma eon_look_read a e : eon_read a (eon_look a e).1 e (eon_look a e).2.
Proof.
  unfold eon_read, eon_look. destruct (e_busy e); [auto|]. split; [reflexivity|]. intros _. cbn [fst].
  destruct (Z.testbit (load16 _ _) 7); reflexivity.
Qed.

Definition eon_put (a v : Z) (e : eon) : eon := default e (eon_write j_sec_base j_sec_len 2 a v e).

#[export] Instance jchip_ops : JtagOps jchip := {|
  jtag_init := fun d => Some (0x8381, mkJ AtIdle 0x0f None (j_chip d));
  jtag_MemAccess := fun a _ d => mkJ AtUpdate 0x11 (Some a) (j_chip d);
  jtag_ReadMem16 := fun a d => ((eon_look a (j_chip d)).1, mkJ AtIdle 0x11 None (eon_look a (j_chip d)).2);
  jtag_WriteMem16 := fun a v d => mkJ AtIdle 0x11 None (eon_put a v (j_chip d));
  jtag_write_ir := fun c d => mkJ AtIdle c None (j_chip d);
  jtag_idle_to_shift_dr := fun d => mkJ AtShift (j_ir d) (j_ptr d) (j_chip d);
  jtag_read_dr8 := fun d =>
    let a := default 0 (j_ptr d) in
    (Z.land (e_mem (j_chip d) a) 0xff, mkJ AtUpdate (j_ir d) (Some (a + 1)) (j_chip d));
  jtag_read_dr16 := fun d => (0x8381, mkJ AtUpdate (j_ir d) (j_ptr d) (j_chip d));
  jtag_read_dr32 := fun d => (0, mkJ AtUpdate (j_ir d) (j_ptr d) (j_chip d));
  jtag_update_to_idle := fun d => mkJ AtIdle (j_ir d) (j_ptr d) (j_chip d);
  jtag_update_to_shift_dr := fun d => mkJ AtShift (j_ir d) (j_ptr d) (j_chip d);
  jtag_write_dr32 := fun _ d => mkJ AtUpdate (j_ir d) (j_ptr d) (j_chip d)
|}.

(** An even address and the one after it lie in the same sector. *)
Lemma j_sector a : j_lo <= a -> a mod 2 = 0 ->
  j_sec_base a <= a /\ a + 2 <= j_sec_base a + j_sec_len a.
Proof.
  unfold j_sec_base, j_sec_len, j_lo. intros Ha Hev.
  destruct (Z.ltb_spec a (0xff800000 + 0x10000)); split; Z.to_euclidean_division_equations; lia.
Qed.

Lemma eon_put_ok a v e e' : eon_write j_sec_base j_sec_len 2 a v e = Some e' -> eon_put a v e = e'.
Proof. intros E. unfold eon_put. rewrite E. reflexivity. Qed.

#[export] Instance jchip_flash : EonFlash jchip.
Proof.
  refine {| fl_lo := j_lo; fl_polls := 2; fl_sec_base := j_sec_base; fl_sec_len := j_sec_len;
            fl_chip := j_chip; fl_stage := j_stage; fl_ir := j_ir; fl_ptr := j_ptr |};
    try (intros; cbn; auto; fail).
  - vm_compute. discriminate.
  - vm_compute. repeat split; discriminate.
  - intros a Ha. apply j_sector. lia.
  - vm_compute. discriminate.
  - intros d a _ _ _ _. cbn [jtag_ReadMem16 jchip_ops j_stage j_chip]. split; [reflexivity|apply eon_look_read].
  - intros d a v _ _ _ _. cbn [jtag_WriteMem16 jchip_ops j_stage j_chip]. split; [reflexivity|].
    exists 2%nat. split; [lia|]. apply eon_put_ok.
  - intros d a _ Hp (_ & _ & Hb) _. cbn [jtag_read_dr8 jchip_ops j_stage j_chip j_ptr]. rewrite Hp. cbn [default].
    split; [|auto]. rewrite <- Z.land_assoc. change (Z.land 0xff 0xff) with (Z.ones 8).
    rewrite Z.land_ones, Z.mod_small by (try lia; apply Hb). reflexivity.
Defined.

(** Two files: a boot loader, and a configuration under descriptor 4. *)
Definition boot_file : list Z := load_bytes (fun x => x mod 251) 0 0x10000.

Definition config_file : list Z := load_bytes (fun x => x mod 241) 0 0x2000.

#[export] Instance jchip_files : Files jchip := {|
  open_create := fun _ d => (5, d);
  open_rdonly := fun fname d => (match fname with [] => 4 | _ => 3 end, d);
  fwrite := fun _ bs d => (Z.of_nat (length bs), d);
  fread := fun fd _ d => (Some (if fd =? 4 then config_file else boot_file), d)
|}.

Definition eon0 : eon := mkEon (fun x => x mod 256) CIdle 0 0.

Definition j0 : jchip := mkJ AtIdle 0x0f None eon0.

(** Three looks are enough for this chip. *)
Lemma j_patient : (@fl_polls jchip _ _ < 3)%nat.
Proof. cbn. lia. Qed.

Lemma eon0_quiet : quiet eon0.
Proof. split; [reflexivity|]. split; [reflexivity|]. intros x. pose proof (Z.mod_pos_bound x 256). cbn [e_mem eon0]. lia. Qed.

Lemma j0_ready : fl_ready j0.
Proof. split; [reflexivity|exact eon0_quiet]. Qed.

Lemma jtag_program_dump_witness : exists d1 d2, EraseBootloader 3 j0 = Some (tt, d1) /\
    ProgramBootloader [0x62] (fun _ => 0) d1 = (true, d2) /\
    (forall x, fl_lo <= x < 2 ^ 32 -> fl_mem d2 x =
       if 0xffff0000 <=? x then nth (Z.to_nat (x - 0xffff0000)) boot_file 0 else fl_mem j0 x) /\
    load_bytes (rdc_DumpSector 0xffff0000 (fun _ => 0) d2).1 0 sizeof_buffer = boot_file.
Proof.
  apply (jtag_program_dump 3 j_patient [0x62] boot_file (fun _ => 0) j0).
  - exact j0_ready.
  - intros d. split; [reflexivity|]. auto.
  - apply load_bytes_ok. intros a. pose proof (Z.mod_pos_bound a 251). lia.
  - unfold boot_file. rewrite length_load_bytes. apply Z2Nat.id. lia.
Defined.

Lemma programconfig_misplaced_witness :
  exists d', ProgramConfig 3 fl_lo [] (fun _ => 0) j0 = Some (true, d') /\
    (forall i, 0 <= i < 0x2000 -> fl_mem d' (fl_lo + i) = nth (Z.to_nat i) config_file 0) /\
    load_bytes (rdc_Dump2000 (u32 (fl_lo + 0x4000)) (fun _ => 0) d').1 0 0x2000 =
    load_bytes (fl_mem j0) (fl_lo + 0x4000) 0x2000.
Proof.
  apply (programconfig_misplaced 3 j_patient [] config_file j0).
  - exact j0_ready.
  - intros d. split; [reflexivity|]. auto.
  - apply load_bytes_ok. intros a. pose proof (Z.mod_pos_bound a 241). lia.
  - unfold config_file. rewrite length_load_bytes. apply Z2Nat.id. lia.
  - vm_compute. discriminate.
  - reflexivity.
  - reflexivity.
Defined.

End JtagFlash.
