(* ===== verification/Python.v ===== *)
(** What the host's Python programs use of their language: the little-endian
    fields of [struct], padding, indexing and slices of strings. Strings are
    lists of bytes; an operation that can raise returns an option. *)
From Stdlib Require Import ZArith Lia.
From stdpp Require Import base list numbers option strings.
From S2P Require Import Prelude.

Module Python.

(** ** struct and strings *)

(** The [n] bytes of [v], least significant first. *)
Fixpoint le (n : nat) (v : Z) : list Z :=
  match n with
  | O => []
  | S n' => v mod 0x100 :: le n' (v / 0x100)
  end.

Fixpoint un_le (bs : list Z) : Z :=
  match bs with
  | [] => 0
  | b :: bs' => b + 0x100 * un_le bs'
  end.

(** [struct.pack] of an unsigned field of [n] bytes. *)
Definition pack (n : nat) (v : Z) : option (list Z) :=
  if (0 <=? v) && (v <? 0x100 ^ Z.of_nat n) then Some (le n v) else None.

(** [while len(s) < n: s += c]. *)
Definition pad_to (n : nat) (c : Z) (s : list Z) : list Z := s ++ repeat c (n - length s).

(** [s[i]], with Python's negative indices. *)
Definition py_index (s : list Z) (i : Z) : option Z :=
  let i := if i <? 0 then i + Z.of_nat (length s) else i in
  if i <? 0 then None else s !! Z.to_nat i.

(** [s[off:off+len]]. *)
Definition field_of (config : list Z) (off len : nat) : list Z := take len (drop off config).

(** ** Laws *)

Lemma field_app a b c off len : off = length a -> len = length b -> field_of (a ++ b ++ c) off len = b.
Proof. intros -> ->. unfold field_of. rewrite drop_app_length, take_app_length. reflexivity. Qed.

(** A field of a record that is the concatenation of its fields. *)
Lemma field_concat parts i p off len : parts !! i = Some p ->
  off = length (concat (take i parts)) -> len = length p -> field_of (concat parts) off len = p.
Proof.
  intros Hi -> ->. rewrite <- (take_drop_middle parts i p Hi) at 1. rewrite concat_app. cbn [concat].
  apply field_app; reflexivity.
Qed.

Lemma field_load g a n off len : (off + len <= n)%nat ->
  field_of (load_bytes g a (Z.of_nat n)) off len = load_bytes g (a + Z.of_nat off) (Z.of_nat len).
Proof.
  intros Hle. unfold field_of, load_bytes. rewrite !Nat2Z.id, skipn_map, firstn_map, drop_seq, take_seq.
  replace (min len (n - off)) with len by lia. rewrite Nat.add_0_l, <- (Nat.add_0_r off), <- fmap_add_seq.
  rewrite map_map. apply map_ext. intros i. f_equal. lia.
Qed.

Lemma length_le n v : length (le n v) = n.
Proof. revert v. induction n as [|n IH]; intros v; cbn; auto. Qed.

Lemma un_le_le n : forall v, 0 <= v < 0x100 ^ Z.of_nat n -> un_le (le n v) = v.
Proof.
  induction n as [|n IH]; intros v Hv; cbn [le un_le]; [cbn in Hv; lia|].
  rewrite Nat2Z.inj_succ, Z.pow_succ_r in Hv by lia.
  rewrite IH by (split; [apply Z.div_pos; lia|apply Z.div_lt_upper_bound; lia]).
  pose proof (Z.div_mod v 0x100). lia.
Qed.

Lemma pack_ok n v : 0 <= v < 0x100 ^ Z.of_nat n -> pack n v = Some (le n v).
Proof. intros Hv. unfold pack. repeat zcase; try reflexivity; lia. Qed.

Lemma lookup_repeat (c : Z) n : forall i, (i < n)%nat -> repeat c n !! i = Some c.
Proof. induction n as [|n IH]; intros [|i] Hi; cbn; try lia; [reflexivity|apply IH; lia]. Qed.

End Python.
