(* ===== verification/ConfigTools.v ===== *)
(** The host's configuration tools (tools/make_config_block.py,
    tools/read_config_block.py and the settings of tools/bb_eth_setconfig.py):
    building the 8 KiB configuration block, checking and showing it, and the
    form of the graphical tool with its checks.

    Python strings are lists of bytes; an operation that can raise returns an
    option.  [hashlib.md5] is RFC 1321 ([Md5.rfc_md5]). *)
From Stdlib Require Import ZArith Lia.
From stdpp Require Import base list numbers option strings.
From S2P Require Import Prelude BiffNor Md5 BiffConfig Python.

Module ConfigTools.
Import Config Python.

(** ** Strings *)

Definition strip (s : list Z) : list Z := rev (skip_spaces (rev (skip_spaces s))).

Definition hexdigits (s : list Z) : bool := forallb (fun c => bool_decide (is_Some (hexval c))) s.

(** ** Building the block *)

Definition GetConfig (bootsource console nic boottype loadaddress : Z) (cmdline : list Z)
    (kernelmax : Z) : option (list Z) :=
  bootsource ← pack 1 bootsource;
  console ← pack 1 console;
  nic ← pack 1 nic;
  boottype ← pack 1 boottype;
  loadaddress ← pack 4 loadaddress;
  let config := le 4 1 ++ bootsource ++ console ++ nic ++ boottype ++ loadaddress in
  let block := config ++ pad_to 1024 0 cmdline in
  kernelmax ← pack 2 kernelmax;
  let block := pad_to (0x2000 - 0x10) 0xff (block ++ kernelmax) in
  Some (block ++ Md5.rfc_md5 block).

(** The options at the head of make_config_block.py. *)
Definition make_cmdline : list Z := str "console=uart,io,0x3f8 rootfstype=squashfs,jffs2 init=/etc/preinit".

Definition make_GetConfig (kernelmax : Z) : option (list Z) :=
  GetConfig 0 1 1 1 0x400000 make_cmdline kernelmax.

(** ** Showing a block *)

Inductive config_key : Type := KEY_VERSION | KEY (index : cfg_index).

Definition key_name (k : config_key) : list Z :=
  match k with
  | KEY_VERSION => str "version"
  | KEY CFG_BOOTSOURCE => str "bootsource"
  | KEY CFG_CONSOLE => str "console"
  | KEY CFG_NIC => str "nic"
  | KEY CFG_BOOTTYPE => str "boottype"
  | KEY CFG_LOADADDRESS => str "loadaddress"
  | KEY CFG_CMNDLINE => str "cmdline"
  | KEY CFG_KERNELMAX => str "kernelmax"
  end.

Definition config_keys : list config_key :=
  KEY_VERSION :: map KEY [CFG_BOOTSOURCE; CFG_CONSOLE; CFG_NIC; CFG_BOOTTYPE; CFG_LOADADDRESS;
                          CFG_CMNDLINE; CFG_KERNELMAX].

Record values : Type := mkValues {
  v_version : Z; v_bootsource : Z; v_console : Z; v_nic : Z; v_boottype : Z; v_loadaddress : Z;
  v_cmdline : list Z; v_kernelmax : Z
}.

(** [optionvalues], inverted. *)
Definition optionvalues_inverse (index : cfg_index) (number : Z) : option (list Z) :=
  match index with
  | CFG_BOOTSOURCE =>
      if number =? 0 then Some (str "flash") else if number =? 1 then Some (str "MMC")
      else if number =? 2 then Some (str "Net") else None
  | CFG_CONSOLE =>
      if number =? 0 then Some (str "disabled") else if number =? 1 then Some (str "enabled") else None
  | CFG_NIC =>
      if number =? 0 then Some (str "disabled") else if number =? 1 then Some (str "enabled")
      else if number =? 2 then Some (str "promiscuous") else None
  | CFG_BOOTTYPE =>
      if number =? 0 then Some (str "flatbin") else if number =? 1 then Some (str "Linux")
      else if number =? 2 then Some (str "Multiboot") else if number =? 3 then Some (str "Coreboot") else None
  | _ => None
  end.

(** [while cmdline[strend] == NUL: strend -= 1], downwards from [strend] and on
    through the negative indices until one is out of range. *)
Fixpoint strend_loop (fuel : nat) (cmdline : list Z) (strend : Z) : option Z :=
  match fuel with
  | O => None
  | S fuel' =>
      c ← py_index cmdline strend;
      if c =? 0 then strend_loop fuel' cmdline (strend - 1) else Some strend
  end.

(** [struct.unpack("<iBBBBL1024sH", ...)] and the end of the command line; the
    loop looks at no more than 2049 indices. *)
Definition GetValues (config : list Z) : option values :=
  let cmdline := field_of config 12 1024 in
  strend ← strend_loop 2049 cmdline 1023;
  Some (mkValues (s32 (un_le (field_of config 0 4))) (un_le (field_of config 4 1)) (un_le (field_of config 5 1))
    (un_le (field_of config 6 1)) (un_le (field_of config 7 1)) (un_le (field_of config 8 4))
    (take (Z.to_nat (strend + 1)) cmdline) (un_le (field_of config 1036 2))).

(** What is printed for a key, [None] where the table has no entry. *)
Definition show (index : cfg_index) (v : values) : option (list Z) :=
  match index with
  | CFG_BOOTSOURCE => optionvalues_inverse index (v_bootsource v)
  | CFG_CONSOLE => optionvalues_inverse index (v_console v)
  | CFG_NIC => optionvalues_inverse index (v_nic v)
  | CFG_BOOTTYPE => optionvalues_inverse index (v_boottype v)
  | CFG_LOADADDRESS => Some (str "0x" ++ print_x (v_loadaddress v))
  | CFG_CMNDLINE => Some (v_cmdline v)
  | CFG_KERNELMAX => Some (str "0x" ++ print_x (v_kernelmax v))
  end.

(** A run: its exit status, or an uncaught exception; and the lines printed. *)
Inductive run : Type := Exited (status : Z) (out : list (list Z)) | Raised (out : list (list Z)).

(** The loop that prints all keys, or just [print_key]. *)
Fixpoint print_loop (keys : list config_key) (print_key : option config_key) (v : values)
    (out : list (list Z)) : run :=
  match keys with
  | [] => Exited 0 out
  | KEY_VERSION :: keys' => print_loop keys' print_key v out
  | KEY index :: keys' =>
      match print_key with
      | None =>
          let label := key_name (KEY index) ++ str ":" in
          match show index v with
          | Some text => print_loop keys' print_key v (out ++ [label ++ str " " ++ text])
          | None => Raised (out ++ [label])
          end
      | Some (KEY index') =>
          if decide (index = index') then
            match show index v with
            | Some text => print_loop keys' print_key v (out ++ [text])
            | None => Raised out
            end
          else print_loop keys' print_key v out
      | Some KEY_VERSION => print_loop keys' print_key v out
      end
  end.

Definition find_key (name : list Z) : option config_key :=
  find (fun k => streq (key_name k) name) config_keys.

(** The program on a file with the given contents; [argv] is [sys.argv] after the
    program's name, the first being the file's. *)
Definition read_config_block (argv : list (list Z)) (config : list Z) : run :=
  match argv with
  | [_] | [_; _] =>
      if negb (Z.of_nat (length config) =? 0x2000) then
        Exited (-1) [str "Config block has wrong size (must be 8KB)"]
      else if negb (streq (Md5.rfc_md5 (take (0x2000 - 0x10) config)) (drop (0x2000 - 0x10) config)) then
        Exited (-1) [str "Config block is corrupt (wrong MD5)"]
      else
        let go print_key :=
          match GetValues config with
          | Some v => print_loop config_keys print_key v []
          | None => Raised []
          end in
        match argv with
        | [_; key] =>
            match find_key key with
            | None => Exited (-1) [str "Invalid config key"]
            | Some k => go (Some k)
            end
        | _ => go None
        end
  | _ => Exited (-1) [str "usage: read_config_block.py <config block> [config key]"]
  end.

(** ** The form of bb_eth_setconfig.py *)

(** The state of the entries: the combo boxes' positions and the texts. *)
Record form : Type := mkForm {
  form_flash : Z; cfg_bootsource : Z; cfg_console : Z; cfg_nic : Z; cfg_boottype : Z;
  cfg_loadaddress : list Z; cfg_cmndline : list Z; cfg_kernelmax : list Z
}.

Definition flash_sizes : list Z := [1; 4; 8].

Definition check_hex (min : Z) (txt : list Z) : bool :=
  match strip_0x txt with
  | None => false
  | Some digits =>
      if negb (hexdigits digits) then false
      else if 10 <? Z.of_nat (length txt) then false
      else negb (Z.of_nat (length txt) <? min)
  end.

Definition CheckLoadAddress (f : form) : bool := check_hex 3 (strip (cfg_loadaddress f)).

Definition endswith_0000 (txt : list Z) : bool := streq (drop (length txt - 4) txt) (str "0000").

Definition CheckKernelMax (f : form) : bool :=
  let txt := strip (cfg_kernelmax f) in check_hex 7 txt && endswith_0000 txt.

(** Whether the Write button can be used; [connected] is the status shown. *)
Definition CheckWriteButton (connected : bool) (f : form) : bool :=
  connected && CheckLoadAddress f && CheckKernelMax f.

(** What choosing a flash size puts into the kernelmax entry. *)
Definition ChangeFlashSize (f : form) : option (list Z) :=
  if form_flash f =? 0 then Some (str "0xf0000")
  else if form_flash f =? 1 then Some (str "0x100000")
  else if form_flash f =? 2 then Some (str "0x100000")
  else None.

Definition GetConfigChunk (f : form) : option Z :=
  flash ← py_index flash_sizes (form_flash f);
  Some ((flash * 0x100000 - 0x10000) / 8192 - 1).

(** [eval] of a hexadecimal literal. *)
Definition eval_hex (txt : list Z) : option Z :=
  digits ← strip_0x (strip txt);
  if hexdigits digits && negb (length digits =? 0)%nat then Some (scan_digits digits 0 0).1 else None.

(** The chunk number and the block that [Write] hands to [SendChunk]. *)
Definition Write (f : form) : option (Z * list Z) :=
  loadaddress ← eval_hex (cfg_loadaddress f);
  kernelmax ← eval_hex (cfg_kernelmax f);
  let cmndline := strip (cfg_cmndline f) in
  chunk ← GetConfig (cfg_bootsource f) (cfg_console f) (cfg_nic f) (cfg_boottype f) loadaddress cmndline
            (kernelmax / 0x10000);
  offset ← GetConfigChunk f;
  Some (offset, chunk).

End ConfigTools.
