(* ===== verification/ConfigToolsSpec.v ===== *)
(** The configuration tools agree: a block built by the host's tools and written
    where the board keeps it is accepted by biffconfig on the board and by the
    reader on the host, and both show what was entered. *)
From Stdlib Require Import ZArith Lia.
From stdpp Require Import base list numbers option strings.
From S2P Require Import Prelude BiffNor Md5 BiffConfig Python ConfigTools.

Module ConfigToolsSpec.
Import Config Python ConfigTools.

(** ** Fields of a block *)

Lemma length_md5 m : length (Md5.rfc_md5 m) = 16%nat.
Proof. reflexivity. Qed.

(** A C string in memory that ends within its field. *)
Lemma cstr_bytes g s : forall a n rest, Forall (fun c => 0 < c) s ->
  load_bytes g a (Z.of_nat n) = s ++ 0 :: rest -> cstr g a n = s.
Proof.
  induction s as [|c s IH]; intros a n rest Hs E; (destruct n as [|n]; [discriminate|]); cbn [cstr];
    unfold load_bytes in E; rewrite Nat2Z.id in E; cbn [seq map app] in E; rewrite Z.add_0_r in E;
    injection E as E0 E1; rewrite E0.
  - reflexivity.
  - inversion Hs as [|? ? Hc Hs']; subst. rewrite (proj2 (Z.eqb_neq (g a) 0)) by lia. f_equal.
    apply (IH (a + 1) n rest Hs'). rewrite <- E1. unfold load_bytes. rewrite Nat2Z.id, <- seq_shift, map_map.
    apply map_ext. intros i. f_equal. lia.
Qed.

(** ** What was entered *)

Record settings : Type := mkSettings {
  s_bootsource : Z; s_console : Z; s_nic : Z; s_boottype : Z; s_loadaddress : Z; s_cmdline : list Z;
  s_kernelmax : Z
}.

(** The values the tools know, with a command line that leaves room for its
    terminator. *)
Record known (s : settings) : Prop := {
  kn_bootsource : 0 <= s_bootsource s <= 2;
  kn_console : 0 <= s_console s <= 1;
  kn_nic : 0 <= s_nic s <= 2;
  kn_boottype : 0 <= s_boottype s <= 3;
  kn_loadaddress : 0 <= s_loadaddress s < 2 ^ 32;
  kn_cmdline : Forall (fun c => 0 < c) (s_cmdline s) /\ (length (s_cmdline s) < 1024)%nat;
  kn_kernelmax : 0 <= s_kernelmax s < 2 ^ 16
}.

(** How a setting reads. *)
Definition text (s : settings) (index : cfg_index) : list Z :=
  let choice v names := str (nth (Z.to_nat v) names EmptyString) in
  match index with
  | CFG_BOOTSOURCE => choice (s_bootsource s) ["flash"; "MMC"; "Net"]%string
  | CFG_CONSOLE => choice (s_console s) ["disabled"; "enabled"]%string
  | CFG_NIC => choice (s_nic s) ["disabled"; "enabled"; "promiscuous"]%string
  | CFG_BOOTTYPE => choice (s_boottype s) ["flatbin"; "Linux"; "Multiboot"; "Coreboot"]%string
  | CFG_LOADADDRESS => str "0x" ++ print_x (s_loadaddress s)
  | CFG_CMNDLINE => s_cmdline s
  | CFG_KERNELMAX => str "0x" ++ print_x (s_kernelmax s)
  end.

Definition get_config (s : settings) : option (list Z) :=
  GetConfig (s_bootsource s) (s_console s) (s_nic s) (s_boottype s) (s_loadaddress s) (s_cmdline s) (s_kernelmax s).

(** ** The layout *)

Definition head (s : settings) : list Z :=
  le 4 1 ++ le 1 (s_bootsource s) ++ le 1 (s_console s) ++ le 1 (s_nic s) ++ le 1 (s_boottype s) ++ le 4 (s_loadaddress s).

Definition cmd_field (s : settings) : list Z := s_cmdline s ++ repeat 0 (1024 - length (s_cmdline s)).

Definition body (s : settings) : list Z :=
  head s ++ cmd_field s ++ le 2 (s_kernelmax s) ++ repeat 0xff (0x1ff0 - 1038).

Definition block (s : settings) : list Z := body s ++ Md5.rfc_md5 (body s).

Lemma length_cmd_field s : known s -> length (cmd_field s) = 1024%nat.
Proof. intros [_ _ _ _ _ [_ Hl] _]. unfold cmd_field. rewrite length_app, repeat_length. lia. Qed.

Lemma length_head s : length (head s) = 12%nat.
Proof. reflexivity. Qed.

Lemma length_body s : known s -> length (body s) = Z.to_nat 0x1ff0.
Proof.
  intros Hk. unfold body. rewrite !length_app, length_cmd_field, length_head, repeat_length, length_le by exact Hk.
  reflexivity.
Qed.

Lemma get_config_block s : known s -> get_config s = Some (block s).
Proof.
  intros Hk. pose proof (length_cmd_field s Hk) as Hc. destruct Hk as [H1 H2 H3 H4 H5 _ H7].
  unfold get_config, GetConfig. rewrite !pack_ok by (cbn; lia). cbn [mbind option_bind].
  fold (cmd_field s). unfold pad_to at 2. fold (cmd_field s).
  assert (E : pad_to (0x2000 - 0x10) 0xff
            (((le 4 1 ++ le 1 (s_bootsource s) ++ le 1 (s_console s) ++ le 1 (s_nic s) ++ le 1 (s_boottype s) ++
               le 4 (s_loadaddress s)) ++ cmd_field s) ++ le 2 (s_kernelmax s)) = body s).
  { unfold pad_to. fold (head s). rewrite !length_app, Hc, length_head, length_le. unfold body.
    rewrite <- !app_assoc. reflexivity. }
  unfold pad_to in E at 1. unfold pad_to. fold (cmd_field s). rewrite E. reflexivity.
Qed.

Lemma length_block s : known s -> length (block s) = Z.to_nat 0x2000.
Proof. intros Hk. unfold block. rewrite length_app, length_body, length_md5 by exact Hk. reflexivity. Qed.

(** The fields of the block. *)
Lemma block_fields s : known s ->
  field_of (block s) 4 1 = [s_bootsource s] /\ field_of (block s) 5 1 = [s_console s] /\
  field_of (block s) 6 1 = [s_nic s] /\ field_of (block s) 7 1 = [s_boottype s] /\
  field_of (block s) 8 4 = le 4 (s_loadaddress s) /\ field_of (block s) 12 1024 = cmd_field s /\
  field_of (block s) 1036 2 = le 2 (s_kernelmax s) /\ field_of (block s) 0x1ff0 16 = Md5.rfc_md5 (body s).
Proof.
  intros Hk. pose proof (length_cmd_field s Hk) as Hc. pose proof (length_body s Hk) as Hb.
  destruct Hk as [H1 H2 H3 H4 _ _ _].
  assert (B : forall v, 0 <= v < 0x100 -> [v] = le 1 v) by (intros v Hv; cbn; rewrite Z.mod_small by lia; reflexivity).
  rewrite !B by lia. repeat split; try reflexivity.
  - transitivity (field_of (head s ++ cmd_field s ++
      (le 2 (s_kernelmax s) ++ repeat 0xff (0x1ff0 - 1038)) ++ Md5.rfc_md5 (body s)) 12 1024).
    { unfold block, body. rewrite <- !app_assoc. reflexivity. }
    apply field_app; auto.
  - transitivity (field_of ((head s ++ cmd_field s) ++ le 2 (s_kernelmax s) ++
      repeat 0xff (0x1ff0 - 1038) ++ Md5.rfc_md5 (body s)) 1036 2).
    { unfold block, body. rewrite <- !app_assoc. reflexivity. }
    apply field_app; [rewrite length_app, Hc, length_head|rewrite length_le]; reflexivity.
  - unfold block. rewrite <- (app_nil_r (Md5.rfc_md5 (body s))) at 1. apply field_app; [|rewrite length_md5; reflexivity].
    rewrite Hb. reflexivity.
Qed.

(** ** The board's reader *)

(** The block in memory at address 0. *)
Definition holds (g : mem) (s : settings) : Prop := load_bytes g 0 0x2000 = block s.

Lemma holds_field g s off len : holds g s -> (off + len <= Z.to_nat 0x2000)%nat ->
  load_bytes g (Z.of_nat off) (Z.of_nat len) = field_of (block s) off len.
Proof.
  intros <- Hle. change 0x2000 with (Z.of_nat (Z.to_nat 0x2000)) at 1.
  rewrite field_load by exact Hle. reflexivity.
Qed.

Lemma load1 g a v : load_bytes g a 1 = [v] -> g a = v.
Proof. change (load_bytes g a 1) with [g (a + 0)]. rewrite Z.add_0_r. congruence. Qed.

Lemma load16_bytes_le g a v : 0 <= v < 2 ^ 16 -> load_bytes g a 2 = le 2 v -> load16 g a = v.
Proof.
  intros Hv E. rewrite <- (un_le_le 2 v) by exact Hv. rewrite <- E. change (load_bytes g a 2) with [g (a + 0); g (a + 1)].
  cbn [un_le]. rewrite Z.add_0_r. unfold load16. lia.
Qed.

Lemma load32_bytes_le g a v : 0 <= v < 2 ^ 32 -> load_bytes g a 4 = le 4 v -> load32 g a = v.
Proof.
  intros Hv E. rewrite <- (un_le_le 4 v) by exact Hv. rewrite <- E.
  change (load_bytes g a 4) with [g (a + 0); g (a + 1); g (a + 2); g (a + 3)]. cbn [un_le]. rewrite Z.add_0_r.
  unfold load32, load16. replace (a + 2 + 1) with (a + 3) by lia. lia.
Qed.

Ltac choices H :=
  repeat match type of H with 0 <= ?v <= ?n =>
    let E := fresh in destruct (Z.eq_dec v n) as [E|E];
      [rewrite E; reflexivity|let H' := fresh in assert (H' : 0 <= v <= Z.pred n) by lia; cbn [Z.pred Z.add Z.pos_sub Pos.pred_double] in H'; clear H; rename H' into H] end; lia.

Lemma board_shows g s index : known s -> holds g s -> render index g = text s index.
Proof.
  intros Hk Hg. destruct (block_fields s Hk) as (F1 & F2 & F3 & F4 & F5 & F6 & F7 & _).
  pose proof (holds_field g s) as HF.
  pose proof Hk as [H1 H2 H3 H4 H5 [H6 H6'] H7].
  destruct index; cbn [render text].
  - rewrite (load1 g OFF_bootsource (s_bootsource s)) by (rewrite <- F1; apply (HF 4%nat 1%nat Hg); lia). choices H1.
  - rewrite (load1 g OFF_console (s_console s)) by (rewrite <- F2; apply (HF 5%nat 1%nat Hg); lia). choices H2.
  - rewrite (load1 g OFF_nic (s_nic s)) by (rewrite <- F3; apply (HF 6%nat 1%nat Hg); lia). choices H3.
  - rewrite (load1 g OFF_boottype (s_boottype s)) by (rewrite <- F4; apply (HF 7%nat 1%nat Hg); lia). choices H4.
  - rewrite (load32_bytes_le g OFF_loadaddress (s_loadaddress s)); [reflexivity|exact H5|].
    rewrite <- F5. apply (HF 8%nat 4%nat Hg). lia.
  - assert (E : (1024 - length (s_cmdline s) = S (1023 - length (s_cmdline s)))%nat) by lia.
    apply (cstr_bytes g (s_cmdline s) _ (Z.to_nat sizeof_cmndline) (repeat 0 (1023 - length (s_cmdline s))) H6).
    change (0 :: repeat 0 ?n) with (repeat 0 (S n)). rewrite <- E. fold (cmd_field s). rewrite <- F6.
    apply (HF 12%nat 1024%nat Hg). lia.
  - rewrite (load16_bytes_le g OFF_kernelmax (s_kernelmax s)); [reflexivity|exact H7|].
    rewrite <- F7. apply (HF 1036%nat 2%nat Hg). lia.
Qed.

Section Board.
Context (pms : Md5.md5_state) (Hpms : length (Md5.buf pms) = 64%nat).

(** biffconfig takes the block without a warning. *)
Lemma board_accepts mtd s : known s -> load_bytes mtd 0x4000 0x2000 = block s ->
  exists g, config_init pms mtd = (g, []) /\ holds g s.
Proof.
  intros Hk Hm. exists (fun i => mtd (0x4000 + i)). set (g := fun i => mtd (0x4000 + i)).
  assert (Hg : holds g s).
  { unfold holds. rewrite <- Hm. apply map_ext. intros i. reflexivity. }
  split; [|exact Hg]. destruct (block_fields s Hk) as (_ & _ & _ & _ & _ & F6 & _ & F8).
  unfold config_init. fold g.
  assert (Hd : config_get_md5 pms g = Md5.rfc_md5 (body s)).
  { rewrite digest_is_md5 by exact Hpms.
    pose proof (holds_field g s 0 (Z.to_nat 0x1ff0) Hg ltac:(lia)) as E. rewrite Z2Nat.id in E by lia.
    change (Z.of_nat 0) with 0 in E. rewrite E. unfold field_of, block.
    rewrite drop_0, <- (length_body s Hk), take_app_length. reflexivity. }
  assert (Ht : existsb (fun v => v =? 0) (load_bytes g OFF_cmndline sizeof_cmndline) = true).
  { pose proof (holds_field g s 12 1024 Hg ltac:(lia)) as E. change (load_bytes g OFF_cmndline sizeof_cmndline) with
      (load_bytes g (Z.of_nat 12) (Z.of_nat 1024)). rewrite E, F6. apply existsb_exists. exists 0. split; [|reflexivity].
    apply in_app_iff. right. destruct Hk as [_ _ _ _ _ [_ Hl] _].
    replace (1024 - length (s_cmdline s))%nat with (S (1023 - length (s_cmdline s))) by lia. left. reflexivity. }
  pose proof (holds_field g s 0x1ff0 16 Hg ltac:(lia)) as E8.
  change (load_bytes g OFF_digest 16) with (load_bytes g (Z.of_nat 0x1ff0) (Z.of_nat 16)).
  rewrite E8, F8, Hd, Ht. unfold streq. rewrite bool_decide_true by reflexivity. reflexivity.
Qed.

Lemma find_param_name p : In p g_params -> find_param (p_name p) = Some p.
Proof. intros Hp. repeat (destruct Hp as [<-|Hp]; [reflexivity|]). destruct Hp. Qed.

Lemma board_get mtd s dev prog p : known s -> load_bytes mtd 0x4000 0x2000 = block s ->
  d_open dev = true -> In p g_params ->
  main pms dev [prog; str "get"; p_name p] mtd = mkOutcome 0 [text s (p_index p)] mtd.
Proof.
  intros Hk Hm Ho Hp. destruct (board_accepts mtd s Hk Hm) as (g & E & Hg). unfold main. rewrite Ho, E.
  cbn [negb]. change (streq (str "get") (str "get")) with true. cbv iota.
  unfold config_print_one. rewrite find_param_name by exact Hp. rewrite (board_shows g s) by assumption. reflexivity.
Qed.

End Board.

(** ** The host's reader *)

Lemma strend_found l k fuel : forall j, length l = (k + 1)%nat -> last l <> Some 0 -> (j < fuel)%nat ->
  strend_loop fuel (l ++ repeat 0 j) (Z.of_nat (k + j)) = Some (Z.of_nat k).
Proof.
  intros j Hl Hz. revert j. assert (H : forall n j, (j <= n)%nat -> forall fuel, (j < fuel)%nat ->
    strend_loop fuel (l ++ repeat 0 n) (Z.of_nat (k + j)) = Some (Z.of_nat k)).
  { intros n j. induction j as [|j IH]; intros Hj [|f] Hf; try lia; cbn [strend_loop];
      unfold py_index; rewrite (proj2 (Z.ltb_ge (Z.of_nat _) 0)) by lia; rewrite (proj2 (Z.ltb_ge (Z.of_nat _) 0)) by lia;
      rewrite Nat2Z.id.
    - rewrite Nat.add_0_r, lookup_app_l by lia. rewrite last_lookup, Hl in Hz.
      replace (pred (k + 1)) with k in Hz by lia. destruct (lookup_lt_is_Some_2 l k) as [c E]; [lia|].
      rewrite E in *. cbn [mbind option_bind]. rewrite (proj2 (Z.eqb_neq c 0)) by congruence. reflexivity.
    - rewrite lookup_app_r by lia. rewrite lookup_repeat by lia. cbn [mbind option_bind Z.eqb].
      replace (Z.of_nat (k + S j) - 1) with (Z.of_nat (k + j)) by lia. apply IH; lia. }
  intros j Hf. apply H; lia.
Qed.

Definition read_back (s : settings) : values :=
  mkValues 1 (s_bootsource s) (s_console s) (s_nic s) (s_boottype s) (s_loadaddress s) (s_cmdline s) (s_kernelmax s).

Lemma GetValues_block s : known s -> s_cmdline s <> [] -> GetValues (block s) = Some (read_back s).
Proof.
  intros Hk Hne. destruct (block_fields s Hk) as (F1 & F2 & F3 & F4 & F5 & F6 & F7 & _).
  destruct Hk as [_ _ _ _ H5 [H6 Hl] H7]. unfold GetValues. rewrite F1, F2, F3, F4, F5, F6, F7.
  assert (Hp : (0 < length (s_cmdline s))%nat) by (destruct (s_cmdline s); [contradiction|cbn; lia]).
  assert (E : strend_loop 2049 (cmd_field s) 1023 = Some (Z.of_nat (length (s_cmdline s) - 1))).
  { unfold cmd_field. replace 1023 with (Z.of_nat (length (s_cmdline s) - 1 + (1024 - length (s_cmdline s)))) by lia.
    apply strend_found; [lia| |lia]. intros Hz. apply last_Some in Hz as [l' Hz].
    rewrite Hz in H6. apply Forall_app in H6 as [_ H6]. inversion H6. lia. }
  rewrite E. cbn [mbind option_bind]. rewrite !un_le_le by assumption.
  assert (U : forall v, un_le [v] = v) by (intros v; cbn [un_le]; lia). rewrite !U.
  change (s32 (un_le (field_of (block s) 0 4))) with 1. unfold cmd_field.
  replace (Z.to_nat (Z.of_nat (length (s_cmdline s) - 1) + 1)) with (length (s_cmdline s)) by lia.
  rewrite take_app_length. reflexivity.
Qed.

Lemma host_shows s index : known s -> show index (read_back s) = Some (text s index).
Proof.
  intros [H1 H2 H3 H4 _ _ _]. destruct index; cbn [show text read_back v_bootsource v_console v_nic v_boottype
    v_loadaddress v_cmdline v_kernelmax optionvalues_inverse]; try reflexivity.
  - choices H1. - choices H2. - choices H3. - choices H4.
Qed.

Lemma digest_checked s : known s ->
  streq (Md5.rfc_md5 (take (0x2000 - 0x10) (block s))) (drop (0x2000 - 0x10) (block s)) = true.
Proof.
  intros Hk. apply bool_decide_true. change (0x2000 - 0x10)%nat with (Z.to_nat 0x1ff0). rewrite <- (length_body s Hk).
  unfold block. rewrite take_app_length, drop_app_length. reflexivity.
Qed.

Lemma host_reads s argv : known s -> s_cmdline s <> [] ->
  read_config_block argv (block s) =
  match argv with
  | [_] => print_loop config_keys None (read_back s) []
  | [_; key] => match find_key key with
                | None => Exited (-1) [str "Invalid config key"]
                | Some k => print_loop config_keys (Some k) (read_back s) []
                end
  | _ => Exited (-1) [str "usage: read_config_block.py <config block> [config key]"]
  end.
Proof.
  intros Hk Hne. unfold read_config_block. rewrite GetValues_block by assumption.
  rewrite length_block by exact Hk. rewrite Z2Nat.id by lia. rewrite Z.eqb_refl. cbn [negb].
  rewrite digest_checked by exact Hk. cbn [negb]. destruct argv as [|? [|? [|? ?]]]; reflexivity.
Qed.

(** The settings, in the order they are listed. *)
Definition indices : list cfg_index :=
  [CFG_BOOTSOURCE; CFG_CONSOLE; CFG_NIC; CFG_BOOTTYPE; CFG_LOADADDRESS; CFG_CMNDLINE; CFG_KERNELMAX].

(** Keys other than the one asked for print nothing. *)
Lemma print_others index v keys : forall out, index ∉ keys ->
  print_loop (map KEY keys) (Some (KEY index)) v out = Exited 0 out.
Proof.
  induction keys as [|k keys IH]; intros out Hn; [reflexivity|]. cbn [map print_loop].
  apply not_elem_of_cons in Hn as [Hk Hn]. rewrite decide_False by congruence. apply IH. exact Hn.
Qed.

Lemma host_get s file index : known s -> s_cmdline s <> [] ->
  read_config_block [file; key_name (KEY index)] (block s) = Exited 0 [text s index].
Proof.
  intros Hk Hne. rewrite host_reads by assumption.
  assert (E : find_key (key_name (KEY index)) = Some (KEY index)) by (destruct index; reflexivity). rewrite E.
  assert (E' : forall keys out, In index keys -> NoDup keys ->
            print_loop (map KEY keys) (Some (KEY index)) (read_back s) out = Exited 0 (out ++ [text s index])).
  2: { change config_keys with (KEY_VERSION :: map KEY indices). apply (E' indices []); [destruct index; cbn; tauto|].
       apply (bool_decide_unpack _). vm_compute. exact I. }
  induction keys as [|k keys IH]; intros out Hin Hnd; [destruct Hin|]. cbn [map print_loop].
  apply NoDup_cons in Hnd as [Hk' Hnd]. destruct (decide (k = index)) as [->|Hne'].
  - rewrite host_shows by exact Hk. apply print_others. exact Hk'.
  - apply IH; [destruct Hin; [contradiction|assumption]|exact Hnd].
Qed.

Lemma host_list s file : known s -> s_cmdline s <> [] ->
  read_config_block [file] (block s) =
  Exited 0 (map (fun i => key_name (KEY i) ++ str ": " ++ text s i) indices).
Proof.
  intros Hk Hne. rewrite host_reads by assumption. change config_keys with (KEY_VERSION :: map KEY indices).
  assert (E : forall keys out, print_loop (map KEY keys) None (read_back s) out =
            Exited 0 (out ++ map (fun i => key_name (KEY i) ++ str ": " ++ text s i) keys)).
  2: exact (E indices []).
  induction keys as [|k keys IH]; intros out; cbn [map print_loop]; [rewrite app_nil_r; reflexivity|].
  rewrite host_shows, IH, <- !app_assoc by exact Hk. reflexivity.
Qed.

(** ** The form *)

Lemma scan_bound ds : forall acc n, hexdigits ds = true -> 0 <= acc ->
  0 <= (scan_digits ds acc n).1 < (acc + 1) * 16 ^ Z.of_nat (length ds).
Proof.
  induction ds as [|c ds IH]; intros acc n Hd Ha; cbn [scan_digits length fst]; [cbn; lia|].
  cbn [hexdigits forallb] in Hd. apply andb_prop in Hd as [Hc Hd]. apply bool_decide_eq_true in Hc as [d Hc].
  rewrite Hc. assert (Hr : 0 <= d < 16).
  { unfold hexval in Hc. repeat (destruct (_ && _) eqn:E in Hc; [injection Hc as <-; lia|clear E]). discriminate. }
  specialize (IH (acc * 16 + d) (S n) Hd ltac:(lia)). rewrite Nat2Z.inj_succ, Z.pow_succ_r by lia.
  assert (0 < 16 ^ Z.of_nat (length ds)) by (apply Z.pow_pos_nonneg; lia). nia.
Qed.

(** A checked entry is a 32-bit number. *)
Lemma checked_number min txt : check_hex min (strip txt) = true -> 3 <= min ->
  exists v, eval_hex txt = Some v /\ 0 <= v < 2 ^ 32.
Proof.
  intros Hc Hmin. unfold check_hex in Hc. unfold eval_hex.
  destruct (strip_0x (strip txt)) as [ds|] eqn:Es; [|discriminate]. cbn [mbind option_bind].
  destruct (hexdigits ds) eqn:Hd; cbn [negb] in Hc; [|discriminate].
  assert (Hl : length (strip txt) = (2 + length ds)%nat).
  { unfold strip_0x in Es. destruct (strip txt) as [|c [|x r]]; try discriminate.
    destruct ((c =? 48) && (x =? 120)); [injection Es as ->; reflexivity|discriminate]. }
  rewrite Hl in Hc. destruct (Z.ltb_spec 10 (Z.of_nat (2 + length ds))); [discriminate|].
  destruct (Z.ltb_spec (Z.of_nat (2 + length ds)) min); [discriminate|].
  rewrite (proj2 (Nat.eqb_neq (length ds) 0)) by lia. cbn [andb negb]. eexists. split; [reflexivity|].
  pose proof (scan_bound ds 0 0 Hd (Z.le_refl 0)) as Hb.
  assert (16 ^ Z.of_nat (length ds) <= 16 ^ 8) by (apply Z.pow_le_mono_r; lia). lia.
Qed.

(** What the form asks for. *)
Definition entered (f : form) : settings :=
  mkSettings (cfg_bootsource f) (cfg_console f) (cfg_nic f) (cfg_boottype f) (default 0 (eval_hex (cfg_loadaddress f)))
    (strip (cfg_cmndline f)) (default 0 (eval_hex (cfg_kernelmax f)) / 0x10000).

(** The combo boxes are at one of their entries; there is a command line, of
    characters, which leaves room for a terminator. *)
Record form_ok (f : form) : Prop := {
  fo_flash : 0 <= form_flash f <= 2;
  fo_bootsource : 0 <= cfg_bootsource f <= 2;
  fo_console : 0 <= cfg_console f <= 1;
  fo_nic : 0 <= cfg_nic f <= 2;
  fo_boottype : 0 <= cfg_boottype f <= 1;
  fo_cmdline : Forall (fun c => 0 < c) (strip (cfg_cmndline f)) /\ (0 < length (strip (cfg_cmndline f)) < 1024)%nat
}.

(** The chip of each flash size. *)
Definition chip (f : form) : Z :=
  if form_flash f =? 0 then FLASH_CODE_EN800 else if form_flash f =? 1 then FLASH_CODE_EN320 else FLASH_CODE_EN640.

(** The chunk is the block biffconfig works on. *)
Lemma chunk_place f : 0 <= form_flash f <= 2 ->
  exists chunk, GetConfigChunk f = Some chunk /\
    EON_ChunkToSector (snd (flashmap_init (chip f))) chunk * FLASHMAP_CHUNK_SIZE = 0x4000.
Proof.
  intros Hf. assert (form_flash f = 0 \/ form_flash f = 1 \/ form_flash f = 2) as [E|[E|E]] by lia;
    unfold GetConfigChunk, chip; rewrite E; eexists; (split; [reflexivity|vm_compute; reflexivity]).
Qed.

Lemma Write_block f : form_ok f -> CheckWriteButton true f = true ->
  known (entered f) /\ exists chunk, GetConfigChunk f = Some chunk /\ Write f = Some (chunk, block (entered f)).
Proof.
  intros [F0 F1 F2 F3 F4 [F5 F6]] Hc. unfold CheckWriteButton, CheckLoadAddress, CheckKernelMax in Hc.
  cbn [andb] in Hc. apply andb_prop in Hc as [Ha Hm]. apply andb_prop in Hm as [Hm _].
  destruct (checked_number 3 _ Ha ltac:(lia)) as (a & Ea & Hra).
  destruct (checked_number 7 _ Hm ltac:(lia)) as (k & Ek & Hrk).
  assert (Hk : known (entered f)).
  { split; cbn [entered s_bootsource s_console s_nic s_boottype s_loadaddress s_cmdline s_kernelmax];
      rewrite ?Ea, ?Ek; cbn [default from_option id]; try lia.
    - split; [exact F5|lia].
    - split; [apply Z.div_pos; lia|apply Z.div_lt_upper_bound; lia]. }
  split; [exact Hk|]. destruct (chunk_place f F0) as (chunk & Ec & _). exists chunk. split; [exact Ec|].
  unfold Write. rewrite Ea, Ek. cbn [mbind option_bind]. pose proof (get_config_block (entered f) Hk) as Eg.
  unfold get_config in Eg. cbn [entered s_bootsource s_console s_nic s_boottype s_loadaddress s_cmdline s_kernelmax] in Eg.
  rewrite Ea, Ek in Eg. cbn [default from_option id] in Eg. rewrite Eg, Ec. reflexivity.
Qed.

(** ** The tools together *)

(** C12: the configuration tools agree. The graphical tool offers to write; its
    choices are among those of its lists, and its command line, which the tool
    does not check, is not empty, has fewer than 1024 characters and no zero
    character once stripped. Then it raises no exception, and the chunk it writes,
    placed by the chunk numbering of the flash driver, is the block biffconfig
    works on: biffconfig, on a device that opens, accepts it without a warning and
    shows for every parameter what was entered; so does the host's reader, key by
    key and as a list. *)
Theorem config_tools_agree pms f dev mtd prog file :
  length (Md5.buf pms) = 64%nat -> form_ok f -> CheckWriteButton true f = true -> d_open dev = true ->
  exists chunk bs, Write f = Some (chunk, bs) /\
    let mtd' := store_bytes mtd
      (EON_ChunkToSector (snd (flashmap_init (chip f))) chunk * FLASHMAP_CHUNK_SIZE) bs in
    (forall p, In p g_params ->
       main pms dev [prog; str "get"; p_name p] mtd' = mkOutcome 0 [text (entered f) (p_index p)] mtd') /\
    (forall index, read_config_block [file; key_name (KEY index)] bs = Exited 0 [text (entered f) index]) /\
    read_config_block [file] bs =
      Exited 0 (map (fun i => key_name (KEY i) ++ str ": " ++ text (entered f) i) indices).
Proof.
  intros Hpms Hf Hc Ho. destruct (Write_block f Hf Hc) as (Hk & chunk & Ec & Ew).
  destruct (chunk_place f (fo_flash f Hf)) as (chunk' & Ec' & Hp). assert (chunk' = chunk) as -> by congruence.
  assert (Hne : s_cmdline (entered f) <> []).
  { destruct (fo_cmdline f Hf) as [_ Hl]. intros E. cbn [entered s_cmdline] in E. rewrite E in Hl. cbn in Hl. lia. }
  exists chunk, (block (entered f)). split; [exact Ew|]. rewrite Hp. cbv zeta. split; [|split].
  - intros p Hin. apply board_get; auto. pose proof (load_store_bytes mtd 0x4000 (block (entered f))) as E.
    rewrite length_block, Z2Nat.id in E by (exact Hk || lia). exact E.
  - intros index. apply host_get; assumption.
  - apply host_list; assumption.
Qed.

(** A block without a command line is valid but cannot be shown on the host.
    The scan for the end of the command line runs through the negative indices
    and raises; biffconfig shows the same block, with an empty command line. *)
Theorem empty_cmdline_unreadable pms s dev mtd prog file :
  length (Md5.buf pms) = 64%nat -> known s -> s_cmdline s = [] -> d_open dev = true ->
  exists bs, get_config s = Some bs /\ read_config_block [file] bs = Raised [] /\
    let mtd' := store_bytes mtd 0x4000 bs in
    main pms dev [prog; str "get"; str "cmndline"] mtd' = mkOutcome 0 [[]] mtd'.
Proof.
  intros Hpms Hk Hs Ho. exists (block s). split; [apply get_config_block, Hk|]. split.
  - assert (E : GetValues (block s) = None).
    { destruct (block_fields s Hk) as (_ & _ & _ & _ & _ & F6 & _). unfold GetValues. rewrite F6.
      unfold cmd_field. rewrite Hs. vm_compute. reflexivity. }
    unfold read_config_block. rewrite length_block, E, Z2Nat.id, Z.eqb_refl by (exact Hk || lia). cbn [negb].
    rewrite digest_checked by exact Hk. reflexivity.
  - rewrite <- Hs. change (s_cmdline s) with (text s CFG_CMNDLINE).
    apply (board_get pms Hpms _ s dev prog (mkParam (str "cmndline") CFG_CMNDLINE (str "<string>"))); auto; [|cbn; tauto].
    pose proof (load_store_bytes mtd 0x4000 (block s)) as E. rewrite length_block, Z2Nat.id in E by (exact Hk || lia). exact E.
Qed.

(** ** Witnesses *)

Definition some_form : form :=
  mkForm 2 0 1 1 1 (str "0x400000") (str " console=uart,io,0x3f8 root=squashfs,jffs2 ") (str "0x100000").

Definition some_pms : Md5.md5_state := Md5.mkMd5 0 0 (Md5.mkAbcd 0 0 0 0) (repeat 0 64).

Lemma some_form_ok : form_ok some_form.
Proof.
  split; try (cbn; lia). split; [apply (bool_decide_unpack _); vm_compute; exact I|vm_compute; lia].
Qed.

Definition some_settings : settings := mkSettings 2 1 0 3 0x400000 [] 0x10.

Lemma some_settings_known : known some_settings.
Proof. split; cbn; try lia. split; [constructor|lia]. Qed.

Lemma config_tools_agree_witness : exists chunk bs, Write some_form = Some (chunk, bs) /\
    let mtd' := store_bytes (fun _ => 0)
      (EON_ChunkToSector (snd (flashmap_init (chip some_form))) chunk * FLASHMAP_CHUNK_SIZE) bs in
    (forall p, In p g_params ->
       main some_pms (mkDevice true true 0) [[]; str "get"; p_name p] mtd' =
       mkOutcome 0 [text (entered some_form) (p_index p)] mtd') /\
    (forall index, read_config_block [[]; key_name (KEY index)] bs = Exited 0 [text (entered some_form) index]) /\
    read_config_block [[]] bs =
      Exited 0 (map (fun i => key_name (KEY i) ++ str ": " ++ text (entered some_form) i) indices).
Proof.
  apply (config_tools_agree some_pms some_form (mkDevice true true 0) (fun _ => 0) [] []).
  - reflexivity.
  - exact some_form_ok.
  - vm_compute. reflexivity.
  - reflexivity.
Defined.

Lemma empty_cmdline_unreadable_witness :
  exists bs, get_config some_settings = Some bs /\ read_config_block [[]] bs = Raised [] /\
    let mtd' := store_bytes (fun _ => 0) 0x4000 bs in
    main some_pms (mkDevice true true 0) [[]; str "get"; str "cmndline"] mtd' = mkOutcome 0 [[]] mtd'.
Proof.
  apply (empty_cmdline_unreadable some_pms some_settings (mkDevice true true 0) (fun _ => 0) [] []).
  - reflexivity.
  - exact some_settings_known.
  - reflexivity.
  - reflexivity.
Defined.

End ConfigToolsSpec.
