(* ===== verification/UdpUpload.v ===== *)
(** Flashing over the network (tools/bb_udp_upload.py) and the program that stands
    in for the board (tools/bb_fake_udp_server.py), connected by a network that
    may lose any datagram.

    What the network does with the n-th datagram sent is a parameter, as is the
    number of times each wait looks for an answer (the source counts down a
    floating-point number).  Exceptions are results; messages are not modelled. *)
From Stdlib Require Import ZArith Lia.
From stdpp Require Import base list numbers option strings.
From S2P Require Import Prelude Md5 Python ConfigTools.

Module UdpUpload.
Import Python ConfigTools.

Definition TYPE_ATTN : Z := 0.

Definition TYPE_RELEASE : Z := 2.

Definition TYPE_DATA_RESET : Z := 4.

Definition TYPE_DATA_ADD : Z := 6.

Definition TYPE_DATA_DIGEST : Z := 8.

Definition TYPE_DATA_WRITE : Z := 0xa.

Definition TYPE_ERASE_SECTOR : Z := 0xc.

(** ** The board's stand-in *)

(** [Crashed]: an exception ended the program. *)
Inductive status : Type := Serving | Released | Crashed.

Record server : Type := mkServer { sv_buffer : list Z; sv_file : list Z; sv_status : status }.

Definition Unpack (data : list Z) : option (Z * Z * list Z) :=
  if Z.of_nat (length data) <? 6 then None
  else Some (un_le (field_of data 0 2), un_le (field_of data 2 4), drop 6 data).

(** The answer; its fields are in range. *)
Definition Reply (cmd arg : Z) (buf : list Z) : list Z := le 2 cmd ++ le 4 arg ++ buf.

(** One round of [Serve]: the server and its answer. *)
Definition serve (pkt : list Z) (s : server) : server * option (list Z) :=
  match sv_status s with
  | Serving =>
      match Unpack (take 1000 pkt) with
      | None => (mkServer (sv_buffer s) (sv_file s) Crashed, None)
      | Some (cmd, arg, data) =>
          let rcmd := cmd + 1 in
          if cmd =? TYPE_ATTN then (s, Some (Reply rcmd arg []))
          else if cmd =? TYPE_RELEASE then
            (mkServer (sv_buffer s) (sv_file s) Released, Some (Reply rcmd arg []))
          else if cmd =? TYPE_DATA_RESET then (mkServer [] (sv_file s) Serving, None)
          else if cmd =? TYPE_DATA_ADD then (mkServer (sv_buffer s ++ data) (sv_file s) Serving, None)
          else if cmd =? TYPE_DATA_DIGEST then
            let digest := Md5.rfc_md5 (sv_buffer s) in
            (s, Some (Reply rcmd (Z.of_nat (length digest)) digest))
          else if cmd =? TYPE_DATA_WRITE then
            (mkServer (sv_buffer s) (sv_file s ++ sv_buffer s) Serving, Some (Reply rcmd 1 [0]))
          else if cmd =? TYPE_ERASE_SECTOR then (s, Some (Reply rcmd 0 []))
          else (s, None)
      end
  | _ => (s, None)
  end.

(** ** The network *)

Inductive fate : Type := Delivered | RequestLost | ReplyLost.

(** The server, the datagrams that wait for the client with their senders, and
    how many datagrams the client has sent. *)
Record net : Type := mkNet { n_server : server; n_inbox : list (list Z * list Z); n_count : nat }.

Definition broadcast : list Z := str "255.255.255.255".

(** ** The client's effects *)

Inductive exn : Type :=
  | StructError | DigestError (offset : Z) | NoResponse (offset : Z) | WriteError (err offset : Z).

Inductive res (A : Type) : Type := Ret (a : A) | Exn (e : exn).
Arguments Ret {A} a.
Arguments Exn {A} e.

(** [self.dest] and what the socket is connected to. *)
Record client : Type := mkClient { dest : list Z; network : net }.

Definition py (A : Type) : Type := client -> res A * client.

#[export] Instance py_ret : MRet py := fun A a c => (Ret a, c).

#[export] Instance py_bind : MBind py := fun A B k m c =>
  match m c with
  | (Ret a, c) => k a c
  | (Exn e, c) => (Exn e, c)
  end.

Definition raise {A : Type} (e : exn) : py A := fun c => (Exn e, c).

Definition of_option {A : Type} (o : option A) : py A :=
  match o with Some a => mret a | None => raise StructError end.

Section Link.
Context (board : list Z) (oracle : nat -> list Z -> fate) (rounds : Z -> nat).

Definition sendto (pkt dest : list Z) (n : net) : net :=
  let sent := mkNet (n_server n) (n_inbox n) (S (n_count n)) in
  if bool_decide (dest = board) || bool_decide (dest = broadcast) then
    match oracle (n_count n) pkt with
    | RequestLost => sent
    | ReplyLost => mkNet (serve pkt (n_server n)).1 (n_inbox n) (S (n_count n))
    | Delivered =>
        let '(s, reply) := serve pkt (n_server n) in
        mkNet s (n_inbox n ++ match reply with Some r => [(r, board)] | None => [] end) (S (n_count n))
    end
  else sent.

(** ** The client *)

(** The loop of [Receive] over the datagrams there are; then the socket times
    out.  The answer, the datagrams left and the destination. *)
Fixpoint receive_loop (cmd : Z) (inbox : list (list Z * list Z)) (dest : list Z)
  : option (Z * list Z) * list (list Z * list Z) * list Z :=
  match inbox with
  | [] => (None, [], dest)
  | (data, addr) :: inbox' =>
      let data := take 1000 data in
      if (length data =? 0)%nat then (None, inbox', dest)
      else if (length data <? 6)%nat then receive_loop cmd inbox' dest
      else
        let val := un_le (field_of data 0 2) in
        let arg := un_le (field_of data 2 4) in
        let buffer := drop 6 data in
        if negb (val =? Z.lor cmd 1) then receive_loop cmd inbox' dest
        else (Some (arg, buffer), inbox', if bool_decide (dest = broadcast) then addr else dest)
  end.

Definition Receive (cmd : Z) : py (option (Z * list Z)) := fun c =>
  let n := network c in
  let '(r, inbox, dest) := receive_loop cmd (n_inbox n) (dest c) in
  (Ret r, mkClient dest (mkNet (n_server n) inbox (n_count n))).

(** [cmd in g_timeout.keys()]. *)
Definition g_timeout (cmd : Z) : bool :=
  (cmd =? TYPE_ATTN) || (cmd =? TYPE_RELEASE) || (cmd =? TYPE_DATA_WRITE) || (cmd =? TYPE_DATA_DIGEST) ||
  (cmd =? TYPE_ERASE_SECTOR).

Fixpoint wait_loop (n : nat) (cmd : Z) : py (bool * list Z) :=
  match n with
  | O => mret (false, [])
  | S n' =>
      r ← Receive cmd;
      match r with
      | Some (arg, buffer) => mret (true, take (Z.to_nat arg) buffer)
      | None => wait_loop n' cmd
      end
  end.

Definition Send (cmd arg : Z) (data : list Z) : py (bool * list Z) :=
  cmd_p ← of_option (pack 2 cmd);
  arg_p ← of_option (pack 4 arg);
  _ ← (fun c => (Ret tt, mkClient (dest c) (sendto (cmd_p ++ arg_p ++ data) (dest c) (network c))));
  if g_timeout cmd then wait_loop (rounds cmd) cmd else mret (false, []).

(** [while 1: data = fp.read(512) ...] over what is left of the chunk. *)
Fixpoint add_loop (fuel : nat) (fp : list Z) : py unit :=
  match fuel with
  | O => mret tt
  | S fuel' =>
      let data := take 512 fp in
      match data with
      | [] => mret tt
      | _ => _ ← Send TYPE_DATA_ADD 512 data; add_loop fuel' (drop 512 fp)
      end
  end.

Definition Transfer (chunk : list Z) : py bool :=
  _ ← Send TYPE_DATA_RESET 0 [];
  _ ← add_loop (S (length chunk)) chunk;
  '(_, digest) ← Send TYPE_DATA_DIGEST 0 [];
  mret (bool_decide (digest = Md5.rfc_md5 chunk)).

(** [for i in xrange(0, 5)]. *)
Fixpoint try_loop (n : nat) (chunk : list Z) : py bool :=
  match n with
  | O => mret false
  | S n' => txed ← Transfer chunk; if (txed : bool) then mret true else try_loop n' chunk
  end.

(** [struct.unpack("b", err)[0]]. *)
Definition unpack_b (err : list Z) : option Z :=
  match err with
  | [b] => Some (if b <? 0x80 then b else b - 0x100)
  | _ => None
  end.

Definition write_chunk (chunk : list Z) (offset : Z) : py unit :=
  txed ← try_loop 5 chunk;
  if negb txed then raise (DigestError offset)
  else
    '(ok, err) ← Send TYPE_DATA_WRITE offset [];
    if negb (ok : bool) then raise (NoResponse offset)
    else
      err ← of_option (unpack_b err);
      if negb (err =? 0) then raise (WriteError err offset) else mret tt.

(** The loop over the file: every round takes at least one byte of it. *)
Fixpoint upload_loop (fuel : nat) (fp : list Z) (offset : Z) : py unit :=
  match fuel with
  | O => mret tt
  | S fuel' =>
      let chunk := take (Z.to_nat 8192) fp in
      if (length chunk =? 0)%nat then mret tt
      else
        _ ← write_chunk (pad_to (Z.to_nat 8192) 0xff chunk) offset;
        upload_loop fuel' (drop (Z.to_nat 8192) fp) (offset + 1)
  end.

Definition UploadBinary (image : list Z) : py unit := upload_loop (S (length image)) image 0.

(** What [Run] says at the end. *)
Inductive ending : Type := ReleasedOK | ErrorReleasing | NoBoard.

Definition Run (image : list Z) : py ending :=
  '(ok, _) ← Send TYPE_ATTN 0 [];
  if (ok : bool) then
    _ ← UploadBinary image;
    '(ok, _) ← Send TYPE_RELEASE 0 [];
    mret (if (ok : bool) then ReleasedOK else ErrorReleasing)
  else mret NoBoard.

End Link.

End UdpUpload.
