(* ===== verification/UdpUploadSpec.v ===== *)
(** Flashing over a network that loses datagrams: only verified chunks are ever
    written, in order, and the upload succeeds when one of five attempts gets
    through. *)
From Stdlib Require Import ZArith Lia.
From stdpp Require Import base list numbers option strings.
From S2P Require Import Prelude Md5 Python ConfigTools ConfigToolsSpec UdpUpload.

Module UdpSpec.
Import Python ConfigTools ConfigToolsSpec UdpUpload.

(** ** Datagrams *)

Definition packet (cmd arg : Z) (data : list Z) : list Z := le 2 cmd ++ le 4 arg ++ data.

Lemma packet_fields cmd arg data : 0 <= cmd < 2 ^ 16 -> 0 <= arg < 2 ^ 32 -> (length data <= 994)%nat ->
  let p := take 1000 (packet cmd arg data) in
  un_le (field_of p 0 2) = cmd /\ un_le (field_of p 2 4) = arg /\ drop 6 p = data /\ (6 <= length p)%nat.
Proof.
  intros Hc Ha Hd. cbv zeta.
  assert (E : take 1000 (packet cmd arg data) = packet cmd arg data).
  { apply take_ge. unfold packet. rewrite !length_app, !length_le. lia. }
  rewrite E. unfold packet. split; [|split; [|split]].
  - change (field_of (le 2 cmd ++ le 4 arg ++ data) 0 2) with (le 2 cmd). apply un_le_le. exact Hc.
  - rewrite (field_app (le 2 cmd) (le 4 arg) data 2 4) by reflexivity. apply un_le_le. exact Ha.
  - reflexivity.
  - rewrite !length_app, !length_le. lia.
Qed.

Lemma Unpack_packet cmd arg data : 0 <= cmd < 2 ^ 16 -> 0 <= arg < 2 ^ 32 -> (length data <= 994)%nat ->
  Unpack (take 1000 (packet cmd arg data)) = Some (cmd, arg, data).
Proof.
  intros Hc Ha Hd. destruct (packet_fields cmd arg data Hc Ha Hd) as (E1 & E2 & E3 & Hl).
  unfold Unpack. rewrite (proj2 (Z.ltb_ge _ 6)) by lia. rewrite E1, E2, E3. reflexivity.
Qed.

Section Link.
Context (board : list Z) (oracle : nat -> list Z -> fate) (rounds : Z -> nat).
Context (Hrounds : forall cmd, g_timeout cmd = true -> (0 < rounds cmd)%nat).

(** The client with no answer waiting. *)
Definition st (d : list Z) (s : server) (k : nat) : client := mkClient d (mkNet s [] k).

Definition reaches (d : list Z) : Prop := d = board \/ d = broadcast.

(** The server after the [k]-th datagram. *)
Definition served (k : nat) (pkt : list Z) (s : server) : server :=
  match oracle k pkt with RequestLost => s | _ => (serve pkt s).1 end.

Lemma sendto_st pkt d s k : reaches d ->
  sendto board oracle pkt d (mkNet s [] k) =
  mkNet (served k pkt s)
    match oracle k pkt, (serve pkt s).2 with Delivered, Some r => [(r, board)] | _, _ => [] end (S k).
Proof.
  intros Hd. unfold sendto, served.
  assert (E : bool_decide (d = board) || bool_decide (d = broadcast) = true).
  { destruct Hd; [rewrite bool_decide_true|rewrite (bool_decide_true (d = broadcast)), orb_true_r]; auto. }
  cbn [n_server n_inbox n_count]. rewrite E.
  destruct (oracle k pkt); [destruct (serve pkt s) as [s' [r|]]; reflexivity|reflexivity|].
  destruct (serve pkt s) as [s' [r|]]; reflexivity.
Qed.

(** A command without an answer. *)
Lemma Send_quiet cmd arg data d s k : reaches d -> 0 <= cmd < 2 ^ 16 -> 0 <= arg < 2 ^ 32 -> g_timeout cmd = false ->
  (serve (packet cmd arg data) s).2 = None ->
  Send board oracle rounds cmd arg data (st d s k) = (Ret (false, []), st d (served k (packet cmd arg data) s) (S k)).
Proof.
  intros Hd Hc Ha Hg Hs. unfold Send. rewrite !pack_ok by assumption. cbn [of_option]. unfold mbind, py_bind, mret, py_ret.
  cbn [dest network st]. fold (packet cmd arg data). rewrite sendto_st, Hg, Hs by exact Hd.
  destruct (oracle k _); reflexivity.
Qed.

Lemma wait_nothing n cmd d s k : wait_loop n cmd (st d s k) = (Ret (false, []), st d s k).
Proof. induction n as [|n IH]; [reflexivity|]. cbn [wait_loop]. exact IH. Qed.

(** A command with an answer. *)
Lemma Send_asked cmd arg data a buf d s k : reaches d -> 0 <= cmd < 2 ^ 16 - 1 -> 0 <= arg < 2 ^ 32 ->
  g_timeout cmd = true -> Z.lor cmd 1 = cmd + 1 ->
  (serve (packet cmd arg data) s).2 = Some (Reply (cmd + 1) a buf) -> 0 <= a < 2 ^ 32 -> (length buf <= 994)%nat ->
  let s' := served k (packet cmd arg data) s in
  Send board oracle rounds cmd arg data (st d s k) =
  match oracle k (packet cmd arg data) with
  | Delivered => (Ret (true, take (Z.to_nat a) buf), st board s' (S k))
  | _ => (Ret (false, []), st d s' (S k))
  end.
Proof.
  intros Hd Hc Ha Hg Hor Hs Hra Hl. cbv zeta. unfold Send. rewrite !pack_ok by (cbn in *; lia). cbn [of_option].
  unfold mbind, py_bind, mret, py_ret. cbn [dest network st]. fold (packet cmd arg data).
  rewrite sendto_st, Hg, Hs by exact Hd. specialize (Hrounds cmd Hg).
  destruct (oracle k (packet cmd arg data)) eqn:Eo; try apply wait_nothing.
  destruct (rounds cmd) as [|n]; [lia|]. cbn [wait_loop]. unfold mbind, py_bind, mret, py_ret, Receive.
  cbn [network n_inbox dest receive_loop]. change (Reply (cmd + 1) a buf) with (packet (cmd + 1) a buf).
  destruct (packet_fields (cmd + 1) a buf ltac:(lia) Hra Hl) as (E1 & E2 & E3 & E4).
  rewrite (proj2 (Nat.eqb_neq _ 0)), (proj2 (Nat.ltb_ge _ 6)) by lia. rewrite E1, E2, E3, Hor, Z.eqb_refl. cbn [negb].
  unfold st. do 2 f_equal. destruct (bool_decide (d = broadcast)) eqn:Eb; [reflexivity|].
  apply bool_decide_eq_false in Eb. destruct Hd; [assumption|contradiction].
Qed.

(** ** The server *)

Definition serving (f : list Z) (s : server) : Prop := sv_status s = Serving /\ sv_file s = f.

Lemma serve_packet cmd arg data s : sv_status s = Serving -> 0 <= cmd < 2 ^ 16 -> 0 <= arg < 2 ^ 32 ->
  (length data <= 994)%nat ->
  serve (packet cmd arg data) s =
    if cmd =? TYPE_ATTN then (s, Some (Reply (cmd + 1) arg []))
    else if cmd =? TYPE_RELEASE then
      (mkServer (sv_buffer s) (sv_file s) Released, Some (Reply (cmd + 1) arg []))
    else if cmd =? TYPE_DATA_RESET then (mkServer [] (sv_file s) Serving, None)
    else if cmd =? TYPE_DATA_ADD then (mkServer (sv_buffer s ++ data) (sv_file s) Serving, None)
    else if cmd =? TYPE_DATA_DIGEST then
      (s, Some (Reply (cmd + 1) (Z.of_nat (length (Md5.rfc_md5 (sv_buffer s)))) (Md5.rfc_md5 (sv_buffer s))))
    else if cmd =? TYPE_DATA_WRITE then
      (mkServer (sv_buffer s) (sv_file s ++ sv_buffer s) Serving, Some (Reply (cmd + 1) 1 [0]))
    else if cmd =? TYPE_ERASE_SECTOR then (s, Some (Reply (cmd + 1) 0 []))
    else (s, None).
Proof. intros Hs Hc Ha Hd. unfold serve. rewrite Hs, Unpack_packet by assumption. reflexivity. Qed.

(** ** One attempt *)

(** What a board's buffer may hold: nothing, and more pieces after what it may
    hold already. *)
Context (P piece : list Z -> Prop) (P_empty : P []) (P_add : forall b p, P b -> piece p -> P (b ++ p)).

Definition holding (f : list Z) (s : server) : Prop := serving f s /\ P (sv_buffer s).

(** No datagram that changes the buffer is lost on its way to the board. *)
Definition keeps_data : Prop :=
  forall k cmd arg data, cmd = TYPE_DATA_RESET \/ cmd = TYPE_DATA_ADD -> oracle k (packet cmd arg data) <> RequestLost.

(** From the [k]-th on, [n] datagrams get through and are answered. *)
Definition clear_window (k n : nat) : Prop := forall i pkt, (i < n)%nat -> oracle (k + i)%nat pkt = Delivered.

Lemma clear_one k pkt : clear_window k 1 -> oracle k pkt = Delivered.
Proof. intros Hw. rewrite <- (Nat.add_0_r k). apply Hw. lia. Qed.

Lemma clear_split k a b : clear_window k (a + b) -> clear_window k a /\ clear_window (k + a) b.
Proof.
  intros Hw. split; intros i pkt Hi; [apply Hw; lia|]. rewrite <- Nat.add_assoc. apply Hw. lia.
Qed.

Lemma clear_kept k pkt : clear_window k 1 -> oracle k pkt <> RequestLost.
Proof. intros Hw. rewrite (clear_one _ _ Hw). discriminate. Qed.

Lemma add_ok data f d s k : reaches d -> holding f s -> (length data <= 994)%nat -> piece data ->
  exists s', Send board oracle rounds TYPE_DATA_ADD 512 data (st d s k) = (Ret (false, []), st d s' (S k)) /\
    holding f s' /\ (clear_window k 1 \/ keeps_data -> sv_buffer s' = sv_buffer s ++ data).
Proof.
  intros Hd [[Hs Hf] Hp] Hl Hd'. pose proof (serve_packet TYPE_DATA_ADD 512 data s Hs ltac:(done) ltac:(done) Hl) as E.
  cbn [Z.eqb Pos.eqb TYPE_DATA_ADD TYPE_ATTN TYPE_RELEASE TYPE_DATA_RESET] in E.
  eexists. split; [apply Send_quiet; [exact Hd|done|done|reflexivity|rewrite E; reflexivity]|].
  unfold served. rewrite E. cbn [fst].
  assert (Hk : clear_window k 1 \/ keeps_data -> oracle k (packet TYPE_DATA_ADD 512 data) <> RequestLost)
    by (intros [Hw|Hk]; [apply clear_kept, Hw|auto]).
  destruct (oracle k _); (split; [repeat split; cbn; auto|]); try reflexivity. intros W. now destruct (Hk W).
Qed.

Lemma reset_ok f d s k : reaches d -> holding f s ->
  exists s', Send board oracle rounds TYPE_DATA_RESET 0 [] (st d s k) = (Ret (false, []), st d s' (S k)) /\
    holding f s' /\ (clear_window k 1 \/ keeps_data -> sv_buffer s' = []).
Proof.
  intros Hd [[Hs Hf] Hp]. pose proof (serve_packet TYPE_DATA_RESET 0 [] s Hs ltac:(done) ltac:(done) ltac:(cbn; lia)) as E.
  cbn [Z.eqb Pos.eqb TYPE_ATTN TYPE_RELEASE TYPE_DATA_RESET] in E.
  eexists. split; [apply Send_quiet; [exact Hd|done|done|reflexivity|rewrite E; reflexivity]|].
  unfold served. rewrite E. cbn [fst].
  assert (Hk : clear_window k 1 \/ keeps_data -> oracle k (packet TYPE_DATA_RESET 0 []) <> RequestLost)
    by (intros [Hw|Hk]; [apply clear_kept, Hw|auto]).
  destruct (oracle k _); (split; [repeat split; cbn; auto|]); try reflexivity. intros W. now destruct (Hk W).
Qed.

(** The digest that comes back is that of the buffer, which is not touched. *)
Lemma digest_ok f d s k : reaches d -> serving f s ->
  exists digest d', Send board oracle rounds TYPE_DATA_DIGEST 0 [] (st d s k) = (Ret digest, st d' s (S k)) /\
    reaches d' /\ (digest = (true, Md5.rfc_md5 (sv_buffer s)) \/ digest = (false, [])) /\
    (clear_window k 1 -> digest = (true, Md5.rfc_md5 (sv_buffer s))).
Proof.
  intros Hd [Hs Hf]. pose proof (serve_packet TYPE_DATA_DIGEST 0 [] s Hs ltac:(done) ltac:(done) ltac:(cbn; lia)) as E.
  cbn [Z.eqb Pos.eqb TYPE_DATA_ADD TYPE_ATTN TYPE_RELEASE TYPE_DATA_RESET TYPE_DATA_DIGEST] in E.
  rewrite (length_md5 (sv_buffer s)) in E.
  pose proof (Send_asked TYPE_DATA_DIGEST 0 [] 16 (Md5.rfc_md5 (sv_buffer s)) d s k Hd ltac:(done) ltac:(done)
    eq_refl eq_refl ltac:(rewrite E; reflexivity) ltac:(lia) ltac:(rewrite length_md5; lia)) as ES.
  cbv zeta in ES. rewrite ES. clear ES. set (pkt := packet TYPE_DATA_DIGEST 0 []) in *. unfold served. rewrite E. cbn [fst].
  assert (Et : take (Z.to_nat 16) (Md5.rfc_md5 (sv_buffer s)) = Md5.rfc_md5 (sv_buffer s)) by reflexivity. rewrite Et.
  assert (Hw : clear_window k 1 -> oracle k pkt = Delivered)
    by (intros Hw; exact (clear_one _ _ Hw)).
  destruct (oracle k pkt); do 2 eexists; (split; [reflexivity|]); (split; [first [left; reflexivity|exact Hd]|]);
    (split; [auto|]); auto; intros H; discriminate (Hw H).
Qed.

(** The pieces a chunk is sent in. *)
Definition pieced (m : nat) (fp : list Z) : Prop := forall i, (i < m)%nat -> piece (take 512 (drop (512 * i) fp)).

Lemma add_loop_ok f d m : forall fuel fp s k, reaches d -> holding f s -> length fp = (512 * m)%nat -> (m < fuel)%nat ->
  pieced m fp ->
  exists s', add_loop board oracle rounds fuel fp (st d s k) = (Ret tt, st d s' (k + m)) /\
    holding f s' /\ (clear_window k m \/ keeps_data -> sv_buffer s' = sv_buffer s ++ fp).
Proof.
  induction m as [|m IH]; intros [|fuel] fp s k Hd Hs Hl Hf Hp; try lia; cbn [add_loop].
  - destruct fp; [|cbn in Hl; lia]. exists s. rewrite Nat.add_0_r, app_nil_r. auto.
  - destruct (take 512 fp) as [|b bs] eqn:Et; [apply (f_equal length) in Et; rewrite length_take in Et; cbn [length] in Et; lia|].
    rewrite <- Et. destruct (add_ok (take 512 fp) f d s k Hd Hs) as (s1 & E1 & S1 & C1);
      [rewrite length_take; lia|exact (Hp 0%nat ltac:(lia))|].
    unfold mbind, py_bind. rewrite E1. destruct (IH fuel (drop 512 fp) s1 (S k) Hd S1) as (s2 & E2 & S2 & C2);
      [rewrite length_drop; lia|lia| |].
    { intros i Hi. rewrite drop_drop. replace (512 + 512 * i)%nat with (512 * S i)%nat by lia. apply Hp. lia. }
    exists s2. rewrite E2, Nat.add_succ_comm. split; [reflexivity|]. split; [exact S2|]. intros Hw.
    assert (Hw2 : (clear_window k 1 \/ keeps_data) /\ (clear_window (S k) m \/ keeps_data)).
    { destruct Hw as [Hw|Hw]; [|auto]. destruct (clear_split k 1 m Hw) as [W1 W2]. rewrite Nat.add_1_r in W2. auto. }
    rewrite C2, C1, <- app_assoc, take_drop by apply Hw2. reflexivity.
Qed.

(** A chunk's attempt takes 18 datagrams. *)
Definition whole (chunk : list Z) : Prop := length chunk = (512 * 16)%nat.

Definition same_md5 (a b : list Z) : Prop := Md5.rfc_md5 a = Md5.rfc_md5 b.

(** What the board may have in its buffer when it has shown the chunk's MD5. *)
Definition verified (chunk b : list Z) : Prop := same_md5 b chunk /\ P b /\ (keeps_data -> b = chunk).

Lemma Transfer_ok chunk f d s k : whole chunk -> pieced 16 chunk -> reaches d -> holding f s ->
  exists r d' s', Transfer board oracle rounds chunk (st d s k) = (Ret r, st d' s' (k + 18)) /\
    reaches d' /\ holding f s' /\ (r = true -> verified chunk (sv_buffer s')) /\ (clear_window k 18 -> r = true).
Proof.
  intros Hw Hp Hd Hs. unfold Transfer. destruct (reset_ok f d s k Hd Hs) as (s1 & E1 & S1 & C1).
  unfold mbind, py_bind. rewrite E1.
  destruct (add_loop_ok f d 16 (S (length chunk)) chunk s1 (S k) Hd S1 Hw) as (s2 & E2 & S2 & C2); [unfold whole in Hw; lia|exact Hp|].
  rewrite E2. destruct (digest_ok f d s2 (S k + 16) Hd (proj1 S2)) as (digest & d' & E3 & D3 & V3 & C3). rewrite E3.
  replace (S (S k + 16)) with (k + 18)%nat by lia. destruct digest as [ok v]. exists (bool_decide (v = Md5.rfc_md5 chunk)), d', s2.
  split; [reflexivity|]. split; [exact D3|]. split; [exact S2|]. split.
  - intros Hb. apply bool_decide_eq_true in Hb. destruct V3 as [[= -> ->]|[= -> ->]].
    + split; [exact Hb|]. split; [apply S2|]. intros K. rewrite C2, C1 by auto. reflexivity.
    + apply (f_equal length) in Hb. rewrite length_md5 in Hb. discriminate.
  - intros W. destruct (clear_split k 1 17 W) as [W1 W']. destruct (clear_split (k + 1) 16 1 W') as [W2 W3].
    rewrite Nat.add_1_r in W2, W3. specialize (C3 W3). injection C3 as -> ->. apply bool_decide_true.
    rewrite C2, C1 by auto. reflexivity.
Qed.

(** ** Five attempts *)

Lemma try_ok chunk f n : forall d s k, whole chunk -> pieced 16 chunk -> reaches d -> holding f s ->
  exists r d' s' k', try_loop board oracle rounds n chunk (st d s k) = (Ret r, st d' s' k') /\
    reaches d' /\ holding f s' /\ (r = true -> verified chunk (sv_buffer s')) /\
    ((exists a, (a < n)%nat /\ clear_window (k + 18 * a) 18) -> r = true).
Proof.
  induction n as [|n IH]; intros d s k Hw Hp Hd Hs; cbn [try_loop].
  - exists false, d, s, k. split; [reflexivity|]. split; [exact Hd|]. split; [exact Hs|]. split; [discriminate|].
    intros (a & Ha & _). lia.
  - destruct (Transfer_ok chunk f d s k Hw Hp Hd Hs) as (r & d1 & s1 & E1 & D1 & S1 & V1 & C1).
    unfold mbind, py_bind. rewrite E1. destruct r.
    + exists true, d1, s1, (k + 18)%nat. auto.
    + destruct (IH d1 s1 (k + 18)%nat Hw Hp D1 S1) as (r & d2 & s2 & k2 & E2 & D2 & S2 & V2 & C2).
      exists r, d2, s2, k2. split; [exact E2|]. repeat (split; [assumption|]). intros ([|a] & Ha & W).
      * rewrite Nat.mul_0_r, Nat.add_0_r in W. discriminate (C1 W).
      * apply C2. exists a. split; [lia|]. replace (k + 18 + 18 * a)%nat with (k + 18 * S a)%nat by lia. exact W.
Qed.

(** The network is good enough: of any five attempts in a row one meets no loss,
    and the other commands are answered. *)
Record good_enough : Prop := {
  one_in_five : forall k, exists a, (a < 5)%nat /\ clear_window (k + 18 * a) 18;
  answered : forall k cmd arg, cmd = TYPE_ATTN \/ cmd = TYPE_RELEASE \/ cmd = TYPE_DATA_WRITE ->
    oracle k (packet cmd arg []) = Delivered
}.

(** ** Writing a chunk *)

Lemma write_ok chunk off f d s k : whole chunk -> pieced 16 chunk -> 0 <= off < 2 ^ 32 -> reaches d -> holding f s ->
  exists r d' s' k' bs, write_chunk board oracle rounds chunk off (st d s k) = (r, st d' s' k') /\
    reaches d' /\ holding (f ++ concat bs) s' /\ (bs = [] \/ exists b, bs = [b] /\ verified chunk b) /\
    (r = Ret tt -> bs <> []) /\ (good_enough -> r = Ret tt).
Proof.
  intros Hw Hp Ho Hd Hs. unfold write_chunk.
  destruct (try_ok chunk f 5 d s k Hw Hp Hd Hs) as (txed & d1 & s1 & k1 & E1 & D1 & S1 & V1 & C1).
  unfold mbind, py_bind. rewrite E1. destruct txed; cbn [negb].
  2: { exists (Exn (DigestError off)), d1, s1, k1, []. cbn [concat]. rewrite app_nil_r. split; [reflexivity|].
       split; [exact D1|]. split; [exact S1|]. split; [auto|]. split; [discriminate|].
       intros G. discriminate (C1 (one_in_five G k)). }
  specialize (V1 eq_refl). destruct S1 as [[Hst Hf1] Hp1].
  pose proof (serve_packet TYPE_DATA_WRITE off [] s1 Hst ltac:(done) Ho ltac:(cbn; lia)) as E.
  cbn [Z.eqb Pos.eqb TYPE_DATA_ADD TYPE_ATTN TYPE_RELEASE TYPE_DATA_RESET TYPE_DATA_DIGEST TYPE_DATA_WRITE] in E.
  pose proof (Send_asked TYPE_DATA_WRITE off [] 1 [0] d1 s1 k1 D1 ltac:(done) Ho eq_refl eq_refl
    ltac:(rewrite E; reflexivity) ltac:(lia) ltac:(cbn; lia)) as ES. cbv zeta in ES. rewrite ES. clear ES.
  pose proof (fun G => answered G k1 TYPE_DATA_WRITE off ltac:(auto)) as Ha. unfold served. rewrite E. cbn [fst].
  assert (Hconcat : f ++ concat [sv_buffer s1] = sv_file s1 ++ sv_buffer s1) by (cbn [concat]; rewrite app_nil_r; congruence).
  assert (Hgrown : holding (f ++ concat [sv_buffer s1]) (mkServer (sv_buffer s1) (sv_file s1 ++ sv_buffer s1) Serving))
    by (split; [split|]; auto).
  destruct (oracle k1 (packet TYPE_DATA_WRITE off [])).
  - exists (Ret tt), board, (mkServer (sv_buffer s1) (sv_file s1 ++ sv_buffer s1) Serving), (S k1), [sv_buffer s1].
    split; [reflexivity|]. split; [left; reflexivity|]. split; [exact Hgrown|]. split; [right; eauto|].
    split; [discriminate|auto].
  - exists (Exn (NoResponse off)), d1, s1, (S k1), []. cbn [concat]. rewrite app_nil_r.
    split; [reflexivity|]. split; [exact D1|]. split; [repeat split; auto|]. split; [auto|].
    split; [discriminate|]. intros G. discriminate (Ha G).
  - exists (Exn (NoResponse off)), d1, (mkServer (sv_buffer s1) (sv_file s1 ++ sv_buffer s1) Serving), (S k1), [sv_buffer s1].
    split; [reflexivity|]. split; [exact D1|]. split; [exact Hgrown|]. split; [right; eauto|].
    split; [discriminate|]. intros G. discriminate (Ha G).
Qed.

(** ** The whole image *)

(** The image in chunks of 8 KiB, the last filled up. *)
Fixpoint chunks_of (fuel : nat) (fp : list Z) : list (list Z) :=
  match fuel with
  | O => []
  | S fuel' =>
      match fp with
      | [] => []
      | _ => pad_to (Z.to_nat 8192) 0xff (take (Z.to_nat 8192) fp) :: chunks_of fuel' (drop (Z.to_nat 8192) fp)
      end
  end.

Definition chunks (image : list Z) : list (list Z) := chunks_of (S (length image)) image.

Lemma pad_whole fp : whole (pad_to (Z.to_nat 8192) 0xff (take (Z.to_nat 8192) fp)).
Proof. unfold whole, pad_to. rewrite length_app, repeat_length, length_take. lia. Qed.

Lemma upload_ok fuel : forall fp off f d s k, 0 <= off -> off + Z.of_nat (length (chunks_of fuel fp)) <= 2 ^ 32 ->
  Forall (pieced 16) (chunks_of fuel fp) -> reaches d -> holding f s ->
  exists r d' s' k' bs n, upload_loop board oracle rounds fuel fp off (st d s k) = (r, st d' s' k') /\
    reaches d' /\ holding (f ++ concat bs) s' /\ Forall2 (flip verified) bs (take n (chunks_of fuel fp)) /\
    (r = Ret tt -> n = length (chunks_of fuel fp)) /\ (good_enough -> r = Ret tt).
Proof.
  induction fuel as [|fuel IH]; intros fp off f d s k H0 Hoff Hp Hd Hs; cbn [upload_loop].
  { exists (Ret tt), d, s, k, [], 0%nat. cbn [concat]. rewrite app_nil_r. do 3 (split; [auto|]). split; [constructor|auto]. }
  destruct fp as [|b fp'].
  { exists (Ret tt), d, s, k, [], 0%nat. cbn [concat]. rewrite app_nil_r, take_nil. do 3 (split; [auto|]). split; [constructor|auto]. }
  set (fp := b :: fp') in *.
  assert (El : (length (take (Z.to_nat 8192) fp) =? 0)%nat = false).
  { apply Nat.eqb_neq. rewrite length_take. unfold fp. cbn [length]. lia. }
  rewrite El. change (chunks_of (S fuel) fp) with
    (pad_to (Z.to_nat 8192) 0xff (take (Z.to_nat 8192) fp) :: chunks_of fuel (drop (Z.to_nat 8192) fp)) in *.
  set (chunk := pad_to _ _ _) in *. cbn [length] in *. apply Forall_cons in Hp as [Hp1 Hp].
  destruct (write_ok chunk off f d s k (pad_whole fp) Hp1 ltac:(lia) Hd Hs) as (r & d1 & s1 & k1 & w & E1 & D1 & S1 & V1 & N1 & C1).
  unfold mbind, py_bind. rewrite E1. destruct r as [[]|e].
  - destruct V1 as [->|(bb & -> & V1)]; [destruct (N1 eq_refl eq_refl)|].
    destruct (IH (drop (Z.to_nat 8192) fp) (off + 1) (f ++ concat [bb]) d1 s1 k1 ltac:(lia) ltac:(lia) Hp D1 S1)
      as (r & d2 & s2 & k2 & bs & n & E2 & D2 & S2 & F2 & N2 & C2).
    exists r, d2, s2, k2, (bb :: bs), (S n). split; [exact E2|]. split; [exact D2|].
    split; [cbn [concat] in *; rewrite app_nil_r, <- app_assoc in S2; exact S2|].
    split; [constructor; assumption|]. split; [intros E; rewrite (N2 E); reflexivity|exact C2].
  - exists (Exn e), d1, s1, k1, w, (length w). split; [reflexivity|]. split; [exact D1|]. split; [exact S1|].
    split; [|split; [discriminate|intros G; discriminate (C1 G)]].
    destruct V1 as [->|(bb & -> & V1)]; cbn [length take]; [constructor|constructor; [exact V1|constructor]].
Qed.

(** A command answered by an empty message. *)
Lemma plain_ok cmd f d s k : cmd = TYPE_ATTN \/ cmd = TYPE_RELEASE -> reaches d -> serving f s ->
  exists ok d' s', Send board oracle rounds cmd 0 [] (st d s k) = (Ret (ok, []), st d' s' (S k)) /\ reaches d' /\
    sv_file s' = f /\ (cmd = TYPE_ATTN -> sv_status s' = Serving /\ sv_buffer s' = sv_buffer s) /\
    (cmd = TYPE_RELEASE -> ok = true -> sv_status s' = Released) /\ (good_enough -> ok = true).
Proof.
  intros Hc Hd [Hs Hf].
  assert (Hr : 0 <= cmd < 2 ^ 16 - 1 /\ g_timeout cmd = true /\ Z.lor cmd 1 = cmd + 1) by (destruct Hc as [-> | ->]; done).
  destruct Hr as (Hr & Hg & Hor).
  pose proof (serve_packet cmd 0 [] s Hs ltac:(lia) ltac:(done) ltac:(cbn; lia)) as E.
  assert (E2 : serve (packet cmd 0 []) s =
    (if cmd =? TYPE_ATTN then s else mkServer (sv_buffer s) (sv_file s) Released, Some (Reply (cmd + 1) 0 [])))
    by (rewrite E; destruct Hc as [-> | ->]; reflexivity). clear E.
  pose proof (Send_asked cmd 0 [] 0 [] d s k Hd Hr ltac:(done) Hg Hor ltac:(rewrite E2; reflexivity) ltac:(lia)
    ltac:(cbn; lia)) as ES. cbv zeta in ES. rewrite ES. clear ES.
  pose proof (fun G => answered G k cmd 0 ltac:(tauto)) as Ha. unfold served. rewrite E2. cbn [fst].
  destruct (oracle k (packet cmd 0 [])); do 3 eexists; (split; [reflexivity|]);
    (split; [first [exact Hd|left; reflexivity]|]); (split; [destruct (cmd =? TYPE_ATTN); exact Hf|]);
    (split; [intros ->; split; [exact Hs|reflexivity]|]); (split; [intros ->; first [reflexivity|discriminate]|]); auto;
    intros G; discriminate (Ha G).
Qed.

(** What a run does, with any losses. *)
Lemma Run_ok image f d s k : Z.of_nat (length (chunks image)) <= 2 ^ 32 -> Forall (pieced 16) (chunks image) ->
  reaches d -> holding f s ->
  exists r c bs n, Run board oracle rounds image (st d s k) = (r, c) /\
    sv_file (n_server (network c)) = f ++ concat bs /\ Forall2 (flip verified) bs (take n (chunks image)) /\
    (r = Ret ReleasedOK \/ r = Ret ErrorReleasing -> n = length (chunks image)) /\
    (r = Ret ReleasedOK -> sv_status (n_server (network c)) = Released) /\ (good_enough -> r = Ret ReleasedOK).
Proof.
  intros Hl Hp Hd Hs. unfold Run, UploadBinary.
  destruct (plain_ok TYPE_ATTN f d s k (or_introl eq_refl) Hd (proj1 Hs)) as (ok & d1 & s1 & E1 & D1 & F1 & S1 & _ & C1).
  unfold mbind, py_bind. rewrite E1. destruct ok.
  2: { exists (Ret NoBoard), (st d1 s1 (S k)), [], 0%nat. cbn [concat]. rewrite app_nil_r. split; [reflexivity|].
       split; [exact F1|]. split; [constructor|]. split; [intros [E|E]; discriminate|].
       split; [discriminate|]. intros G. discriminate (C1 G). }
  destruct (S1 eq_refl) as [Hst Hb].
  assert (H1 : holding f s1) by (split; [split; assumption|rewrite Hb; apply Hs]).
  destruct (upload_ok (S (length image)) image 0 f d1 s1 (S k) (Z.le_refl 0) Hl Hp D1 H1)
    as (r & d2 & s2 & k2 & bs & n & E2 & D2 & S2 & V2 & N2 & C2). rewrite E2. fold (chunks image) in *.
  destruct r as [[]|e].
  2: { exists (Exn e), (st d2 s2 k2), bs, n. split; [reflexivity|]. split; [apply S2|]. split; [exact V2|].
       split; [intros [E|E]; discriminate|]. split; [discriminate|]. intros G. discriminate (C2 G). }
  destruct (plain_ok TYPE_RELEASE _ d2 s2 k2 (or_intror eq_refl) D2 (proj1 S2)) as (ok & d3 & s3 & E3 & D3 & F3 & _ & R3 & C3).
  rewrite E3. exists (Ret (if ok then ReleasedOK else ErrorReleasing)), (st d3 s3 (S k2)), bs, n.
  split; [reflexivity|]. split; [exact F3|]. split; [exact V2|]. split; [auto|].
  split; [destruct ok; [auto|discriminate]|]. intros G. rewrite (C3 G). reflexivity.
Qed.

End Link.

Section Safe.
Context (board : list Z) (oracle : nat -> list Z -> fate) (rounds : Z -> nat).
Context (Hrounds : forall cmd, g_timeout cmd = true -> (0 < rounds cmd)%nat).

(** C31: only what was verified is written.  Whatever datagrams are lost and
    however the run ends, the board's file has grown by blocks with the MD5 of
    the image's first chunks, in order; a run that reaches the end has written
    them all, and the board was released if the client says so. *)
Theorem udp_upload_safe image f d s k :
  Z.of_nat (length (chunks image)) <= 2 ^ 32 -> reaches board d -> serving f s ->
  let '(r, c) := Run board oracle rounds image (st d s k) in
  exists bs n, sv_file (n_server (network c)) = f ++ concat bs /\ Forall2 same_md5 bs (take n (chunks image)) /\
    (r = Ret ReleasedOK \/ r = Ret ErrorReleasing -> n = length (chunks image)) /\
    (r = Ret ReleasedOK -> sv_status (n_server (network c)) = Released).
Proof.
  intros Hl Hd Hs.
  destruct (Run_ok board oracle rounds Hrounds (fun _ => True) (fun _ => True) I (fun _ _ _ _ => I) image f d s k Hl)
    as (r & c & bs & n & -> & H1 & H2 & H3 & H4 & _);
    [apply Forall_forall; intros ? _ ? _; exact I|exact Hd|split; [exact Hs|exact I]|].
  exists bs, n. split; [exact H1|]. split; [|auto]. apply (Forall2_impl _ _ _ _ H2). intros b c' Hv. apply Hv.
Qed.

End Safe.

Lemma chunks_concat fuel : forall fp, (length fp < fuel)%nat ->
  exists p, (p < Z.to_nat 8192)%nat /\ concat (chunks_of fuel fp) = fp ++ repeat 0xff p.
Proof.
  induction fuel as [|fuel IH]; intros fp Hl; [lia|]. cbn [chunks_of].
  destruct fp as [|b fp']; [exists 0%nat; split; [lia|reflexivity]|]. set (fp := b :: fp') in *.
  destruct (decide (length fp < Z.to_nat 8192)%nat) as [Hs|Hs].
  - exists (Z.to_nat 8192 - length fp)%nat. unfold fp in *. cbn [length] in *. split; [lia|].
    rewrite take_ge, drop_ge by (cbn [length]; lia). unfold pad_to. cbn [concat].
    destruct fuel; cbn [chunks_of concat]; rewrite app_nil_r; reflexivity.
  - destruct (IH (drop (Z.to_nat 8192) fp)) as (p & Hp & E); [rewrite length_drop; unfold fp in *; cbn [length] in *; lia|].
    exists p. split; [exact Hp|]. cbn [concat]. rewrite E. unfold pad_to. rewrite length_take, Nat.min_l, Nat.sub_diag by lia.
    cbn [repeat]. rewrite app_nil_r, app_assoc, take_drop. reflexivity.
Qed.

(** The 512-byte pieces an image is sent in. *)
Definition pieces (image : list Z) : list (list Z) :=
  concat (map (fun c => map (fun i => take 512 (drop (512 * i) c)) (seq 0 16)) (chunks image)).

(** Put together from such pieces, behind what the board had in its buffer before
    the upload if no reset reached it. *)
Definition assembled (image before b : list Z) : Prop :=
  exists ps, Forall (fun p => In p (pieces image)) ps /\ (b = concat ps \/ b = before ++ concat ps).

Lemma assembled_add image before b p : assembled image before b -> In p (pieces image) -> assembled image before (b ++ p).
Proof.
  intros (ps & Hps & Hb) Hp. exists (ps ++ [p]). split; [apply Forall_app; auto|].
  rewrite concat_app. cbn [concat]. rewrite app_nil_r. destruct Hb as [-> | ->]; [left|right]; rewrite <- ?app_assoc; reflexivity.
Qed.

Lemma chunks_pieced image : Forall (pieced (fun p => In p (pieces image)) 16) (chunks image).
Proof.
  apply List.Forall_forall. intros c Hc i Hi. unfold pieces. apply in_concat.
  exists (map (fun i => take 512 (drop (512 * i) c)) (seq 0 16)). split.
  - apply in_map_iff. exists c. auto.
  - apply in_map_iff. exists i. split; [reflexivity|]. apply in_seq. lia.
Qed.

(** C11: the upload gets through.  The image has at most 2^32 chunks, every wait
    looks for an answer at least once, and the network is good enough: of any five
    attempts in a row one meets no loss, and the other commands are answered.
    Then the run ends with the board released, and its file has grown by exactly
    one block for each chunk of the image, in order.  A block has the MD5 of its
    chunk and is put together from 512-byte pieces of the image, behind what was
    in the board's buffer before if no reset got through; so a block is its chunk
    unless pieces of the image, with some lost, have the MD5 of the chunk.  If no
    datagram that carries data or resets the buffer is lost on its way to the
    board (answers and digests may be), the file has grown by exactly the image,
    filled up to whole chunks with 0xff. *)
Theorem udp_upload_live board oracle rounds image f d s k :
  (forall cmd, g_timeout cmd = true -> (0 < rounds cmd)%nat) ->
  Z.of_nat (length (chunks image)) <= 2 ^ 32 -> reaches board d -> serving f s -> good_enough oracle ->
  let '(r, c) := Run board oracle rounds image (st d s k) in
  r = Ret ReleasedOK /\ sv_status (n_server (network c)) = Released /\
  exists bs, sv_file (n_server (network c)) = f ++ concat bs /\
    Forall2 same_md5 bs (chunks image) /\ Forall (assembled image (sv_buffer s)) bs /\
    (keeps_data oracle -> exists p, (p < Z.to_nat 8192)%nat /\ concat bs = image ++ repeat 0xff p).
Proof.
  intros Hr Hl Hd Hs G.
  destruct (Run_ok board oracle rounds Hr (assembled image (sv_buffer s)) (fun p => In p (pieces image)))
    with (image := image) (f := f) (d := d) (s := s) (k := k) as (r & c & bs & n & -> & H1 & H2 & H3 & H4 & H5); auto.
  { exists []. split; [constructor|left; reflexivity]. }
  { intros b p. apply assembled_add. }
  { apply chunks_pieced. }
  { split; [exact Hs|]. exists []. split; [constructor|right; cbn [concat]; rewrite app_nil_r; reflexivity]. }
  specialize (H5 G). split; [exact H5|]. split; [exact (H4 H5)|].
  rewrite (H3 (or_introl H5)), take_ge in H2 by lia. exists bs. split; [exact H1|].
  split; [apply (Forall2_impl _ _ _ _ H2); intros b c' Hv; apply Hv|]. split; [|intros K].
  - apply (Forall2_Forall_l _ _ _ _ H2), Forall_forall. intros c' _ b Hv. apply Hv.
  - assert (E : bs = chunks image).
    { clear - H2 K. induction H2 as [|b c' bs cs Hv _ IH]; [reflexivity|]. destruct Hv as (_ & _ & Hv). rewrite (Hv K), IH. reflexivity. }
    rewrite E. apply chunks_concat. lia.
Qed.

(** ** Witnesses *)

(** The third datagram is lost if it carries data. *)
Definition lossy (n : nat) (pkt : list Z) : fate :=
  if (n =? 3)%nat && (un_le (field_of pkt 0 2) =? TYPE_DATA_ADD) then RequestLost else Delivered.

Lemma lossy_good : good_enough lossy.
Proof.
  split.
  - intros k. exists (if (k <=? 3)%nat then 1%nat else 0%nat). destruct (Nat.leb_spec k 3); (split; [lia|]);
      intros i pkt Hi; unfold lossy; rewrite (proj2 (Nat.eqb_neq _ 3)) by lia; reflexivity.
  - intros k cmd arg Hc. unfold lossy.
    assert (E : un_le (field_of (packet cmd arg []) 0 2) = cmd).
    { change (field_of (packet cmd arg []) 0 2) with (le 2 cmd). apply un_le_le.
      destruct Hc as [->|[-> | ->]]; done. }
    rewrite E. destruct Hc as [->|[-> | ->]]; rewrite andb_false_r; reflexivity.
Qed.

Definition idle_server : server := mkServer [] [] Serving.

Lemma udp_upload_safe_witness :
  let '(r, c) := Run (str "10.0.0.1") lossy (fun _ => 1%nat) [1; 2; 3] (st broadcast idle_server 0) in
  exists bs n, sv_file (n_server (network c)) = [] ++ concat bs /\ Forall2 same_md5 bs (take n (chunks [1; 2; 3])) /\
    (r = Ret ReleasedOK \/ r = Ret ErrorReleasing -> n = length (chunks [1; 2; 3])) /\
    (r = Ret ReleasedOK -> sv_status (n_server (network c)) = Released).
Proof.
  apply (udp_upload_safe (str "10.0.0.1") lossy (fun _ => 1%nat) (fun _ _ => Nat.lt_0_1) [1; 2; 3] [] broadcast idle_server 0).
  - vm_compute. discriminate.
  - right. reflexivity.
  - split; reflexivity.
Defined.

(** The first digest is lost on its way back. *)
Definition deaf (n : nat) (pkt : list Z) : fate :=
  if (n =? 18)%nat && (un_le (field_of pkt 0 2) =? TYPE_DATA_DIGEST) then ReplyLost else Delivered.

Lemma deaf_good : good_enough deaf.
Proof.
  split.
  - intros k. exists (if (k <=? 18)%nat then if (k =? 0)%nat then 2%nat else 1%nat else 0%nat).
    destruct (Nat.leb_spec k 18), (Nat.eqb_spec k 0); try lia; (split; [lia|]);
      intros i pkt Hi; unfold deaf; rewrite (proj2 (Nat.eqb_neq _ 18)) by lia; reflexivity.
  - intros k cmd arg Hc. unfold deaf.
    assert (E : un_le (field_of (packet cmd arg []) 0 2) = cmd).
    { change (field_of (packet cmd arg []) 0 2) with (le 2 cmd). apply un_le_le.
      destruct Hc as [->|[-> | ->]]; done. }
    rewrite E. destruct Hc as [->|[-> | ->]]; rewrite andb_false_r; reflexivity.
Qed.

Lemma deaf_keeps : keeps_data deaf.
Proof. intros k cmd arg data Hc. unfold deaf. destruct (_ && _); discriminate. Qed.

Lemma udp_upload_live_witness :
  let '(r, c) := Run (str "10.0.0.1") deaf (fun _ => 1%nat) [1; 2; 3] (st broadcast idle_server 0) in
  r = Ret ReleasedOK /\ sv_status (n_server (network c)) = Released /\
  exists p, (p < Z.to_nat 8192)%nat /\ sv_file (n_server (network c)) = [1; 2; 3] ++ repeat 0xff p.
Proof.
  assert (Hr : forall cmd, g_timeout cmd = true -> (0 < 1)%nat) by (intros; exact Nat.lt_0_1).
  assert (Hl : Z.of_nat (length (chunks [1; 2; 3])) <= 2 ^ 32) by (vm_compute; discriminate).
  pose proof (udp_upload_live (str "10.0.0.1") deaf (fun _ => 1%nat) [1; 2; 3] [] broadcast idle_server 0
    Hr Hl (or_intror eq_refl) (conj eq_refl eq_refl) deaf_good) as Hu.
  destruct (Run _ deaf _ _ _) as [r c]. destruct Hu as (E1 & E2 & bs & E3 & _ & _ & E4).
  split; [exact E1|]. split; [exact E2|]. destruct (E4 deaf_keeps) as (p & Hp & E5). exists p. split; [exact Hp|].
  rewrite E3, E5. reflexivity.
Defined.

End UdpSpec.
