(* ===== verification/Panel.v ===== *)
(** The panel of the emulated board (src/qemu/panel.py) and what plugs into it:
    the LED (led.py), the button (button.py), the HD44780 display (hd44780.py)
    and the program that writes to it (lcdwrite.py).

    The server's dict of channels is an association list in the dict's iteration
    order; asynchat hands each channel one line at a time, without its CRLF, and
    what a channel pushes is kept as a list of lines.  A Python exception (a
    missing key, an index out of range) is [None]. *)
From Stdlib Require Import ZArith Lia.
From stdpp Require Import base list numbers option strings.
From S2P Require Import Prelude Python.

Module Panel.
Import Python.

Definition PIN_COUNT : nat := 8.

(** ** Text *)

Definition starts_with (p s : list Z) : bool := bool_decide (take (length p) s = p).

(** The decimal digits of a number, most significant first ([%d]). *)
Fixpoint print_d (fuel : nat) (v : Z) : list Z :=
  match fuel with
  | O => []
  | S fuel' => (if v <? 10 then [] else print_d fuel' (v / 10)) ++ [48 + v mod 10]
  end.

(** [\d{1,3}]: at most [n] digits, as many as there are. *)
Fixpoint digits (n : nat) (s : list Z) : list Z * list Z :=
  match n, s with
  | S n', c :: s' =>
      if (48 <=? c) && (c <=? 57) then let '(ds, rest) := digits n' s' in (c :: ds, rest) else ([], s)
  | _, _ => ([], s)
  end.

Definition int_of (ds : list Z) : Z := foldl (fun v c => 10 * v + (c - 48)) 0 ds.

(** [s.find(c)] of one character. *)
Fixpoint find_from (i : Z) (s : list Z) (c : Z) : Z :=
  match s with
  | [] => -1
  | d :: s' => if d =? c then i else find_from (i + 1) s' c
  end.

Definition find (s : list Z) (c : Z) : Z := find_from 0 s c.

(** The characters of the protocol: ['1'], ['0'], ['P'] (pull-up), ['X']
    (undriven) and ['E'] (contention). *)
Definition C1 := 49.
Definition C0 := 48.
Definition CP := 80.
Definition CX := 88.
Definition CE := 69.

(** ** The server *)

Record Channel := mkChannel {
  c_pins : list Z;
  c_notify : list nat;
  c_out : list (list Z);            (* the lines pushed to the peer *)
}.

Record TerminalBlock := mkBlock {
  clients : list (Z * Channel);
  LastResolve : list Z;
}.

Definition GetDefaultPins : list Z := repeat CX PIN_COUNT.

Definition TerminalBlock_init : TerminalBlock := mkBlock [] GetDefaultPins.

Definition Channel_init : Channel := mkChannel GetDefaultPins [] [].

(** [clients[fd]], and the dict with that channel replaced. *)
Fixpoint assoc (fd : Z) (cs : list (Z * Channel)) : option Channel :=
  match cs with
  | [] => None
  | (k, c) :: cs' => if k =? fd then Some c else assoc fd cs'
  end.

Definition update (fd : Z) (f : Channel -> Channel) (cs : list (Z * Channel)) : list (Z * Channel) :=
  map (fun kc => if kc.1 =? fd then (kc.1, f kc.2) else kc) cs.

Definition with_clients (cs : list (Z * Channel)) (b : TerminalBlock) : TerminalBlock :=
  mkBlock cs b.(LastResolve).

Definition SetPin (pin : nat) (val : Z) (c : Channel) : Channel :=
  mkChannel (<[pin := val]> c.(c_pins)) c.(c_notify) c.(c_out).

Definition GetPin (pin : nat) (c : Channel) : option Z := c.(c_pins) !! pin.

Definition push (line : list Z) (c : Channel) : Channel :=
  mkChannel c.(c_pins) c.(c_notify) (c.(c_out) ++ [line]).

Definition NotifyValues (txt : list Z) (c : Channel) : Channel := push (str "R " ++ txt) c.

(** *** Arbitration *)

Definition PinArbitration (pin : Z) : option (list Z) :=
  if pin =? C1 then Some (str "1E11")
  else if pin =? C0 then Some (str "E000")
  else if pin =? CP then Some (str "10PP")
  else if pin =? CX then Some (str "10PX")
  else None.

Definition ResolveTwo (pinA pinB : Z) : option Z :=
  row ← PinArbitration pinA;
  py_index row (find (str "10PX") pinB).

(** The loop that replaces the first two entries by their outcome. *)
Fixpoint resolve_loop (p : Z) (plist : list Z) : option Z :=
  match plist with
  | [] => Some p
  | q :: plist' => p' ← ResolveTwo p q; resolve_loop p' plist'
  end.

Definition resolve_list (plist : list Z) : option Z :=
  match plist with
  | [] => Some CX
  | p :: plist' => resolve_loop p plist'
  end.

Definition ResolvePin (b : TerminalBlock) (pin : nat) : option Z :=
  plist ← mapM (fun kc => GetPin pin kc.2) b.(clients);
  resolve_list plist.

Definition NotifyAll (vals : list Z) (diffs : list nat) (b : TerminalBlock) : TerminalBlock :=
  with_clients (map (fun kc => (kc.1, if existsb (fun i => bool_decide (i ∈ diffs)) kc.2.(c_notify)
                                      then NotifyValues vals kc.2 else kc.2)) b.(clients)) b.

Definition diffs_of (out last : list Z) : list nat :=
  filter (fun i => out !! i <> last !! i) (seq 0 (length out)).

Definition Resolve (b : TerminalBlock) : option (list Z * TerminalBlock) :=
  out ← mapM (ResolvePin b) (seq 0 PIN_COUNT);
  if bool_decide (out = b.(LastResolve)) then Some (out, b)
  else Some (out, NotifyAll out (diffs_of out b.(LastResolve)) (mkBlock b.(clients) out)).

(** *** Connections and commands *)

(** [W (\d{1,3}) ([10PX])] at the start of the line. *)
Definition wmatch (data : list Z) : option (Z * Z) :=
  if starts_with (str "W ") data then
    let '(ds, rest) := digits 3 (drop 2 data) in
    match ds, rest with
    | _ :: _, 32 :: v :: _ =>
        if bool_decide (v ∈ [C1; C0; CP; CX]) then Some (int_of ds, v) else None
    | _, _ => None
    end
  else None.

(** [NOTIFY (\d{1,3})]. *)
Definition nmatch (data : list Z) : option Z :=
  if starts_with (str "NOTIFY ") data then
    let '(ds, _) := digits 3 (drop 7 data) in
    match ds with [] => None | _ => Some (int_of ds) end
  else None.

Definition found_terminator (fd : Z) (data : list Z) (b : TerminalBlock) : option TerminalBlock :=
  if starts_with (str "W ") data then
    match wmatch data with
    | Some (pin, val) =>
        if pin <? Z.of_nat PIN_COUNT then
          _ ← assoc fd b.(clients);
          snd <$> Resolve (with_clients (update fd (SetPin (Z.to_nat pin) val) b.(clients)) b)
        else Some b
    | None => Some b
    end
  else if bool_decide (data = str "R") then
    '(out, b) ← Resolve b;
    Some (with_clients (update fd (NotifyValues out) b.(clients)) b)
  else if starts_with (str "NOTIFY ") data then
    match nmatch data with
    | Some pin =>
        if pin <? Z.of_nat PIN_COUNT then
          Some (with_clients (update fd (fun c => mkChannel c.(c_pins) (c.(c_notify) ++ [Z.to_nat pin]) c.(c_out))
                                b.(clients)) b)
        else Some b
    | None => Some b
    end
  else Some b.

(** A new channel enters the dict under its descriptor. *)
Definition handle_accept (fd : Z) (b : TerminalBlock) : TerminalBlock :=
  match assoc fd b.(clients) with
  | Some _ => with_clients (update fd (fun _ => Channel_init) b.(clients)) b
  | None => with_clients (b.(clients) ++ [(fd, Channel_init)]) b
  end.

Definition handle_close (fd : Z) (b : TerminalBlock) : option TerminalBlock :=
  _ ← assoc fd b.(clients);
  snd <$> Resolve (with_clients (filter (fun kc => kc.1 <> fd) b.(clients)) b).

(** What happens to the server, one event at a time. *)
Inductive event :=
| Accept (fd : Z)
| Line (fd : Z) (data : list Z)
| Close (fd : Z).

Definition serve (e : event) (b : TerminalBlock) : option TerminalBlock :=
  match e with
  | Accept fd => Some (handle_accept fd b)
  | Line fd data => found_terminator fd data b
  | Close fd => handle_close fd b
  end.

Fixpoint loop (es : list event) (b : TerminalBlock) : option TerminalBlock :=
  match es with
  | [] => Some b
  | e :: es' => b ← serve e b; loop es' b
  end.

(** ** Peripherals and actors *)

(** The lines a peripheral sends when it is plugged in. *)
Definition Peripheral_init (pinlist : list nat) : list (list Z) :=
  map (fun i => str "NOTIFY " ++ print_d 3 (Z.of_nat i)) pinlist ++ [str "R"].

(** A line from the server: the levels of the peripheral's pins, if it is a report. *)
Definition Peripheral_line (pinlist : list nat) (data : list Z) : option (option (list Z)) :=
  if starts_with (str "R ") data then
    let pin := drop 2 data in
    Some <$> mapM (fun i => pin !! i) pinlist
  else Some None.

(** The lines [Actor.SetPin] sends. *)
Definition Actor_SetPin (pin : nat) (val : Z) : list (list Z) :=
  if bool_decide (pin < PIN_COUNT)%nat then [str "W " ++ print_d 3 (Z.of_nat pin) ++ str " " ++ [val]] else [].

(** *** led.py *)

Definition g_StateMap (state : Z) : option (list Z) :=
  if state =? C0 then Some (str "on")
  else if (state =? C1) || (state =? CP) || (state =? CX) then Some (str "off")
  else if state =? CE then Some (str "in contention!")
  else None.

Definition LED_PIN : nat := 0.

(** What the LED prints for a line from the server: the state and its letter. *)
Definition LED_line (data : list Z) : option (option (list Z * Z)) :=
  states ← Peripheral_line [LED_PIN] data;
  match states with
  | None => Some None
  | Some states => state ← states !! 0%nat; txt ← g_StateMap state; Some (Some (txt, state))
  end.

(** *** button.py *)

Definition PANEL_PIN : nat := 1.

Definition App_init : list (list Z) := Actor_SetPin PANEL_PIN CP.

(** The check button's variable is ["0"] when it is checked, else ["P"]. *)
Definition say_cb (checked : bool) : list (list Z) := Actor_SetPin PANEL_PIN (if checked then C0 else CP).

(** *** hd44780.py *)

Definition HD_E : nat := 0.
Definition HD_RS : nat := 1.
Definition HD_DB4 : nat := 2.
Definition HD_DB5 : nat := 3.
Definition HD_DB6 : nat := 4.
Definition HD_DB7 : nat := 5.

Definition pin_map : list nat := [HD_E; HD_RS; HD_DB4; HD_DB5; HD_DB6; HD_DB7].

Record PanelEvents := mkEvents {
  prev_E : Z;
  prev_cmnd : list Z;
  prev_data : list Z;
  lcd_init : bool;
  lcd_text : list Z;
  lcd_cursor : nat;
  lcd_shown : list Z;               (* what [lcd_out] was last given to draw *)
}.

(** The window starts with drawing the same text. *)
Definition PanelEvents_init (init_txt : list Z) : PanelEvents := mkEvents C1 [] [] false init_txt 0 init_txt.

Definition lcd_update (newchar : Z) (l : PanelEvents) : PanelEvents :=
  let txt := take l.(lcd_cursor) l.(lcd_text) ++ [newchar] ++ drop (l.(lcd_cursor) + 1) l.(lcd_text) in
  let cursor := (l.(lcd_cursor) + 1)%nat in
  mkEvents l.(prev_E) l.(prev_cmnd) l.(prev_data) l.(lcd_init) (take 32 txt)
    (if bool_decide (31 < cursor)%nat then 0%nat else cursor) (take 32 txt).

(** The value on the data pins. *)
Definition data_val (DB7 DB6 DB5 DB4 : Z) : Z :=
  foldl (fun val i => Z.shiftl val 1 + (if i =? C0 then 0 else 1)) 0 [DB7; DB6; DB5; DB4].

(** A nibble with RS low; the reset does not draw. *)
Definition latch_command (val : Z) (l : PanelEvents) : PanelEvents :=
  match l.(prev_cmnd) ++ [val] with
  | high :: low :: _ =>
      if Z.lor (Z.shiftl high 4) low =? 0x06 then
        mkEvents l.(prev_E) [] [] true (repeat 0 32) 0 l.(lcd_shown)
      else mkEvents l.(prev_E) [] [] l.(lcd_init) l.(lcd_text) l.(lcd_cursor) l.(lcd_shown)
  | cmnd => mkEvents l.(prev_E) cmnd [] l.(lcd_init) l.(lcd_text) l.(lcd_cursor) l.(lcd_shown)
  end.

(** A nibble with RS not low. *)
Definition latch_data (val : Z) (l : PanelEvents) : PanelEvents :=
  if l.(lcd_init) then
    match l.(prev_data) ++ [val] with
    | high :: low :: _ =>
        let l := lcd_update (Z.lor (Z.shiftl high 4) low) l in
        mkEvents l.(prev_E) [] [] l.(lcd_init) l.(lcd_text) l.(lcd_cursor) l.(lcd_shown)
    | data => mkEvents l.(prev_E) [] data l.(lcd_init) l.(lcd_text) l.(lcd_cursor) l.(lcd_shown)
    end
  else mkEvents l.(prev_E) [] l.(prev_data) l.(lcd_init) l.(lcd_text) l.(lcd_cursor) l.(lcd_shown).

Definition pins_updated (states : list Z) (l : PanelEvents) : option PanelEvents :=
  match states with
  | [E; RS; DB4; DB5; DB6; DB7] =>
      let val := data_val DB7 DB6 DB5 DB4 in
      let l :=
        if negb (E =? C0) && (l.(prev_E) =? C0) then
          if RS =? C0 then latch_command val l else latch_data val l
        else l in
      Some (mkEvents E l.(prev_cmnd) l.(prev_data) l.(lcd_init) l.(lcd_text) l.(lcd_cursor) l.(lcd_shown))
  | _ => None
  end.

(** A line from the server. *)
Definition PanelEvents_line (data : list Z) (l : PanelEvents) : option PanelEvents :=
  states ← Peripheral_line pin_map data;
  match states with
  | None => Some l
  | Some states => pins_updated states l
  end.

Fixpoint PanelEvents_lines (ls : list (list Z)) (l : PanelEvents) : option PanelEvents :=
  match ls with
  | [] => Some l
  | data :: ls' => l ← PanelEvents_line data l; PanelEvents_lines ls' l
  end.

(** *** lcdwrite.py: the lines each operation sends *)

Definition set_value (pin : nat) (val : Z) : list (list Z) := Actor_SetPin pin (if val =? 0 then C0 else C1).

Definition WriteNibble (val : Z) : list (list Z) :=
  set_value HD_DB4 (Z.land val 1) ++
  set_value HD_DB5 (Z.shiftr (Z.land val 2) 1) ++
  set_value HD_DB6 (Z.shiftr (Z.land val 4) 2) ++
  set_value HD_DB7 (Z.shiftr (Z.land val 8) 3) ++
  set_value HD_E 0 ++
  set_value HD_E 1.

Definition WriteData (c : Z) : list (list Z) :=
  set_value HD_RS 1 ++ WriteNibble (Z.land (Z.shiftr c 4) 0x0f) ++ WriteNibble (Z.land c 0x0f).

Definition WriteCommand (c : Z) : list (list Z) :=
  set_value HD_RS 0 ++ WriteNibble (Z.land (Z.shiftr c 4) 0x0f) ++ WriteNibble (Z.land c 0x0f).

Definition LCD_init : list (list Z) :=
  WriteNibble 0x03 ++ WriteNibble 0x03 ++ WriteNibble 0x03 ++ WriteNibble 0x02 ++
  WriteCommand 0x28 ++ WriteCommand 0x0c ++ WriteCommand 0x01 ++ WriteCommand 0x06.

(** The program: initialise the display, then write a text. *)
Definition lcdwrite_main (text : list Z) : list (list Z) := LCD_init ++ concat (map WriteData text).

End Panel.
