(* ===== verification/PanelSpec.v ===== *)
(** The panel's contract: how the server arbitrates between what its clients
    drive, who is told of a change, and what the display, the LED and the button
    make of it. *)
From Stdlib Require Import ZArith Lia.
From stdpp Require Import base list numbers option strings.
From S2P Require Import Prelude Python Panel.

Module PanelSpec.
Import Python Panel.

(** ** Arbitration *)

(** What a client may drive. *)
Definition drive (v : Z) : Prop := v = C1 \/ v = C0 \/ v = CP \/ v = CX.

Definition has (v : Z) (l : list Z) : bool := existsb (Z.eqb v) l.

(** Two clients drive a pin to opposite levels. *)
Definition clash (l : list Z) : bool := has C1 l && has C0 l.

(** The level of a pin nobody disputes: a driven level wins over a pull-up, and
    a pull-up over nothing. *)
Definition strongest (l : list Z) : Z :=
  if has C0 l then C0 else if has C1 l then C1 else if has CP l then CP else CX.

Lemma has_app v l l' : has v (l ++ l') = has v l || has v l'.
Proof. apply existsb_app. Qed.

Lemma has_perm v l l' : l ≡ₚ l' -> has v l = has v l'.
Proof.
  unfold has. induction 1 as [|x l l' _ IH|x y l|l l' l'' _ IH1 _ IH2]; cbn; [reflexivity|congruence| |congruence].
  destruct (v =? x), (v =? y); reflexivity.
Qed.

Lemma strongest_perm l l' : l ≡ₚ l' -> strongest l = strongest l' /\ clash l = clash l'.
Proof. intros H. unfold strongest, clash. rewrite !(fun v => has_perm v _ _ H). auto. Qed.

Lemma resolve_loop_snoc l q : forall p, resolve_loop p (l ++ [q]) = (r ← resolve_loop p l; ResolveTwo r q).
Proof.
  induction l as [|x l IH]; intros p; cbn.
  - destruct (ResolveTwo p q); reflexivity.
  - destruct (ResolveTwo p x); cbn; [apply IH|reflexivity].
Qed.

Lemma resolve_list_snoc l q : l <> [] -> resolve_list (l ++ [q]) = (r ← resolve_list l; ResolveTwo r q).
Proof. destruct l as [|p l]; [done|]. intros _. cbn. apply resolve_loop_snoc. Qed.

(** The outcome for any list of levels.  A clash that the last client completes
    is reported as contention; an earlier one leaves an ['E'] that the table has
    no row for, and the lookup raises. *)
Lemma resolve_list_eq l : Forall drive l ->
  resolve_list l =
    if clash l then if clash (removelast l) then None else Some CE else Some (strongest l).
Proof.
  induction l as [|q l IH] using rev_ind; intros Hl; [reflexivity|].
  apply Forall_app in Hl as [Hl Hq]. inversion Hq as [|? ? Hd _]; subst.
  destruct (decide (l = [])) as [->|Hne].
  - destruct Hd as [->|[->|[->| ->]]]; reflexivity.
  - rewrite resolve_list_snoc, removelast_last by done. rewrite (IH Hl).
    unfold clash, strongest. rewrite !has_app. cbn [has existsb].
    destruct (has C0 l) eqn:E0, (has C1 l) eqn:E1, (has CP l) eqn:EP;
      destruct Hd as [->|[->|[->| ->]]]; cbn; try reflexivity;
      destruct (has C1 (removelast l) && has C0 (removelast l)); reflexivity.
Qed.

(** ** Well-formed servers *)

Definition channel_ok (c : Channel) : Prop := length c.(c_pins) = PIN_COUNT /\ Forall drive c.(c_pins).

Definition block_ok (b : TerminalBlock) : Prop :=
  Forall (fun kc => channel_ok kc.2) b.(clients) /\ NoDup b.(clients).*1 /\ length b.(LastResolve) = PIN_COUNT.

Definition pin_of (i : nat) (c : Channel) : Z := nth i c.(c_pins) CX.

(** What the clients drive on a pin. *)
Definition levels (i : nat) (b : TerminalBlock) : list Z := map (fun kc => pin_of i kc.2) b.(clients).

Lemma drive_pin i c : channel_ok c -> drive (pin_of i c).
Proof.
  intros [Hn Hd]. unfold pin_of. destruct (c_pins c !! i) as [v|] eqn:E.
  - rewrite (nth_lookup_Some _ _ _ _ E). apply (Forall_lookup_1 _ _ _ _ Hd E).
  - rewrite nth_lookup, E. unfold drive. auto.
Qed.

Lemma drive_levels i b : block_ok b -> Forall drive (levels i b).
Proof.
  intros (Hc & _). unfold levels. apply Forall_map. apply (Forall_impl _ _ _ Hc).
  intros kc Hk. apply drive_pin, Hk.
Qed.

Lemma mapM_levels i b : block_ok b -> (i < PIN_COUNT)%nat ->
  mapM (fun kc => GetPin i kc.2) b.(clients) = Some (levels i b).
Proof.
  intros (Hc & _) Hi. unfold levels. apply mapM_Some_2. apply Forall2_fmap_r.
  apply Forall_Forall2_diag. apply (Forall_impl _ _ _ Hc). intros kc [Hn _].
  change (c_pins kc.2 !! i = Some (nth i (c_pins kc.2) CX)). rewrite nth_lookup. destruct (lookup_lt_is_Some_2 (c_pins kc.2) i) as [v ->]; [lia|reflexivity].
Qed.

Lemma ResolvePin_eq b i : block_ok b -> (i < PIN_COUNT)%nat ->
  ResolvePin b i =
    if clash (levels i b) then if clash (removelast (levels i b)) then None else Some CE
    else Some (strongest (levels i b)).
Proof.
  intros Hb Hi. unfold ResolvePin. rewrite mapM_levels by done. cbn.
  apply resolve_list_eq, drive_levels, Hb.
Qed.

(** ** Resolving without contention *)

Definition calm (b : TerminalBlock) : Prop := forall i, (i < PIN_COUNT)%nat -> clash (levels i b) = false.

Definition out_of (b : TerminalBlock) : list Z := map (fun i => strongest (levels i b)) (seq 0 PIN_COUNT).

(** A channel is told when one of the pins it asked about changed. *)
Definition hears (last out : list Z) (c : Channel) : bool :=
  existsb (fun i => bool_decide (i ∈ diffs_of out last)) c.(c_notify).

Definition told (last out : list Z) (c : Channel) : Channel :=
  if hears last out c then NotifyValues out c else c.

Definition report (b : TerminalBlock) : TerminalBlock :=
  mkBlock (map (fun kc => (kc.1, told b.(LastResolve) (out_of b) kc.2)) b.(clients)) (out_of b).

(** The levels the server last published are the clients' levels. *)
Definition settled (b : TerminalBlock) : Prop := block_ok b /\ calm b /\ b.(LastResolve) = out_of b.

Lemma length_out b : length (out_of b) = PIN_COUNT.
Proof. reflexivity. Qed.

Lemma out_lookup b i : (i < PIN_COUNT)%nat -> out_of b !! i = Some (strongest (levels i b)).
Proof.
  intros Hi. unfold out_of. change (map ?f ?l) with (f <$> l).
  rewrite list_lookup_fmap, lookup_seq_lt by done. reflexivity.
Qed.

Lemma diffs_nil out : diffs_of out out = [].
Proof.
  unfold diffs_of. destruct (filter _ _) as [|i l] eqn:E; [reflexivity|].
  assert (Hi : i ∈ filter (fun i => out !! i <> out !! i) (seq 0 (length out))) by (rewrite E; left).
  apply list_elem_of_filter in Hi as [[] _]. reflexivity.
Qed.

Lemma told_same out c : told out out c = c.
Proof. unfold told, hears. rewrite diffs_nil. induction (c_notify c) as [|i l IH]; cbn; [reflexivity|exact IH]. Qed.

Lemma Resolve_calm b : block_ok b -> calm b -> Resolve b = Some (out_of b, report b).
Proof.
  intros Hb Hc. unfold Resolve.
  assert (E : mapM (ResolvePin b) (seq 0 PIN_COUNT) = Some (out_of b)).
  { apply mapM_Some_2. unfold out_of. apply Forall2_fmap_r, Forall_Forall2_diag, Forall_seq.
    intros i Hi. rewrite ResolvePin_eq, Hc by (done || lia). reflexivity. }
  rewrite E. cbn [mbind option_bind]. case_bool_decide as Heq; [|reflexivity].
  do 2 f_equal. unfold report. rewrite Heq. destruct b as [cs last]. cbn [clients LastResolve].
  f_equal. symmetry. transitivity (map (fun x => x) cs); [|apply map_id].
  apply map_ext. intros [k c]. cbn. rewrite told_same. reflexivity.
Qed.

(** Telling a channel leaves its pins and subscriptions. *)
Lemma told_pins last out c : c_pins (told last out c) = c_pins c.
Proof. unfold told. destruct (hears _ _ _); reflexivity. Qed.

Lemma told_notify last out c : c_notify (told last out c) = c_notify c.
Proof. unfold told. destruct (hears _ _ _); reflexivity. Qed.

Lemma report_levels b i : levels i (report b) = levels i b.
Proof.
  unfold levels, report. cbn [clients]. rewrite map_map. apply map_ext. intros kc.
  unfold pin_of. cbn. rewrite told_pins. reflexivity.
Qed.

Lemma report_out b : out_of (report b) = out_of b.
Proof. unfold out_of. apply map_ext. intros i. rewrite report_levels. reflexivity. Qed.

Lemma report_settled b : block_ok b -> calm b -> settled (report b).
Proof.
  intros (Hc & Hn & Hl) Hq. split; [|split].
  - split; [|split; [|reflexivity]]; cbn [report clients].
    + apply Forall_map. apply (Forall_impl _ _ _ Hc). intros kc Hk. unfold channel_ok in *. cbn.
      rewrite told_pins. exact Hk.
    + replace (map _ (clients b)).*1 with (clients b).*1; [exact Hn|].
      rewrite <- list_fmap_compose. apply list_fmap_ext. reflexivity.
  - intros i Hi. rewrite report_levels. auto.
  - rewrite report_out. reflexivity.
Qed.

(** ** Channels *)

Lemma assoc_map (f : Channel -> Channel) fd cs :
  assoc fd (map (fun kc => (kc.1, f kc.2)) cs) = f <$> assoc fd cs.
Proof. induction cs as [|[k c] cs IH]; cbn; [reflexivity|]. destruct (k =? fd); [reflexivity|exact IH]. Qed.

Lemma assoc_report fd b : assoc fd (clients (report b)) = told b.(LastResolve) (out_of b) <$> assoc fd b.(clients).
Proof. apply assoc_map. Qed.

Lemma assoc_update fd fd' f cs :
  assoc fd' (update fd f cs) = if fd =? fd' then f <$> assoc fd' cs else assoc fd' cs.
Proof.
  unfold update. induction cs as [|[k c] cs IH]; cbn [assoc map fst snd]; [destruct (fd =? fd'); reflexivity|].
  destruct (k =? fd) eqn:E1; cbn [assoc]; destruct (k =? fd') eqn:E2, (fd =? fd') eqn:E3;
    rewrite ?IH; repeat zcase; try reflexivity; lia.
Qed.

Lemma update_keys fd f cs : (update fd f cs).*1 = cs.*1.
Proof.
  unfold update. rewrite <- list_fmap_compose. apply list_fmap_ext. intros _ [k c] _. cbn.
  destruct (k =? fd); reflexivity.
Qed.

(** ** The commands *)

Definition write_line (i : nat) (v : Z) : list Z := str "W " ++ print_d 3 (Z.of_nat i) ++ str " " ++ [v].

Definition pinned (fd : Z) (i : nat) (v : Z) (b : TerminalBlock) : TerminalBlock :=
  with_clients (update fd (SetPin i v) b.(clients)) b.

Lemma SetPin_ok i v c : drive v -> channel_ok c -> channel_ok (SetPin i v c).
Proof.
  intros Hv [Hn Hd]. split; cbn [SetPin c_pins].
  - rewrite length_insert. exact Hn.
  - apply Forall_insert; assumption.
Qed.

(** Changing one channel keeps the server well formed. *)
Lemma update_ok fd f b : (forall c, channel_ok c -> channel_ok (f c)) -> block_ok b ->
  block_ok (with_clients (update fd f b.(clients)) b).
Proof.
  intros Hf (Hc & Hn & Hl). split; [|split; [|exact Hl]]; cbn [with_clients clients].
  - apply Forall_map. apply (Forall_impl _ _ _ Hc). intros kc Hk. destruct (kc.1 =? fd); cbn; auto.
  - rewrite update_keys. exact Hn.
Qed.

Lemma wmatch_write i v : (i < PIN_COUNT)%nat -> drive v -> wmatch (write_line i v) = Some (Z.of_nat i, v).
Proof.
  unfold PIN_COUNT. intros Hi Hv. do 8 (destruct i as [|i]; [destruct Hv as [->|[->|[->| ->]]]; reflexivity|]). lia.
Qed.

Lemma serve_write fd i v b : (i < PIN_COUNT)%nat -> drive v -> block_ok b -> is_Some (assoc fd b.(clients)) ->
  calm (pinned fd i v b) -> found_terminator fd (write_line i v) b = Some (report (pinned fd i v b)).
Proof.
  intros Hi Hv Hb [c Hc] Hq. unfold found_terminator.
  replace (starts_with _ (write_line i v)) with true by reflexivity. rewrite wmatch_write by done.
  rewrite (proj2 (Z.ltb_lt _ _)) by lia. rewrite Hc. cbn [mbind option_bind]. rewrite Nat2Z.id.
  fold (pinned fd i v b). rewrite Resolve_calm by (done || (apply update_ok; auto using SetPin_ok)). reflexivity.
Qed.

Lemma report_id b : settled b -> report b = b.
Proof.
  intros (_ & _ & E). unfold report. rewrite <- E. destruct b as [cs last]. cbn. f_equal.
  transitivity (map (fun x => x) cs); [|apply map_id]. apply map_ext. intros [k c]. cbn. rewrite told_same. reflexivity.
Qed.

Lemma serve_query fd b : settled b ->
  found_terminator fd (str "R") b = Some (with_clients (update fd (NotifyValues b.(LastResolve)) b.(clients)) b).
Proof.
  intros Hs. pose proof Hs as (Hb & Hq & E). unfold found_terminator.
  replace (starts_with _ _) with false by reflexivity. rewrite bool_decide_eq_true_2 by reflexivity.
  rewrite Resolve_calm by done. cbn [mbind option_bind]. rewrite <- E, report_id by done. reflexivity.
Qed.

Definition subscribe (i : nat) (c : Channel) : Channel :=
  mkChannel c.(c_pins) (c.(c_notify) ++ [i]) c.(c_out).

Lemma serve_notify fd i b : (i < PIN_COUNT)%nat ->
  found_terminator fd (str "NOTIFY " ++ print_d 3 (Z.of_nat i)) b =
    Some (with_clients (update fd (subscribe i) b.(clients)) b).
Proof.
  unfold PIN_COUNT. intros Hi. do 8 (destruct i as [|i]; [reflexivity|]). lia.
Qed.

(** A change that leaves every channel's pins leaves the levels. *)
Lemma update_levels fd f i b : (forall c, c_pins (f c) = c_pins c) ->
  levels i (with_clients (update fd f b.(clients)) b) = levels i b.
Proof.
  intros Hf. unfold levels, update. cbn [with_clients clients]. rewrite map_map. apply map_ext. intros kc.
  unfold pin_of. destruct (kc.1 =? fd); cbn; rewrite ?Hf; reflexivity.
Qed.

Lemma update_settled fd f b : (forall c, c_pins (f c) = c_pins c) -> settled b ->
  settled (with_clients (update fd f b.(clients)) b).
Proof.
  intros Hf (Hb & Hq & E). split; [|split].
  - apply update_ok; [|exact Hb]. intros c. unfold channel_ok. rewrite Hf. auto.
  - intros i Hi. rewrite update_levels by exact Hf. auto.
  - cbn [with_clients LastResolve]. rewrite E. unfold out_of. apply map_ext. intros i.
    rewrite update_levels by exact Hf. reflexivity.
Qed.

(** ** Plugging in *)

Lemma loop_app es es' b : loop (es ++ es') b = (b' ← loop es b; loop es' b').
Proof. revert b. induction es as [|e es IH]; intros b; cbn; [reflexivity|]. destruct (serve e b); cbn; auto. Qed.

Lemma assoc_notin fd cs : assoc fd cs = None <-> fd ∉ cs.*1.
Proof.
  induction cs as [|[k c] cs IH]; cbn; [split; auto; inversion 2|].
  rewrite not_elem_of_cons. zcase; [split; [done|intros [Hk _]; congruence]|].
  rewrite IH. split; [intros; split; [congruence|done]|intros [_ ?]; done].
Qed.

Lemma update_last fd f cs c : assoc fd cs = None -> update fd f (cs ++ [(fd, c)]) = cs ++ [(fd, f c)].
Proof.
  intros Hn. unfold update. rewrite map_app. cbn. rewrite Z.eqb_refl. f_equal.
  apply assoc_notin in Hn. induction cs as [|[k d] cs IH]; cbn in *; [reflexivity|].
  apply not_elem_of_cons in Hn as [Hk Hn]. rewrite (proj2 (Z.eqb_neq k fd)) by congruence. rewrite IH by done. reflexivity.
Qed.

Lemma assoc_last fd cs c : assoc fd cs = None -> assoc fd (cs ++ [(fd, c)]) = Some c.
Proof.
  induction cs as [|[k d] cs IH]; cbn; [rewrite Z.eqb_refl; reflexivity|]. destruct (k =? fd); [discriminate|exact IH].
Qed.

Lemma assoc_other fd fd' cs c : fd' <> fd -> assoc fd' (cs ++ [(fd, c)]) = assoc fd' cs.
Proof.
  intros Hne. induction cs as [|[k d] cs IH]; cbn; [zcase; [congruence|reflexivity]|].
  destruct (k =? fd'); [reflexivity|exact IH].
Qed.

Lemma default_ok nt os : channel_ok (mkChannel GetDefaultPins nt os).
Proof.
  split; [reflexivity|]. cbn [c_pins]. unfold GetDefaultPins, PIN_COUNT. cbn [repeat].
  repeat (apply Forall_cons; split; [unfold drive; auto|]). apply Forall_nil; exact I.
Qed.

(** A client that drives nothing changes no level. *)
Lemma idle_levels i b fd nt os :
  levels i (with_clients (b.(clients) ++ [(fd, mkChannel GetDefaultPins nt os)]) b) = levels i b ++ [CX].
Proof.
  unfold levels. cbn [with_clients clients]. rewrite map_app. cbn [map]. f_equal. unfold pin_of.
  cbn [snd c_pins]. unfold GetDefaultPins, PIN_COUNT. do 8 (destruct i as [|i]; [reflexivity|]). destruct i; reflexivity.
Qed.

Lemma strongest_idle l : strongest (l ++ [CX]) = strongest l /\ clash (l ++ [CX]) = clash l.
Proof. unfold strongest, clash. rewrite !has_app. cbn. rewrite !orb_false_r. auto. Qed.

Lemma idle_settled b fd nt os : settled b -> assoc fd b.(clients) = None ->
  settled (with_clients (b.(clients) ++ [(fd, mkChannel GetDefaultPins nt os)]) b).
Proof.
  intros ((Hc & Hn & Hl) & Hq & E) Hf. split; [split; [|split; [|exact Hl]]|split].
  - cbn [with_clients clients]. apply Forall_app. split; [exact Hc|]. constructor; [|constructor].
    apply default_ok.
  - cbn [with_clients clients]. rewrite fmap_app. apply NoDup_app. split; [exact Hn|]. split; [|apply NoDup_singleton].
    intros k Hk Hk'. apply list_elem_of_singleton in Hk' as ->. apply assoc_notin in Hf. auto.
  - intros i Hi. rewrite idle_levels. rewrite (proj2 (strongest_idle _)). auto.
  - cbn [with_clients LastResolve]. rewrite E. unfold out_of. apply map_ext. intros i.
    rewrite idle_levels. rewrite (proj1 (strongest_idle _)). reflexivity.
Qed.

(** A peripheral that connects is told the levels, and from then on of changes
    to its pins. *)
Lemma plug_in fd pinlist b : settled b -> assoc fd b.(clients) = None -> Forall (fun i => (i < PIN_COUNT)%nat) pinlist ->
  loop (Accept fd :: map (Line fd) (Peripheral_init pinlist)) b =
    Some (with_clients (b.(clients) ++ [(fd, mkChannel GetDefaultPins pinlist [str "R " ++ b.(LastResolve)])]) b).
Proof.
  intros Hs Hf Hp. unfold Peripheral_init. rewrite map_app. cbn [loop serve mbind option_bind].
  unfold handle_accept, Channel_init. rewrite Hf. rewrite loop_app.
  assert (H : forall nt, loop (map (Line fd) (map (fun i => str "NOTIFY " ++ print_d 3 (Z.of_nat i)) pinlist))
             (with_clients (b.(clients) ++ [(fd, mkChannel GetDefaultPins nt [])]) b) =
           Some (with_clients (b.(clients) ++ [(fd, mkChannel GetDefaultPins (nt ++ pinlist) [])]) b)).
  { induction Hp as [|i l Hi _ IH]; intros nt; cbn [map loop serve]; [rewrite app_nil_r; reflexivity|].
    rewrite serve_notify by done. cbn [mbind option_bind with_clients clients]. rewrite update_last by done.
    unfold subscribe at 1. cbn [c_pins c_notify c_out LastResolve with_clients]. rewrite (cons_middle i nt l), app_assoc. apply IH. }
  rewrite (H []). cbn [mbind option_bind app map loop serve].
  rewrite serve_query by (apply idle_settled; assumption). cbn [mbind option_bind with_clients clients LastResolve].
  rewrite update_last by done. reflexivity.
Qed.

(** ** A single driver *)

(** Only [fd] drives anything. *)
Definition idle_but (fd : Z) (b : TerminalBlock) : Prop :=
  Forall (fun kc => kc.1 <> fd -> kc.2.(c_pins) = GetDefaultPins) b.(clients).

Lemma pin_default i c : c_pins c = GetDefaultPins -> pin_of i c = CX.
Proof.
  intros E. unfold pin_of. rewrite E. unfold GetDefaultPins, PIN_COUNT.
  do 8 (destruct i as [|i]; [reflexivity|]). destruct i; reflexivity.
Qed.

Lemma sole_has v i fd cs : v <> CX -> NoDup cs.*1 ->
  Forall (fun kc => kc.1 <> fd -> kc.2.(c_pins) = GetDefaultPins) cs ->
  has v (map (fun kc => pin_of i kc.2) cs) = match assoc fd cs with Some c => v =? pin_of i c | None => false end.
Proof.
  intros Hv Hn Hi. unfold has. induction Hi as [|[k c] cs Hc _ IH]; [reflexivity|].
  cbn [map existsb assoc snd]. apply NoDup_cons in Hn as [Hk Hn]. rewrite (IH Hn). destruct (Z.eqb_spec k fd) as [->|Hne].
  - rewrite (proj2 (assoc_notin fd cs)) by exact Hk. apply orb_false_r.
  - rewrite (pin_default i c) by (apply Hc; exact Hne). rewrite (proj2 (Z.eqb_neq v CX)) by done. reflexivity.
Qed.

Lemma pins_list c : length (c_pins c) = PIN_COUNT -> map (fun i => pin_of i c) (seq 0 PIN_COUNT) = c_pins c.
Proof.
  intros Hn. apply list_eq. intros i. change (map ?f ?l) with (f <$> l). rewrite list_lookup_fmap.
  destruct (decide (i < PIN_COUNT)%nat) as [Hi|Hi].
  - rewrite lookup_seq_lt by done. cbn. unfold pin_of. rewrite nth_lookup.
    destruct (lookup_lt_is_Some_2 (c_pins c) i) as [v ->]; [lia|reflexivity].
  - rewrite lookup_seq_ge by lia. cbn. symmetry. apply lookup_ge_None_2. lia.
Qed.

(** The levels are then the driver's pins. *)
Lemma sole_out fd b c : block_ok b -> idle_but fd b -> assoc fd b.(clients) = Some c ->
  channel_ok c -> calm b /\ out_of b = c_pins c.
Proof.
  intros (_ & Hn & _) Hi Ha Hok.
  assert (H : forall v i, v <> CX -> has v (levels i b) = (v =? pin_of i c)).
  { intros v i Hv. unfold levels. rewrite (sole_has v i fd) by done. rewrite Ha. reflexivity. }
  split.
  - intros i _. unfold clash. rewrite !H by done. destruct (drive_pin i c Hok) as [->|[->|[->| ->]]]; reflexivity.
  - rewrite <- (pins_list c) by apply Hok. unfold out_of. apply map_ext. intros i. unfold strongest.
    rewrite !H by done. destruct (drive_pin i c Hok) as [->|[->|[->| ->]]]; reflexivity.
Qed.

Lemma assoc_ok fd b c : block_ok b -> assoc fd b.(clients) = Some c -> channel_ok c.
Proof.
  intros (Hc & _). induction Hc as [|[k d] cs Hd _ IH]; cbn; [discriminate|].
  destruct (k =? fd); [intros [= <-]; exact Hd|exact IH].
Qed.

Lemma idle_pinned fd i v b : idle_but fd b -> idle_but fd (pinned fd i v b).
Proof.
  intros Hi. apply Forall_map. apply (Forall_impl _ _ _ Hi). intros kc Hk. zcase; cbn; auto. congruence.
Qed.

Lemma idle_report fd b : idle_but fd b -> idle_but fd (report b).
Proof. intros Hi. apply Forall_map. apply (Forall_impl _ _ _ Hi). intros kc. cbn. rewrite told_pins. auto. Qed.

(** ** Wired-and panels *)

(** No client drives a high level: everybody pulls low, pulls up or lets go. *)
Definition open_drain (b : TerminalBlock) : Prop := Forall (fun kc => C1 ∉ kc.2.(c_pins)) b.(clients).

Lemma open_levels i b : open_drain b -> has C1 (levels i b) = false.
Proof.
  intros Ho. unfold levels, has. induction Ho as [|[k c] cs Hc _ IH]; cbn [map existsb snd]; [reflexivity|]. rewrite IH, orb_false_r.
  apply Z.eqb_neq. intros E. apply Hc. unfold pin_of in E. cbn [snd] in *. rewrite nth_lookup in E.
  destruct (c_pins c !! i) as [v|] eqn:El; cbn in E; [|discriminate]. subst v. apply (list_elem_of_lookup_2 _ _ _ El).
Qed.

Lemma open_calm b : open_drain b -> calm b.
Proof. intros Ho i _. unfold clash. rewrite open_levels by done. reflexivity. Qed.

Lemma open_map f b last : (forall c, C1 ∉ c_pins c -> C1 ∉ c_pins (f c)) -> open_drain b ->
  open_drain (mkBlock (map (fun kc => (kc.1, f kc.2)) b.(clients)) last).
Proof. intros Hf Ho. apply Forall_map. apply (Forall_impl _ _ _ Ho). intros kc. apply Hf. Qed.

Lemma open_update fd f b : (forall c, C1 ∉ c_pins c -> C1 ∉ c_pins (f c)) -> open_drain b ->
  open_drain (with_clients (update fd f b.(clients)) b).
Proof.
  intros Hf Ho. apply Forall_map. apply (Forall_impl _ _ _ Ho). intros kc Hk. destruct (kc.1 =? fd); cbn; auto.
Qed.

Lemma open_report b : open_drain b -> open_drain (report b).
Proof. apply open_map. intros c. rewrite told_pins. auto. Qed.

Lemma SetPin_open i v c : v <> C1 -> C1 ∉ c_pins c -> C1 ∉ c_pins (SetPin i v c).
Proof.
  intros Hv Hc Hin. apply list_elem_of_lookup in Hin as [j Hj]. cbn [SetPin c_pins] in Hj.
  apply list_lookup_insert_Some in Hj as [(_ & E & _)|[_ Hj]]; [congruence|]. apply Hc, (list_elem_of_lookup_2 _ _ _ Hj).
Qed.

Lemma wmatch_drive data pin v : wmatch data = Some (pin, v) -> drive v.
Proof.
  unfold wmatch. destruct (starts_with _ _); [|discriminate]. destruct (digits _ _) as [[|d ds] rest]; [discriminate|].
  intros H. destruct rest as [|sp [|c rest]]; [discriminate|destruct sp as [|p|p]; try discriminate; repeat (destruct p as [p|p|]; try discriminate)|].
  assert (E : (if bool_decide (c ∈ [C1; C0; CP; CX]) then Some (int_of (d :: ds), c) else None) = Some (pin, v)).
  { destruct sp as [|p|p]; try discriminate. repeat (destruct p as [p|p|]; try discriminate). exact H. }
  case_bool_decide as Hc; [|discriminate]. injection E as _ ->. rewrite !elem_of_cons, elem_of_nil in Hc. unfold drive. tauto.
Qed.

(** What may happen next: descriptors are those of open connections, and nobody
    asks for a high level. *)
Definition may (e : event) (b : TerminalBlock) : Prop :=
  match e with
  | Accept fd => assoc fd b.(clients) = None
  | Line fd data => is_Some (assoc fd b.(clients)) /\ forall pin, wmatch data <> Some (pin, C1)
  | Close fd => is_Some (assoc fd b.(clients))
  end.

Definition good (b : TerminalBlock) : Prop := settled b /\ open_drain b.

Lemma resolve_good b : block_ok b -> open_drain b -> exists b', Resolve b = Some (out_of b, b') /\ good b' /\ b' = report b.
Proof.
  intros Hb Ho. exists (report b). split; [apply Resolve_calm; auto using open_calm|].
  split; [split; [apply report_settled; auto using open_calm|apply open_report, Ho]|reflexivity].
Qed.

Lemma close_ok fd b : block_ok b -> open_drain b ->
  let b' := with_clients (filter (fun kc => kc.1 <> fd) b.(clients)) b in block_ok b' /\ open_drain b'.
Proof.
  intros (Hc & Hn & Hl) Ho. split; [split; [|split; [|exact Hl]]|]; cbn [with_clients clients].
  - apply Forall_forall. intros kc Hk. apply list_elem_of_filter in Hk as [_ Hk]. rewrite Forall_forall in Hc. auto.
  - refine (sublist_NoDup _ _ Hn _). apply fmap_sublist. apply sublist_filter.
  - apply Forall_forall. intros kc Hk. apply list_elem_of_filter in Hk as [_ Hk].
    unfold open_drain in Ho. rewrite Forall_forall in Ho. auto.
Qed.

Lemma serve_good e b : good b -> may e b -> exists b', serve e b = Some b' /\ good b'.
Proof.
  intros [Hs Ho] He. pose proof Hs as (Hb & _). destruct e as [fd|fd data|fd]; cbn [serve may] in *.
  - eexists. split; [reflexivity|]. unfold handle_accept. rewrite He. split; [apply idle_settled; assumption|].
    apply Forall_app. split; [exact Ho|]. constructor; [|constructor]. cbn. rewrite !elem_of_cons, elem_of_nil.
    unfold C1, CX. lia.
  - assert (Hsame : exists b', Some b = Some b' /\ good b') by (exists b; repeat split; done || apply Hs).
    destruct He as [Hfd Hv]. unfold found_terminator. destruct (starts_with _ data).
    + destruct (wmatch data) as [[pin v]|] eqn:Ew; [|exact Hsame]. zcase; [|exact Hsame].
      destruct Hfd as [c ->]. cbn [mbind option_bind].
      assert (Hd : drive v) by (apply (wmatch_drive _ _ _ Ew)).
      assert (Hv1 : v <> C1) by (intros ->; apply (Hv pin); reflexivity).
      destruct (resolve_good (pinned fd (Z.to_nat pin) v b)) as (b' & E & Hg & _).
      * apply update_ok; auto using SetPin_ok.
      * apply open_update; auto using SetPin_open.
      * unfold pinned in E. rewrite E. cbn. eauto.
    + case_bool_decide.
      * destruct (resolve_good b Hb Ho) as (b' & -> & [Hs' Ho'] & _). cbn [mbind option_bind].
        eexists. split; [reflexivity|]. split; [apply update_settled|apply open_update]; auto.
      * destruct (starts_with _ data); [|exact Hsame]. destruct (nmatch data) as [pin|]; [|exact Hsame].
        destruct (pin <? _); [|exact Hsame]. eexists. split; [reflexivity|].
        split; [apply update_settled|apply open_update]; auto.
  - destruct He as [c Hc]. unfold handle_close. rewrite Hc. cbn [mbind option_bind].
    destruct (close_ok fd b Hb Ho) as [Hb' Ho']. destruct (resolve_good _ Hb' Ho') as (b' & E & Hg & _).
    rewrite E. cbn. eauto.
Qed.

(** Every prefix of the traffic is admissible. *)
Fixpoint may_all (es : list event) (b : TerminalBlock) : Prop :=
  match es with
  | [] => True
  | e :: es' => may e b /\ forall b', serve e b = Some b' -> may_all es' b'
  end.

Lemma loop_good es : forall b, good b -> may_all es b -> exists b', loop es b = Some b' /\ good b'.
Proof.
  induction es as [|e es IH]; intros b Hg He; cbn [loop may_all] in *; [eauto|]. destruct He as [He Hes].
  destruct (serve_good e b Hg He) as (b' & E & Hg'). rewrite E. cbn. apply IH; auto.
Qed.

Lemma init_good : good TerminalBlock_init.
Proof.
  split; [split; [split; [constructor|split; [constructor|reflexivity]]|split; [|reflexivity]]|constructor].
  intros i _. reflexivity.
Qed.

(** ** Notifications *)

(** Of every pin in [ns], the last line sent to [fd] carries the level last published. *)
Definition informed (fd : Z) (ns : list nat) (b : TerminalBlock) : Prop :=
  exists c vals, assoc fd b.(clients) = Some c /\ ns ⊆ c.(c_notify) /\
    last c.(c_out) = Some (str "R " ++ vals) /\ forall n, n ∈ ns -> vals !! n = b.(LastResolve) !! n.

Lemma last_push line c : last (c_out (push line c)) = Some line.
Proof. apply last_snoc. Qed.

Lemma informed_report fd ns b : block_ok b -> informed fd ns b -> informed fd ns (report b).
Proof.
  intros (_ & _ & Hl) (c & vals & Hc & Hn & Ho & Hv). unfold informed. rewrite assoc_report, Hc.
  cbn [fmap option_fmap option_map report LastResolve]. unfold told. destruct (hears _ _ c) eqn:Eh.
  - eexists _, (out_of b). split; [reflexivity|]. split; [exact Hn|]. split; [apply last_push|reflexivity].
  - eexists _, vals. split; [reflexivity|]. split; [exact Hn|]. split; [exact Ho|]. intros n Hin. rewrite Hv by done.
    destruct (decide (out_of b !! n = b.(LastResolve) !! n)) as [E|Hd]; [symmetry; exact E|]. exfalso.
    assert (E : hears b.(LastResolve) (out_of b) c = true); [|congruence]. apply existsb_exists. exists n.
    split; [apply list_elem_of_In, Hn, Hin|]. apply bool_decide_eq_true_2. apply list_elem_of_filter.
    split; [exact Hd|]. apply elem_of_seq. rewrite length_out. destruct (decide (n < PIN_COUNT)%nat); [lia|].
    exfalso. apply Hd. rewrite !lookup_ge_None_2 by (rewrite ?length_out, ?Hl; lia). reflexivity.
Qed.

(** A change to a channel that keeps its subscriptions and the truth of its last line. *)
Lemma informed_update fd fd' ns f b :
  (forall c, c_notify c ⊆ c_notify (f c)) ->
  (forall c, c_out (f c) = c_out c \/ last (c_out (f c)) = Some (str "R " ++ b.(LastResolve))) ->
  informed fd ns b -> informed fd ns (with_clients (update fd' f b.(clients)) b).
Proof.
  intros Hn Ho (c & vals & Hc & Hs & Hl & Hv). unfold informed. cbn [with_clients clients LastResolve].
  rewrite assoc_update. destruct (fd' =? fd); [|exists c, vals; auto]. rewrite Hc. cbn [fmap option_fmap option_map].
  destruct (Ho c) as [E|E].
  - exists (f c), vals. split; [reflexivity|]. split; [etrans; [exact Hs|apply Hn]|]. rewrite E. auto.
  - exists (f c), b.(LastResolve). split; [reflexivity|]. split; [etrans; [exact Hs|apply Hn]|]. auto.
Qed.

(** The connection stays. *)
Definition keeps (fd : Z) (e : event) : Prop :=
  match e with Accept fd' | Close fd' => fd' <> fd | Line _ _ => True end.

Lemma informed_close fd fd' ns b : fd' <> fd -> informed fd ns b ->
  informed fd ns (with_clients (filter (fun kc => kc.1 <> fd') b.(clients)) b).
Proof.
  intros Hne (c & vals & Hc & R). exists c, vals. split; [|exact R]. cbn [with_clients clients].
  revert Hc. clear R. induction b.(clients) as [|[k d] cs IH]; cbn [assoc]; [discriminate|].
  rewrite filter_cons. case_decide as Hd; cbn [assoc]; destruct (Z.eqb_spec k fd) as [->|]; auto.
  cbn in Hd. congruence.
Qed.

Lemma informed_serve fd ns e b b' : good b -> may e b -> keeps fd e -> informed fd ns b ->
  serve e b = Some b' -> informed fd ns b'.
Proof.
  intros [Hs Ho] He Hk Hi. pose proof Hs as (Hb & Hq & El). destruct e as [fd'|fd' data|fd']; cbn [serve may keeps] in *.
  - intros [= <-]. unfold handle_accept. rewrite He. destruct Hi as (c & vals & Hc & R). exists c, vals.
    split; [|exact R]. cbn [with_clients clients]. rewrite assoc_other by congruence. exact Hc.
  - destruct He as [[c Hc] Hv]. unfold found_terminator. destruct (starts_with _ data).
    + destruct (wmatch data) as [[pin v]|] eqn:Ew; [|intros [= <-]; exact Hi]. zcase; [|intros [= <-]; exact Hi].
      rewrite Hc. cbn [mbind option_bind]. pose proof (wmatch_drive _ _ _ Ew) as Hd.
      assert (Hv1 : v <> C1) by (intros ->; apply (Hv pin); reflexivity).
      assert (Hb1 : block_ok (pinned fd' (Z.to_nat pin) v b)) by (apply update_ok; auto using SetPin_ok).
      assert (Ho1 : open_drain (pinned fd' (Z.to_nat pin) v b)) by (apply open_update; auto using SetPin_open).
      fold (pinned fd' (Z.to_nat pin) v b). rewrite Resolve_calm by auto using open_calm. intros [= <-].
      apply informed_report; [exact Hb1|]. apply informed_update; auto.
    + case_bool_decide.
      * rewrite Resolve_calm by done. cbn [mbind option_bind]. rewrite <- El, report_id by done. intros [= <-].
        apply informed_update; auto. intros c'. right. apply last_push.
      * destruct (starts_with _ data); [|intros [= <-]; exact Hi]. destruct (nmatch data); [|intros [= <-]; exact Hi].
        destruct (_ <? _); [|intros [= <-]; exact Hi]. intros [= <-]. apply informed_update; auto.
        intros c'. cbn. apply list_subseteq_app_l. done.
  - destruct He as [c Hc]. unfold handle_close. rewrite Hc. cbn [mbind option_bind].
    destruct (close_ok fd' b Hb Ho) as [Hb1 Ho1]. rewrite Resolve_calm by auto using open_calm. intros [= <-].
    apply informed_report; [exact Hb1|]. apply informed_close; assumption.
Qed.

Lemma informed_loop fd ns es : forall b, good b -> may_all es b -> Forall (keeps fd) es -> informed fd ns b ->
  exists b', loop es b = Some b' /\ good b' /\ informed fd ns b'.
Proof.
  induction es as [|e es IH]; intros b Hg He Hk Hi; cbn [loop may_all] in *; [eauto|].
  destruct He as [He Hes]. inversion Hk as [|? ? Hk1 Hk2]; subst.
  destruct (serve_good e b Hg He) as (b' & E & Hg'). rewrite E. cbn.
  apply IH; auto. apply (informed_serve fd ns e b b'); auto.
Qed.

Lemma plug_in_good fd pinlist b : good b -> assoc fd b.(clients) = None -> Forall (fun i => (i < PIN_COUNT)%nat) pinlist ->
  exists b', loop (Accept fd :: map (Line fd) (Peripheral_init pinlist)) b = Some b' /\ good b' /\
    informed fd pinlist b' /\
    b'.(clients) = b.(clients) ++ [(fd, mkChannel GetDefaultPins pinlist [str "R " ++ b.(LastResolve)])].
Proof.
  intros [Hs Ho] Hf Hp. rewrite plug_in by done. eexists. split; [reflexivity|]. split; [split|split].
  - apply idle_settled; assumption.
  - apply Forall_app. split; [exact Ho|]. constructor; [|constructor]. cbn. rewrite !elem_of_cons, elem_of_nil.
    unfold C1, CX. lia.
  - eexists _, _. split; [apply assoc_last, Hf|]. split; [reflexivity|]. split; [reflexivity|reflexivity].
  - reflexivity.
Qed.

(** ** Claims *)

(** C22: Arbitration between any number of clients.  While nobody disputes a pin,
    its level is the strongest one driven (low or high, else a pull-up, else
    undriven), in whatever order the dict yields the clients.  When two clients
    drive it to opposite levels the outcome depends on the order: ['E'] if the
    last client completes the clash, and otherwise a KeyError. *)
Theorem panel_arbitration b pin (Hb : block_ok b) (Hp : (pin < PIN_COUNT)%nat) :
  (clash (levels pin b) = false ->
     forall b', b'.(clients) ≡ₚ b.(clients) -> length b'.(LastResolve) = PIN_COUNT ->
       ResolvePin b' pin = Some (strongest (levels pin b))) /\
  (clash (levels pin b) = true ->
     ResolvePin b pin = if clash (removelast (levels pin b)) then None else Some CE).
Proof.
  split.
  - intros Hc b' Hperm Hl.
    assert (Hb' : block_ok b').
    { destruct Hb as (H1 & H2 & _). split; [|split; [|exact Hl]].
      - rewrite Hperm. exact H1.
      - rewrite Hperm. exact H2. }
    assert (Hlv : levels pin b' ≡ₚ levels pin b) by (apply fmap_Permutation, Hperm).
    destruct (strongest_perm _ _ Hlv) as [Es Ec]. rewrite ResolvePin_eq, Ec, Hc, Es by done. reflexivity.
  - intros Hc. rewrite ResolvePin_eq, Hc by done. reflexivity.
Qed.

Definition contended : TerminalBlock :=
  mkBlock [(4, SetPin 0 C1 Channel_init); (5, SetPin 0 C0 Channel_init); (6, Channel_init)] GetDefaultPins.

Lemma contended_ok : block_ok contended.
Proof.
  split; [|split; [|reflexivity]].
  - repeat (apply Forall_cons; split; [try apply SetPin_ok; try apply default_ok; unfold drive; auto|]).
    apply Forall_nil; exact I.
  - cbn. repeat (apply NoDup_cons; split; [rewrite ?elem_of_cons, ?elem_of_nil; lia|]). apply NoDup_nil; exact I.
Qed.

Lemma panel_arbitration_witness : ResolvePin contended 0 = None /\ ResolvePin contended 1 = Some CX.
Proof.
  split.
  - exact (proj2 (panel_arbitration contended 0 contended_ok ltac:(unfold PIN_COUNT; lia)) eq_refl).
  - exact (proj1 (panel_arbitration contended 1 contended_ok ltac:(unfold PIN_COUNT; lia)) eq_refl
             contended (Permutation_refl _) eq_refl).
Defined.

(** A command for a pin that the panel does not have is ignored; the comment at the
    top of panel.py says that it triggers an exception. *)
Lemma out_of_range_ignored fd data b pin :
  (exists val, wmatch data = Some (pin, val)) \/ nmatch data = Some pin -> Z.of_nat PIN_COUNT <= pin ->
  found_terminator fd data b = Some b.
Proof.
  intros Hm Hp. unfold found_terminator. apply Z.ltb_ge in Hp. destruct Hm as [[val Hm]|Hm].
  - rewrite Hm, Hp. destruct (starts_with (str "W ") data) eqn:E; [reflexivity|]. unfold wmatch in Hm. rewrite E in Hm. discriminate.
  - unfold nmatch in Hm. destruct (starts_with (str "NOTIFY ") data) eqn:E; [|discriminate].
    pose proof E as Es. unfold starts_with in E. apply bool_decide_eq_true in E.
    destruct data as [|x [|y data]]; try discriminate.
    injection E as -> -> _. change (starts_with (str "W ") (78 :: 79 :: data)) with false. cbv iota.
    rewrite bool_decide_eq_false_2 by discriminate. unfold nmatch.
    rewrite Es, Hm, Hp. reflexivity.
Qed.

(** C33: A panel on which nobody drives a high level never fails.  Whatever
    connections are made, broken or used, in any order and with any text on the
    lines, commands for pins that the panel does not have included (they are
    ignored, against the comment at the top of panel.py), no exception is raised,
    and the levels last published are always the wired-and of what the connected
    clients drive. *)
Theorem panel_serves es (Hes : may_all es TerminalBlock_init) :
  exists b, loop es TerminalBlock_init = Some b /\
    forall i, (i < PIN_COUNT)%nat ->
      b.(LastResolve) !! i =
        Some (if has C0 (levels i b) then C0 else if has CP (levels i b) then CP else CX).
Proof.
  destruct (loop_good es _ init_good Hes) as (b & E & ((_ & _ & El) & Ho)). exists b. split; [exact E|].
  intros i Hi. rewrite El, out_lookup by done. unfold strongest. rewrite open_levels by done. reflexivity.
Qed.

Lemma panel_serves_witness :
  exists b, loop [Accept 4; Line 4 (str "W 1 P"); Accept 5; Line 5 (str "W 1 0"); Line 4 (str "huh?"); Line 4 (str "W 9 0"); Close 5]
                 TerminalBlock_init = Some b /\ b.(LastResolve) !! 1%nat = Some CP.
Proof.
  destruct (panel_serves [Accept 4; Line 4 (str "W 1 P"); Accept 5; Line 5 (str "W 1 0"); Line 4 (str "huh?"); Line 4 (str "W 9 0"); Close 5])
    as (b & E & H).
  - cbn [may_all may serve].
    repeat (split; [first [split; [eexists; vm_compute; reflexivity|intros pin; vm_compute; discriminate]
                          | eexists; vm_compute; reflexivity | vm_compute; reflexivity]
                   |let b := fresh in let E := fresh in intros b E; vm_compute in E; injection E as <-]).
    exact I.
  - exists b. split; [exact E|]. rewrite H by (unfold PIN_COUNT; lia). vm_compute in E. injection E as <-. reflexivity.
Defined.

(** Subscribers are never stale.  A peripheral plugs in with a list of pins;
    whatever the other clients then do, in any order (nobody driving high), the
    last line the server sent it carries, for each of its pins, the level the
    server currently publishes. *)
Theorem panel_notifies fd pinlist es b (Hg : good b) (Hf : assoc fd b.(clients) = None)
    (Hp : Forall (fun i => (i < PIN_COUNT)%nat) pinlist) (Hk : Forall (keeps fd) es)
    (Hes : forall b', loop (Accept fd :: map (Line fd) (Peripheral_init pinlist)) b = Some b' -> may_all es b') :
  exists b' c vals,
    loop ((Accept fd :: map (Line fd) (Peripheral_init pinlist)) ++ es) b = Some b' /\
    assoc fd b'.(clients) = Some c /\ last c.(c_out) = Some (str "R " ++ vals) /\
    forall n, n ∈ pinlist -> vals !! n = b'.(LastResolve) !! n.
Proof.
  destruct (plug_in_good fd pinlist b Hg Hf Hp) as (b1 & E1 & Hg1 & Hi1 & _).
  destruct (informed_loop fd pinlist es b1 Hg1 (Hes b1 E1) Hk Hi1) as (b' & E' & _ & (c & vals & Hc & _ & Hl & Hv)).
  exists b', c, vals. rewrite loop_app, E1. auto.
Qed.

Lemma panel_notifies_witness :
  exists b' c vals,
    loop ((Accept 4 :: map (Line 4) (Peripheral_init [3%nat])) ++ [Accept 5; Line 5 (str "W 3 0")]) TerminalBlock_init
      = Some b' /\
    assoc 4 b'.(clients) = Some c /\ last c.(c_out) = Some (str "R " ++ vals) /\
    forall n, n ∈ [3%nat] -> vals !! n = b'.(LastResolve) !! n.
Proof.
  apply (panel_notifies 4 [3%nat] [Accept 5; Line 5 (str "W 3 0")] TerminalBlock_init).
  - exact init_good.
  - reflexivity.
  - constructor; [unfold PIN_COUNT; lia|constructor].
  - constructor; [cbn; lia|]. constructor; [exact I|constructor].
  - intros b' E. vm_compute in E. injection E as <-. split; [reflexivity|]. intros b' E. vm_compute in E. injection E as <-.
    split; [split; [eexists; vm_compute; reflexivity|intros pin; vm_compute; discriminate]|].
    intros b' E. exact I.
Defined.

End PanelSpec.
