(* ===== verification/PanelLcd.v ===== *)
(** The display on the panel: what lcdwrite.py writes is what hd44780.py shows,
    with the panel's server between them. *)
From Stdlib Require Import ZArith Lia.
From stdpp Require Import base list numbers option strings.
From S2P Require Import Prelude Python Panel PanelSpec.

Module PanelLcd.
Import Python Panel PanelSpec.

(** ** The display alone, fed with levels *)

Definition with_E (e : Z) (l : PanelEvents) : PanelEvents :=
  mkEvents e l.(prev_cmnd) l.(prev_data) l.(lcd_init) l.(lcd_text) l.(lcd_cursor) l.(lcd_shown).

(** The display after one more report; reports always carry its six pins. *)
Definition see (q : list Z) (l : PanelEvents) : PanelEvents :=
  default l (pins_updated (take 6 q) l).

(** A pin is set, and the display sees the levels. *)
Definition put (s : list Z * PanelEvents) (w : nat * Z) : list Z * PanelEvents :=
  let q := <[w.1 := w.2]> s.1 in (q, see q s.2).

Definition puts (ws : list (nat * Z)) (s : list Z * PanelEvents) : list Z * PanelEvents := foldl put s ws.

Lemma puts_app ws ws' s : puts (ws ++ ws') s = puts ws' (puts ws s).
Proof. apply foldl_app. Qed.

Lemma puts_cons w ws s : puts (w :: ws) s = puts ws (put s w).
Proof. reflexivity. Qed.

Definition bit (n k : Z) : Z := if Z.shiftr (Z.land n (2 ^ k)) k =? 0 then C0 else C1.

(** The writes of one nibble. *)
Definition nibble (n : Z) : list (nat * Z) :=
  [(HD_DB4, bit n 0); (HD_DB5, bit n 1); (HD_DB6, bit n 2); (HD_DB7, bit n 3); (HD_E, C0); (HD_E, C1)].

(** What the rising edge of E latches. *)
Definition latched (rs n : Z) (l : PanelEvents) : PanelEvents :=
  with_E C1 (if rs =? C0 then latch_command n l else latch_data n l).

Lemma data_val_bits n : 0 <= n < 16 -> data_val (bit n 3) (bit n 2) (bit n 1) (bit n 0) = n.
Proof.
  intros Hn. apply Z.eqb_eq.
  apply (forall_range (fun n => data_val (bit n 3) (bit n 2) (bit n 1) (bit n 0) =? n) 16); [reflexivity|exact Hn].
Qed.

(** Without an edge on E nothing happens. *)
Lemma see_still e rs d4 d5 d6 d7 x y l : prev_E l = e -> see [e; rs; d4; d5; d6; d7; x; y] l = l.
Proof. intros <-. unfold see. cbn. destruct l as [e ? ? ? ? ? ?]. cbn [prev_E]. destruct (e =? C0); reflexivity. Qed.

Lemma see_low e rs d4 d5 d6 d7 x y l : prev_E l = e -> see [C0; rs; d4; d5; d6; d7; x; y] l = with_E C0 l.
Proof. intros _. reflexivity. Qed.

Lemma see_high rs d4 d5 d6 d7 x y l :
  see [C1; rs; d4; d5; d6; d7; x; y] (with_E C0 l) =
    with_E C1 (if rs =? C0 then latch_command (data_val d7 d6 d5 d4) (with_E C0 l)
               else latch_data (data_val d7 d6 d5 d4) (with_E C0 l)).
Proof. reflexivity. Qed.

Lemma latched_E rs n l : latched rs n (with_E C0 l) = latched rs n l.
Proof.
  unfold latched, latch_command, latch_data, with_E, lcd_update. destruct l as [e cm dt ini txt cur sh].
  cbn [prev_E prev_cmnd prev_data lcd_init lcd_text lcd_cursor lcd_shown]. destruct (rs =? C0).
  - destruct (cm ++ [n]) as [|h [|lo r]]; try reflexivity. destruct (_ =? 6); reflexivity.
  - destruct ini; [|reflexivity]. destruct (dt ++ [n]) as [|h [|lo r]]; reflexivity.
Qed.

Lemma puts_nibble n e rs d4 d5 d6 d7 x y l : 0 <= n < 16 -> prev_E l = e ->
  puts (nibble n) ([e; rs; d4; d5; d6; d7; x; y], l) =
    ([C1; rs; bit n 0; bit n 1; bit n 2; bit n 3; x; y], latched rs n l).
Proof.
  intros Hn He. unfold puts, nibble, HD_DB4, HD_DB5, HD_DB6, HD_DB7, HD_E. cbn [foldl put fst snd].
  unfold put. cbn [fst snd].
  change (<[2%nat := ?v]> [e; rs; d4; d5; d6; d7; x; y]) with [e; rs; v; d5; d6; d7; x; y].
  rewrite (see_still e rs (bit n 0)) by done.
  change (<[3%nat := ?v]> (?a :: ?b :: ?c :: ?d :: ?r)) with (a :: b :: c :: v :: r).
  rewrite (see_still e rs (bit n 0) (bit n 1)) by done.
  change (<[4%nat := ?v]> (?a :: ?b :: ?c :: ?d :: ?f :: ?r)) with (a :: b :: c :: d :: v :: r).
  rewrite (see_still e rs (bit n 0) (bit n 1) (bit n 2)) by done.
  change (<[5%nat := ?v]> (?a :: ?b :: ?c :: ?d :: ?f :: ?g :: ?r)) with (a :: b :: c :: d :: f :: v :: r).
  rewrite (see_still e rs (bit n 0) (bit n 1) (bit n 2) (bit n 3)) by done.
  change (<[0%nat := ?v]> (?a :: ?r)) with (v :: r). rewrite (see_low e) by done.
  change (<[0%nat := ?v]> (?a :: ?r)) with (v :: r). rewrite see_high, data_val_bits by done.
  f_equal. rewrite <- (latched_E rs n l). reflexivity.
Qed.

(** ** Characters and texts *)

Definition byte_writes (rs c : Z) : list (nat * Z) :=
  (HD_RS, rs) :: nibble (Z.land (Z.shiftr c 4) 0x0f) ++ nibble (Z.land c 0x0f).

Lemma nibbles_join c : 0 <= c < 256 ->
  Z.lor (Z.shiftl (Z.land (Z.shiftr c 4) 0x0f) 4) (Z.land c 0x0f) = c /\
  0 <= Z.land (Z.shiftr c 4) 0x0f < 16 /\ 0 <= Z.land c 0x0f < 16.
Proof.
  intros Hc. change 0x0f with (Z.ones 4).
  assert (Hh : Z.land (Z.shiftr c 4) (Z.ones 4) = Z.shiftr c 4).
  { rewrite Z.land_ones, Z.shiftr_div_pow2 by lia.
    apply Z.mod_small. split; [apply Z.div_pos; lia|apply Z.div_lt_upper_bound; lia]. }
  split; [|rewrite !Z.land_ones by lia; split; apply Z.mod_pos_bound; lia].
  rewrite Hh. apply Z.bits_inj'. intros i Hi. rewrite Z.lor_spec, Z.land_spec.
  destruct (Z.ltb_spec i 4).
  - rewrite Z.shiftl_spec_low, Z.ones_spec_low, andb_true_r by lia. reflexivity.
  - rewrite Z.shiftl_spec, Z.shiftr_spec, Z.ones_spec_high, andb_false_r, orb_false_r by lia. f_equal. lia.
Qed.

(** A display that is initialised and between characters. *)
Definition ready (txt : list Z) (cur : nat) (sh : list Z) : PanelEvents := mkEvents C1 [] [] true txt cur sh.

Definition next (cur : nat) : nat := if bool_decide (31 < cur + 1)%nat then 0%nat else (cur + 1)%nat.

Lemma puts_char c rs d4 d5 d6 d7 x y txt cur sh : 0 <= c < 256 ->
  let txt' := take 32 (take cur txt ++ [c] ++ drop (cur + 1) txt) in
  exists e4 e5 e6 e7,
    puts (byte_writes C1 c) ([C1; rs; d4; d5; d6; d7; x; y], ready txt cur sh) =
      ([C1; C1; e4; e5; e6; e7; x; y], ready txt' (next cur) txt').
Proof.
  intros Hc txt'. destruct (nibbles_join c Hc) as (Hj & Hh & Hl). unfold byte_writes. rewrite puts_cons.
  replace (put _ (HD_RS, C1)) with ([C1; C1; d4; d5; d6; d7; x; y], ready txt cur sh) by reflexivity.
  rewrite puts_app, !puts_nibble by done.
  do 4 eexists. f_equal. unfold latched, latch_data, ready. cbn -[take drop Z.land Z.lor Z.shiftl Z.shiftr].
  unfold with_E, lcd_update. cbn -[take drop Z.land Z.lor Z.shiftl Z.shiftr]. rewrite Hj. reflexivity.
Qed.

Lemma put_char_text (pre : list Z) (c : Z) n : (length pre < 32)%nat -> n = length pre ->
  take 32 (take n (pre ++ repeat 0 (32 - n)) ++ [c] ++ drop (n + 1) (pre ++ repeat 0 (32 - n))) =
    (pre ++ [c]) ++ repeat 0 (32 - (n + 1)).
Proof.
  intros Hlt ->. rewrite take_app_length. rewrite drop_app_ge by lia.
  replace (length pre + 1 - length pre)%nat with 1%nat by lia.
  replace (32 - length pre)%nat with (S (32 - (length pre + 1))) by lia. cbn [repeat drop].
  rewrite app_assoc. apply take_ge. rewrite !length_app, repeat_length. cbn [length]. lia.
Qed.

Lemma puts_text text : forall pre cur sh rs d4 d5 d6 d7 x y,
  Forall (fun c => 0 <= c < 256) text -> (length pre + length text <= 32)%nat ->
  ((length pre < 32)%nat -> cur = length pre) ->
  let txt := (pre ++ text) ++ repeat 0 (32 - length (pre ++ text)) in
  exists q cur', puts (concat (map (byte_writes C1) text))
      ([C1; rs; d4; d5; d6; d7; x; y], ready (pre ++ repeat 0 (32 - length pre)) cur sh) =
    (q, ready txt cur' (match text with [] => sh | _ => txt end)).
Proof.
  induction text as [|c text IH]; intros pre cur sh rs d4 d5 d6 d7 x y Hb Hlen Hcur txt.
  - unfold txt. rewrite app_nil_r. do 2 eexists. reflexivity.
  - inversion Hb as [|? ? Hc Hb']; subst. cbn [length] in Hlen. specialize (Hcur ltac:(lia)). subst cur.
    cbn [map concat]. rewrite puts_app.
    destruct (puts_char c rs d4 d5 d6 d7 x y (pre ++ repeat 0 (32 - length pre)) (length pre) sh Hc)
      as (e4 & e5 & e6 & e7 & ->).
    rewrite put_char_text by (done || lia).
    replace (length pre + 1)%nat with (length (pre ++ [c])) by (rewrite length_app; reflexivity).
    destruct (IH (pre ++ [c]) (next (length pre)) ((pre ++ [c]) ++ repeat 0 (32 - length (pre ++ [c]))) C1 e4 e5 e6 e7 x y Hb')
      as (q & cur' & ->); [rewrite length_app; cbn [length]; lia| |].
    + rewrite length_app. cbn [length]. intros Hlt. unfold next. case_bool_decide; lia.
    + exists q, cur'. unfold txt. rewrite <- (app_assoc pre [c] text). cbn [app]. destruct text; [|reflexivity].
      rewrite <- app_assoc. reflexivity.
Qed.

(** ** The program's lines *)

Definition init_writes : list (nat * Z) :=
  nibble 3 ++ nibble 3 ++ nibble 3 ++ nibble 2 ++
  byte_writes C0 0x28 ++ byte_writes C0 0x0c ++ byte_writes C0 0x01 ++ byte_writes C0 0x06.

Definition program (text : list Z) : list (nat * Z) := init_writes ++ concat (map (byte_writes C1) text).

Lemma WriteNibble_lines n : WriteNibble n = map (fun w => write_line w.1 w.2) (nibble n).
Proof.
  unfold WriteNibble, nibble, set_value, Actor_SetPin, write_line, bit.
  rewrite !bool_decide_eq_true_2 by (unfold PIN_COUNT, HD_DB4, HD_DB5, HD_DB6, HD_DB7, HD_E; lia).
  cbn [map app fst snd]. change (2 ^ 0) with 1. rewrite Z.shiftr_0_r. reflexivity.
Qed.

Lemma byte_lines c : WriteData c = map (fun w => write_line w.1 w.2) (byte_writes C1 c) /\
  WriteCommand c = map (fun w => write_line w.1 w.2) (byte_writes C0 c).
Proof.
  unfold WriteData, WriteCommand, byte_writes. rewrite !WriteNibble_lines. cbn [map]. rewrite map_app. split; reflexivity.
Qed.

Lemma program_lines text : lcdwrite_main text = map (fun w => write_line w.1 w.2) (program text).
Proof.
  unfold lcdwrite_main, program, LCD_init, init_writes.
  rewrite !(fun c => proj2 (byte_lines c)), !WriteNibble_lines, !map_app. f_equal.
  induction text as [|c text IH]; cbn [map concat]; [reflexivity|].
  rewrite IH, (proj1 (byte_lines c)), map_app. reflexivity.
Qed.

(** Every write of the program drives a level on one of the display's pins. *)
Lemma bit_drive n k : drive (bit n k).
Proof. unfold bit, drive. destruct (_ =? 0); auto. Qed.

Lemma program_ok text : Forall (fun w => (w.1 < PIN_COUNT)%nat /\ drive w.2) (program text).
Proof.
  assert (Hn : forall n, Forall (fun w : nat * Z => (w.1 < PIN_COUNT)%nat /\ drive w.2) (nibble n)).
  { intros n. unfold nibble, HD_DB4, HD_DB5, HD_DB6, HD_DB7, HD_E, PIN_COUNT.
    repeat (apply Forall_cons; split; [split; cbn; [lia|apply bit_drive || (unfold drive; auto)]|]).
    apply Forall_nil; exact I. }
  assert (Hb : forall rs c, drive rs -> Forall (fun w : nat * Z => (w.1 < PIN_COUNT)%nat /\ drive w.2) (byte_writes rs c)).
  { intros rs c Hd. constructor; [split; [cbn; unfold HD_RS, PIN_COUNT; lia|exact Hd]|]. apply Forall_app. auto. }
  assert (drive C0 /\ drive C1) as [H0 H1] by (unfold drive; auto).
  unfold program, init_writes. rewrite !Forall_app. repeat split; auto.
  induction text as [|c text IH]; cbn [map concat]; [constructor|]. apply Forall_app. auto.
Qed.

(** ** Through the server *)

Lemma see_list q l : length q = PIN_COUNT ->
  pins_updated (take 6 q) l = Some (see q l) /\ q !! 0%nat = Some (prev_E (see q l)) /\
  (q !! 0%nat = Some (prev_E l) -> see q l = l).
Proof.
  intros Hn. destruct q as [|e [|rs [|d4 [|d5 [|d6 [|d7 [|x [|y [|]]]]]]]]]; try discriminate Hn.
  split; [reflexivity|split; [reflexivity|]]. intros [= E]. apply see_still. congruence.
Qed.

Lemma report_line q l : length q = PIN_COUNT -> PanelEvents_line (str "R " ++ q) l = Some (see q l).
Proof.
  intros Hn. destruct q as [|e [|rs [|d4 [|d5 [|d6 [|d7 [|x [|y [|]]]]]]]]]; try discriminate Hn. reflexivity.
Qed.

Lemma lines_snoc ls line l : PanelEvents_lines (ls ++ [line]) l = (l' ← PanelEvents_lines ls l; PanelEvents_line line l').
Proof.
  revert l. induction ls as [|x ls IH]; intros l; cbn.
  - destruct (PanelEvents_line line l); reflexivity.
  - destruct (PanelEvents_line x l); cbn; [apply IH|reflexivity].
Qed.

(** A display that is not told has missed nothing. *)
Lemma deaf q q' c : length q = PIN_COUNT -> length q' = PIN_COUNT -> c_notify c = pin_map -> hears q q' c = false ->
  take 6 q' = take 6 q.
Proof.
  intros Hq Hq' Hc Hh.
  assert (H : forall i, i ∈ pin_map -> q' !! i = q !! i).
  { intros i Hi. destruct (decide (q' !! i = q !! i)) as [|Hd]; [assumption|]. exfalso.
    assert (E : hears q q' c = true); [|congruence]. unfold hears. rewrite Hc. apply existsb_exists. exists i.
    split; [apply list_elem_of_In, Hi|]. apply bool_decide_eq_true_2. unfold diffs_of. apply list_elem_of_filter.
    split; [exact Hd|]. apply elem_of_seq. rewrite Hq'. unfold pin_map in Hi.
    rewrite !elem_of_cons, elem_of_nil in Hi. unfold PIN_COUNT, HD_E, HD_RS, HD_DB4, HD_DB5, HD_DB6, HD_DB7 in *. lia. }
  apply list_eq. intros i. destruct (decide (i < 6)%nat) as [Hi|Hi].
  - rewrite !lookup_take_lt by lia. apply H. unfold pin_map. rewrite !elem_of_cons, elem_of_nil.
    unfold HD_E, HD_RS, HD_DB4, HD_DB5, HD_DB6, HD_DB7. lia.
  - rewrite !lookup_take_ge by lia. reflexivity.
Qed.

Section display.
Context (w a : Z) (Hwa : w <> a) (l0 : PanelEvents).

(** The writer drives [q], nobody else drives anything, and the display, from
    what it has been sent, is in state [l]. *)
Record showing (q : list Z) (l : PanelEvents) (b : TerminalBlock) : Prop := {
  sh_settled : settled b;
  sh_idle : idle_but a b;
  sh_a : exists ca, assoc a b.(clients) = Some ca /\ c_pins ca = q;
  sh_w : exists cw, assoc w b.(clients) = Some cw /\ c_notify cw = pin_map /\
           PanelEvents_lines cw.(c_out) l0 = Some l;
  sh_E : q !! 0%nat = Some (prev_E l) }.

Lemma showing_write q l b i v : showing q l b -> (i < PIN_COUNT)%nat -> drive v ->
  exists b', found_terminator a (write_line i v) b = Some b' /\ showing (<[i := v]> q) (see (<[i := v]> q) l) b'.
Proof.
  intros [Hs Hi (ca & Ha & Hq) (cw & Hw & Hnt & Hl) HE] Hlt Hv. pose proof Hs as (Hb & _ & Elast).
  pose proof (assoc_ok _ _ _ Hb Ha) as Hca.
  destruct (sole_out a b ca Hb Hi Ha Hca) as [_ Eo]. rewrite Hq in Eo. rewrite Eo in Elast.
  assert (Hlen : length q = PIN_COUNT) by (rewrite <- Hq; apply Hca).
  set (b1 := pinned a i v b). set (q' := <[i := v]> q).
  assert (Hb1 : block_ok b1) by (apply update_ok; auto using SetPin_ok).
  assert (Ha1 : assoc a b1.(clients) = Some (SetPin i v ca)).
  { cbn [b1 pinned with_clients clients]. rewrite assoc_update, Z.eqb_refl, Ha. reflexivity. }
  assert (Hw1 : assoc w b1.(clients) = Some cw).
  { cbn [b1 pinned with_clients clients]. rewrite assoc_update, (proj2 (Z.eqb_neq a w)) by congruence. exact Hw. }
  destruct (sole_out a b1 _ Hb1 (idle_pinned a i v b Hi) Ha1 (assoc_ok _ _ _ Hb1 Ha1)) as [Hq1 Eo1].
  cbn [SetPin c_pins] in Eo1. rewrite Hq in Eo1. fold q' in Eo1.
  assert (Hlen' : length q' = PIN_COUNT) by (unfold q'; rewrite length_insert; exact Hlen).
  exists (report b1). split; [apply serve_write; auto; eauto|]. constructor.
  - apply report_settled; assumption.
  - apply idle_report, idle_pinned, Hi.
  - eexists. rewrite assoc_report, Ha1. split; [reflexivity|]. rewrite told_pins. cbn [SetPin c_pins]. rewrite Hq. reflexivity.
  - eexists. rewrite assoc_report, Hw1. split; [reflexivity|]. split; [rewrite told_notify; exact Hnt|].
    replace (LastResolve b1) with q by (symmetry; exact Elast). rewrite Eo1. unfold told.
    destruct (hears q q' cw) eqn:Eh.
    + cbn [NotifyValues push c_out]. rewrite lines_snoc, Hl. cbn [mbind option_bind]. apply report_line, Hlen'.
    + rewrite Hl. f_equal. pose proof (deaf q q' cw Hlen Hlen' Hnt Eh) as Ed. unfold see. rewrite Ed. symmetry.
      apply (proj2 (proj2 (see_list q l Hlen)) HE).
  - apply (see_list q' l Hlen').
Qed.

Lemma showing_writes ws : forall q l b, showing q l b -> Forall (fun x => (x.1 < PIN_COUNT)%nat /\ drive x.2) ws ->
  exists b', loop (map (Line a) (map (fun x => write_line x.1 x.2) ws)) b = Some b' /\
    showing (puts ws (q, l)).1 (puts ws (q, l)).2 b'.
Proof.
  induction ws as [|[i v] ws IH]; intros q l b Hsh Hws; [eexists; split; [reflexivity|exact Hsh]|].
  inversion Hws as [|? ? [Hi Hv] Hws']; subst. cbn [fst snd] in Hi, Hv.
  destruct (showing_write q l b i v Hsh Hi Hv) as (b1 & E1 & Hsh1).
  destruct (IH _ _ b1 Hsh1 Hws') as (b' & E' & Hsh'). exists b'. split; [|exact Hsh'].
  cbn [map loop serve fst snd]. rewrite E1. exact E'.
Qed.

End display.

(** ** Start-up *)

Definition all_idle (b : TerminalBlock) : Prop := Forall (fun kc => kc.2.(c_pins) = GetDefaultPins) b.(clients).

Lemma idle_last b : settled b -> all_idle b -> b.(LastResolve) = GetDefaultPins.
Proof.
  intros (Hb & _ & ->) Hi.
  assert (H : forall i, levels i b = repeat CX (length b.(clients))).
  { intros i. unfold levels. induction Hi as [|[k c] cs Hc _ IH]; cbn; [reflexivity|].
    rewrite (pin_default i c Hc). f_equal. exact IH. }
  unfold out_of. erewrite map_ext; [|intros i; rewrite H; reflexivity].
  assert (E : strongest (repeat CX (length b.(clients))) = CX).
  { clear. unfold strongest, has. induction (length b.(clients)) as [|n IH]; [reflexivity|exact IH]. }
  rewrite E. reflexivity.
Qed.

(** A display on an idle panel: it is connected, has worked through what it has
    been sent from its start [l0] and is in state [l], having seen E undriven last. *)
Record attached (w : Z) (l0 l : PanelEvents) (b : TerminalBlock) : Prop := {
  at_settled : settled b;
  at_idle : all_idle b;
  at_display : exists cw, assoc w b.(clients) = Some cw /\ c_notify cw = pin_map /\
    PanelEvents_lines cw.(c_out) l0 = Some l;
  at_E : prev_E l = CX }.

(** A display that is plugged into an idle panel is so attached. *)
Lemma plugged_attached w b txt : settled b -> all_idle b -> assoc w b.(clients) = None ->
  exists b', loop (Accept w :: map (Line w) (Peripheral_init pin_map)) b = Some b' /\
    attached w (PanelEvents_init txt) (mkEvents CX [] [] false txt 0 txt) b' /\
    forall a, a <> w -> assoc a b.(clients) = None -> assoc a b'.(clients) = None.
Proof.
  intros Hs Hi Hw. rewrite plug_in;
    [|done|done|unfold pin_map, HD_E, HD_RS, HD_DB4, HD_DB5, HD_DB6, HD_DB7, PIN_COUNT; repeat constructor].
  eexists. split; [reflexivity|]. split; [constructor|].
  - apply idle_settled; assumption.
  - unfold all_idle. cbn [with_clients clients]. apply Forall_app. split; [exact Hi|].
    constructor; [reflexivity|constructor].
  - eexists. cbn [with_clients clients]. split; [apply assoc_last, Hw|]. split; [reflexivity|].
    cbn [c_out PanelEvents_lines]. rewrite (idle_last b Hs Hi). reflexivity.
  - reflexivity.
  - intros a Ha Hn. cbn. rewrite assoc_other by congruence. exact Hn.
Qed.

(** The writer connects. *)
Lemma showing_start w a b l0 l : w <> a -> attached w l0 l b -> assoc a b.(clients) = None ->
  exists b', loop [Accept a] b = Some b' /\ showing w a l0 GetDefaultPins l b'.
Proof.
  intros Hwa [Hs Hi (cw & Hw & Hn & Hl) HE] Ha. eexists. split; [reflexivity|].
  cbn [serve]. unfold handle_accept. rewrite Ha. constructor.
  - apply idle_settled; assumption.
  - unfold idle_but. cbn [with_clients clients]. rewrite Forall_app.
    split; [apply (Forall_impl _ _ _ Hi); auto|]. constructor; [reflexivity|constructor].
  - eexists. split; [apply assoc_last, Ha|reflexivity].
  - exists cw. cbn [with_clients clients]. rewrite assoc_other by done. auto.
  - rewrite HE. reflexivity.
Qed.

(** A nibble with RS undriven is taken as data. *)
Lemma latched_undriven n l :
  exists dt txt cur sh, latched CX n l = mkEvents C1 [] dt (lcd_init l) txt cur sh.
Proof.
  unfold latched, latch_data. cbn [Z.eqb CX C0 Pos.eqb]. destruct l as [e cm dt ini txt cur sh].
  cbn [lcd_init prev_data]. destruct ini; [|do 4 eexists; reflexivity].
  destruct (dt ++ [n]) as [|h [|lo r]]; do 4 eexists; reflexivity.
Qed.

(** The initialisation brings a display in any state to a blank text, whatever
    nibbles it had pending; it may draw on the way, but not the blank text. *)
Lemma puts_init l : prev_E l = CX ->
  exists sh, puts init_writes (GetDefaultPins, l) =
    ([C1; C0; C0; C1; C1; C0; CX; CX], ready ([] ++ repeat 0 (32 - length (@nil Z))) 0 sh).
Proof.
  intros HE. unfold init_writes. rewrite !puts_app. change GetDefaultPins with [CX; CX; CX; CX; CX; CX; CX; CX].
  rewrite (puts_nibble 3 CX) by done. destruct (latched_undriven 3 l) as (dt1 & t1 & c1 & s1 & ->).
  rewrite (puts_nibble 3 C1) by done. destruct (latched_undriven 3 (mkEvents C1 [] dt1 (lcd_init l) t1 c1 s1)) as (dt2 & t2 & c2 & s2 & ->).
  cbn [lcd_init].
  rewrite (puts_nibble 3 C1) by done. destruct (latched_undriven 3 (mkEvents C1 [] dt2 (lcd_init l) t2 c2 s2)) as (dt3 & t3 & c3 & s3 & ->).
  cbn [lcd_init].
  rewrite (puts_nibble 2 C1) by done. destruct (latched_undriven 2 (mkEvents C1 [] dt3 (lcd_init l) t3 c3 s3)) as (dt4 & t4 & c4 & s4 & ->).
  cbn [lcd_init].
  exists s4. destruct (lcd_init l); reflexivity.
Qed.

(** The reset blanks the text and draws nothing: until the next character the old
    text stays on the display. *)
Lemma reset_not_drawn l : prev_cmnd l = [0] ->
  lcd_text (latch_command 6 l) = repeat 0 32 /\ lcd_shown (latch_command 6 l) = lcd_shown l.
Proof. intros E. unfold latch_command. rewrite E. split; reflexivity. Qed.

(** C21: The display shows what is written to it.  A display is attached to a panel
    that nobody drives: freshly plugged in ([plugged_attached]) or used before, in
    any state and showing anything.  A new writer connects and runs lcdwrite on a
    text of 1 to 32 bytes: the server raises nothing, and the notifications it
    sends make the display hold and draw exactly that text, blank to its end.
    (An empty text leaves the old drawing: the reset does not draw.) *)
Theorem lcd_shows_text w a b l0 l1 text (Hwa : w <> a) (Hat : attached w l0 l1 b)
    (Ha : assoc a b.(clients) = None)
    (Hb : Forall (fun c => 0 <= c < 256) text) (Hlen : (0 < length text <= 32)%nat) :
  exists b' cw l,
    loop (Accept a :: map (Line a) (lcdwrite_main text)) b = Some b' /\
    assoc w b'.(clients) = Some cw /\
    PanelEvents_lines cw.(c_out) l0 = Some l /\
    l.(lcd_text) = text ++ repeat 0 (32 - length text) /\ l.(lcd_shown) = l.(lcd_text).
Proof.
  destruct (showing_start w a b l0 l1 Hwa Hat Ha) as (b1 & E1 & Hsh1).
  destruct (showing_writes w a Hwa _ (program text) _ _ b1 Hsh1 (program_ok text)) as (b' & E' & Hsh').
  exists b'. change (Accept a :: ?l) with ([Accept a] ++ l). rewrite loop_app, E1. cbn [mbind option_bind].
  rewrite program_lines, E'.
  destruct Hsh' as [_ _ _ (cw & Hcw & _ & Hl) _]. exists cw. eexists. split; [reflexivity|].
  split; [exact Hcw|]. split; [exact Hl|]. unfold program. rewrite puts_app.
  destruct (puts_init l1 (at_E _ _ _ _ Hat)) as (sh & ->).
  destruct (puts_text text [] 0 sh C0 C0 C1 C1 C0 CX CX Hb ltac:(cbn [length]; lia) (fun _ => eq_refl)) as (q & cur & ->).
  destruct text; [cbn in Hlen; lia|]. split; reflexivity.
Qed.

(** A panel with a display that somebody has left half-way through a character. *)
Definition used_display : PanelEvents := mkEvents CX [2] [7] true (str "old text") 5 (str "older text").

Definition used_panel : TerminalBlock := with_clients [(4, mkChannel GetDefaultPins pin_map [])] TerminalBlock_init.

Lemma used_attached : attached 4 used_display used_display used_panel.
Proof.
  constructor.
  - apply (idle_settled TerminalBlock_init 4 pin_map []); [apply init_good|reflexivity].
  - constructor; [reflexivity|constructor].
  - eexists. split; [reflexivity|]. split; reflexivity.
  - reflexivity.
Qed.

Lemma lcd_shows_text_witness :
  exists b' cw l,
    loop (Accept 5 :: map (Line 5) (lcdwrite_main (str "Hello world!"))) used_panel = Some b' /\
    assoc 4 b'.(clients) = Some cw /\
    PanelEvents_lines cw.(c_out) used_display = Some l /\
    l.(lcd_text) = str "Hello world!" ++ repeat 0 20 /\ l.(lcd_shown) = l.(lcd_text).
Proof.
  apply (lcd_shows_text 4 5 used_panel used_display used_display (str "Hello world!")).
  - lia.
  - exact used_attached.
  - reflexivity.
  - apply (bool_decide_unpack _). vm_compute. exact I.
  - vm_compute. lia.
Defined.

End PanelLcd.
