(* ===== verification/PanelGpio.v ===== *)
(** The emulated board on its panel: the GPIO driver (drivers/gpio/rdc321x-gpio.c)
    over the emulator's southbridge (rdc_gpio.c), connected to the panel's
    server, with the LED and the button plugged in beside it. *)
From Stdlib Require Import ZArith Lia.
From stdpp Require Import base list numbers option strings.
From S2P Require Import Prelude Python RdcGpio Southbridge SouthbridgeSpec Panel PanelSpec.

Module PanelGpio.
Import Python Panel PanelSpec.

(** ** What the emulator sends *)

Definition CRLF : list Z := [13; 10].

(** The emulator queries the panel, or pulls a pin up or low. *)
Definition emu_line (l : list Z) : Prop :=
  l = str "R" \/ exists i v, (i < RdcGpio.PANEL_PINS)%nat /\ (v = C0 \/ v = CP) /\ l = write_line i v.

Definition spoken (h : RdcGpio.panel_connection) : Prop :=
  Forall (fun cmd => exists l, emu_line l /\ cmd = l ++ CRLF) (RdcGpio.commands h).

Lemma command_spoken h l : spoken h -> emu_line l -> spoken (RdcGpio.panel_command h (l ++ CRLF)).
Proof.
  intros Hh Hl. unfold RdcGpio.panel_command, spoken in *.
  assert (H : Forall (fun cmd => exists l, emu_line l /\ cmd = l ++ CRLF) (RdcGpio.commands h ++ [l ++ CRLF])).
  { apply Forall_app. split; [exact Hh|]. constructor; [eauto|constructor]. }
  destruct (RdcGpio.connected h); [|exact Hh]. destruct (RdcGpio.sends h) as [|[] r]; assumption.
Qed.

Lemma write_spoken h i v : spoken h -> (i < RdcGpio.PANEL_PINS)%nat -> v = C0 \/ v = CP ->
  spoken (RdcGpio.panel_write h i v).
Proof.
  intros Hh Hi Hv. unfold RdcGpio.panel_write.
  assert (E : str "W " ++ [48 + Z.of_nat i] ++ [32; v] ++ [13; 10] = write_line i v ++ CRLF).
  { unfold RdcGpio.PANEL_PINS in Hi. do 6 (destruct i as [|i]; [reflexivity|]). lia. }
  rewrite E. apply command_spoken; [exact Hh|]. right. exists i, v. auto.
Qed.

Lemma pin_char_drive reg i : RdcGpio.pin_char reg i = C0 \/ RdcGpio.pin_char reg i = CP.
Proof. unfold RdcGpio.pin_char. destruct (anyset _ _); auto. Qed.

Lemma pin_write_spoken n reg : forall h, (n <= RdcGpio.PANEL_PINS)%nat -> spoken h ->
  spoken (RdcGpio.pin_write_loop n h reg).
Proof.
  induction n as [|n IH]; intros h Hn Hh; cbn [RdcGpio.pin_write_loop]; [exact Hh|]. apply IH; [lia|].
  destruct (negb _); [|exact Hh]. apply write_spoken; [exact Hh|unfold RdcGpio.PANEL_PINS in *; lia|apply pin_char_drive].
Qed.

Lemma config_spoken a v p : spoken (RdcGpio.panel p) -> spoken (RdcGpio.panel (RdcGpio.pci_write_config a v 4 p)).
Proof.
  intros Hp. unfold RdcGpio.pci_write_config. destruct (a =? 0x44); [exact Hp|]. destruct (_ <? _); [exact Hp|].
  cbn [RdcGpio.panel]. destruct (_ && _); [|exact Hp]. destruct (negb _); [exact Hp|]. apply pin_write_spoken; [lia|exact Hp].
Qed.

Lemma pullup_spoken evs : spoken (RdcGpio.panel (RdcGpio.rdc_gpio_pci_init true true [] evs)).
Proof.
  cbn -[RdcGpio.pullup_loop fill store_bytes].
  assert (H : forall n h, (n <= RdcGpio.PANEL_PINS)%nat -> spoken h -> spoken (RdcGpio.pullup_loop n h)).
  { induction n as [|n IH]; intros h Hn Hh; cbn [RdcGpio.pullup_loop]; [exact Hh|]. apply IH; [lia|].
    apply write_spoken; [exact Hh|unfold RdcGpio.PANEL_PINS in *; lia|auto]. }
  apply H; [lia|]. constructor.
Qed.




(** ** The other clients *)

(** Another client than [e] drives [v] on a pin. *)
Definition others_drive (e v : Z) (i : nat) (b : TerminalBlock) : bool :=
  existsb (fun kc => negb (kc.1 =? e) && (v =? pin_of i kc.2)) b.(clients).

Lemma levels_split e v i b : block_ok b ->
  has v (levels i b) =
    others_drive e v i b || match assoc e b.(clients) with Some c => v =? pin_of i c | None => false end.
Proof.
  intros (_ & Hn & _). unfold levels, has, others_drive. induction b.(clients) as [|[k c] cs IH]; [reflexivity|].
  cbn [map existsb assoc fst snd]. apply NoDup_cons in Hn as [Hk Hn]. rewrite (IH Hn).
  destruct (Z.eqb_spec k e) as [->|Hne]; cbn [negb andb orb]; [|apply orb_assoc].
  rewrite (proj2 (assoc_notin e cs)) by exact Hk. rewrite orb_false_r. apply orb_comm.
Qed.

Lemma others_update e f v i b : others_drive e v i (with_clients (update e f b.(clients)) b) = others_drive e v i b.
Proof.
  unfold others_drive, update. cbn [with_clients clients]. induction b.(clients) as [|[k c] cs IH]; [reflexivity|].
  cbn [map existsb fst snd]. rewrite IH. f_equal. destruct (k =? e) eqn:E; cbn [fst snd]; rewrite E; reflexivity.
Qed.

Lemma others_report e v i b : others_drive e v i (report b) = others_drive e v i b.
Proof.
  unfold others_drive, report. cbn [clients]. induction b.(clients) as [|[k c] cs IH]; [reflexivity|].
  cbn [map existsb fst snd]. rewrite IH. unfold pin_of. rewrite told_pins. reflexivity.
Qed.

Lemma report_keys b : (report b).(clients).*1 = b.(clients).*1.
Proof. unfold report. cbn [clients]. rewrite <- list_fmap_compose. apply list_fmap_ext. reflexivity. Qed.

Lemma others_snoc e fd v i b c : others_drive e v i (with_clients (b.(clients) ++ [(fd, c)]) b) =
  others_drive e v i b || (negb (fd =? e) && (v =? pin_of i c)).
Proof. unfold others_drive. cbn [with_clients clients]. rewrite existsb_app. cbn [existsb]. rewrite orb_false_r. reflexivity. Qed.

(** ** Feeding the emulator's commands to the server *)

Definition line_of (cmd : list Z) : list Z := take (length cmd - 2) cmd.

Lemma line_of_crlf l : line_of (l ++ CRLF) = l.
Proof. unfold line_of. rewrite length_app. cbn [length CRLF]. rewrite Nat.add_sub. apply take_app_length. Qed.

(** What the emulator [e] has sent on its connection, as events at the server. *)
Definition feed (e : Z) (h : RdcGpio.panel_connection) : list event :=
  map (fun cmd => Line e (line_of cmd)) (RdcGpio.commands h).

Lemma apply_write pins i v : (i < RdcGpio.PANEL_PINS)%nat ->
  GpioSpec.panel_apply pins (write_line i v ++ CRLF) = <[i := v]> pins.
Proof. unfold RdcGpio.PANEL_PINS. intros Hi. do 6 (destruct i as [|i]; [reflexivity|]). lia. Qed.

Lemma emu_may e l c b : emu_line l -> assoc e b.(clients) = Some c -> may (Line e l) b.
Proof.
  intros Hl Hc. split; [eauto|]. intros pin. destruct Hl as [->|(i & v & Hi & Hv & ->)]; [discriminate|].
  rewrite wmatch_write by (unfold RdcGpio.PANEL_PINS, PIN_COUNT, drive in *; (lia || intuition)).
  intros [= _ ->]. destruct Hv; discriminate.
Qed.

Lemma emu_serves e l c b b' : good b -> emu_line l -> assoc e b.(clients) = Some c -> serve (Line e l) b = Some b' ->
  (exists c', assoc e b'.(clients) = Some c' /\ c_pins c' = GpioSpec.panel_apply (c_pins c) (l ++ CRLF)) /\
  b'.(clients).*1 = b.(clients).*1 /\ forall v i, others_drive e v i b' = others_drive e v i b.
Proof.
  intros [Hs Ho] Hl Hc. pose proof Hs as (Hb & _ & El). cbn [serve].
  destruct Hl as [->|(i & v & Hi & Hv & ->)].
  - rewrite serve_query by done. intros [= <-]. split; [|split; [apply update_keys|intros; apply others_update]].
    eexists. cbn [with_clients clients]. rewrite assoc_update, Z.eqb_refl, Hc. split; reflexivity.
  - assert (Hi' : (i < PIN_COUNT)%nat) by (unfold RdcGpio.PANEL_PINS, PIN_COUNT in *; lia).
    assert (Hd : drive v) by (unfold drive; tauto).
    assert (Hv1 : v <> C1) by (destruct Hv as [->| ->]; discriminate).
    rewrite serve_write; eauto; [|apply open_calm, open_update; auto using SetPin_open].
    intros [= <-]. split; [|split; [rewrite report_keys; apply update_keys|intros; rewrite others_report; apply others_update]].
    eexists. rewrite assoc_report. cbn [pinned with_clients clients]. rewrite assoc_update, Z.eqb_refl, Hc.
    split; [reflexivity|]. rewrite told_pins. cbn [SetPin c_pins]. rewrite apply_write by done. reflexivity.
Qed.

Lemma emu_loop e cmds : forall c b, Forall (fun cmd => exists l, emu_line l /\ cmd = l ++ CRLF) cmds ->
  good b -> assoc e b.(clients) = Some c ->
  may_all (map (fun cmd => Line e (line_of cmd)) cmds) b /\
  forall b', loop (map (fun cmd => Line e (line_of cmd)) cmds) b = Some b' ->
    (exists c', assoc e b'.(clients) = Some c' /\ c_pins c' = foldl GpioSpec.panel_apply (c_pins c) cmds) /\
    b'.(clients).*1 = b.(clients).*1 /\ forall v i, others_drive e v i b' = others_drive e v i b.
Proof.
  induction cmds as [|cmd cmds IH]; intros c b Hs Hg Hc; cbn [map may_all loop].
  - split; [exact I|]. intros b' [= <-]. split; [eauto|split; reflexivity].
  - inversion Hs as [|? ? (l & Hl & ->) Hs']; subst. rewrite line_of_crlf.
    pose proof (emu_may e l c b Hl Hc) as Hm. destruct (serve_good _ b Hg Hm) as (b1 & E1 & Hg1).
    destruct (emu_serves e l c b b1 Hg Hl Hc E1) as [(c1 & Hc1 & Ep) [Ek Ho]].
    destruct (IH c1 b1 Hs' Hg1 Hc1) as [Hm1 Hr]. split.
    + split; [exact Hm|]. intros b' E. rewrite E1 in E. injection E as <-. exact Hm1.
    + rewrite E1. cbn [mbind option_bind foldl]. intros b' E'. destruct (Hr b' E') as [(c' & Hc' & E) [Ek' Ho']].
      split; [exists c'; rewrite E, Ep; auto|]. split; [congruence|]. intros v i. rewrite Ho', Ho. reflexivity.
Qed.

(** The server's view of the emulator's pins is the emulator's own, undriven
    where the emulator has not spoken. *)
Lemma server_view cmds : Forall (fun cmd => exists l, emu_line l /\ cmd = l ++ CRLF) cmds ->
  forall pins view, length pins = PIN_COUNT -> length view = RdcGpio.PANEL_PINS ->
  forall i, (i < RdcGpio.PANEL_PINS)%nat -> nth i pins CX = (if nth i view 0 =? 0 then CX else nth i view 0) ->
  nth i (foldl GpioSpec.panel_apply pins cmds) CX =
    if nth i (foldl GpioSpec.panel_apply view cmds) 0 =? 0 then CX else nth i (foldl GpioSpec.panel_apply view cmds) 0.
Proof.
  induction 1 as [|cmd cmds (l & Hl & ->) _ IH]; intros pins view Hp Hv i Hi E; cbn [foldl]; [exact E|].
  destruct Hl as [->|(j & v & Hj & Hd & ->)]; [apply IH; assumption|].
  rewrite !apply_write by done. apply IH; rewrite ?length_insert; try assumption.
  unfold RdcGpio.PANEL_PINS, PIN_COUNT in *. rewrite !nth_lookup in *. destruct (decide (j = i)) as [->|Hne].
  - rewrite !list_lookup_insert_eq by lia. cbn. destruct Hd as [->| ->]; reflexivity.
  - rewrite !list_lookup_insert_ne by done. exact E.
Qed.

Lemma others_levels e v i b : block_ok b -> assoc e b.(clients) = None -> others_drive e v i b = has v (levels i b).
Proof. intros Hb He. rewrite (levels_split e) by done. rewrite He, orb_false_r. reflexivity. Qed.

(** A client that pulls pins up or low joins the panel. *)
Lemma joins e cmds b : good b -> assoc e b.(clients) = None ->
  Forall (fun cmd => exists l, emu_line l /\ cmd = l ++ CRLF) cmds ->
  may_all (Accept e :: map (fun cmd => Line e (line_of cmd)) cmds) b /\
  exists b' c', loop (Accept e :: map (fun cmd => Line e (line_of cmd)) cmds) b = Some b' /\ good b' /\
    assoc e b'.(clients) = Some c' /\ c_pins c' = foldl GpioSpec.panel_apply GetDefaultPins cmds /\
    (forall v i, has v (levels i b') = others_drive e v i b' || (v =? pin_of i c')) /\
    (forall v i, others_drive e v i b' = has v (levels i b)) /\
    b'.(clients).*1 = b.(clients).*1 ++ [e].
Proof.
  intros Hg He Hs. destruct (serve_good (Accept e) b Hg He) as (b1 & E1 & Hg1). pose proof E1 as E1'.
  cbn [serve] in E1'. unfold handle_accept in E1'. rewrite He in E1'. injection E1' as Eb1.
  assert (Hc1 : assoc e b1.(clients) = Some Channel_init) by (rewrite <- Eb1; apply assoc_last, He).
  destruct (emu_loop e cmds Channel_init b1 Hs Hg1 Hc1) as [Hm Hr]. split.
  { split; [exact He|]. intros b' E. rewrite E1 in E. injection E as <-. exact Hm. }
  destruct (loop_good _ b1 Hg1 Hm) as (b' & E' & Hg'). destruct (Hr b' E') as [(c' & Hc' & Ep) [Ek Ho]].
  exists b', c'. cbn [loop]. rewrite E1. cbn [mbind option_bind].
  split; [exact E'|split; [exact Hg'|split; [exact Hc'|split; [exact Ep|split; [|split]]]]].
  - intros v i. rewrite (levels_split e) by apply Hg'. rewrite Hc'. reflexivity.
  - intros v i. rewrite Ho, <- Eb1. rewrite others_snoc, others_levels by (done || apply Hg).
    rewrite Z.eqb_refl. apply orb_false_r.
  - rewrite Ek, <- Eb1. cbn [with_clients clients]. rewrite fmap_app. reflexivity.
Qed.

(** The level of a pin that one more client pulls up or low. *)
Lemma joined_level b' (low : bool) i (up : bool) e c' : good b' -> (i < PIN_COUNT)%nat ->
  (forall v, has v (levels i b') = others_drive e v i b' || (v =? pin_of i c')) ->
  others_drive e C0 i b' = low -> pin_of i c' = (if up then CP else C0) ->
  b'.(LastResolve) !! i = Some (if low || negb up then C0 else CP).
Proof.
  intros [(Hb & Hq & El) Ho] Hi Hh Hlow Hpin. rewrite El, out_lookup by done. unfold strongest.
  rewrite open_levels by done. rewrite !Hh, Hlow, Hpin. destruct low, up; cbn; try reflexivity.
  rewrite orb_true_r. reflexivity.
Qed.

(** ** The LED *)




(** ** The button *)

Lemma button_lines checked : exists cmds, App_init ++ say_cb checked = map line_of cmds /\
  Forall (fun cmd => exists l, emu_line l /\ cmd = l ++ CRLF) cmds /\
  foldl GpioSpec.panel_apply GetDefaultPins cmds = <[PANEL_PIN := if checked then C0 else CP]> GetDefaultPins.
Proof.
  exists [write_line PANEL_PIN CP ++ CRLF; write_line PANEL_PIN (if checked then C0 else CP) ++ CRLF].
  split; [destruct checked; reflexivity|]. split; [|destruct checked; reflexivity].
  repeat (constructor; [eexists; split; [|reflexivity]; right; exists PANEL_PIN; eexists;
    split; [unfold PANEL_PIN, RdcGpio.PANEL_PINS; lia|split; [|reflexivity]]; destruct checked; auto|]). constructor.
Qed.

(** The levels the server answers a query with. *)
Lemma query_reply e c b : good b -> assoc e b.(clients) = Some c ->
  exists b' c', serve (Line e (str "R")) b = Some b' /\ assoc e b'.(clients) = Some c' /\
    last c'.(c_out) = Some (str "R " ++ b.(LastResolve)).
Proof.
  intros [Hs _] Hc. cbn [serve]. rewrite serve_query by done. eexists _, _. split; [reflexivity|].
  cbn [with_clients clients]. rewrite assoc_update, Z.eqb_refl, Hc. split; [reflexivity|apply last_push].
Qed.

Lemma resolved_nonzero b : settled b -> Forall (fun c => c <> 0) b.(LastResolve).
Proof.
  intros (_ & _ & ->). unfold out_of. apply Forall_map, Forall_forall. intros i _. unfold strongest.
  repeat case_match; discriminate.
Qed.

(** From the button to the driver.  The button is plugged into a panel and
    pushed or left; the emulator connects, has sent what it has sent, and the
    driver reads GPIO 15: it drives its shadow register out and queries the
    server.  If the socket delivers the line the server answers with, the driver
    gets 0 exactly when the button is pushed, another client pulls the pin low,
    or the driver itself drives it low. *)
Theorem driver_reads_button bt emu checked w b evs
    (Hne : bt <> emu) (Hg : good b)
    (Hb : assoc bt b.(clients) = None) (He : assoc emu b.(clients) = None)
    (Hst : GpioSpec.standard w.1) (Hin : GpioSpec.in_step (RdcGpio.panel w.2)) (Hsp : spoken (RdcGpio.panel w.2)) :
  let sent := RdcGpio.panel (RdcGpio.pci_write_config Southbridge.RDC321X_GPIO_DATA_REG1 (Gpio.data_reg w.1).1 4 w.2) in
  exists b' c reply,
    loop ((Accept bt :: map (Line bt) (App_init ++ say_cb checked)) ++
          (Accept emu :: feed emu sent) ++ [Line emu (str "R")]) b = Some b' /\
    assoc emu b'.(clients) = Some c /\ last c.(c_out) = Some reply /\
    (RdcGpio.events (RdcGpio.panel w.2) = RdcGpio.Ready (Some (RdcGpio.Data (reply ++ CRLF))) false :: evs ->
     exists w', Gpio.rdc_gpio_get_value 15 w =
       Some (if checked || has C0 (levels PANEL_PIN b) || negb (Z.testbit (Gpio.data_reg w.1).1 15) then 0 else 1, w')).
Proof.
  intros sent. destruct (button_lines checked) as (cmds & El & Hcmds & Epins).
  destruct (joins bt cmds b Hg Hb Hcmds) as [_ (b1 & c1 & E1 & Hg1 & Hc1 & Ep1 & Hh1 & Ho1 & Ek1)].
  rewrite Epins in Ep1.
  assert (He1 : assoc emu b1.(clients) = None).
  { apply assoc_notin. rewrite Ek1, elem_of_app, list_elem_of_singleton. apply assoc_notin in He. intros [?|?]; congruence. }
  assert (Hsp' : spoken sent) by (apply config_spoken, Hsp).
  destruct (joins emu _ b1 Hg1 He1 Hsp') as [_ (b2 & c2 & E2 & Hg2 & Hc2 & Ep2 & Hh2 & Ho2 & _)].
  destruct (query_reply emu c2 b2 Hg2 Hc2) as (b' & c' & E' & Hc' & Hl').
  exists b', c', (str "R " ++ b2.(LastResolve)). split; [|split; [exact Hc'|split; [exact Hl'|]]].
  { rewrite loop_app. rewrite El, map_map, E1. cbn [mbind option_bind]. unfold feed. rewrite loop_app, E2.
    cbn [mbind option_bind loop]. rewrite E'. reflexivity. }
  intros Hev.
  destruct (GpioSpec.gpio_reads_panel 15 w (b2.(LastResolve) ++ CRLF) evs) as (v & w' & Ev & _ & _ & _ & Hv & _).
  - lia.
  - exact Hst.
  - exact Hin.
  - rewrite Hev. unfold GpioSpec.answer. rewrite app_assoc. reflexivity.
  - apply Forall_app. split; [apply resolved_nonzero, Hg2|]. repeat constructor; lia.
  - rewrite length_app. destruct Hg2 as [((_ & _ & ->) & _) _]. cbn. lia.
  - exists w'. rewrite Ev. do 2 f_equal. rewrite (Hv PANEL_PIN) by (reflexivity || (unfold PANEL_PIN, RdcGpio.PANEL_PINS; lia)).
    assert (Hlev : b2.(LastResolve) !! PANEL_PIN =
      Some (if (checked || has C0 (levels PANEL_PIN b)) || negb (Z.testbit (Gpio.data_reg w.1).1 15) then C0 else CP)).
    { apply (joined_level b2 _ PANEL_PIN (Z.testbit (Gpio.data_reg w.1).1 15) emu c2); auto.
      - unfold PANEL_PIN, PIN_COUNT. lia.
      - rewrite Ho2, Hh1, Ho1, orb_comm. f_equal. unfold pin_of. rewrite Ep1. destruct checked; reflexivity.
      - unfold pin_of. rewrite Ep2.
        rewrite (server_view _ Hsp' GetDefaultPins (repeat 0 RdcGpio.PANEL_PINS) eq_refl eq_refl PANEL_PIN)
          by (reflexivity || (unfold PANEL_PIN, RdcGpio.PANEL_PINS; lia)).
        destruct (GpioSpec.write_data1 (Gpio.data_reg w.1).1 w.2 Hin) as (h & Eh & (_ & _ & _ & V) & _ & Hp).
        fold (GpioSpec.panel_view (RdcGpio.commands sent)).
        replace sent with h by (symmetry; exact Eh). rewrite V, Hp by (unfold PANEL_PIN, RdcGpio.PANEL_PINS; lia).
        rewrite GpioSpec.pin_char_bit by (unfold PANEL_PIN, RdcGpio.PANEL_PINS; lia).
        change (nth PANEL_PIN RdcGpio.g_PinMap 0) with 15. destruct (Z.testbit _ 15); reflexivity. }
    rewrite app_nth1 by (destruct Hg2 as [((_ & _ & ->) & _) _]; unfold PANEL_PIN, PIN_COUNT; lia).
    rewrite nth_lookup, Hlev. cbn. destruct (_ || _); reflexivity.
Qed.

Lemma driver_reads_button_witness :
  exists w', Gpio.rdc_gpio_get_value 15 (GpioSpec.sample_world
    [RdcGpio.Ready (Some (RdcGpio.Data (str "R P0PPPPXX" ++ CRLF))) false]) = Some (0, w').
Proof.
  destruct (driver_reads_button 4 5 true (GpioSpec.sample_world
    [RdcGpio.Ready (Some (RdcGpio.Data (str "R P0PPPPXX" ++ CRLF))) false]) TerminalBlock_init [])
    as (b' & c & reply & E1 & E2 & E3 & H).
  - lia.
  - exact init_good.
  - reflexivity.
  - reflexivity.
  - repeat split.
  - apply GpioSpec.pullup_in_step; reflexivity.
  - apply pullup_spoken.
  - apply H. vm_compute in E1. injection E1 as <-. vm_compute in E2. injection E2 as <-.
    vm_compute in E3. injection E3 as <-. reflexivity.
Defined.

End PanelGpio.
