(* ===== verification/RawEth.v ===== *)
(** The boot loader's protocol over raw Ethernet: the socket class that
    tools/bb_eth_setconfig.py, bb_eth_upload8.py and bb_eth_gpio.py share, sending
    the configuration block, flashing an image, driving a pin, and the states of
    the graphical tool.

    The packet socket is an interface ([RawSocket]): the theorems hold whatever
    is on the network.  How often a wait looks for an answer is a parameter (the
    source counts down a floating-point number); messages are not modelled. *)
From Stdlib Require Import ZArith Lia.
From stdpp Require Import base list numbers option strings.
From S2P Require Import Prelude Md5 BiffConfig Python ConfigTools UdpUpload.

(** A non-blocking packet socket.  Finitely many frames wait at any time. *)
Class RawSocket (N : Type) : Type := {
  rs_send : list Z -> N -> N;
  rs_sleep : N -> N;
  rs_recv : N -> option (list Z * N);
  rs_pending : N -> nat;
  rs_recv_less : forall n f n', rs_recv n = Some (f, n') -> (rs_pending n' < rs_pending n)%nat
}.

Module RawEth.
Import Config Python ConfigTools.
Import (notations) UdpUpload.

Definition TYPE_GPIO : Z := 0xe.

Definition any : list Z := repeat 0xff 6.

(** ** Addresses *)

(** [s.split(c)]. *)
Fixpoint split_at (c : Z) (s : list Z) : list (list Z) :=
  match s with
  | [] => [[]]
  | x :: s' =>
      if x =? c then [] :: split_at c s'
      else match split_at c s' with w :: ws => (x :: w) :: ws | [] => [[x]] end
  end.

(** Two hexadecimal digits. *)
Definition mac_byte (i : list Z) : option Z :=
  match i with
  | [h; l] => h ← hexval h; l ← hexval l; Some (16 * h + l)
  | _ => None
  end.

Definition GetMac (dotted : list Z) : option (list Z) :=
  let bits := split_at 58 (strip dotted) in
  if negb (length bits =? 6)%nat then None else mapM mac_byte bits.

(** ** The socket *)

Record soc (N : Type) : Type := mkSoc { s_dest : list Z; s_src : list Z; s_proto : Z; s_wire : N }.
Arguments mkSoc {N} _ _ _ _.
Arguments s_dest {N} _.
Arguments s_src {N} _.
Arguments s_proto {N} _.
Arguments s_wire {N} _.

(** Programs that use the socket and may raise. *)
Definition eth (N A : Type) : Type := soc N -> UdpUpload.res A * soc N.

#[export] Instance eth_ret N : MRet (eth N) := fun A a s => (UdpUpload.Ret a, s).

#[export] Instance eth_bind N : MBind (eth N) := fun A B k m s =>
  match m s with
  | (UdpUpload.Ret a, s) => k a s
  | (UdpUpload.Exn e, s) => (UdpUpload.Exn e, s)
  end.

Definition raise {N A : Type} (e : UdpUpload.exn) : eth N A := fun s => (UdpUpload.Exn e, s).

Definition of_option {N A : Type} (o : option A) : eth N A :=
  match o with Some a => mret a | None => raise UdpUpload.StructError end.

(** The big-endian half-word of a two-byte string. *)
Definition un_be2 (s : list Z) : Z := nth 0 s 0 * 0x100 + nth 1 s 0.

Definition be2 (v : Z) : list Z := [v / 0x100; v mod 0x100].

(** One frame read by [Receive]: skipped (the destination may have been bound to
    its sender), malformed, or the answer. *)
Inductive verdict : Type := Skip | Malformed | Answer (arg : Z) (buffer : list Z).

Definition judge (cmd : Z) (dest data : list Z) : verdict * list Z :=
  if bool_decide (field_of data 0 6 = any) then (Skip, dest)
  else if negb (length (field_of data 12 2) =? 2)%nat then (Malformed, dest)
  else if negb (un_be2 (field_of data 12 2) =? 0xb1ff) then (Skip, dest)
  else
    let src := field_of data 6 6 in
    let dest := if bool_decide (dest = any) then src else dest in
    if negb (bool_decide (src = dest)) then (Skip, dest)
    else if negb (length (field_of data 16 4) =? 4)%nat then (Malformed, dest)
    else if negb (un_le (field_of data 14 2) =? Z.lor cmd 1) then (Skip, dest)
    else (Answer (un_le (field_of data 16 4)) (drop 20 data), dest).

Section Client.
Context {N : Type} `{RawSocket N} (rounds : Z -> nat).

Fixpoint receive_loop (fuel : nat) (cmd : Z) (s : soc N) : UdpUpload.res (option (Z * list Z)) * soc N :=
  match fuel with
  | O => (UdpUpload.Ret None, s)
  | S fuel' =>
      match rs_recv (s_wire s) with
      | None => (UdpUpload.Ret None, s)
      | Some (f, n) =>
          let '(v, dest) := judge cmd (s_dest s) (take 60 f) in
          let s := mkSoc dest (s_src s) (s_proto s) n in
          match v with
          | Skip => receive_loop fuel' cmd s
          | Malformed => (UdpUpload.Exn UdpUpload.StructError, s)
          | Answer arg buffer => (UdpUpload.Ret (Some (arg, buffer)), s)
          end
      end
  end.

(** Each round takes a waiting frame: the fuel is enough ([receive_complete]). *)
Definition Receive (cmd : Z) : eth N (option (Z * list Z)) := fun s =>
  receive_loop (S (rs_pending (s_wire s))) cmd s.

Definition sleep : eth N unit := fun s =>
  (UdpUpload.Ret tt, mkSoc (s_dest s) (s_src s) (s_proto s) (rs_sleep (s_wire s))).

(** [cmd in g_timeout.keys()]. *)
Definition g_timeout (cmd : Z) : bool := UdpUpload.g_timeout cmd || (cmd =? TYPE_GPIO).

Fixpoint wait_loop (n : nat) (cmd : Z) : eth N (bool * list Z) :=
  match n with
  | O => mret (false, [])
  | S n' =>
      _ ← sleep;
      r ← Receive cmd;
      match r with
      | Some (arg, buffer) => mret (true, take (Z.to_nat arg) buffer)
      | None => wait_loop n' cmd
      end
  end.

Definition header (s : soc N) : list Z := s_dest s ++ s_src s ++ be2 (s_proto s).

Definition transmit (body : list Z) : eth N unit := fun s =>
  (UdpUpload.Ret tt, mkSoc (s_dest s) (s_src s) (s_proto s) (rs_send (header s ++ body) (s_wire s))).

Definition Send (cmd arg : Z) (data : list Z) : eth N (bool * list Z) :=
  cmd_p ← of_option (pack 2 cmd);
  arg_p ← of_option (pack 4 arg);
  _ ← transmit (cmd_p ++ arg_p ++ data);
  if g_timeout cmd then wait_loop (rounds cmd) cmd else mret (false, []).

(** ** Writing a chunk *)

(** The parts of at most [ch_size] bytes, the last filled up; every round takes
    at least a byte. *)
Fixpoint chunks_loop (fuel : nat) (ch_size : nat) (data : list Z) : list (list Z) :=
  match fuel with
  | O => []
  | S fuel' =>
      match data with
      | [] => []
      | _ => pad_to ch_size 0xff (take ch_size data) :: chunks_loop fuel' ch_size (drop ch_size data)
      end
  end.

Definition DataToChunks (data : list Z) (ch_size : nat) : list (list Z) := chunks_loop (length data) ch_size data.

Fixpoint add_loop (parts : list (list Z)) : eth N unit :=
  match parts with
  | [] => mret tt
  | i :: parts' => _ ← Send UdpUpload.TYPE_DATA_ADD (Z.of_nat (length i)) i; add_loop parts'
  end.

Definition Transfer (chunk : list Z) : eth N bool :=
  _ ← Send UdpUpload.TYPE_DATA_RESET 0 [];
  _ ← add_loop (DataToChunks chunk 512);
  '(_, digest) ← Send UdpUpload.TYPE_DATA_DIGEST 0 [];
  mret (bool_decide (digest = Md5.rfc_md5 chunk)).

(** [for i in xrange(0, 5)]. *)
Fixpoint try_loop (n : nat) (chunk : list Z) : eth N bool :=
  match n with
  | O => mret false
  | S n' => txed ← Transfer chunk; if (txed : bool) then mret true else try_loop n' chunk
  end.

Definition SendChunk (chunk : list Z) (offset : Z) : eth N unit :=
  txed ← try_loop 5 chunk;
  if negb txed then raise (UdpUpload.DigestError offset)
  else
    '(ok, err) ← Send UdpUpload.TYPE_DATA_WRITE offset [];
    if negb (ok : bool) then raise (UdpUpload.NoResponse offset)
    else
      err ← of_option (UdpUpload.unpack_b err);
      if negb (err =? 0) then raise (UdpUpload.WriteError err offset) else mret tt.

(** The Write button: the block of the form, sent to its chunk. *)
Definition Write_button (f : form) : eth N unit :=
  '(offset, chunk) ← of_option (Write f);
  SendChunk chunk offset.

(** ** Flashing an image (bb_eth_upload8.py) *)

(** Reading the file [csize] bytes at a time; every round takes at least one.
    A whole chunk is cut into parts as [DataToChunks] cuts it. *)
Fixpoint upload_loop (csize fuel : nat) (fp : list Z) (offset : Z) : eth N unit :=
  match fuel with
  | O => mret tt
  | S fuel' =>
      let chunk := take csize fp in
      if (length chunk =? 0)%nat then mret tt
      else
        _ ← SendChunk (pad_to csize 0xff chunk) offset;
        upload_loop csize fuel' (drop csize fp) (offset + 1)
  end.

Definition UploadBinary (image : list Z) : eth N unit := upload_loop (Z.to_nat 8192) (S (length image)) image 0.

(** [tries] is how many rounds ten seconds allow. *)
Fixpoint attention (tries : nat) : eth N bool :=
  match tries with
  | O => mret false
  | S tries' => '(ok, _) ← Send UdpUpload.TYPE_ATTN 0 []; if (ok : bool) then mret true else attention tries'
  end.

Definition Run (tries : nat) (image : list Z) : eth N unit :=
  ok ← attention tries;
  if (ok : bool) then
    _ ← UploadBinary image;
    _ ← Send UdpUpload.TYPE_RELEASE 0 [];
    mret tt
  else mret tt.

(** ** A pin of the board (bb_eth_gpio.py) *)

Definition g_gpio (cmnd : list Z) : option Z :=
  if bool_decide (cmnd = str "read") then Some 0
  else if bool_decide (cmnd = str "high") then Some 1
  else if bool_decide (cmnd = str "low") then Some 2
  else if bool_decide (cmnd = str "in") then Some 3
  else if bool_decide (cmnd = str "out_high") then Some 4
  else if bool_decide (cmnd = str "out_low") then Some 5
  else None.

(** The command [connect] of the tool, which waits for ever: [tries] is how many
    rounds it is given. *)
Definition gpio_connect (tries : nat) : eth N bool := attention tries.

(** [None]: the command is unknown; [Some None]: not OK; otherwise what is
    printed.  A negative shift raises, as does a mask of more than 32 bits. *)
Definition Execute (cmnd : list Z) (pin : Z) : eth N (option (option (Z * Z * Z))) :=
  match g_gpio cmnd with
  | None => mret None
  | Some op =>
      op_p ← of_option (pack 4 op);
      mask_p ← of_option (if pin <? 0 then None else pack 4 (Z.shiftl 1 pin));
      let data := op_p ++ mask_p ++ le 4 0 in
      '(ok, buffer) ← Send TYPE_GPIO (Z.of_nat (length data)) data;
      if (ok : bool) then
        if (length buffer =? 12)%nat then
          mret (Some (Some (un_le (field_of buffer 0 4), un_le (field_of buffer 4 4), un_le (field_of buffer 8 4))))
        else raise UdpUpload.StructError
      else mret (Some None)
  end.

End Client.

(** ** The graphical tool *)

Inductive txt_status : Type := Disconnected | Polling | Connected | ChunkWritten.

(** Where a polling thread is. *)
Inductive phase : Type := Starting | Looping.

(** What the callbacks and the polling threads share; the socket is known by its
    destination. *)
Record gui : Type := mkGui {
  g_status : txt_status;
  g_atten_poll : bool;
  g_soc : option (list Z);
  g_connect : bool;                 (* the buttons' sensitivity *)
  g_write : bool;
  g_threads : list phase;
  g_closed : bool
}.

(** The Write button is left as GTK makes it: sensitive. *)
Definition MainGUI_init : gui := mkGui Disconnected false None false true [] false.

Definition CheckParams (mac : list Z) : bool := match GetMac mac with Some _ => true | None => false end.

(** The timer's callback, with the texts as they are. *)
Definition OnCheckParamsValid (mac : list Z) (f : form) (g : gui) : gui :=
  let ok := CheckParams mac in
  let status := if ok then g_status g else Disconnected in
  let write := CheckWriteButton (match status with Connected => true | _ => false end) f in
  mkGui status (g_atten_poll g) (g_soc g) ok write (g_threads g) (g_closed g).

Definition Connect (g : gui) : gui :=
  mkGui (g_status g) true (g_soc g) (g_connect g) (g_write g) (g_threads g ++ [Starting]) (g_closed g).

Definition destroy (g : gui) : gui :=
  mkGui (g_status g) false (g_soc g) (g_connect g) (g_write g) (g_threads g) true.

(** The start of [PollThread]. *)
Definition poll_start (dest : list Z) (i : nat) (g : gui) : gui :=
  mkGui Polling (g_atten_poll g) (Some dest) (g_connect g) (g_write g) (<[i := Looping]> (g_threads g)) (g_closed g).

(** One test of the loop of [PollThread] and, if it goes on, one [Send]. *)
Definition poll_round (ok : bool) (i : nat) (g : gui) : gui :=
  if g_atten_poll g then
    if ok then mkGui Connected true (g_soc g) (g_connect g) (g_write g) (delete i (g_threads g)) (g_closed g)
    else g
  else mkGui Disconnected false None (g_connect g) (g_write g) (delete i (g_threads g)) (g_closed g).

(** The end of [Write], after [SendChunk] returned. *)
Definition chunk_written (g : gui) : gui :=
  mkGui ChunkWritten (g_atten_poll g) (g_soc g) (g_connect g) (g_write g) (g_threads g) (g_closed g).

(** What can happen to the tool.  A thread whose address is unreadable by then
    ends with an exception, leaving the status it set. *)
Inductive gui_step : gui -> gui -> Prop :=
  | Timer g mac f : g_closed g = false -> gui_step g (OnCheckParamsValid mac f g)
  | ClickConnect g : g_closed g = false -> g_connect g = true -> gui_step g (Connect g)
  | ClickWrite g dest : g_closed g = false -> g_write g = true -> g_soc g = Some dest ->
      gui_step g (chunk_written g)
  | Close g : g_closed g = false -> gui_step g (destroy g)
  | ThreadStart g i mac dest : g_threads g !! i = Some Starting -> GetMac mac = Some dest ->
      gui_step g (poll_start dest i g)
  | ThreadRound g i ok : g_threads g !! i = Some Looping -> gui_step g (poll_round ok i g).

End RawEth.
