(* ===== verification/RawEthSpec.v ===== *)
(** The raw Ethernet tools on any network: only answers of the board count, the
    flash is written only after the board has shown the digest of what was sent,
    and the graphical tool's Write button has a socket behind it once the form
    has been checked. *)
From Stdlib Require Import ZArith Lia.
From stdpp Require Import base list numbers option strings relations.
From S2P Require Import Prelude Md5 BiffConfig Python ConfigTools ConfigToolsSpec UdpUpload RawEth.

Module RawEthSpec.
Import Python RawEth.

Abbreviation Ret := UdpUpload.Ret.
Abbreviation Exn := UdpUpload.Exn.

(** ** Recording a socket *)

(** What crosses the socket. *)
Inductive crossing : Type := Sent (f : list Z) | Got (f : list Z).

(** Any socket, with a record of what crossed it. *)
Definition recorded_recv {N : Type} `{RawSocket N} (n : N * list crossing) : option (list Z * (N * list crossing)) :=
  match rs_recv n.1 with
  | None => None
  | Some (f, m) => Some (f, (m, n.2 ++ [Got f]))
  end.

Lemma recorded_less {N : Type} `{RawSocket N} (n : N * list crossing) f n' :
  recorded_recv n = Some (f, n') -> (rs_pending n'.1 < rs_pending n.1)%nat.
Proof.
  unfold recorded_recv. destruct (rs_recv n.1) as [[g m]|] eqn:E; [|discriminate]. intros [= <- <-].
  apply (rs_recv_less _ _ _ E).
Qed.

#[export] Instance recorded {N : Type} `{RawSocket N} : RawSocket (N * list crossing) := {
  rs_send f n := (rs_send f n.1, n.2 ++ [Sent f]);
  rs_sleep n := (rs_sleep n.1, n.2);
  rs_recv := recorded_recv;
  rs_pending n := rs_pending n.1;
  rs_recv_less := recorded_less
}.

(** ** Waiting for an answer *)

(** The answer to a command, as the client of [dest] reads it off a frame. *)
Definition answer (cmd : Z) (dest f : list Z) : option (list Z) :=
  match judge cmd dest (take 60 f) with
  | (Answer arg buffer, _) => Some (take (Z.to_nat arg) buffer)
  | _ => None
  end.

Lemma judge_bound cmd dest data : dest <> any -> (judge cmd dest data).2 = dest.
Proof. intros Hd. unfold judge. rewrite (bool_decide_eq_false_2 (dest = any)) by done. repeat case_match; reflexivity. Qed.

Section Run.
Context {N : Type} `{RawSocket N} (rounds : Z -> nat).
Context (dest src : list Z) (proto : Z) (Hdest : dest <> any).

(** The client of [dest] with a given record. *)
Definition at_ (n : N) (t : list crossing) : soc (N * list crossing) := mkSoc dest src proto (n, t).

(** A run's outcome: the record grows by receptions only. *)
Definition heard {A : Type} (t : list crossing) (out : UdpUpload.res A * soc (N * list crossing))
    (P : UdpUpload.res A -> list (list Z) -> Prop) : Prop :=
  exists n g, out.2 = at_ n (t ++ map Got g) /\ P out.1 g.

Lemma receive_heard cmd fuel : forall n t,
  heard t (receive_loop fuel cmd (at_ n t)) (fun r g =>
    match r with
    | Ret (Some (arg, buffer)) => exists pre f, g = pre ++ [f] /\ answer cmd dest f = Some (take (Z.to_nat arg) buffer)
    | Ret None => True
    | Exn e => e = UdpUpload.StructError
    end).
Proof.
  induction fuel as [|fuel IH]; intros n t; cbn [receive_loop].
  - exists n, []. rewrite app_nil_r. split; [reflexivity|exact I].
  - cbn [s_wire at_ rs_recv recorded]. unfold recorded_recv. cbn [fst snd].
    destruct (rs_recv n) as [[f m]|] eqn:Er; [|exists n, []; rewrite app_nil_r; split; [reflexivity|exact I]].
    change (s_dest (at_ n t)) with dest. change (s_src (at_ n t)) with src. change (s_proto (at_ n t)) with proto.
    destruct (judge cmd dest (take 60 f)) as [v d] eqn:Ej.
    pose proof (judge_bound cmd dest (take 60 f) Hdest) as Ed. rewrite Ej in Ed. cbn in Ed. subst d.
    fold (at_ m (t ++ [Got f])). destruct v as [| |arg buffer].
    + destruct (IH m (t ++ [Got f])) as (n' & g & E & HP). exists n', (f :: g). split.
      * rewrite E. cbn [map]. rewrite <- app_assoc. reflexivity.
      * destruct (receive_loop fuel cmd _) as [[[[arg buffer]|]|e] s']; cbn in *; auto.
        destruct HP as (pre & f' & -> & Ha). exists (f :: pre), f'. auto.
    + exists m, [f]. split; reflexivity.
    + exists m, [f]. split; [reflexivity|]. exists [], f. split; [reflexivity|]. unfold answer. rewrite Ej. reflexivity.
Qed.

(** What a wait can end with. *)
Definition waited (cmd : Z) (r : UdpUpload.res (bool * list Z)) (g : list (list Z)) : Prop :=
  match r with
  | Ret (true, buffer) => exists pre f, g = pre ++ [f] /\ answer cmd dest f = Some buffer
  | Ret (false, buffer) => buffer = []
  | Exn e => e = UdpUpload.StructError
  end.

Lemma waited_app cmd r g g' : waited cmd r g' -> waited cmd r (g ++ g').
Proof.
  destruct r as [[[] buffer]|e]; cbn; auto. intros (pre & f & -> & Ha). exists (g ++ pre), f. rewrite app_assoc. auto.
Qed.

Lemma wait_heard k cmd : forall n t, heard t (wait_loop k cmd (at_ n t)) (waited cmd).
Proof.
  induction k as [|k IH]; intros n t; cbn [wait_loop].
  - exists n, []. rewrite app_nil_r. split; reflexivity.
  - unfold mbind, eth_bind, sleep. cbn [s_dest s_src s_proto s_wire at_ rs_sleep recorded fst snd].
    fold (at_ (rs_sleep n) t). unfold Receive.
    destruct (receive_heard cmd (S (rs_pending (s_wire (at_ (rs_sleep n) t)))) (rs_sleep n) t) as (m & g & E & HP).
    destruct (receive_loop _ cmd (at_ (rs_sleep n) t)) as [[[[arg buffer]|]|e] s']; cbn [fst snd] in E, HP; subst s'.
    + exists m, g. split; [reflexivity|]. exact HP.
    + destruct (IH m (t ++ map Got g)) as (m' & g' & E & HP'). exists m', (g ++ g'). split.
      * rewrite E, map_app, app_assoc. reflexivity.
      * apply waited_app, HP'.
    + exists m, g. split; [reflexivity|]. exact HP.
Qed.

(** ** Sending *)

Definition frame (cmd arg : Z) (data : list Z) : list Z :=
  (dest ++ src ++ be2 proto) ++ le 2 cmd ++ le 4 arg ++ data.

Lemma eth_Send_quiet cmd arg data n t : 0 <= cmd < 2 ^ 16 -> 0 <= arg < 2 ^ 32 -> g_timeout cmd = false ->
  Send rounds cmd arg data (at_ n t) = (Ret (false, []), at_ (rs_send (frame cmd arg data) n) (t ++ [Sent (frame cmd arg data)])).
Proof.
  intros Hc Ha Hg. unfold Send. rewrite !pack_ok by assumption. cbn [of_option]. unfold mbind, eth_bind, mret, eth_ret.
  rewrite Hg. reflexivity.
Qed.

Lemma eth_Send_asked cmd arg data n t : 0 <= cmd < 2 ^ 16 -> 0 <= arg < 2 ^ 32 -> g_timeout cmd = true ->
  heard (t ++ [Sent (frame cmd arg data)]) (Send rounds cmd arg data (at_ n t)) (waited cmd).
Proof.
  intros Hc Ha Hg. unfold Send. rewrite !pack_ok by assumption. cbn [of_option]. unfold mbind, eth_bind, mret, eth_ret.
  rewrite Hg. apply wait_heard.
Qed.

(** ** Transferring a chunk *)

Definition add_frames (parts : list (list Z)) : list (list Z) :=
  map (fun i => frame UdpUpload.TYPE_DATA_ADD (Z.of_nat (length i)) i) parts.

Definition attempt (chunk : list Z) : list (list Z) :=
  frame UdpUpload.TYPE_DATA_RESET 0 [] :: add_frames (DataToChunks chunk 512) ++ [frame UdpUpload.TYPE_DATA_DIGEST 0 []].

Lemma add_recorded parts : forall n t, Forall (fun i => Z.of_nat (length i) < 2 ^ 32) parts ->
  exists n', add_loop rounds parts (at_ n t) = (Ret tt, at_ n' (t ++ map Sent (add_frames parts))).
Proof.
  induction parts as [|i parts IH]; intros n t Hp; cbn [add_loop].
  - exists n. cbn. rewrite app_nil_r. reflexivity.
  - inversion Hp as [|? ? Hi Hp']; subst. unfold mbind, eth_bind. rewrite eth_Send_quiet by (done || lia).
    destruct (IH (rs_send (frame UdpUpload.TYPE_DATA_ADD (Z.of_nat (length i)) i) n)
                 (t ++ [Sent (frame UdpUpload.TYPE_DATA_ADD (Z.of_nat (length i)) i)]) Hp') as (n' & E).
    exists n'. rewrite E. cbn [add_frames map]. rewrite <- app_assoc. reflexivity.
Qed.

Lemma chunks_lengths fuel sz : forall data, Forall (fun i => length i = sz) (chunks_loop fuel sz data).
Proof.
  induction fuel as [|fuel IH]; intros data; cbn [chunks_loop]; [constructor|]. destruct data as [|x data]; [constructor|].
  constructor; [|apply IH]. unfold pad_to. rewrite length_app, repeat_length.
  pose proof (length_take_le (x :: data) sz). rewrite length_take. lia.
Qed.

Definition transferred (chunk : list Z) (r : UdpUpload.res bool) (g : list (list Z)) : Prop :=
  match r with
  | Ret true => exists pre f, g = pre ++ [f] /\ answer UdpUpload.TYPE_DATA_DIGEST dest f = Some (Md5.rfc_md5 chunk)
  | Ret false => True
  | Exn e => e = UdpUpload.StructError
  end.

Lemma Transfer_recorded chunk n t :
  heard (t ++ map Sent (attempt chunk)) (Transfer rounds chunk (at_ n t)) (transferred chunk).
Proof.
  unfold Transfer, mbind, eth_bind. rewrite eth_Send_quiet by done.
  set (n1 := rs_send _ n). set (t1 := t ++ [_]).
  destruct (add_recorded (DataToChunks chunk 512) n1 t1) as (n2 & E2).
  { eapply List.Forall_impl; [|apply (chunks_lengths (length chunk) 512 chunk)]. cbn. intros i ->. done. }
  rewrite E2.
  destruct (eth_Send_asked UdpUpload.TYPE_DATA_DIGEST 0 [] n2 (t1 ++ map Sent (add_frames (DataToChunks chunk 512)))
              ltac:(done) ltac:(done) eq_refl) as (n3 & g & E3 & HP).
  assert (Et : (t1 ++ map Sent (add_frames (DataToChunks chunk 512))) ++ [Sent (frame UdpUpload.TYPE_DATA_DIGEST 0 [])] =
               t ++ map Sent (attempt chunk)).
  { unfold t1, attempt. cbn [map]. rewrite map_app, <- !app_assoc. reflexivity. }
  rewrite Et in E3. destruct (Send rounds UdpUpload.TYPE_DATA_DIGEST 0 [] _) as [[[ok digest]|e] s'];
    cbn [fst snd] in E3, HP; subst s'; exists n3, g; (split; [reflexivity|]); cbn; [|exact HP].
  case_bool_decide as Hd; [|exact I]. subst digest. destruct ok; [exact HP|].
  exfalso. change (Md5.rfc_md5 chunk = []) in HP. apply (f_equal length) in HP. rewrite ConfigToolsSpec.length_md5 in HP. discriminate.
Qed.

(** Attempts, each with what was heard after it. *)
Definition attempts (chunk : list Z) (gs : list (list (list Z))) : list crossing :=
  concat (map (fun g => map Sent (attempt chunk) ++ map Got g) gs).

Lemma attempts_snoc chunk gs g : attempts chunk (gs ++ [g]) = attempts chunk gs ++ map Sent (attempt chunk) ++ map Got g.
Proof. unfold attempts. rewrite map_app, concat_app. cbn. rewrite app_nil_r. reflexivity. Qed.

Lemma try_recorded chunk k : forall n t, exists n' gs,
  (try_loop rounds k chunk (at_ n t)).2 = at_ n' (t ++ attempts chunk gs) /\ (length gs <= k)%nat /\
  match (try_loop rounds k chunk (at_ n t)).1 with
  | Ret true => exists gs' g, gs = gs' ++ [g] /\ transferred chunk (Ret true) g
  | Ret false => True
  | Exn e => e = UdpUpload.StructError
  end.
Proof.
  induction k as [|k IH]; intros n t; cbn [try_loop].
  - exists n, []. cbn. rewrite app_nil_r. auto.
  - unfold mbind, eth_bind. destruct (Transfer_recorded chunk n t) as (n1 & g & E & HP).
    destruct (Transfer rounds chunk (at_ n t)) as [[[]|e] s']; cbn [fst snd] in E, HP; subst s'.
    + exists n1, [g]. split; [|split; [cbn; lia|exists [], g; auto]]. cbn. rewrite app_nil_r, <- app_assoc. reflexivity.
    + destruct (IH n1 ((t ++ map Sent (attempt chunk)) ++ map Got g)) as (n2 & gs & E2 & Hl & H2).
      exists n2, (g :: gs). rewrite E2. split; [|split; [cbn; lia|]].
      * unfold attempts. cbn [map concat]. rewrite <- !app_assoc. reflexivity.
      * destruct (try_loop rounds k chunk _) as [[[]|e] s']; cbn [fst] in *; auto.
        destruct H2 as (gs' & g' & -> & HP'). exists (g :: gs'), g'. auto.
    + exists n1, [g]. split; [|split; [cbn; lia|exact HP]]. cbn. rewrite app_nil_r, <- app_assoc. reflexivity.
Qed.

(** How sending a chunk can end: nothing was written, or the write came right
    after an answer with the digest; it returns only after an answer 0. *)
Definition chunk_outcome (chunk : list Z) (offset : Z) (t : list crossing) (out : UdpUpload.res unit * soc (N * list crossing)) : Prop :=
  exists n gs tail, out.2 = at_ n (t ++ attempts chunk gs ++ tail) /\ (length gs <= 5)%nat /\
    (tail = [] /\ (out.1 = Exn (UdpUpload.DigestError offset) \/ out.1 = Exn UdpUpload.StructError) \/
     exists gs' pre f g, gs = gs' ++ [pre ++ [f]] /\
       answer UdpUpload.TYPE_DATA_DIGEST dest f = Some (Md5.rfc_md5 chunk) /\
       tail = Sent (frame UdpUpload.TYPE_DATA_WRITE offset []) :: map Got g /\
       (out.1 = Ret tt -> exists pre' f' err, g = pre' ++ [f'] /\
          answer UdpUpload.TYPE_DATA_WRITE dest f' = Some err /\ UdpUpload.unpack_b err = Some 0)).

Lemma SendChunk_recorded chunk offset n t : 0 <= offset < 2 ^ 32 ->
  chunk_outcome chunk offset t (SendChunk rounds chunk offset (at_ n t)).
Proof.
  intros Ho. unfold SendChunk, mbind, eth_bind. destruct (try_recorded chunk 5 n t) as (n1 & gs & E1 & Hl & H1).
  destruct (try_loop rounds 5 chunk (at_ n t)) as [[[]|e] s1]; cbn [fst snd] in E1, H1; subst s1; cbn [negb].
  - destruct H1 as (gs' & g & -> & pre & f & -> & Ha).
    destruct (eth_Send_asked UdpUpload.TYPE_DATA_WRITE offset [] n1 (t ++ attempts chunk (gs' ++ [pre ++ [f]]))
                ltac:(done) Ho eq_refl) as (n2 & g2 & E2 & HP).
    destruct (Send rounds UdpUpload.TYPE_DATA_WRITE offset [] _) as [[[ok err]|e] s2]; cbn [fst snd] in E2, HP; subst s2.
    + eexists n2, (gs' ++ [pre ++ [f]]), (Sent (frame UdpUpload.TYPE_DATA_WRITE offset []) :: map Got g2).
      split; [|split; [exact Hl|right; exists gs', pre, f, g2; split; [reflexivity|split; [exact Ha|split; [reflexivity|]]]]].
      * rewrite <- !app_assoc. destruct ok; [|reflexivity]. cbn [negb]. unfold of_option.
        destruct (UdpUpload.unpack_b err) as [z|]; [|reflexivity]. cbn. destruct (negb (z =? 0)); reflexivity.
      * destruct ok; [|discriminate]. cbn [negb]. unfold of_option.
        destruct (UdpUpload.unpack_b err) as [z|] eqn:Eu; [|discriminate]. cbn. zcase; cbn [negb]; [|discriminate].
        intros _. destruct HP as (pre' & f' & -> & Ha'). exists pre', f', err. subst z. auto.
    + eexists n2, (gs' ++ [pre ++ [f]]), (Sent (frame UdpUpload.TYPE_DATA_WRITE offset []) :: map Got g2).
      split; [rewrite <- !app_assoc; reflexivity|]. split; [exact Hl|]. right. exists gs', pre, f, g2.
      split; [reflexivity|]. split; [exact Ha|]. split; [reflexivity|]. discriminate.
  - exists n1, gs, []. rewrite app_nil_r. split; [reflexivity|]. split; [exact Hl|]. left. auto.
  - exists n1, gs, []. rewrite app_nil_r. subst e. split; [reflexivity|]. split; [exact Hl|]. left. auto.
Qed.

(** ** Flashing an image *)

(** The record of a chunk that the board confirmed. *)
Definition verified (chunk : list Z) (offset : Z) (t : list crossing) : Prop :=
  exists gs pre f pre' f' err,
    t = attempts chunk (gs ++ [pre ++ [f]]) ++
        Sent (frame UdpUpload.TYPE_DATA_WRITE offset []) :: map Got (pre' ++ [f']) /\
    answer UdpUpload.TYPE_DATA_DIGEST dest f = Some (Md5.rfc_md5 chunk) /\
    answer UdpUpload.TYPE_DATA_WRITE dest f' = Some err /\ UdpUpload.unpack_b err = Some 0.

(** The record of a chunk at which the upload was given up: at most five complete
    transfers and then nothing, or the write command, sent right after a frame
    from the board with the chunk's MD5. *)
Definition given_up (chunk : list Z) (offset : Z) (t : list crossing) : Prop :=
  exists gs tail, t = attempts chunk gs ++ tail /\ (length gs <= 5)%nat /\
    (tail = [] \/
     exists gs' pre f g, gs = gs' ++ [pre ++ [f]] /\
       answer UdpUpload.TYPE_DATA_DIGEST dest f = Some (Md5.rfc_md5 chunk) /\
       tail = Sent (frame UdpUpload.TYPE_DATA_WRITE offset []) :: map Got g).

(** Records of the first chunks, in order. *)
Fixpoint verified_all (offset : Z) (chunks : list (list Z)) (ts : list (list crossing)) : Prop :=
  match ts, chunks with
  | [], _ => True
  | t :: ts', c :: chunks' => verified c offset t /\ verified_all (offset + 1) chunks' ts'
  | _, [] => False
  end.

Lemma SendChunk_verified chunk offset n t r s' : 0 <= offset < 2 ^ 32 ->
  SendChunk rounds chunk offset (at_ n t) = (r, s') ->
  exists n' rec, s' = at_ n' (t ++ rec) /\ (r = Ret tt -> verified chunk offset rec) /\ given_up chunk offset rec.
Proof.
  intros Ho E. destruct (SendChunk_recorded chunk offset n t Ho) as (n' & gs & tail & E' & Hl & Hout).
  rewrite E in E', Hout. cbn [fst snd] in *. exists n', (attempts chunk gs ++ tail). split; [exact E'|]. split.
  2: { exists gs, tail. split; [reflexivity|]. split; [exact Hl|].
       destruct Hout as [[-> _]|(gs' & pre & f & g & -> & Ha & -> & _)]; [auto|right; exists gs', pre, f, g; auto]. }
  intros ->. destruct Hout as [[_ [Hx|Hx]]|(gs' & pre & f & g & -> & Ha & -> & Hr)]; try discriminate Hx.
  destruct (Hr eq_refl) as (pre' & f' & err & -> & Hw & Hz). exists gs', pre, f, pre', f', err. auto.
Qed.

Lemma chunks_fuel sz k : forall data, (0 < sz)%nat -> (length data <= k)%nat ->
  chunks_loop k sz data = chunks_loop (length data) sz data.
Proof.
  induction k as [k IH] using lt_wf_ind. intros data Hs Hk. destruct data as [|x data]; [destruct k; reflexivity|].
  destruct k as [|k]; [cbn in Hk; lia|]. cbn [length chunks_loop] in *. f_equal.
  assert (Hd : (length (drop sz (x :: data)) <= length data)%nat) by (rewrite length_drop; cbn [length]; lia).
  rewrite (IH k) by lia. symmetry. apply IH; [lia|exact Hs|exact Hd].
Qed.

Lemma DataToChunks_cons sz x fp : (0 < sz)%nat ->
  DataToChunks (x :: fp) sz = pad_to sz 0xff (take sz (x :: fp)) :: DataToChunks (drop sz (x :: fp)) sz.
Proof.
  intros Hsz. unfold DataToChunks at 1. cbn [length chunks_loop]. f_equal. apply chunks_fuel; [exact Hsz|].
  rewrite length_drop. cbn [length]. lia.
Qed.

Lemma upload_recorded sz fuel : forall fp offset n t r s', (0 < sz)%nat -> 0 <= offset -> offset + Z.of_nat fuel <= 2 ^ 32 ->
  (length fp < fuel)%nat -> upload_loop rounds sz fuel fp offset (at_ n t) = (r, s') ->
  exists n' ts rest, s' = at_ n' (t ++ concat ts ++ rest) /\
    verified_all offset (DataToChunks fp sz) ts /\
    (r = Ret tt -> rest = [] /\ length ts = length (DataToChunks fp sz)) /\
    (forall e, r = Exn e -> exists chunk, DataToChunks fp sz !! length ts = Some chunk /\
       given_up chunk (offset + Z.of_nat (length ts)) rest).
Proof.
  induction fuel as [|fuel IH]; intros fp offset n t r s' Hsz Ho Hmax Hl E; [lia|]. cbn [upload_loop] in E.
  destruct fp as [|x fp].
  - rewrite take_nil in E. cbn [length Nat.eqb] in E. injection E as <- <-. exists n, [], [].
    split; [cbn; rewrite app_nil_r; reflexivity|]. split; [exact I|]. split; [auto|discriminate].
  - rewrite (DataToChunks_cons sz x fp) by exact Hsz. set (fp' := x :: fp) in *.
    rewrite (proj2 (Nat.eqb_neq _ 0)) in E by (rewrite length_take; unfold fp'; cbn [length]; lia).
    unfold mbind, eth_bind in E.
    destruct (SendChunk rounds (pad_to sz 0xff (take sz fp')) offset (at_ n t)) as [r1 s1] eqn:E1.
    apply SendChunk_verified in E1 as (n1 & rec & -> & Hv & Hg); [|lia]. destruct r1 as [[]|e].
    + apply IH in E as (n2 & ts & rest & -> & Hall & Hret & Hgave); [|exact Hsz|lia|lia|rewrite length_drop; unfold fp' in *; cbn [length] in *; lia].
      exists n2, (rec :: ts), rest. cbn [concat length verified_all]. rewrite <- !app_assoc. split; [reflexivity|].
      split; [auto|]. split; [intros Hr; destruct (Hret Hr) as [-> ->]; auto|].
      intros e He. destruct (Hgave e He) as (chunk & Hc & Hup). exists chunk. split; [exact Hc|].
      replace (offset + Z.of_nat (S (length ts))) with (offset + 1 + Z.of_nat (length ts)) by lia. exact Hup.
    + injection E as <- <-. exists n1, [], rec. split; [reflexivity|]. split; [exact I|]. split; [discriminate|].
      intros e' _. eexists. split; [reflexivity|]. cbn [length]. rewrite Z.add_0_r. exact Hg.
Qed.

End Run.

(** ** Only the board counts *)

(** What makes a frame the answer to [cmd] of the station [dest]. *)
Lemma judge_answer cmd dest data arg buffer d : judge cmd dest data = (Answer arg buffer, d) ->
  field_of data 0 6 <> any /\ un_be2 (field_of data 12 2) = 0xb1ff /\ field_of data 6 6 = d /\
  (d = dest \/ dest = any) /\ un_le (field_of data 14 2) = Z.lor cmd 1 /\
  un_le (field_of data 16 4) = arg /\ drop 20 data = buffer.
Proof.
  unfold judge. case_bool_decide as Hb; [discriminate|]. destruct (negb _); [discriminate|].
  destruct (Z.eqb_spec (un_be2 (field_of data 12 2)) 0xb1ff) as [Ep|]; cbn [negb]; [|discriminate].
  case_bool_decide as Hs; [|discriminate]. cbn [negb]. destruct (negb _); [discriminate|].
  destruct (Z.eqb_spec (un_le (field_of data 14 2)) (Z.lor cmd 1)) as [Et|]; cbn [negb]; [|discriminate].
  intros [= <- <- Hd]. rewrite Hd in Hs. split; [exact Hb|]. split; [exact Ep|]. split; [congruence|].
  split; [|auto]. revert Hd. case_bool_decide; auto.
Qed.

(** The fuel of [Receive] is enough. *)
Lemma receive_complete {N : Type} `{RawSocket N} cmd fuel : forall (s : soc N) k,
  (rs_pending (s_wire s) < fuel)%nat -> (fuel <= k)%nat -> receive_loop k cmd s = receive_loop fuel cmd s.
Proof.
  induction fuel as [|fuel IH]; intros s k Hp Hk; [lia|]. destruct k as [|k]; [lia|]. cbn [receive_loop].
  destruct (rs_recv (s_wire s)) as [[f n]|] eqn:E; [|reflexivity]. apply rs_recv_less in E.
  destruct (judge cmd (s_dest s) (take 60 f)) as [[] d]; try reflexivity. apply IH; cbn; lia.
Qed.

(** The parts make up the data and the filling. *)
Lemma parts_concat fuel sz : forall data, (0 < sz)%nat -> (length data <= fuel)%nat ->
  exists k, (k < sz)%nat /\ concat (chunks_loop fuel sz data) = data ++ repeat 0xff k.
Proof.
  induction fuel as [|fuel IH]; intros data Hs Hl; cbn [chunks_loop].
  - destruct data; [|cbn in Hl; lia]. exists 0%nat. split; [lia|reflexivity].
  - destruct data as [|x data]; [exists 0%nat; split; [lia|reflexivity]|].
    cbn [concat]. destruct (decide (length (x :: data) <= sz)%nat) as [Hle|Hgt].
    + exists (sz - length (x :: data))%nat. cbn [length] in *. split; [lia|]. rewrite drop_ge, take_ge by (cbn; lia).
      unfold pad_to. replace (concat (chunks_loop fuel sz [])) with (@nil Z) by (destruct fuel; reflexivity).
      rewrite app_nil_r. reflexivity.
    + destruct (IH (drop sz (x :: data)) Hs) as (k & Hk & E).
      { rewrite length_drop. lia. }
      exists k. split; [exact Hk|]. rewrite E. unfold pad_to. rewrite length_take.
      replace (sz - sz `min` length (x :: data))%nat with 0%nat by lia. cbn [repeat]. rewrite app_nil_r.
      rewrite app_assoc, take_drop. reflexivity.
Qed.

Lemma Write_offset f offset chunk : ConfigTools.Write f = Some (offset, chunk) -> 0 <= offset < 2 ^ 32.
Proof.
  unfold ConfigTools.Write. intros E.
  repeat match type of E with context [?o ≫= _] => destruct o as [|] eqn:?; cbn [mbind option_bind] in E; [|discriminate] end.
  injection E as <- _.
  match goal with H : ConfigTools.GetConfigChunk f = Some _ |- _ => revert H end.
  unfold ConfigTools.GetConfigChunk, py_index, ConfigTools.flash_sizes.
  generalize (if ConfigTools.form_flash f <? 0 then ConfigTools.form_flash f + Z.of_nat (length [1; 4; 8]) else ConfigTools.form_flash f).
  intros i. destruct (i <? 0); [discriminate|].
  destruct (Z.to_nat i) as [|[|[|k]]]; cbn -[Z.mul Z.sub Z.div]; try discriminate; intros [= <-]; done.
Qed.

Lemma UploadBinary_eq {N : Type} `{RawSocket N} rounds image (s : soc N) :
  UploadBinary rounds image s = upload_loop rounds (Z.to_nat 8192) (S (length image)) image 0 s.
Proof. reflexivity. Qed.

Lemma upload_outcome {N : Type} `{RawSocket N} rounds dest src proto sz image (n : N) :
  dest <> any -> (0 < sz)%nat -> Z.of_nat (length image) < 2 ^ 32 ->
  exists n' ts rest,
    (upload_loop rounds sz (S (length image)) image 0 (at_ dest src proto n [])).2 = at_ dest src proto n' (concat ts ++ rest) /\
    verified_all dest src proto 0 (DataToChunks image sz) ts /\
    ((upload_loop rounds sz (S (length image)) image 0 (at_ dest src proto n [])).1 = Ret tt ->
     rest = [] /\ length ts = length (DataToChunks image sz)) /\
    (forall e, (upload_loop rounds sz (S (length image)) image 0 (at_ dest src proto n [])).1 = Exn e ->
     exists chunk, DataToChunks image sz !! length ts = Some chunk /\
       given_up dest src proto chunk (Z.of_nat (length ts)) rest).
Proof.
  intros Hdest Hsz Hlen.
  destruct (upload_loop rounds sz (S (length image)) image 0 (at_ dest src proto n [])) as [r s'] eqn:E.
  apply upload_recorded in E; [exact E|exact Hdest|exact Hsz|lia|lia|lia].
Qed.

(** ** The graphical tool *)

Definition gui_ok (g : gui) : Prop :=
  g_closed g = true \/
  ((g_threads g = [] \/ g_atten_poll g = true) /\
   (g_status g = Connected \/ g_write g = true \/ Looping ∈ g_threads g -> is_Some (g_soc g))).

Lemma gui_step_ok g g' : gui_step g g' -> gui_ok g -> gui_ok g'.
Proof.
  intros Hstep. destruct Hstep as [g mac f Hc|g Hc Hb|g d Hc Hb Hs|g Hc|g i mac d Hi Hm|g i ok Hi]; unfold gui_ok;
    intros [Hx|[Ht Hsoc]]; try (left; exact Hx); try (left; reflexivity); try congruence.
  - right. cbn. split; [exact Ht|]. intros [E|[E|E]]; apply Hsoc; auto.
    + destruct (CheckParams mac); [auto|discriminate].
    + unfold ConfigTools.CheckWriteButton in E. destruct (CheckParams mac), (g_status g); auto; discriminate.
  - right. cbn. split; [right; reflexivity|]. intros [E|[E|E]]; apply Hsoc; auto.
    rewrite elem_of_app, list_elem_of_singleton in E. destruct E as [E|E]; [auto|discriminate].
  - right. cbn. split; [exact Ht|]. intros _. eauto.
  - right. cbn. split; [|eauto]. destruct Ht as [Ht|Ht]; [rewrite Ht in Hi; discriminate|auto].
  - left. unfold poll_round. destruct (g_atten_poll g), ok; exact Hx.
  - right. assert (Ha : g_atten_poll g = true) by (destruct Ht as [Ht|Ht]; [rewrite Ht in Hi; discriminate|exact Ht]).
    unfold poll_round. rewrite Ha. apply list_elem_of_lookup_2 in Hi. destruct ok; cbn; auto.
Qed.

(** ** Claims *)

(** C20: The configuration is written only when it has arrived.  Whatever is on
    the network, pressing Write sends up to five complete transfers of the block
    (its 512-byte parts make up the block and less than a part of filling); a
    write command, for the chunk of the form, is sent only right after a frame
    from the board that carries the MD5 of the block, and the handler returns
    normally only after the board has answered the write with 0. *)
Theorem config_write_verified {N : Type} `{RawSocket N} rounds dest src proto f offset chunk (n : N)
    (Hdest : dest <> any) (Hw : ConfigTools.Write f = Some (offset, chunk)) :
  chunk_outcome dest src proto chunk offset [] (Write_button rounds f (at_ dest src proto n [])) /\
  exists k, (k < 512)%nat /\ concat (DataToChunks chunk 512) = chunk ++ repeat 0xff k.
Proof.
  split; [|apply parts_concat; lia]. unfold Write_button, mbind, eth_bind. rewrite Hw. cbn.
  apply SendChunk_recorded; [exact Hdest|apply (Write_offset f offset chunk Hw)].
Qed.

(** Frames that arrive in slots of time: a sleep ends the slot once it is read. *)
Definition slots : Type := list (list Z) * list (list (list Z)).

#[export] Instance slotted : RawSocket slots := {
  rs_send _ n := n;
  rs_sleep n := match n with ([], s :: later) => (s, later) | _ => n end;
  rs_recv n := match n with (f :: now, later) => Some (f, (now, later)) | _ => None end;
  rs_pending n := length n.1;
  rs_recv_less := ltac:(intros [[|g now] later] f n'; [discriminate|intros [= <- <-]; cbn; lia])
}.

Definition pc : list Z := [0x00; 0x1b; 0x21; 0x3c; 0x4d; 0x5e].

Definition board : list Z := [0x00; 0xb3; 0xf6; 0x19; 0x1d; 0xd6].

(** A frame of the protocol from [from] to the PC. *)
Definition to_pc (from : list Z) (cmd arg : Z) (data : list Z) : list Z :=
  pc ++ from ++ be2 0xb1ff ++ le 2 cmd ++ le 4 arg ++ data.

Lemma config_write_verified_witness : exists offset,
  chunk_outcome board pc 0xb1ff (ConfigToolsSpec.block (ConfigToolsSpec.entered ConfigToolsSpec.some_form)) offset []
    (Write_button (fun _ => 5%nat) ConfigToolsSpec.some_form (at_ board pc 0xb1ff ([], []) [])).
Proof.
  destruct (ConfigToolsSpec.Write_block ConfigToolsSpec.some_form ConfigToolsSpec.some_form_ok eq_refl) as (_ & offset & _ & Hw).
  exists offset. apply (config_write_verified (fun _ => 5%nat) board pc 0xb1ff ConfigToolsSpec.some_form offset); [discriminate|exact Hw].
Defined.

(** At the start the Write button can be pressed before the form is first
    checked, and there is no socket to write to. *)
Lemma write_sensitive_at_start : g_write MainGUI_init = true /\ g_soc MainGUI_init = None.
Proof. split; reflexivity. Qed.

(** From the first check of the form on, whatever the user does, however the
    entries change and however the polling threads are scheduled, the Write
    button can only be pressed when there is a socket to write to. *)
Theorem write_button_has_socket mac f g
    (Hreach : rtc gui_step (OnCheckParamsValid mac f MainGUI_init) g)
    (Hopen : g_closed g = false) (Hwrite : g_write g = true) :
  is_Some (g_soc g).
Proof.
  assert (Hok : gui_ok g).
  { assert (H0 : gui_ok (OnCheckParamsValid mac f MainGUI_init)).
    { right. split; [left; reflexivity|]. cbn. unfold ConfigTools.CheckWriteButton.
      destruct (CheckParams mac); cbn; intros [E|[E|E]]; try discriminate; inversion E. }
    revert H0. induction Hreach as [|x y z Hstep _ IH]; intros Hx; [exact Hx|]. eauto using gui_step_ok. }
  destruct Hok as [Hc|[_ Hs]]; [congruence|auto].
Qed.

Definition some_mac : list Z := str "00:b3:f6:19:1d:d6".

(** Checked, connected, polled once, answered, checked again. *)
Definition connected_gui : gui :=
  OnCheckParamsValid some_mac ConfigToolsSpec.some_form
    (poll_round true 0 (poll_start board 0 (Connect (OnCheckParamsValid some_mac ConfigToolsSpec.some_form MainGUI_init)))).

Lemma write_button_has_socket_witness : g_write connected_gui = true /\ is_Some (g_soc connected_gui).
Proof.
  split; [vm_compute; reflexivity|].
  apply (write_button_has_socket some_mac ConfigToolsSpec.some_form); [|reflexivity|vm_compute; reflexivity].
  eapply rtc_l; [apply ClickConnect; reflexivity|].
  eapply rtc_l; [apply (ThreadStart _ 0 some_mac board); vm_compute; reflexivity|].
  eapply rtc_l; [apply (ThreadRound _ 0 true); vm_compute; reflexivity|].
  eapply rtc_l; [apply (Timer _ some_mac ConfigToolsSpec.some_form); vm_compute; reflexivity|].
  apply rtc_refl.
Defined.

(** C32: Flashing over raw Ethernet, to a board whose address is known, an image of
    less than 4 GiB.  Whatever is on the network, the record of an upload starts
    with confirmed chunks: those of the image, filled up, in order and with their
    numbers, each transferred until the board showed its MD5, then written and
    answered with 0.  The upload returns normally only when that is so of every
    chunk, with nothing else sent.  If it ends with an exception, the rest of the
    record is that of the next chunk: at most five complete transfers, and a write
    command, if there is one, right after a frame from the board with the chunk's
    MD5; nothing follows it but frames that arrived. *)
Theorem eth_upload_verified {N : Type} `{RawSocket N} rounds dest src proto image (n : N)
    (Hdest : dest <> any) (Hlen : Z.of_nat (length image) < 2 ^ 32) :
  let out := UploadBinary rounds image (at_ dest src proto n []) in
  exists n' ts rest, out.2 = at_ dest src proto n' (concat ts ++ rest) /\
    verified_all dest src proto 0 (DataToChunks image (Z.to_nat 8192)) ts /\
    (out.1 = Ret tt -> rest = [] /\ length ts = length (DataToChunks image (Z.to_nat 8192))) /\
    (forall e, out.1 = Exn e ->
       exists chunk, DataToChunks image (Z.to_nat 8192) !! length ts = Some chunk /\
         given_up dest src proto chunk (Z.of_nat (length ts)) rest).
Proof.
  intros out. unfold out. rewrite UploadBinary_eq. apply upload_outcome; [exact Hdest|lia|exact Hlen].
Qed.

(** A board that answers: first with the digest, then that the write went well. *)
Definition obliging (chunks : list (list Z)) : list (list (list Z)) :=
  concat (map (fun c => [[to_pc board 9 16 (Md5.rfc_md5 c)]; [to_pc board 0xb 1 [0]]]) chunks).

Definition once (cmd : Z) : nat := 1.

(** *** An obliging board gets the whole image *)

Lemma wait_digest d later t : length d = 16%nat ->
  wait_loop 1 UdpUpload.TYPE_DATA_DIGEST (at_ board pc 0xb1ff (([], [to_pc board 9 16 d] :: later) : slots) t) =
    (Ret (true, d), at_ board pc 0xb1ff ([], later) (t ++ [Got (to_pc board 9 16 d)])).
Proof. intros Hd. do 16 (destruct d as [|? d]; [discriminate Hd|]). destruct d; [|discriminate Hd]. reflexivity. Qed.

Lemma wait_written later t :
  wait_loop 1 UdpUpload.TYPE_DATA_WRITE (at_ board pc 0xb1ff (([], [to_pc board 0xb 1 [0]] :: later) : slots) t) =
    (Ret (true, [0]), at_ board pc 0xb1ff ([], later) (t ++ [Got (to_pc board 0xb 1 [0])])).
Proof. reflexivity. Qed.

Lemma Send_waits cmd arg data (n : slots) t : 0 <= cmd < 2 ^ 16 -> 0 <= arg < 2 ^ 32 -> g_timeout cmd = true ->
  Send once cmd arg data (at_ board pc 0xb1ff n t) =
    wait_loop 1 cmd (at_ board pc 0xb1ff n (t ++ [Sent (frame board pc 0xb1ff cmd arg data)])).
Proof.
  intros Hc Ha Hg. unfold Send. rewrite !pack_ok by assumption. cbn [of_option]. unfold mbind, eth_bind, mret, eth_ret.
  rewrite Hg. reflexivity.
Qed.

Lemma add_obliging parts : forall (n : slots) t, Forall (fun i => Z.of_nat (length i) < 2 ^ 32) parts ->
  exists t', add_loop once parts (at_ board pc 0xb1ff n t) = (Ret tt, at_ board pc 0xb1ff n t').
Proof.
  induction parts as [|i parts IH]; intros n t Hp; cbn [add_loop]; [eexists; reflexivity|].
  inversion Hp as [|? ? Hi Hp']; subst. unfold mbind, eth_bind. rewrite eth_Send_quiet by (done || lia). apply IH, Hp'.
Qed.

Lemma SendChunk_obliging chunk offset later t : 0 <= offset < 2 ^ 32 ->
  exists t', SendChunk once chunk offset (at_ board pc 0xb1ff (([], obliging [chunk] ++ later) : slots) t) =
    (Ret tt, at_ board pc 0xb1ff ([], later) t').
Proof.
  intros Ho.
  assert (Ht : exists t', Transfer once chunk (at_ board pc 0xb1ff (([], obliging [chunk] ++ later) : slots) t) =
    (Ret true, at_ board pc 0xb1ff ([], [to_pc board 0xb 1 [0]] :: later) t')).
  { unfold Transfer, mbind, eth_bind. rewrite eth_Send_quiet by done. cbn [rs_send slotted].
    edestruct (add_obliging (DataToChunks chunk 512)) as (t1 & E1).
    { eapply List.Forall_impl; [|apply (chunks_lengths (length chunk) 512 chunk)]. cbn. intros i ->. done. }
    rewrite E1, Send_waits by done. unfold obliging. cbn [map concat app].
    rewrite wait_digest by apply ConfigToolsSpec.length_md5. rewrite bool_decide_eq_true_2 by reflexivity.
    eexists. reflexivity. }
  destruct Ht as (t1 & E1). unfold SendChunk, mbind, eth_bind. cbn [try_loop]. unfold mbind, eth_bind. rewrite E1.
  cbn [mret eth_ret negb]. rewrite Send_waits by done. rewrite wait_written. eexists. reflexivity.
Qed.

Lemma upload_obliging sz fuel : forall fp offset t, (0 < sz)%nat -> 0 <= offset -> offset + Z.of_nat fuel <= 2 ^ 32 ->
  (length fp < fuel)%nat ->
  exists t', upload_loop once sz fuel fp offset (at_ board pc 0xb1ff (([], obliging (DataToChunks fp sz)) : slots) t) =
    (Ret tt, at_ board pc 0xb1ff ([], []) t').
Proof.
  induction fuel as [|fuel IH]; intros fp offset t Hsz Ho Hmax Hl; [lia|]. cbn [upload_loop].
  destruct fp as [|x fp]; [rewrite take_nil; eexists; reflexivity|].
  rewrite (proj2 (Nat.eqb_neq _ 0)) by (rewrite length_take; cbn [length]; lia).
  rewrite DataToChunks_cons by exact Hsz. unfold obliging. cbn [map concat]. fold (obliging (DataToChunks (drop sz (x :: fp)) sz)).
  unfold mbind, eth_bind.
  destruct (SendChunk_obliging (pad_to sz 0xff (take sz (x :: fp))) offset (obliging (DataToChunks (drop sz (x :: fp)) sz)) t)
    as (t1 & E1); [lia|].
  unfold obliging in E1 at 1. cbn [map concat] in E1. rewrite app_nil_r in E1. rewrite E1.
  apply IH; [exact Hsz|lia|lia|]. rewrite length_drop. cbn [length] in *. lia.
Qed.

Definition small_image : list Z := repeat 0xab (Z.to_nat 8193).

Lemma eth_upload_verified_witness :
  let out := UploadBinary once small_image
               (at_ board pc 0xb1ff (([], obliging (DataToChunks small_image (Z.to_nat 8192))) : slots) []) in
  out.1 = Ret tt /\ exists n' ts, out.2 = at_ board pc 0xb1ff n' (concat ts ++ []) /\
    length ts = length (DataToChunks small_image (Z.to_nat 8192)).
Proof.
  intros out.
  assert (Hout : out.1 = Ret tt).
  { destruct (upload_obliging (Z.to_nat 8192) (S (length small_image)) small_image 0 []) as (t' & E);
      [lia|lia|vm_compute; discriminate|lia|]. unfold out, UploadBinary. rewrite E. reflexivity. }
  split; [exact Hout|].
  destruct (eth_upload_verified once board pc 0xb1ff small_image
              (([], obliging (DataToChunks small_image (Z.to_nat 8192))) : slots)) as (n' & ts & rest & E & _ & Hr & _).
  - discriminate.
  - vm_compute. reflexivity.
  - destruct (Hr Hout) as [-> Hl]. exists n', ts. split; [exact E|exact Hl].
Defined.

End RawEthSpec.
