(* ===== verification/Applets.v ===== *)
(** The Bifferboard's BusyBox applets (busybox gpio/button.c, gpio/buttondsr.c and
    gpio/buzzer.c).

    What the calls on files and on the serial port will do is a parameter; the
    programs are functions to the list of what they do.  The two button applets
    poll for ever, so their runs are over the samples taken so far.  Option
    parsing is the library's: the options are arguments here. *)
From Stdlib Require Import ZArith Lia.
From stdpp Require Import base list numbers option strings.
From S2P Require Import Prelude Panel.

Module Applets.

(** What the applets do to the rest of the system. *)
Inductive action : Type :=
  | WriteFile (path data : list Z)
  | Usleep (us : Z)
  | Sleep (s : Z)
  | Helper (argv : list (list Z))   (* run to its end in a child *)
  | SetLines (bits : Z)             (* TIOCMSET *)
  | Exit (status : Z).

(** The options of the button applets: [-F], [-h] and [-t]. *)
Record options : Type := mkOptions { opt_foreground : bool; opt_high : bool; opt_period : option Z }.

(** [unsigned sample_period], in microseconds. *)
Definition sample_period (o : options) : Z := u32 (default 100 (opt_period o) * 1000).

Definition press (o : options) : Z := if opt_high o then 1 else 0.

(** [snprintf(count_str, sizeof(count_str), "%d", count)] for a count that is not
    negative. *)
Definition count_str (count : Z) : list Z := take 9 (Panel.print_d 20 count).

(** What comes of an attempt to run the helper: it runs; [fork] makes no child, and
    there is nothing to wait for; or the child's [execvp] fails and the child ends
    with a message. *)
Inductive spawn : Type := HelperRuns | ForkFails | ExecFails.

Definition fork_helper (outcome : spawn) (argv : list (list Z)) : list action :=
  match outcome with
  | HelperRuns => [Helper argv]
  | ForkFails => []
  | ExecFails => []
  end.

(** The polling loop shared by the two applets: a sample is the level read, or a
    failure, which ends the applet with status 1; [spawns] is what comes of the
    attempts to run the helper, of which [n] have been made. *)
Fixpoint poll_loop (press period : Z) (argv : Z -> list (list Z)) (spawns : nat -> spawn) (n : nat) (push_count : Z)
    (samples : list (option Z)) : list action :=
  match samples with
  | [] => []
  | None :: _ => [Usleep period; Exit 1]
  | Some level :: samples' =>
      if press =? level then
        Usleep period :: fork_helper (spawns n) (argv push_count) ++
          poll_loop press period argv spawns (S n) (s32 (push_count + 1)) samples'
      else Usleep period :: poll_loop press period argv spawns n 0 samples'
  end.

(** ** button.c *)

Definition MAX_BUTTON_STRING : nat := 20.
Definition MAX_GPIO_STRING : nat := 60.

(** The globals start zeroed. *)
Definition gpio_button (arg : list Z) : list Z := take (MAX_BUTTON_STRING - 1) arg.

Definition gpio_pin_path (button : list Z) : list Z :=
  take (MAX_GPIO_STRING - 1) (str "/sys/class/gpio/gpio" ++ button ++ str "/value").

(** [xopen] dies when the file does not open. *)
Definition write_or_die (opens : list Z -> bool) (path data : list Z) (k : list action) : list action :=
  if opens path then WriteFile path data :: k else [Exit 1].

Definition linuxgpio_export (opens : list Z -> bool) (export : bool) (button : list Z) (k : list action) : list action :=
  write_or_die opens (if export then str "/sys/class/gpio/export" else str "/sys/class/gpio/unexport") button
    (if export then
       write_or_die opens (take (MAX_GPIO_STRING - 1) (str "/sys/class/gpio/gpio" ++ button ++ str "/direction"))
         (str "in" ++ [0]) k
     else k).

(** The character read from the pin's file, if it opens and gives one. *)
Definition linuxgpio_getpin (c : option Z) : option Z :=
  match c with
  | Some 48 => Some 0
  | Some 49 => Some 1
  | _ => None
  end.

Definition button_args (button helper : list Z) (count : Z) : list (list Z) := [helper; button; count_str count].

(** The applet over what the reads of a file and the attempts to run the helper
    give, one after the other. *)
Definition button_main (opens : list Z -> bool) (o : options) (button helper : list Z)
    (reads : list Z -> list (option Z)) (spawns : nat -> spawn) : list action :=
  let gpio := gpio_button button in
  linuxgpio_export opens true gpio
    (poll_loop (press o) (sample_period o) (button_args gpio helper) spawns 0 0
       (map linuxgpio_getpin (reads (gpio_pin_path gpio)))).

(** The handler of the fatal signals. *)
Definition button_shutdown (opens : list Z -> bool) (button : list Z) : list action :=
  linuxgpio_export opens false (gpio_button button) [Exit 0].

(** ** buttondsr.c *)

Definition MAX_BUTTON_DEVICE_STRING : nat := 80.

Definition TIOCM_DTR : Z := 0x002.
Definition TIOCM_RTS : Z := 0x004.
Definition TIOCM_DSR : Z := 0x100.

(** [access] fails until the device is there, with a second between two tries. *)
Fixpoint wait_access (accesses : list bool) (k : list action) : list action :=
  match accesses with
  | [] => []
  | true :: _ => k
  | false :: accesses' => Sleep 1 :: wait_access accesses' k
  end.

(** [open] is tried until it succeeds. *)
Fixpoint wait_open (tries : list bool) (k : list action) : list action :=
  match tries with
  | [] => []
  | true :: _ => k
  | false :: tries' => wait_open tries' k
  end.

Definition serial_open (accesses tries : list bool) (k : list action) : list action :=
  wait_access accesses (wait_open tries k).

Definition serial_getdsr (s : option Z) : option Z :=
  match s with
  | None => None
  | Some s => Some (if anyset s TIOCM_DSR then 0 else 1)
  end.

Definition dsr_args (tty helper : list Z) (count : Z) : list (list Z) := [helper; tty; count_str count].

(** The handler of the fatal signals closes the port. *)
Definition serial_shutdown : list action := [Exit 0].

(** The applet over what [access], [open], TIOCMGET and the attempts to run the
    helper give. *)
Definition buttondsr_main (o : options) (device helper : list Z) (accesses tries : list bool) (states : list (option Z))
    (spawns : nat -> spawn) : list action :=
  let tty := take (MAX_BUTTON_DEVICE_STRING - 1) device in
  serial_open accesses tries (poll_loop (press o) (sample_period o) (dsr_args tty helper) spawns 0 0 (map serial_getdsr states)).

(** ** buzzer.c *)

Definition convert_parameter (param : list Z) : option Z :=
  if bool_decide (param = str "TIOCM_DTR") then Some TIOCM_DTR
  else if bool_decide (param = str "TIOCM_RTS") then Some TIOCM_RTS
  else None.

(** [get] is what TIOCMGET gives; [set1] and [set2] are whether the two TIOCMSET
    succeed. *)
Definition serial_set_param (get : option Z) (set1 set2 : bool) (param value time_period : Z) : list action :=
  match get with
  | None => [Exit 1]
  | Some original_value =>
      let new_value := if negb (value =? 0) then Z.lor original_value param else clear original_value param in
      if negb set1 then [Exit 1]
      else
        SetLines new_value :: Usleep time_period ::
        (if negb set2 then [Exit 1] else [SetLines original_value; Exit 0])
  end.

(** [period] is the argument of [-t]; [value] is the number given, which the
    library checks. *)
Definition buzzer_main (opens : bool) (get : option Z) (set1 set2 : bool) (period : option Z) (param : list Z) (value : Z)
  : list action :=
  let time_period := default 1000 period in
  if negb opens then [Exit 1]
  else
    match convert_parameter param with
    | None => [Exit 1]
    | Some parameter => serial_set_param get set1 set2 parameter value (u32 (time_period * 1000))
    end.

End Applets.
