(* ===== verification/AppletsSpec.v ===== *)
(** What the button and buzzer applets do, sample by sample. *)
From Stdlib Require Import ZArith Lia.
From stdpp Require Import base list numbers option strings.
From S2P Require Import Prelude Panel Applets.

Module AppletsSpec.
Import Applets.

(** The helper runs among the actions. *)
Definition helpers (acts : list action) : list (list (list Z)) :=
  omap (fun a => match a with Helper argv => Some argv | _ => None end) acts.

(** How many samples in a row, up to the end, had the level [press]. *)
Definition streak (press : Z) (ls : list Z) : Z := foldl (fun n l => if press =? l then n + 1 else 0) 0 ls.

Lemma streak_snoc press ls l : streak press (ls ++ [l]) = if press =? l then streak press ls + 1 else 0.
Proof. unfold streak. rewrite foldl_app. reflexivity. Qed.

Lemma streak_range press ls : 0 <= streak press ls <= Z.of_nat (length ls).
Proof.
  induction ls as [|l ls IH] using rev_ind; [cbn; lia|]. rewrite streak_snoc, length_app. cbn [length].
  destruct (press =? l); lia.
Qed.

(** How many of the samples had the level [press]. *)
Definition presses (press : Z) (ls : list Z) : nat := length (List.filter (fun l => press =? l) ls).

Lemma presses_snoc press ls l :
  presses press (ls ++ [l]) = (presses press ls + (if (press =? l)%Z then 1 else 0))%nat.
Proof. unfold presses. rewrite List.filter_app, length_app. cbn. destruct (press =? l); reflexivity. Qed.

(** The runs from a point on: one for each sample at the level at which the attempt
    succeeds, with the count of those in a row before it. *)
Definition runs (press : Z) (argv : Z -> list (list Z)) (spawns : nat -> spawn) (pre ls : list Z)
  : list (list (list Z)) :=
  omap (fun t => if bool_decide (ls !! t = Some press) then
                   match spawns (presses press (pre ++ take t ls)) with
                   | HelperRuns => Some (argv (streak press (pre ++ take t ls)))
                   | _ => None
                   end
                 else None)
    (seq 0 (length ls)).

Lemma runs_cons press argv spawns pre l ls :
  runs press argv spawns pre (l :: ls) =
    (if press =? l then helpers (fork_helper (spawns (presses press pre)) (argv (streak press pre))) else []) ++
    runs press argv spawns (pre ++ [l]) ls.
Proof.
  unfold runs. cbn [length seq]. rewrite <- fmap_S_seq. cbn [omap list_omap].
  assert (E : forall ts : list nat, omap (fun t => if bool_decide ((l :: ls) !! t = Some press) then
                   match spawns (presses press (pre ++ take t (l :: ls))) with
                   | HelperRuns => Some (argv (streak press (pre ++ take t (l :: ls)))) | _ => None end else None) (S <$> ts) =
              omap (fun t => if bool_decide (ls !! t = Some press) then
                   match spawns (presses press ((pre ++ [l]) ++ take t ls)) with
                   | HelperRuns => Some (argv (streak press ((pre ++ [l]) ++ take t ls))) | _ => None end else None) ts).
  { induction ts as [|t ts IH]; [reflexivity|]. cbn [fmap list_fmap omap list_omap] in *. rewrite IH. cbn [lookup list_lookup take].
    rewrite <- app_assoc. reflexivity. }
  cbn in E |- *. rewrite E, app_nil_r. destruct (Z.eqb_spec press l) as [->|Hne].
  - rewrite bool_decide_eq_true_2 by reflexivity. destruct (spawns _); reflexivity.
  - rewrite bool_decide_eq_false_2 by congruence. reflexivity.
Qed.

Lemma helpers_app a b : helpers (a ++ b) = helpers a ++ helpers b.
Proof. apply omap_app. Qed.

Lemma poll_runs press period argv spawns ls : forall pre, Z.of_nat (length pre + length ls) < 2 ^ 31 ->
  helpers (poll_loop press period argv spawns (presses press pre) (streak press pre) (map Some ls)) =
    runs press argv spawns pre ls.
Proof.
  induction ls as [|l ls IH]; intros pre Hlen; [reflexivity|]. rewrite runs_cons. cbn [map poll_loop length] in *.
  pose proof (streak_snoc press pre l) as Es. pose proof (presses_snoc press pre l) as Ep.
  pose proof (streak_range press pre).
  specialize (IH (pre ++ [l])). rewrite length_app in IH. cbn [length] in IH. specialize (IH ltac:(lia)).
  rewrite Es, Ep in IH. destruct (press =? l).
  - rewrite s32_id by lia. change (helpers (Usleep period :: ?a)) with (helpers a). rewrite helpers_app.
    f_equal. rewrite Nat.add_1_r in IH. exact IH.
  - rewrite Nat.add_0_r in IH. exact IH.
Qed.

(** ** Decimal text *)

Definition decimal (s : list Z) : Z := foldl (fun v c => 10 * v + (c - 48)) 0 s.

Lemma decimal_snoc s c : decimal (s ++ [c]) = 10 * decimal s + (c - 48).
Proof. unfold decimal. rewrite foldl_app. reflexivity. Qed.

Lemma print_d_digits fuel : forall v, 0 <= v < 10 ^ Z.of_nat fuel -> (0 < fuel)%nat ->
  decimal (Panel.print_d fuel v) = v /\ Forall (fun c => 48 <= c <= 57) (Panel.print_d fuel v) /\
  forall n, (0 < n)%nat -> v < 10 ^ Z.of_nat n -> (length (Panel.print_d fuel v) <= n)%nat.
Proof.
  induction fuel as [|fuel IH]; intros v Hv Hf; [lia|]. cbn [Panel.print_d].
  pose proof (Z.mod_pos_bound v 10 ltac:(lia)). pose proof (Z.div_mod v 10 ltac:(lia)).
  destruct (Z.ltb_spec v 10).
  - cbn. split; [|split; [constructor; [lia|constructor]|intros; lia]]. rewrite Z.mod_small by lia. lia.
  - rewrite Nat2Z.inj_succ, Z.pow_succ_r in Hv by lia.
    destruct fuel as [|fuel]; [cbn in Hv; lia|].
    destruct (IH (v / 10)) as (E & Hd & Hl); [split; [apply Z.div_pos; lia|apply Z.div_lt_upper_bound; lia]|lia|].
    rewrite decimal_snoc, E. split; [lia|]. split; [apply Forall_app; split; [exact Hd|constructor; [lia|constructor]]|].
    intros n Hn Hvn. rewrite length_app. cbn [length]. destruct n as [|[|n]]; [lia|cbn in Hvn; lia|].
    rewrite Nat2Z.inj_succ, Z.pow_succ_r in Hvn by lia. specialize (Hl (S n) ltac:(lia)).
    enough (v / 10 < 10 ^ Z.of_nat (S n)) by lia. apply Z.div_lt_upper_bound; lia.
Qed.

Lemma count_str_value c : 0 <= c < 10 ^ 9 -> decimal (count_str c) = c /\ Forall (fun d => 48 <= d <= 57) (count_str c).
Proof.
  intros Hc. destruct (print_d_digits 20 c) as (E & Hd & Hl); [cbn; lia|lia|].
  unfold count_str. rewrite take_ge by (apply Hl; cbn; lia). auto.
Qed.

(** ** Claims *)

Definition level_char (level : Z) : option Z := Some (48 + level).

Lemma getpin_levels ls : Forall (fun l => l = 0 \/ l = 1) ls -> map linuxgpio_getpin (map level_char ls) = map Some ls.
Proof. induction 1 as [|l ls [->| ->] _ IH]; cbn; [reflexivity|f_equal; exact IH..]. Qed.

(** Paths of a pin's files are never cut. *)
Lemma path_fits button file : (length file <= 20)%nat ->
  take (MAX_GPIO_STRING - 1) (str "/sys/class/gpio/gpio" ++ gpio_button button ++ file) =
    str "/sys/class/gpio/gpio" ++ gpio_button button ++ file.
Proof.
  intros Hf. apply take_ge. rewrite !length_app. unfold gpio_button, MAX_GPIO_STRING, MAX_BUTTON_STRING.
  rewrite length_take. change (length (str "/sys/class/gpio/gpio")) with 20%nat. lia.
Qed.

(** C34: What the button applet runs.  With sysfs there, the applet exports the
    pin and makes it an input; then, over any sequence of fewer than 10^9 levels
    read, it tries to run the helper once for every sample at the pressed level
    and for no other, and the helper runs whenever [fork] and [execvp] succeed;
    its arguments are the pin and, in decimal, the number of pressed samples in a
    row just before, counted whether or not the helper ran.  (The buffer for the
    number has room for nine digits.) *)
Theorem button_runs_helper o button helper reads spawns ls
    (Hreads : reads (str "/sys/class/gpio/gpio" ++ gpio_button button ++ str "/value") = map level_char ls)
    (Hls : Forall (fun l => l = 0 \/ l = 1) ls) (Hlen : Z.of_nat (length ls) < 10 ^ 9) :
  let acts := button_main (fun _ => true) o button helper reads spawns in
  take 2 acts = [WriteFile (str "/sys/class/gpio/export") (gpio_button button);
                 WriteFile (str "/sys/class/gpio/gpio" ++ gpio_button button ++ str "/direction") (str "in" ++ [0])] /\
  helpers acts = omap (fun t => if bool_decide (ls !! t = Some (press o)) then
                                  match spawns (presses (press o) (take t ls)) with
                                  | HelperRuns => Some [helper; gpio_button button; count_str (streak (press o) (take t ls))]
                                  | _ => None
                                  end
                                else None) (seq 0 (length ls)) /\
  forall t, (t <= length ls)%nat -> decimal (count_str (streak (press o) (take t ls))) = streak (press o) (take t ls).
Proof.
  cbv zeta. unfold button_main, linuxgpio_export, write_or_die. cbn [take]. split; [|split].
  - do 3 f_equal. apply path_fits. cbn. lia.
  - unfold gpio_pin_path. rewrite (path_fits button (str "/value")) by (cbn; lia). rewrite Hreads, getpin_levels by exact Hls.
    apply (poll_runs (press o) (sample_period o) (button_args (gpio_button button) helper) spawns ls []). cbn [length]. lia.
  - intros t Ht. apply count_str_value. pose proof (streak_range (press o) (take t ls)) as Hr.
    rewrite length_take in Hr. lia.
Qed.

(** The second attempt to make a child fails. *)
Definition second_fails (n : nat) : spawn := if (n =? 1)%nat then ForkFails else HelperRuns.

Lemma button_runs_helper_witness :
  helpers (button_main (fun _ => true) (mkOptions true false None) (str "15") (str "/etc/button.sh")
             (fun path => if bool_decide (path = str "/sys/class/gpio/gpio15/value") then map level_char [1; 0; 0; 0; 1; 0] else [])
             second_fails)
    = [[str "/etc/button.sh"; str "15"; str "0"]; [str "/etc/button.sh"; str "15"; str "2"];
       [str "/etc/button.sh"; str "15"; str "0"]].
Proof.
  destruct (button_runs_helper (mkOptions true false None) (str "15") (str "/etc/button.sh")
    (fun path => if bool_decide (path = str "/sys/class/gpio/gpio15/value") then map level_char [1; 0; 0; 0; 1; 0] else [])
    second_fails [1; 0; 0; 0; 1; 0]) as (_ & E & _).
  - vm_compute. reflexivity.
  - repeat (constructor; [lia|]). constructor.
  - cbn. lia.
  - rewrite E. vm_compute. reflexivity.
Defined.

Lemma serial_open_waits n m k :
  helpers (serial_open (repeat false n ++ [true]) (repeat false m ++ [true]) k) = helpers k.
Proof. unfold serial_open. induction n as [|n IH]; [|exact IH]. induction m as [|m IH]; [reflexivity|exact IH]. Qed.

(** The applet for a serial port's DSR line runs the helper in the same way, for
    the samples with the line asserted (or, with [-h], not asserted); the helper's
    first argument is the device. *)
Lemma buttondsr_runs_helper o device helper spawns n m ss (Hlen : Z.of_nat (length ss) < 2 ^ 31) :
  let levels := map (fun s => if anyset s TIOCM_DSR then 0 else 1) ss in
  helpers (buttondsr_main o device helper (repeat false n ++ [true]) (repeat false m ++ [true]) (map Some ss) spawns) =
    runs (press o) (dsr_args (take (MAX_BUTTON_DEVICE_STRING - 1) device) helper) spawns [] levels.
Proof.
  cbv zeta. unfold buttondsr_main. rewrite serial_open_waits, map_map.
  assert (E : map (fun s => serial_getdsr (Some s)) ss = map Some (map (fun s => if anyset s TIOCM_DSR then 0 else 1) ss))
    by (rewrite map_map; reflexivity).
  rewrite E. apply (poll_runs (press o) _ _ _ _ []). rewrite length_map. cbn [length]. lia.
Qed.

(** The buzzer: when it ends with status 0 it has changed the one line asked for
    and put everything back. *)
Lemma buzzer_restores opens get set1 set2 period param value :
  last (buzzer_main opens get set1 set2 period param value) = Some (Exit 0) ->
  exists original new bit us, get = Some original /\ convert_parameter param = Some (2 ^ bit) /\
    buzzer_main opens get set1 set2 period param value = [SetLines new; Usleep us; SetLines original; Exit 0] /\
    forall i, 0 <= i -> Z.testbit new i = if i =? bit then negb (value =? 0) else Z.testbit original i.
Proof.
  unfold buzzer_main. destruct opens; [|discriminate]. cbn [negb].
  assert (Hp : forall p, convert_parameter param = Some p -> exists bit, 0 <= bit /\ p = 2 ^ bit).
  { intros p. unfold convert_parameter. repeat case_bool_decide; intros [= <-]; [exists 1|exists 2]; done. }
  destruct (convert_parameter param) as [p|]; [|discriminate]. destruct (Hp p eq_refl) as (bit & Hb & ->).
  unfold serial_set_param. destruct get as [original|]; [|discriminate]. destruct set1; [|discriminate]. cbn [negb].
  destruct set2; [|discriminate]. intros _. eexists original, _, bit, _. split; [reflexivity|]. split; [reflexivity|].
  split; [reflexivity|]. intros i Hi. destruct (negb (value =? 0)).
  - rewrite Z.lor_spec, Z.pow2_bits_eqb, Z.eqb_sym by lia. destruct (i =? bit); [apply orb_true_r|apply orb_false_r].
  - unfold clear. rewrite Z.land_spec, Z.lnot_spec, Z.pow2_bits_eqb, Z.eqb_sym by lia.
    destruct (i =? bit); [apply andb_false_r|apply andb_true_r].
Qed.

End AppletsSpec.
