(* ===== verification/Heating.v ===== *)
(** The central heating controller (projects/central_heating): chmon, which runs on
    the board, and its two web pages (main.cpp), and the Arduino that carries the
    sensor, the display and the relay (arduino.ino).

    Temperatures are IEEE numbers ([spec_float]): binary32 where the source has
    [float], binary64 where an expression promotes them.  A run that the C standard
    leaves undefined (a buffer overrun, a read of a string without end) is [None].
    The C library's conversions of text to numbers are parameters: nothing here
    depends on what they make of a text. *)
From Stdlib Require Import ZArith Lia SpecFloat.
From stdpp Require Import base list numbers option strings.
From S2P Require Import Prelude BiffConfig Python Panel.

Module Heating.
Import Python.

(** ** Numbers *)

(** A small whole number as a [float]. *)
Definition f32 (n : Z) : spec_float := binary_normalize 24 128 n 0 false.

Definition to_double (x : spec_float) : spec_float :=
  match x with
  | S754_finite s m e => binary_round 53 1024 s m e
  | x => x
  end.

(** [0.5], of type [double]. *)
Definition half : spec_float := binary_round 53 1024 false 1 (-1).

(** The magnitude of a finite number in units of [10 ^ -d], to the nearest, ties
    to even. *)
Definition scaled (d : nat) (x : spec_float) : Z :=
  match x with
  | S754_finite _ m e =>
      let n := Z.pos m * 10 ^ Z.of_nat d in
      if 0 <=? e then n * 2 ^ e
      else
        let q := n / 2 ^ (- e) in
        let r := n mod 2 ^ (- e) in
        match 2 * r ?= 2 ^ (- e) with
        | Lt => q
        | Gt => q + 1
        | Eq => if Z.even q then q else q + 1
        end
  | _ => 0
  end.

(** The last [d] decimal digits of [v]. *)
Fixpoint low_digits (d : nat) (v : Z) : list Z :=
  match d with
  | O => []
  | S d' => low_digits d' (v / 10) ++ [48 + v mod 10]
  end.

Definition minus (s : bool) : list Z := if s then str "-" else [].

(** [%0.<d>f].  The sign of a NaN is not kept. *)
Definition print_f (d : nat) (x : spec_float) : list Z :=
  match x with
  | S754_nan => str "nan"
  | S754_infinity s => minus s ++ str "inf"
  | S754_zero s | S754_finite s _ _ =>
      minus s ++ Panel.print_d 60 (scaled d x / 10 ^ Z.of_nat d) ++ str "." ++ low_digits d (scaled d x)
  end.

(** ** The Arduino (arduino.ino) *)

Inductive pin : Type := A2 | A3.

(** What the sketch asks of the board and of its libraries. *)
Inductive effect : Type :=
  | DigitalWrite (p : pin) (high : bool)
  | PinModeOutput (p : pin)
  | Delay (ms : Z)
  | LcdBegin (cols rows : Z)
  | SetCursor (col row : Z)
  | LcdWrite (c : Z)
  | SerialBegin (baud : Z)
  | SensorsBegin
  | OneWireReset
  | RequestTemperatures
  | SerialPrint (text : list Z).

Definition CMD_RELAY_HIGH : Z := 43.
Definition CMD_RELAY_LOW : Z := 45.
Definition CMD_GET_TEMP : Z := 63.
Definition CMD_ROW_1 : Z := 60.
Definition CMD_ROW_2 : Z := 62.

Definition setupRelayPin (p : pin) : list effect := [DigitalWrite p false; PinModeOutput p].

Definition pulsePinOn (p : pin) : list effect := [DigitalWrite p true; Delay 500; DigitalWrite p false].

Definition setup : list effect :=
  [LcdBegin 16 2; SerialBegin 9600] ++ setupRelayPin A2 ++ setupRelayPin A3 ++ map LcdWrite (str "Booting...").

(** [temp] is the text of the sensor's temperature. *)
Definition send_temperature (temp : list Z) : list effect :=
  [SensorsBegin; OneWireReset; SetCursor 0 0; RequestTemperatures; SerialPrint temp; SerialPrint [10]].

(** One round of the sketch; [byte] is what waits on the serial line, if anything. *)
Definition loop (temp : list Z) (byte : option Z) : list effect :=
  match byte with
  | None => []
  | Some byte =>
      if byte =? CMD_RELAY_HIGH then pulsePinOn A2
      else if byte =? CMD_RELAY_LOW then pulsePinOn A3
      else if byte =? CMD_GET_TEMP then send_temperature temp
      else if byte =? CMD_ROW_1 then [SetCursor 0 0]
      else if byte =? CMD_ROW_2 then [SetCursor 0 1]
      else [LcdWrite byte]
  end.

(** The sketch over the bytes it receives. *)
Definition receive (temp : list Z) (bytes : list Z) : list effect :=
  concat (map (fun b => loop temp (Some b)) bytes).

(** ** chmon (main.cpp) *)

(** The globals and the files shared with the web pages. *)
Record heating : Type := mkHeating {
  g_temperature_now : spec_float;
  g_thermostat_temperature : spec_float;
  g_last_state : bool;
  lcd_message : option (list Z);     (* /var/lcd_message.txt *)
  temp_file : option (list Z);       (* /var/ch_temperature.txt *)
  therm_file : option (list Z);      (* /var/ch_thermostat.txt *)
  message_tmp : option (list Z);     (* /tmp/lcd_message.txt *)
  therm_tmp : option (list Z)        (* /tmp/ch_thermostat.txt *)
}.

Definition heating_init (message temp therm message_tmp therm_tmp : option (list Z)) : heating :=
  mkHeating (f32 15) (f32 10) false message temp therm message_tmp therm_tmp.

Section Program.
(** The C library: [%f] and [%d] on a text, the number if one is found. *)
Context (scan_f : list Z -> option spec_float) (scan_d : list Z -> option Z).

(** What the bytes up to the first NUL are. *)
Fixpoint c_text (s : list Z) : list Z :=
  match s with
  | [] => []
  | c :: s' => if c =? 0 then [] else c :: c_text s'
  end.

(** The operations below return the bytes sent to the Arduino. *)

Definition lcd_line1 : list Z := [CMD_ROW_1].
Definition lcd_line2 : list Z := [CMD_ROW_2].

Definition check_messages (h : heating) : list Z * heating :=
  match lcd_message h with
  | None => ([], h)
  | Some text =>
      (lcd_line2 ++ text,
       mkHeating (g_temperature_now h) (g_thermostat_temperature h) (g_last_state h) None (temp_file h) (therm_file h)
         (message_tmp h) (therm_tmp h))
  end.

Definition string_to_temp (txt : list Z) : spec_float := default (f32 66) (scan_f txt).

(** [reply] is what waits on the serial line a second later ([None]: the read
    failed), [opens] whether the file can be made. *)
Definition get_temperature (reply : option (list Z)) (opens : bool) (h : heating) : list Z * heating :=
  ([CMD_GET_TEMP],
   match reply with
   | None | Some [] => h
   | Some bytes =>
       let buffer := take 19 bytes in
       if opens then
         mkHeating (string_to_temp (c_text buffer)) (g_thermostat_temperature h) (g_last_state h) (lcd_message h)
           (Some buffer) (therm_file h) (message_tmp h) (therm_tmp h)
       else
         mkHeating (g_temperature_now h) (g_thermostat_temperature h) (g_last_state h) (lcd_message h) None (therm_file h)
           (message_tmp h) (therm_tmp h)
   end).

(** [creates]: whether a missing file can be made. *)
Definition get_thermostat (creates : bool) (h : heating) : heating :=
  match therm_file h with
  | Some text =>
      mkHeating (g_temperature_now h) (default (g_thermostat_temperature h) (scan_f text)) (g_last_state h)
        (lcd_message h) (temp_file h) (therm_file h) (message_tmp h) (therm_tmp h)
  | None =>
      mkHeating (g_temperature_now h) (f32 10) (g_last_state h) (lcd_message h) (temp_file h)
        (if creates then Some (str "10.0") else None) (message_tmp h) (therm_tmp h)
  end.

Definition update_relay (h : heating) : list Z * heating :=
  let new_state :=
    if g_last_state h then
      if SFltb (SFadd 53 1024 (to_double (g_thermostat_temperature h)) half) (to_double (g_temperature_now h))
      then false else g_last_state h
    else
      if SFltb (to_double (g_temperature_now h)) (SFsub 53 1024 (to_double (g_thermostat_temperature h)) half)
      then true else g_last_state h in
  if negb (Bool.eqb new_state (g_last_state h)) then
    ([if new_state then CMD_RELAY_HIGH else CMD_RELAY_LOW],
     mkHeating (g_temperature_now h) (g_thermostat_temperature h) new_state (lcd_message h) (temp_file h) (therm_file h)
       (message_tmp h) (therm_tmp h))
  else ([], h).

Definition display_text (h : heating) : list Z :=
  print_f 2 (g_temperature_now h) ++ str " (" ++ print_f 1 (g_thermostat_temperature h) ++ str ") " ++
  (if g_last_state h then str "on " else str "off").

(** [char buffer[20]] holds the text and its terminator. *)
Definition update_display (h : heating) : option (list Z) :=
  let buffer := display_text h in
  if (length buffer <? 20)%nat then Some (lcd_line1 ++ buffer) else None.

(** One round of the main loop. *)
Definition cycle (reply : option (list Z)) (opens creates : bool) (h : heating) : option (list Z * heating) :=
  let '(b1, h) := check_messages h in
  let '(b2, h) := get_temperature reply opens h in
  let h := get_thermostat creates h in
  let '(b3, h) := update_relay h in
  b4 ← update_display h;
  Some (b1 ++ b2 ++ b3 ++ b4, h).

(** ** The web pages (main.cpp) *)

Definition BUFFER : Z := 1024.

(** The two buffers of [main_message] are arrays of [BUFFER] bytes; an access
    outside is undefined.  [decode] writes a byte for a character or an escape,
    and its terminator one place too far. *)
Fixpoint decode (fuel : nat) (enc : mem) (src dest : Z) (out : mem) : option mem :=
  match fuel with
  | O => None
  | S fuel' =>
      if negb (src <? BUFFER) || negb (dest <? BUFFER) then None
      else if enc src =? 0 then
        if dest + 1 <? BUFFER then Some (store out (dest + 1) 0) else None
      else if enc src =? 43 then decode fuel' enc (src + 1) (dest + 1) (store out dest 32)
      else if enc src =? 37 then
        if negb (src + 1 <? BUFFER) then None else
        let code := default 63 (Config.sscanf_x (take 2 (Config.skip_spaces (c_text (load_bytes enc (src + 1) (BUFFER - (src + 1))))))) in
        decode fuel' enc (src + 3) (dest + 1) (store out dest (u8 code))
      else decode fuel' enc (src + 1) (dest + 1) (store out dest (enc src))
  end.

(** The string at the start of a buffer, if it ends inside. *)
Definition c_string (m : mem) : option (list Z) :=
  let bytes := load_bytes m 0 BUFFER in
  if bool_decide (0 ∈ bytes) then Some (c_text bytes) else None.

(** [%s]: the characters up to the next space. *)
Fixpoint word (s : list Z) : list Z :=
  match s with
  | [] => []
  | c :: s' => if Config.isspace c then [] else c :: word s'
  end.

(** [sscanf(data, "message=%s", encoded)]. *)
Definition scan_message (data : list Z) (encoded : mem) : mem :=
  if Panel.starts_with (str "message=") data then
    match word (Config.skip_spaces (drop 8 data)) with
    | [] => encoded
    | w => store_bytes encoded 0 (w ++ [0])
    end
  else encoded.

(** How a web page ends: what is left of the process after it, and the files. *)
Inductive page : Type :=
  | Exited                       (* _exit(-1) *)
  | ServerError (h : heating)    (* return -1 *)
  | Served (h : heating).

Definition with_message (m tmp : option (list Z)) (h : heating) : heating :=
  mkHeating (g_temperature_now h) (g_thermostat_temperature h) (g_last_state h) m (temp_file h) (therm_file h)
    tmp (therm_tmp h).

Definition with_therm (t tmp : option (list Z)) (h : heating) : heating :=
  mkHeating (g_temperature_now h) (g_thermostat_temperature h) (g_last_state h) (lcd_message h) (temp_file h) t
    (message_tmp h) tmp.

(** A file opened with [O_CREAT|O_RDWR] and written from its start: what it had
    behind the text stays. *)
Definition overwrite (text : list Z) (old : option (list Z)) : list Z := text ++ drop (length text) (default [] old).

(** The text of a request.  Every round of [decode] moves [src] on, so the fuel is
    enough to leave the buffer. *)
Definition message_text (data : list Z) (encoded unencoded : mem) : option (list Z) :=
  unencoded ← decode (Z.to_nat BUFFER) (scan_message data encoded) 0 0 unencoded;
  pad_to 16 32 <$> c_string unencoded.

(** [encoded] and [unencoded] are what is on the stack; [opens] is whether the
    temporary file can be opened, [renames] whether it can be renamed, which the
    page does not check. *)
Definition main_message (query : option (list Z)) (encoded unencoded : mem) (opens renames : bool) (h : heating)
  : option page :=
  match query with
  | None => Some (Served h)
  | Some data =>
      if (1000 <? length data)%nat then Some Exited
      else
        text ← message_text data encoded unencoded;
        let h := with_message None (message_tmp h) h in
        if opens then
          let tmp := overwrite text (message_tmp h) in
          Some (Served (if renames then with_message (Some tmp) None h else with_message None (Some tmp) h))
        else Some (ServerError h)
  end.

(** [sscanf(data, "therm=%d", &temp)] and [sprintf(buffer, "%0.1f\n", float(temp))]. *)
Definition main_therm (query : option (list Z)) (opens renames : bool) (h : heating) : page :=
  match query with
  | None => Served h
  | Some data =>
      let temp :=
        if Panel.starts_with (str "therm=") data then default 10 (scan_d (drop 6 data)) else 10 in
      if opens then
        let tmp := overwrite (print_f 1 (f32 temp) ++ [10]) (therm_tmp h) in
        Served (if renames then with_therm (Some tmp) None h else with_therm (therm_file h) (Some tmp) h)
      else ServerError h
  end.

(** ** The program's name *)

(** [basename]: what follows the last slash. *)
Fixpoint basename (path : list Z) : list Z :=
  match path with
  | [] => []
  | c :: path' => if bool_decide (47 ∈ path) then basename path' else path
  end.

Inductive applet : Type := Chmon | Message | Therm | Unknown.

Definition main (argv0 : list Z) : applet :=
  let bn := basename argv0 in
  if bool_decide (bn = str "chmon") then Chmon
  else if bool_decide (bn = str "message") then Message
  else if bool_decide (bn = str "therm") then Therm
  else Unknown.

End Program.

End Heating.
