(* ===== verification/HeatingSpec.v ===== *)
(** The heating as a whole: what the relay on the Arduino does when chmon runs on
    the board and people use the web pages. *)
From Stdlib Require Import ZArith Lia SpecFloat.
From stdpp Require Import base list numbers option strings.
From S2P Require Import Prelude BiffConfig Python Panel Applets AppletsSpec Heating.

Module HeatingSpec.
Import Python Heating.

(** ** The relay *)

(** A latching relay: a pulse on one coil sets it, on the other resets it. *)
Definition coil (on : bool) (e : effect) : bool :=
  match e with
  | DigitalWrite A2 true => true
  | DigitalWrite A3 true => false
  | _ => on
  end.

Definition relay (on : bool) (es : list effect) : bool := foldl coil on es.

Definition obey (on : bool) (b : Z) : bool := if b =? 43 then true else if b =? 45 then false else on.

(** The sketch pulses a coil for the two command characters, wherever they come
    from, and for nothing else. *)
Lemma relay_receive temp bytes : forall on, relay on (receive temp bytes) = foldl obey on bytes.
Proof.
  induction bytes as [|b bytes IH]; intros on; [reflexivity|].
  unfold receive, relay in *. cbn [map concat foldl]. rewrite foldl_app, IH. f_equal.
  unfold loop, obey, CMD_RELAY_HIGH, CMD_RELAY_LOW. destruct (b =? 43); [reflexivity|]. destruct (b =? 45); [reflexivity|].
  destruct (b =? CMD_GET_TEMP); [reflexivity|]. destruct (b =? CMD_ROW_1); [reflexivity|].
  destruct (b =? CMD_ROW_2); reflexivity.
Qed.

(** Text without command characters leaves the relay alone. *)
Definition harmless (bytes : list Z) : Prop := Forall (fun b => b <> 43 /\ b <> 45) bytes.

(** For a text that is written out. *)
Ltac closed_text :=
  vm_compute; repeat (apply Forall_cons_2; [first [split; discriminate | discriminate] |]); apply Forall_nil_2.

Lemma obey_harmless bytes : harmless bytes -> forall on, foldl obey on bytes = on.
Proof.
  induction 1 as [|b bytes [H1 H2] _ IH]; intros on; [reflexivity|]. cbn. rewrite IH. unfold obey.
  apply Z.eqb_neq in H1, H2. rewrite H1, H2. reflexivity.
Qed.

(** Text without ['+'] never switches it on. *)
Lemma obey_off bytes : Forall (fun b => b <> 43) bytes -> foldl obey false bytes = false.
Proof.
  induction 1 as [|b bytes H1 _ IH]; [reflexivity|]. cbn. unfold obey at 2. apply Z.eqb_neq in H1. rewrite H1.
  destruct (b =? 45); exact IH.
Qed.

(** ** Printed numbers *)

Definition sign (x : spec_float) : bool :=
  match x with
  | S754_zero s | S754_infinity s | S754_finite s _ _ => s
  | S754_nan => false
  end.

Definition is_digit (c : Z) : Prop := 48 <= c <= 57.

Lemma digits_print_d fuel : forall v, Forall is_digit (Panel.print_d fuel v).
Proof.
  induction fuel as [|fuel IH]; intros v; cbn; [constructor|]. pose proof (Z.mod_pos_bound v 10 ltac:(lia)).
  apply Forall_app. split; [destruct (v <? 10); [constructor|apply IH]|]. constructor; [unfold is_digit; lia|constructor].
Qed.

Lemma digits_low d : forall v, Forall is_digit (low_digits d v).
Proof.
  induction d as [|d IH]; intros v; cbn; [constructor|]. pose proof (Z.mod_pos_bound v 10 ltac:(lia)).
  apply Forall_app. split; [apply IH|]. constructor; [unfold is_digit; lia|constructor].
Qed.

Lemma length_low d : forall v, length (low_digits d v) = d.
Proof. induction d as [|d IH]; intros v; cbn; [reflexivity|]. rewrite length_app, IH. cbn. lia. Qed.

Lemma digits_harmless l : Forall is_digit l -> harmless l.
Proof. intros H. apply (Forall_impl _ _ _ H). unfold is_digit. lia. Qed.

(** The sign is printed first; what follows is no command. *)
Lemma print_f_sign d x : exists rest, print_f d x = minus (sign x) ++ rest /\ harmless rest.
Proof.
  assert (Hn : forall v w, harmless (Panel.print_d 60 v ++ str "." ++ low_digits d w)).
  { intros v w. apply Forall_app_2; [apply digits_harmless, digits_print_d|].
    apply Forall_app_2; [closed_text|apply digits_harmless, digits_low]. }
  destruct x as [s|s| |s m e]; cbn [print_f sign].
  - eexists. split; [reflexivity|apply Hn].
  - eexists. split; [reflexivity|]. closed_text.
  - exists (str "nan"). split; [reflexivity|]. closed_text.
  - eexists. split; [reflexivity|apply Hn].
Qed.

Lemma print_f_plus d x : Forall (fun b => b <> 43) (print_f d x).
Proof.
  destruct (print_f_sign d x) as (rest & -> & Hr). apply Forall_app. split.
  - destruct (sign x); closed_text.
  - apply (Forall_impl _ _ _ Hr). tauto.
Qed.

Lemma print_f_length d n x : (0 < n)%nat -> x <> S754_nan -> (forall s, x <> S754_infinity s) -> sign x = false ->
  0 <= scaled d x < 10 ^ Z.of_nat (n + d) -> (n <= 59)%nat -> (length (print_f d x) <= n + 1 + d)%nat.
Proof.
  intros Hn0 Hnan Hinf Hs Hv Hn.
  assert (H : (length (Panel.print_d 60 (scaled d x / 10 ^ Z.of_nat d) ++ str "." ++ low_digits d (scaled d x)) <= n + 1 + d)%nat).
  { rewrite !length_app, length_low. cbn [length str String.list_ascii_of_string map].
    assert (Hq : 0 <= scaled d x / 10 ^ Z.of_nat d < 10 ^ Z.of_nat n).
    { rewrite Nat2Z.inj_add, Z.pow_add_r in Hv by lia.
      split; [apply Z.div_pos; lia|apply Z.div_lt_upper_bound; lia]. }
    pose proof (Z.pow_le_mono_r 10 (Z.of_nat n) 60 ltac:(lia) ltac:(lia)).
    destruct (AppletsSpec.print_d_digits 60 (scaled d x / 10 ^ Z.of_nat d)) as (_ & _ & Hl); [|lia|].
    - change (Z.of_nat 60) with 60. lia.
    - specialize (Hl n Hn0 ltac:(lia)). lia. }
  destruct x as [s|s| |s m e]; try congruence; cbn [sign] in Hs; subst s; exact H.
Qed.

(** ** Runs *)

Section Runs.
Context (scan_f : list Z -> option spec_float) (scan_d : list Z -> option Z).

(** What happens on the board: a round of chmon, or a web page. *)
Inductive event : Type :=
  | Cycle (reply : option (list Z)) (opens creates : bool)
  | WebMessage (query : option (list Z)) (encoded unencoded : mem) (opens renames : bool)
  | WebTherm (query : option (list Z)) (opens renames : bool).

Definition left_by (h : heating) (p : page) : heating :=
  match p with Exited => h | ServerError h => h | Served h => h end.

Definition step (e : event) (h : heating) : option (list Z * heating) :=
  match e with
  | Cycle reply opens creates => cycle scan_f reply opens creates h
  | WebMessage q enc unenc opens renames => p ← main_message q enc unenc opens renames h; Some ([], left_by h p)
  | WebTherm q opens renames => Some ([], left_by h (main_therm scan_d q opens renames h))
  end.

Fixpoint run (es : list event) (h : heating) : option (list Z * heating) :=
  match es with
  | [] => Some ([], h)
  | e :: es' => '(sent, h) ← step e h; '(sent', h) ← run es' h; Some (sent ++ sent', h)
  end.

(** The state of a round when it comes to the relay, and when it displays. *)
Definition sensed (reply : option (list Z)) (opens creates : bool) (h : heating) : heating :=
  get_thermostat scan_f creates (get_temperature scan_f reply opens (check_messages h).2).2.

Definition decided (reply : option (list Z)) (opens creates : bool) (h : heating) : heating :=
  (update_relay (sensed reply opens creates h)).2.

Lemma cycle_eq reply opens creates h :
  cycle scan_f reply opens creates h =
    b4 ← update_display (decided reply opens creates h);
    Some ((check_messages h).1 ++ [CMD_GET_TEMP] ++ (update_relay (sensed reply opens creates h)).1 ++ b4,
          decided reply opens creates h).
Proof.
  unfold cycle, decided, sensed. destruct (check_messages h) as [b1 h1]. cbn [fst snd].
  destruct (get_temperature scan_f reply opens h1) as [b2 h2] eqn:E2.
  assert (b2 = [CMD_GET_TEMP]) as -> by (unfold get_temperature in E2; congruence). cbn [fst snd].
  destruct (update_relay _) as [b3 h3]. reflexivity.
Qed.

(** The thermostat's law, with half a degree to either side. *)
Definition law (on : bool) (reading : spec_float * spec_float) : bool :=
  let '(t, target) := reading in
  if on then negb (SFltb (SFadd 53 1024 (to_double target) half) (to_double t))
  else SFltb (to_double t) (SFsub 53 1024 (to_double target) half).

Definition reading (h : heating) : spec_float * spec_float := (g_temperature_now h, g_thermostat_temperature h).

Lemma update_relay_law h :
  g_last_state (update_relay h).2 = law (g_last_state h) (reading h) /\
  reading (update_relay h).2 = reading h /\ lcd_message (update_relay h).2 = lcd_message h /\
  foldl obey (g_last_state h) (update_relay h).1 = g_last_state (update_relay h).2.
Proof.
  unfold update_relay, law, reading, CMD_RELAY_HIGH, CMD_RELAY_LOW. destruct h as [t T on m tf th mt tt]. cbn [g_last_state g_temperature_now g_thermostat_temperature].
  destruct on; [destruct (SFltb (SFadd _ _ _ _) _)|destruct (SFltb _ _)]; repeat split; reflexivity.
Qed.

Lemma sensed_keeps reply opens creates h :
  g_last_state (sensed reply opens creates h) = g_last_state h /\ lcd_message (sensed reply opens creates h) = None.
Proof.
  unfold sensed, check_messages, get_temperature, get_thermostat.
  destruct (lcd_message h) eqn:E; destruct reply as [[|? ?]|]; destruct opens; cbn;
    repeat (match goal with |- context [match therm_file ?x with _ => _ end] => destruct (therm_file x) end; cbn);
    split; try reflexivity; exact E.
Qed.

(** The pairs of temperatures the rounds of a run go by. *)
Fixpoint readings (es : list event) (h : heating) : list (spec_float * spec_float) :=
  match es with
  | [] => []
  | e :: es' =>
      match e with Cycle reply opens creates => [reading (decided reply opens creates h)] | _ => [] end ++
      match step e h with Some (_, h') => readings es' h' | None => [] end
  end.

(** A number that fits the display and is not below zero. *)
Definition shown (d : nat) (x : spec_float) : Prop :=
  x <> S754_nan /\ (forall s, x <> S754_infinity s) /\ sign x = false /\ 0 <= scaled d x < 10 ^ Z.of_nat (3 + d).

(** A run whose numbers can be shown, whose messages hold no command, and whose
    web requests can be decoded. *)
Fixpoint calm (es : list event) (h : heating) : Prop :=
  match es with
  | [] => True
  | e :: es' =>
      match e with
      | Cycle reply opens creates =>
          harmless (default [] (lcd_message h)) /\
          shown 2 (g_temperature_now (decided reply opens creates h)) /\
          shown 1 (g_thermostat_temperature (decided reply opens creates h))
      | WebMessage q enc unenc opens renames => is_Some (main_message q enc unenc opens renames h)
      | WebTherm _ _ _ => True
      end /\
      match step e h with Some (_, h') => calm es' h' | None => True end
  end.

(** ** A round *)

Lemma harmless_app l1 l2 : harmless l1 -> harmless l2 -> harmless (l1 ++ l2).
Proof. apply Forall_app_2. Qed.

Lemma print_f_harmless d x : sign x = false -> harmless (print_f d x).
Proof. intros Hs. destruct (print_f_sign d x) as (rest & -> & Hr). rewrite Hs. exact Hr. Qed.

Lemma display_shown h : shown 2 (g_temperature_now h) -> shown 1 (g_thermostat_temperature h) ->
  exists text, update_display h = Some text /\ harmless text.
Proof.
  intros (Hn1 & Hi1 & Hs1 & Hv1) (Hn2 & Hi2 & Hs2 & Hv2). unfold update_display.
  assert (Hl : (length (display_text h) < 20)%nat).
  { unfold display_text. rewrite !length_app.
    pose proof (print_f_length 2 3 _ ltac:(lia) Hn1 Hi1 Hs1 Hv1 ltac:(lia)).
    pose proof (print_f_length 1 3 _ ltac:(lia) Hn2 Hi2 Hs2 Hv2 ltac:(lia)).
    change (length (str " (")) with 2%nat. change (length (str ") ")) with 2%nat.
    assert (length (if g_last_state h then str "on " else str "off") = 3%nat) as -> by (destruct (g_last_state h); reflexivity).
    lia. }
  rewrite (proj2 (Nat.ltb_lt _ _) Hl). eexists. split; [reflexivity|]. apply harmless_app; [closed_text|].
  unfold display_text. apply harmless_app; [apply print_f_harmless, Hs1|].
  apply harmless_app; [closed_text|]. apply harmless_app; [apply print_f_harmless, Hs2|].
  apply harmless_app; [closed_text|]. destruct (g_last_state h); closed_text.
Qed.

Lemma messages_harmless h : harmless (default [] (lcd_message h)) -> harmless (check_messages h).1.
Proof.
  unfold check_messages. destruct (lcd_message h) as [text|]; cbn; [|intros; apply Forall_nil_2].
  intros H. apply Forall_cons_2; [|exact H]. unfold CMD_ROW_2. lia.
Qed.

(** In a calm round the relay is told what the thermostat's law says. *)
Lemma cycle_calm reply opens creates h :
  harmless (default [] (lcd_message h)) ->
  shown 2 (g_temperature_now (decided reply opens creates h)) ->
  shown 1 (g_thermostat_temperature (decided reply opens creates h)) ->
  exists sent, cycle scan_f reply opens creates h = Some (sent, decided reply opens creates h) /\
    foldl obey (g_last_state h) sent = g_last_state (decided reply opens creates h) /\
    g_last_state (decided reply opens creates h) =
      law (g_last_state h) (reading (decided reply opens creates h)).
Proof.
  intros Hm Ht HT. destruct (display_shown _ Ht HT) as (text & Hd & Hh). rewrite cycle_eq, Hd. cbn [mbind option_bind].
  eexists. split; [reflexivity|]. destruct (sensed_keeps reply opens creates h) as [Es _].
  destruct (update_relay_law (sensed reply opens creates h)) as (El & Er & _ & Eo). rewrite Es in El, Eo.
  unfold decided. rewrite Er. split; [|exact El].
  rewrite !foldl_app, (obey_harmless _ (messages_harmless h Hm)). change (foldl obey (g_last_state h) [CMD_GET_TEMP]) with (g_last_state h).
  rewrite Eo. apply obey_harmless, Hh.
Qed.

Lemma web_keeps q enc unenc opens renames h p : main_message q enc unenc opens renames h = Some p ->
  g_last_state (left_by h p) = g_last_state h.
Proof.
  unfold main_message. destruct q as [data|]; [|intros [= <-]; reflexivity].
  destruct (1000 <? length data)%nat; [intros [= <-]; reflexivity|].
  destruct (message_text data enc unenc) as [text|]; [|discriminate].
  destruct opens, renames; intros [= <-]; reflexivity.
Qed.

Lemma therm_keeps q opens renames h : g_last_state (left_by h (main_therm scan_d q opens renames h)) = g_last_state h.
Proof. unfold main_therm. destruct q; [destruct opens, renames|]; reflexivity. Qed.

Lemma calm_follows es : forall h, calm es h ->
  exists sent h', run es h = Some (sent, h') /\ foldl obey (g_last_state h) sent = g_last_state h' /\
    g_last_state h' = foldl law (g_last_state h) (readings es h).
Proof.
  induction es as [|e es IH]; intros h Hc; [exists [], h; repeat split; reflexivity|].
  destruct Hc as [He Hrest]. cbn [run readings].
  assert (Hstep : exists sent h1, step e h = Some (sent, h1) /\ foldl obey (g_last_state h) sent = g_last_state h1 /\
            g_last_state h1 = foldl law (g_last_state h)
              match e with Cycle reply opens creates => [reading (decided reply opens creates h)] | _ => [] end).
  { destruct e as [reply opens creates|q enc unenc opens renames|q opens renames]; cbn [step].
    - destruct He as (Hm & Ht & HT). destruct (cycle_calm reply opens creates h Hm Ht HT) as (sent & E & Eo & El).
      exists sent, (decided reply opens creates h). repeat split; assumption.
    - destruct He as [p Hp]. rewrite Hp. cbn. do 2 eexists. split; [reflexivity|].
      pose proof (web_keeps q enc unenc opens renames h p Hp) as E. cbn. split; congruence.
    - do 2 eexists. split; [reflexivity|]. pose proof (therm_keeps q opens renames h) as E. cbn. split; congruence. }
  destruct Hstep as (sent & h1 & E & Eo & El). rewrite E in Hrest |- *. cbn [mbind option_bind].
  destruct (IH h1 Hrest) as (sent' & h' & Er & Eo' & El'). rewrite Er. cbn [mbind option_bind].
  do 2 eexists. split; [reflexivity|]. rewrite !foldl_app, Eo, Eo', <- El. split; [reflexivity|exact El'].
Qed.

(** C14: The heating follows the thermostat.  Over any run of chmon and the web
    pages in which the temperatures can be shown and are not below zero, no message
    holds a command character and the requests can be decoded, nothing goes wrong, and the Arduino's relay
    is at every end in the state that half a degree of hysteresis around the
    thermostat's setting prescribes for the temperatures read. *)
Theorem heating_follows temp message tempf therm mtmp ttmp es
    (Hcalm : calm es (heating_init message tempf therm mtmp ttmp)) :
  exists sent h', run es (heating_init message tempf therm mtmp ttmp) = Some (sent, h') /\
    relay false (setup ++ receive temp sent) = g_last_state h' /\
    g_last_state h' = foldl law false (readings es (heating_init message tempf therm mtmp ttmp)).
Proof.
  destruct (calm_follows es _ Hcalm) as (sent & h' & Er & Eo & El). exists sent, h'. split; [exact Er|].
  split; [|exact El]. unfold relay. rewrite foldl_app. fold (relay (foldl coil false setup) (receive temp sent)).
  rewrite relay_receive. exact Eo.
Qed.

(** ** Below zero *)

Lemma display_plus h text : update_display h = Some text -> Forall (fun b => b <> 43) text.
Proof.
  unfold update_display. destruct (_ <? _)%nat; [intros [= <-]|discriminate]. unfold display_text.
  apply Forall_cons_2; [discriminate|]. apply Forall_app_2; [apply print_f_plus|]. apply Forall_app_2; [closed_text|].
  apply Forall_app_2; [apply print_f_plus|]. apply Forall_app_2; [closed_text|]. destruct (g_last_state h); closed_text.
Qed.

(** A minus sign on the display resets the relay. *)
Lemma display_frost h text on : update_display h = Some text -> sign (g_temperature_now h) = true ->
  foldl obey on text = false.
Proof.
  intros Hd Hs. pose proof (display_plus h text Hd) as Hp. unfold update_display in Hd.
  destruct (_ <? _)%nat; [injection Hd as <-|discriminate]. unfold display_text in *.
  destruct (print_f_sign 2 (g_temperature_now h)) as (rest & E & _). rewrite E, Hs in *. cbn [minus] in *.
  change (str "-") with [45] in *. cbn [app lcd_line1] in *. cbn [foldl].
  change (obey (obey on CMD_ROW_1) 45) with false. apply obey_off.
  inversion Hp as [|? ? _ Hp1]; subst. inversion Hp1; subst. assumption.
Qed.

(** A round that still wants heat sends nothing that switches it on. *)
Lemma cycle_wanting reply opens creates h sent h' :
  cycle scan_f reply opens creates h = Some (sent, h') -> lcd_message h = None -> g_last_state h = true ->
  law true (reading h') = true ->
  lcd_message h' = None /\ g_last_state h' = true /\ Forall (fun b => b <> 43) sent.
Proof.
  rewrite cycle_eq. intros Hc Hm Hon Hlaw. destruct (update_display _) as [text|] eqn:Hd; [cbn in Hc; injection Hc as <- <-|discriminate].
  destruct (sensed_keeps reply opens creates h) as [Es Em].
  destruct (update_relay_law (sensed reply opens creates h)) as (El & Er & Emm & _). fold (decided reply opens creates h) in *.
  rewrite Er in Hlaw. rewrite Es, Hon, Hlaw in El. rewrite Emm. split; [exact Em|]. split; [exact El|].
  unfold check_messages. rewrite Hm. cbn [fst app]. apply Forall_cons_2; [unfold CMD_GET_TEMP; lia|].
  apply Forall_app_2; [|exact (display_plus _ _ Hd)].
  unfold update_relay. rewrite Es, Hon. unfold law, reading in Hlaw.
  destruct (SFltb _ _); [discriminate Hlaw|]. apply Forall_nil_2.
Qed.

Definition no_message (e : event) : Prop := match e with WebMessage _ _ _ _ _ => False | _ => True end.

Lemma therm_message q opens renames h : lcd_message (left_by h (main_therm scan_d q opens renames h)) = lcd_message h.
Proof. unfold main_therm. destruct q; [destruct opens, renames|]; reflexivity. Qed.

Lemma run_wanting es : forall h sent h', Forall no_message es -> lcd_message h = None -> g_last_state h = true ->
  Forall (fun r => law true r = true) (readings es h) -> run es h = Some (sent, h') ->
  g_last_state h' = true /\ Forall (fun b => b <> 43) sent.
Proof.
  induction es as [|e es IH]; intros h sent h' Hes Hm Hon Hcold Hrun.
  - injection Hrun as <- <-. split; [exact Hon|apply Forall_nil_2].
  - cbn [run readings] in *. apply Forall_cons_1 in Hes as [He Hes].
    destruct (step e h) as [[s1 h1]|] eqn:E1; [|discriminate]. cbn [mbind option_bind] in Hrun.
    destruct (run es h1) as [[s2 h2]|] eqn:E2; [|discriminate]. injection Hrun as <- <-.
    apply Forall_app in Hcold as [Hr Hcold].
    assert (Hone : lcd_message h1 = None /\ g_last_state h1 = true /\ Forall (fun b => b <> 43) s1).
    { destruct e as [reply opens creates|q enc unenc opens renames|q opens renames]; [|destruct He|]; cbn [step] in E1.
      - apply (cycle_wanting reply opens creates h); [exact E1|exact Hm|exact Hon|].
        apply Forall_cons_1 in Hr as [Hr _]. rewrite cycle_eq in E1.
        destruct (update_display _); [cbn in E1; injection E1 as _ <-; exact Hr|discriminate].
      - injection E1 as <- <-. rewrite therm_message, therm_keeps. split; [exact Hm|]. split; [exact Hon|apply Forall_nil_2]. }
    destruct Hone as (Hm1 & Hon1 & Hs1). destruct (IH h1 s2 h2 Hes Hm1 Hon1 Hcold E2) as [Hon2 Hs2].
    split; [exact Hon2|]. apply Forall_app_2; assumption.
Qed.

(** Frost turns the heating off.  When a round of chmon that wants heat shows a
    temperature below zero, the minus sign on the display is the Arduino's command
    to open the relay: it is open after the round, although chmon takes it to be
    closed; and it stays open through every later round until the temperature has
    passed the thermostat's setting or a message is sent. *)
Theorem frost_switches_off temp on reply opens creates h sent h1 es sent' h2
    (Hcycle : cycle scan_f reply opens creates h = Some (sent, h1))
    (Hwants : g_last_state h1 = true) (Hfrost : sign (g_temperature_now h1) = true)
    (Hes : Forall no_message es) (Hcold : Forall (fun r => law true r = true) (readings es h1))
    (Hrun : run es h1 = Some (sent', h2)) :
  g_last_state h2 = true /\ relay on (receive temp sent) = false /\ relay on (receive temp (sent ++ sent')) = false.
Proof.
  rewrite !relay_receive, foldl_app. rewrite cycle_eq in Hcycle.
  destruct (update_display _) as [text|] eqn:Hd; [cbn in Hcycle; injection Hcycle as <- <-|discriminate].
  assert (Hm : lcd_message (decided reply opens creates h) = None).
  { destruct (update_relay_law (sensed reply opens creates h)) as (_ & _ & E & _). unfold decided. rewrite E.
    apply sensed_keeps. }
  destruct (run_wanting es _ _ _ Hes Hm Hwants Hcold Hrun) as [Hon2 Hs2]. split; [exact Hon2|].
  assert (E : foldl obey on ((check_messages h).1 ++ CMD_GET_TEMP :: (update_relay (sensed reply opens creates h)).1 ++ text) = false).
  { rewrite foldl_app. cbn [foldl]. rewrite foldl_app. apply (display_frost _ _ _ Hd Hfrost). }
  rewrite E. split; [reflexivity|]. apply obey_off, Hs2.
Qed.

End Runs.

(** ** Concrete runs *)

(** Plain decimal numbers, for the examples. *)
Definition scan_decimal (s : list Z) : option spec_float :=
  let '(neg, s) := match s with 45 :: s' => (true, s') | _ => (false, s) end in
  let '(whole, s) := Panel.digits 9 s in
  let frac := match s with 46 :: s' => fst (Panel.digits 9 s') | _ => [] end in
  match whole ++ frac with
  | [] => None
  | ds =>
      match Panel.int_of ds with
      | Z.pos m => Some (SFdiv 24 128 (S754_finite neg m 0) (f32 (10 ^ Z.of_nat (length frac))))
      | _ => Some (S754_zero neg)
      end
  end.

Definition scan_int (s : list Z) : option Z :=
  match fst (Panel.digits 9 s) with [] => None | ds => Some (Panel.int_of ds) end.

Definition evening : list event :=
  [WebTherm (Some (str "therm=20")) true true; Cycle (Some (str "18.25" ++ [10])) true true;
   Cycle (Some (str "20.25" ++ [10])) true true; Cycle (Some (str "20.75" ++ [10])) true true].

Definition zeroes : mem := fun _ => 0.

(** [calm] as a test. *)
Definition shownb (d : nat) (x : spec_float) : bool :=
  match x with
  | S754_nan | S754_infinity _ => false
  | _ => negb (sign x) && (0 <=? scaled d x) && (scaled d x <? 10 ^ Z.of_nat (3 + d))
  end.

Fixpoint calmb (scan_f : list Z -> option spec_float) (scan_d : list Z -> option Z) (es : list event) (h : heating) : bool :=
  match es with
  | [] => true
  | e :: es' =>
      match e with
      | Cycle reply opens creates =>
          forallb (fun b => negb (b =? 43) && negb (b =? 45)) (default [] (lcd_message h)) &&
          shownb 2 (g_temperature_now (decided scan_f reply opens creates h)) &&
          shownb 1 (g_thermostat_temperature (decided scan_f reply opens creates h))
      | WebMessage q enc unenc opens renames => bool_decide (is_Some (main_message q enc unenc opens renames h))
      | WebTherm _ _ _ => true
      end &&
      match step scan_f scan_d e h with Some (_, h') => calmb scan_f scan_d es' h' | None => true end
  end.

Lemma shownb_spec d x : shownb d x = true -> shown d x.
Proof.
  unfold shownb, shown.
  destruct x; try discriminate; rewrite !andb_true_iff, negb_true_iff, Z.leb_le, Z.ltb_lt; intros [[? ?] ?];
    (split; [discriminate|split; [discriminate|split; [assumption|split; assumption]]]).
Qed.

Lemma calmb_spec scan_f scan_d es : forall h, calmb scan_f scan_d es h = true -> calm scan_f scan_d es h.
Proof.
  induction es as [|e es IH]; intros h; cbn [calmb calm]; [easy|]. rewrite andb_true_iff. intros [He Hr]. split.
  - destruct e as [reply opens creates|q enc unenc opens renames|]; [|apply bool_decide_eq_true in He; exact He|exact I].
    rewrite !andb_true_iff in He. destruct He as [[Hm Ht] HT]. split; [|split; apply shownb_spec; assumption].
    apply Forall_forall. intros b Hb. rewrite forallb_forall in Hm. specialize (Hm b (proj1 (list_elem_of_In _ _) Hb)).
    rewrite andb_true_iff, !negb_true_iff, !Z.eqb_neq in Hm. exact Hm.
  - destruct (step scan_f scan_d e h) as [[? h']|]; [apply IH, Hr|exact I].
Qed.

Lemma evening_calm : calm scan_decimal scan_int evening (heating_init None None None None None).
Proof. apply calmb_spec. vm_compute. reflexivity. Qed.

Lemma heating_follows_witness :
  exists sent h', run scan_decimal scan_int evening (heating_init None None None None None) = Some (sent, h') /\
    relay false (setup ++ receive (str "20.00") sent) = g_last_state h' /\
    g_last_state h' = foldl law false (readings scan_decimal scan_int evening (heating_init None None None None None)).
Proof. apply (heating_follows scan_decimal scan_int (str "20.00") None None None None None evening evening_calm). Defined.

(** The relay goes on at 18.25 degrees and off at 20.75. *)
Lemma evening_relay :
  option_map (fun r => filter (fun b => b = 43 \/ b = 45) r.1)
    (run scan_decimal scan_int evening (heating_init None None None None None)) = Some [43; 45].
Proof. vm_compute. reflexivity. Qed.

(** A winter night: the state before the frost, and three rounds of it. *)
Definition night : heating := mkHeating (f32 1) (f32 10) true None None (Some (str "10.0")) None None.

Definition frosty (text : String.string) : event := Cycle (Some (str text ++ [10])) true true.

Definition frost_first : list Z * heating :=
  default ([], night) (cycle scan_decimal (Some (str "-0.50" ++ [10])) true true night).

Definition frost_rest : list Z * heating :=
  default ([], night) (run scan_decimal scan_int [frosty "-2.00"; frosty "0.25"] frost_first.2).

Lemma law_true_all rs : forallb (law true) rs = true -> Forall (fun r => law true r = true) rs.
Proof. rewrite forallb_forall. intros H. apply Forall_forall. intros r Hr. apply H, list_elem_of_In, Hr. Qed.

Lemma frost_switches_off_witness :
  g_last_state frost_rest.2 = true /\ relay true (receive [] frost_first.1) = false /\
  relay true (receive [] (frost_first.1 ++ frost_rest.1)) = false.
Proof.
  apply (frost_switches_off scan_decimal scan_int [] true (Some (str "-0.50" ++ [10])) true true night
           frost_first.1 frost_first.2 [frosty "-2.00"; frosty "0.25"] frost_rest.1 frost_rest.2).
  - vm_compute. reflexivity.
  - vm_compute. reflexivity.
  - vm_compute. reflexivity.
  - repeat constructor.
  - apply law_true_all. vm_compute. reflexivity.
  - vm_compute. reflexivity.
Defined.

(** A message with an encoded ['+'] closes the relay behind chmon's back. *)
Lemma message_switches_relay :
  option_map (fun r => (relay false (receive [] r.1), g_last_state r.2))
    (run scan_decimal scan_int
       [WebMessage (Some (str "message=%2b")) zeroes zeroes true true; Cycle (Some (str "20.00" ++ [10])) true true]
       (heating_init None None None None None)) = Some (true, false).
Proof. vm_compute. reflexivity. Qed.

(** A thermostat setting with six digits does not fit the display's buffer. *)
Lemma display_overrun :
  run scan_decimal scan_int [WebTherm (Some (str "therm=100000")) true true; Cycle (Some (str "20.00" ++ [10])) true true]
    (heating_init None None None None None) = None.
Proof. vm_compute. reflexivity. Qed.

(** ** The text of a web request *)

(** A character, a space, or an escape of two hexadecimal digits. *)
Inductive item : Type := Plain (c : Z) | Plus | Escape (h l : Z).

Definition text_of (i : item) : list Z :=
  match i with Plain c => [c] | Plus => [43] | Escape h l => [37; h; l] end.

Definition value_of (i : item) : Z :=
  match i with
  | Plain c => c
  | Plus => 32
  | Escape h l => 16 * default 0 (Config.hexval h) + default 0 (Config.hexval l)
  end.

Definition encodes (i : item) : Prop :=
  match i with
  | Plain c => c <> 0 /\ c <> 43 /\ c <> 37 /\ Config.isspace c = false
  | Plus => True
  | Escape h l => is_Some (Config.hexval h) /\ is_Some (Config.hexval l)
  end.

Lemma hexval_range c d : Config.hexval c = Some d -> 0 <= d < 16 /\ c <> 0.
Proof.
  unfold Config.hexval. destruct ((48 <=? c) && (c <=? 57)) eqn:E1; [|destruct ((97 <=? c) && (c <=? 102)) eqn:E2;
    [|destruct ((65 <=? c) && (c <=? 70)) eqn:E3; [|discriminate]]]; intros [= <-];
    rewrite andb_true_iff, !Z.leb_le in *; lia.
Qed.

Lemma scan_escape h l rest a b : Config.hexval h = Some a -> Config.hexval l = Some b ->
  Config.sscanf_x (take 2 (Config.skip_spaces (h :: l :: rest))) = Some (16 * a + b).
Proof.
  intros Ha Hb. destruct (Config.hexval_plain h a Ha) as (E1 & E2 & E3 & _ & _).
  destruct (Config.hexval_plain l b Hb) as (_ & _ & _ & E4 & E5).
  destruct (hexval_range h a Ha) as [Ra _]. destruct (hexval_range l b Hb) as [Rb _].
  cbn [Config.skip_spaces]. rewrite E1. cbn [take]. unfold Config.sscanf_x. cbn [Config.skip_spaces]. rewrite E1, E2, E3, E4, E5.
  rewrite andb_false_r. cbn [Config.scan_digits]. rewrite Ha, Hb. rewrite take_0. cbn [Config.scan_digits Nat.eqb].
  rewrite (proj2 (Z.ltb_ge _ _)) by lia. f_equal. rewrite u32_id; lia.
Qed.

(** What lies at an address of a buffer. *)
Definition holds (m : mem) (a : Z) (s : list Z) : Prop :=
  forall i, (i < length s)%nat -> m (a + Z.of_nat i) = nth i s 0.

Lemma holds_app m a s1 s2 : holds m a (s1 ++ s2) <-> holds m a s1 /\ holds m (a + Z.of_nat (length s1)) s2.
Proof.
  unfold holds. rewrite length_app. split.
  - intros H. split; intros i Hi.
    + rewrite H by lia. apply app_nth1. exact Hi.
    + rewrite <- Z.add_assoc, <- Nat2Z.inj_add, H by lia. rewrite app_nth2 by lia. f_equal. lia.
  - intros [H1 H2] i Hi. destruct (Nat.lt_ge_cases i (length s1)).
    + rewrite app_nth1 by lia. apply H1. lia.
    + rewrite app_nth2 by lia. rewrite <- H2 by lia. f_equal. lia.
Qed.

Lemma holds_load m a s : holds m a s <-> load_bytes m a (Z.of_nat (length s)) = s.
Proof.
  unfold holds. split.
  - intros H. apply (nth_ext _ _ 0 0); rewrite length_load_bytes, Nat2Z.id; [reflexivity|].
    intros i Hi. rewrite nth_load_bytes by lia. apply H, Hi.
  - intros H i Hi. rewrite <- H, nth_load_bytes by lia. reflexivity.
Qed.

(** Every kind of item moves on by its length and leaves one byte. *)
Lemma decode_item i fuel enc src dest out :
  encodes i -> holds enc src (text_of i) -> 0 <= dest <= src -> src + Z.of_nat (length (text_of i)) < BUFFER ->
  decode (S fuel) enc src dest out =
    decode fuel enc (src + Z.of_nat (length (text_of i))) (dest + 1) (store out dest (value_of i)).
Proof.
  intros Hi Hh Hd Hb. pose proof (Hh 0%nat) as E0. pose proof (Hh 1%nat) as E1. pose proof (Hh 2%nat) as E2.
  change (Z.of_nat 0) with 0 in E0. change (Z.of_nat 1) with 1 in E1. change (Z.of_nat 2) with 2 in E2. rewrite Z.add_0_r in E0.
  cbn [decode]. rewrite (proj2 (Z.ltb_lt src BUFFER)), (proj2 (Z.ltb_lt dest BUFFER)) by lia. cbn [negb orb].
  destruct i as [c| |h l]; cbn [text_of value_of length nth] in *.
  - destruct Hi as (H0 & H1 & H2 & _). rewrite E0 by lia. apply Z.eqb_neq in H0, H1, H2. rewrite H0, H1, H2. reflexivity.
  - rewrite E0 by lia. reflexivity.
  - destruct Hi as [[a Ha] [b Hl]]. rewrite E0 by lia. cbn [Z.eqb Pos.eqb].
    rewrite (proj2 (Z.ltb_lt (src + 1) BUFFER)) by lia. cbn [negb].
    destruct (hexval_range h a Ha) as [Ra Hh0]. destruct (hexval_range l b Hl) as [Rb Hl0]. apply Z.eqb_neq in Hh0, Hl0.
    replace (BUFFER - (src + 1)) with (2 + (BUFFER - (src + 3))) by lia.
    rewrite load_bytes_app by (unfold BUFFER in *; lia). change (load_bytes enc (src + 1) 2) with [enc (src + 1 + 0); enc (src + 1 + 1)].
    replace (src + 1 + 0) with (src + 1) by lia. replace (src + 1 + 1) with (src + 2) by lia.
    rewrite E1, E2 by lia. cbn [app c_text]. rewrite Hh0, Hl0.
    rewrite (scan_escape h l _ a b Ha Hl), Ha, Hl. cbn [from_option id]. rewrite u8_id by lia. reflexivity.
Qed.

Lemma decode_items items : forall fuel enc src dest out,
  Forall encodes items -> holds enc src (concat (map text_of items) ++ [0]) ->
  0 <= dest <= src -> src + Z.of_nat (length (concat (map text_of items))) + 1 < BUFFER -> (length items < fuel)%nat ->
  exists out', decode fuel enc src dest out = Some out' /\
    mem_eq out' (store (store_bytes out dest (map value_of items)) (dest + Z.of_nat (length items) + 1) 0).
Proof.
  induction items as [|i items IH]; intros fuel enc src dest out Hv Hh Hd Hb Hf; (destruct fuel as [|fuel]; [cbn in Hf; lia|]).
  - cbn [map concat app length] in *. specialize (Hh 0%nat ltac:(cbn; lia)). rewrite Z.add_0_r in Hh. cbn in Hh.
    cbn [decode]. rewrite Hh. rewrite (proj2 (Z.ltb_lt src BUFFER)), (proj2 (Z.ltb_lt dest BUFFER)), (proj2 (Z.ltb_lt (dest + 1) BUFFER)) by lia.
    cbn. eexists. split; [reflexivity|]. intros x. unfold store, store_bytes. cbn. rewrite Z.add_0_r. repeat zcase; cbn; lia.
  - apply Forall_cons_1 in Hv as [Hi Hv]. cbn [map concat] in *. rewrite <- app_assoc, holds_app in Hh. destruct Hh as [Hh1 Hh2].
    rewrite length_app in Hb. cbn [length] in Hf. rewrite (decode_item i) by (auto; lia).
    destruct (IH fuel enc (src + Z.of_nat (length (text_of i))) (dest + 1) (store out dest (value_of i)) Hv Hh2)
      as (out' & E & Em); [destruct i; cbn [text_of length]; lia|lia|lia|].
    exists out'. split; [exact E|]. intros x. rewrite Em. unfold store, store_bytes. cbn [map length].
    rewrite length_map. replace (dest + 1 + Z.of_nat (length items) + 1) with (dest + Z.of_nat (S (length items)) + 1) by lia.
    destruct (Z.eqb_spec x (dest + Z.of_nat (S (length items)) + 1)); [reflexivity|].
    repeat zcase; cbn [andb]; try lia; try reflexivity.
    all: first [ replace (Z.to_nat (x - dest)) with (S (Z.to_nat (x - (dest + 1)))) by lia; reflexivity
               | replace (Z.to_nat (x - dest)) with 0%nat by lia; reflexivity ].
Qed.

Lemma c_text_app s1 s2 : Forall (fun c => c <> 0) s1 -> c_text (s1 ++ s2) = s1 ++ c_text s2.
Proof.
  induction 1 as [|c s1 Hc _ IH]; [reflexivity|]. cbn. apply Z.eqb_neq in Hc. rewrite Hc, IH. reflexivity.
Qed.

(** The string read back: the bytes decoded, and the one under the terminator that
    [decode] left as it was. *)
Lemma c_string_stale out out' vals : Forall (fun c => c <> 0) vals -> Z.of_nat (length vals) + 1 < BUFFER ->
  mem_eq out' (store (store_bytes out 0 vals) (Z.of_nat (length vals) + 1) 0) ->
  c_string out' = Some (vals ++ c_text [out (Z.of_nat (length vals))]).
Proof.
  intros Hv Hn Hm. set (n := Z.of_nat (length vals)) in *.
  assert (E : load_bytes out' 0 BUFFER = vals ++ [out n] ++ [0] ++ load_bytes out' (n + 2) (BUFFER - (n + 2))).
  { replace BUFFER with (n + (1 + (1 + (BUFFER - (n + 2))))) at 1 by lia. rewrite !load_bytes_app by lia.
    change (load_bytes out' (0 + n) 1) with [out' (0 + n + 0)]. change (load_bytes out' (0 + n + 1) 1) with [out' (0 + n + 1 + 0)].
    rewrite !Hm. f_equal; [|f_equal; [|f_equal; [|f_equal; lia]]].
    - transitivity (load_bytes (store_bytes out 0 vals) 0 n); [|apply load_store_bytes]. apply load_bytes_ext. intros i Hi. rewrite Hm. unfold store. zcase; [lia|reflexivity].
    - unfold store, store_bytes. fold n. repeat zcase; try lia. cbn [andb]. do 2 f_equal. lia.
    - unfold store. zcase; [reflexivity|lia]. }
  unfold c_string. rewrite E. rewrite bool_decide_eq_true_2 by (rewrite !elem_of_app; right; right; left; left).
  rewrite c_text_app by exact Hv. cbn [app c_text]. destruct (out n =? 0); reflexivity.
Qed.

Lemma word_items items : Forall encodes items -> word (concat (map text_of items)) = concat (map text_of items).
Proof.
  assert (Hsp : forall c s, Config.isspace c = false -> word (c :: s) = c :: word s) by (intros c s E; cbn; rewrite E; reflexivity).
  induction 1 as [|i items Hi _ IH]; [reflexivity|]. cbn [map concat]. destruct i as [c| |h l]; cbn [text_of app].
  - destruct Hi as (_ & _ & _ & E). rewrite Hsp, IH by exact E. reflexivity.
  - rewrite Hsp, IH by reflexivity. reflexivity.
  - destruct Hi as [[a Ha] [b Hb]]. destruct (Config.hexval_plain h a Ha) as [E1 _]. destruct (Config.hexval_plain l b Hb) as [E2 _].
    rewrite !Hsp, IH by (reflexivity || assumption). reflexivity.
Qed.

Lemma scan_message_items items enc : Forall encodes items -> items <> [] ->
  scan_message (str "message=" ++ concat (map text_of items)) enc =
    store_bytes enc 0 (concat (map text_of items) ++ [0]).
Proof.
  intros Hv Hne. unfold scan_message, Panel.starts_with.
  rewrite take_app_length, bool_decide_eq_true_2 by reflexivity.
  change (drop 8 (str "message=" ++ concat (map text_of items))) with (concat (map text_of items)).
  destruct items as [|i items]; [congruence|]. pose proof (word_items _ Hv) as Hw. apply Forall_cons_1 in Hv as [Hi _].
  assert (E : Config.skip_spaces (concat (map text_of (i :: items))) = concat (map text_of (i :: items))).
  { cbn [map concat]. destruct i as [c| |h l]; cbn [text_of app Config.skip_spaces]; [|reflexivity|reflexivity].
    destruct Hi as (_ & _ & _ & ->). reflexivity. }
  rewrite E, Hw. destruct (concat (map text_of (i :: items))) as [|c s] eqn:Ec; [|reflexivity].
  destruct i; discriminate Ec.
Qed.

(** The text of a request. *)
Lemma message_text_items items encoded unencoded
    (Hitems : Forall encodes items) (Hvals : Forall (fun i => value_of i <> 0) items) (Hne : items <> [])
    (Hlen : (length (concat (map text_of items)) <= 992)%nat) :
  message_text (str "message=" ++ concat (map text_of items)) encoded unencoded =
    Some (pad_to 16 32 (map value_of items ++ c_text [unencoded (Z.of_nat (length items))])).
Proof.
  unfold message_text. rewrite scan_message_items by assumption.
  assert (Hl : (length items <= length (concat (map text_of items)))%nat).
  { clear. induction items as [|i items IH]; cbn; [lia|]. rewrite length_app. destruct i; cbn; lia. }
  destruct (decode_items items (Z.to_nat BUFFER) (store_bytes encoded 0 (concat (map text_of items) ++ [0])) 0 0 unencoded)
    as (out' & -> & Em); [exact Hitems| |lia|unfold BUFFER; lia|unfold BUFFER; lia|].
  - apply holds_load, load_store_bytes.
  - cbn [mbind option_bind]. rewrite (c_string_stale unencoded out' (map value_of items)).
    + rewrite length_map. reflexivity.
    + apply Forall_map. exact Hvals.
    + rewrite length_map. unfold BUFFER. lia.
    + rewrite length_map. exact Em.
Qed.

(** C18: What the message page puts on the display.  The request is made of
    characters, spaces and escapes other than that of the zero byte, at least one
    and at most 992 characters long.  Whatever was on the stack, the text is the
    decoded request, padded to the width of the display; between the two stands
    the one byte of the stack that [decode], whose terminator is a place too far,
    leaves behind, unless that byte is zero.  When the temporary file can be
    opened and renamed, the page stores the text as the message, followed by what
    a longer temporary file had behind it (there is none unless an earlier rename
    failed), and the next round of chmon sends just that to the second row; when
    it cannot be renamed there is no message and the temporary file stays; when it
    cannot be opened there is no message and the page reports an error.  Nothing
    else changes. *)
Theorem message_decoded items encoded unencoded opens renames h
    (Hitems : Forall encodes items) (Hvals : Forall (fun i => value_of i <> 0) items) (Hne : items <> [])
    (Hlen : (length (concat (map text_of items)) <= 992)%nat) :
  let text := pad_to 16 32 (map value_of items ++ c_text [unencoded (Z.of_nat (length items))]) in
  let file := text ++ drop (length text) (default [] (message_tmp h)) in
  main_message (Some (str "message=" ++ concat (map text_of items))) encoded unencoded opens renames h =
    Some (match opens, renames with
          | true, true => Served (with_message (Some file) None h)
          | true, false => Served (with_message None (Some file) h)
          | false, _ => ServerError (with_message None (message_tmp h) h)
          end) /\
  (check_messages (with_message (Some file) None h)).1 = CMD_ROW_2 :: file /\
  (message_tmp h = None -> file = text).
Proof.
  cbv zeta. unfold main_message. rewrite message_text_items by assumption. cbn [mbind option_bind].
  rewrite (proj2 (Nat.ltb_ge 1000 _)) by (rewrite length_app; change (length (str "message=")) with 8%nat; lia).
  split; [destruct opens, renames; reflexivity|]. split; [reflexivity|]. intros ->. cbn [default from_option].
  rewrite drop_nil. apply app_nil_r.
Qed.

Lemma message_decoded_witness :
  let h := heating_init None None None None None in
  main_message (Some (str "message=hi%21+you")) zeroes (fun _ => 35) true true h =
    Some (Served (with_message (Some (str "hi! you#" ++ repeat 32 8)) None h)) /\
  (check_messages (with_message (Some (str "hi! you#" ++ repeat 32 8)) None h)).1 =
    CMD_ROW_2 :: str "hi! you#" ++ repeat 32 8.
Proof.
  destruct (message_decoded [Plain 104; Plain 105; Escape 50 49; Plus; Plain 121; Plain 111; Plain 117] zeroes (fun _ => 35)
    true true (heating_init None None None None None)) as (H1 & H2 & H3).
  - repeat (apply Forall_cons_2; [cbn; repeat split; try discriminate; try (eexists; reflexivity)|]). apply Forall_nil_2.
  - repeat (apply Forall_cons_2; [discriminate|]). apply Forall_nil_2.
  - discriminate.
  - cbn. lia.
  - rewrite (H3 eq_refl) in H1, H2. split; [exact H1|exact H2].
Defined.

(** A rename that failed shows in the next message: the tail of the longer text. *)
Lemma message_old_tail :
  (h ← left_by (heating_init None None None None None) <$>
     main_message (Some (str "message=a+very+long+message+from+yesterday")) zeroes zeroes true false
       (heating_init None None None None None);
   p ← main_message (Some (str "message=short")) zeroes zeroes true true h;
   lcd_message (left_by h p)) = Some (str "short           age from yesterday").
Proof. vm_compute. reflexivity. Qed.

(** An escape cut off by the end of the text carries [decode] past the end, to
    whatever the stack holds there. *)
Lemma decode_cut_escape fuel enc src dest out : 0 <= src -> src + 1 < BUFFER -> 0 <= dest < BUFFER ->
  enc src = 37 -> enc (src + 1) = 0 ->
  decode (S fuel) enc src dest out = decode fuel enc (src + 3) (dest + 1) (store out dest 63).
Proof.
  intros H0 H1 H2 E0 E1. cbn [decode]. rewrite E0. cbn [Z.eqb Pos.eqb].
  rewrite (proj2 (Z.ltb_lt src BUFFER)), (proj2 (Z.ltb_lt dest BUFFER)), (proj2 (Z.ltb_lt (src + 1) BUFFER)) by lia. cbn [negb orb].
  replace (BUFFER - (src + 1)) with (1 + (BUFFER - (src + 2))) by lia. rewrite load_bytes_app by (unfold BUFFER in *; lia).
  change (load_bytes enc (src + 1) 1) with [enc (src + 1 + 0)]. rewrite Z.add_0_r, E1. reflexivity.
Qed.

End HeatingSpec.
