(* ===== verification/Tftp.v ===== *)
(** The boot server of the host (tools/bootp_server.py): the BOOTP answer and the
    TFTP connection.

    A connection is a state machine: it waits in [recv], where a datagram arrives
    or two seconds pass, and sends datagrams.  What the files hold and what arrives
    are parameters. *)
From Stdlib Require Import ZArith Lia.
From stdpp Require Import base list numbers option strings.
From S2P Require Import Prelude Python RawEth.

Module Tftp.
Import Python.

(** Python's exceptions; only [TFTPError] is caught. *)
Inductive exn : Type :=
  | TFTPError (num : Z) (text : list Z)
  | StructError | ValueError | IOError | AttributeError.

Inductive res (A : Type) : Type := Ret (a : A) | Raise (e : exn).
Arguments Ret {A} _.
Arguments Raise {A} _.

#[export] Instance res_ret : MRet res := @Ret.

#[export] Instance res_bind : MBind res := fun A B k m => match m with Ret a => k a | Raise e => Raise e end.

(** ** Packets *)

(** The format [!h]: a signed half-word, most significant byte first. *)
Definition pack_h (v : Z) : res (list Z) :=
  if (-0x8000 <=? v) && (v <? 0x8000) then Ret [(v mod 0x10000) / 0x100; v mod 0x100] else Raise StructError.

Definition unpack_h (bs : list Z) : res Z :=
  match bs with
  | [h; l] => let v := 0x100 * h + l in Ret (if v <? 0x8000 then v else v - 0x10000)
  | _ => Raise StructError
  end.

Definition RRQ : Z := 1.
Definition WRQ : Z := 2.
Definition DATA : Z := 3.
Definition ACK : Z := 4.
Definition ERR : Z := 5.

(** What [parse] returns. *)
Inductive packet : Type :=
  | Request (opcode : Z) (filename mode : list Z)
  | Data (block : Z) (data : list Z)
  | Ack (block : Z)
  | Err (errnum : Z) (errtxt : list Z).

Definition parse (data : list Z) : res packet :=
  opcode ← unpack_h (take 2 data);
  if (opcode =? RRQ) || (opcode =? WRQ) then
    match RawEth.split_at 0 (drop 2 data) with
    | [filename; mode; _] => Ret (Request opcode filename mode)
    | _ => Raise ValueError
    end
  else if opcode =? DATA then
    block ← unpack_h (take 2 (drop 2 data)); Ret (Data block (drop 4 data))
  else if opcode =? ACK then
    block ← unpack_h (take 2 (drop 2 data)); Ret (Ack block)
  else if opcode =? ERR then
    errnum ← unpack_h (take 2 (drop 2 data)); Ret (Err errnum (removelast (drop 4 data)))
  else Raise (TFTPError 4 (str "Unknown packet type")).

(** ** A connection *)

Definition blocksize : nat := 512.
Definition retries : nat := 5.

(** The fields of [TFTPConnection] that change.  [file] is what is still to be read
    of the file, [written] what has been written to it, if it is one to write to. *)
Record conn : Type := mkConn {
  active : bool;
  blockNumber : Z;
  lastpkt : list Z;
  file : list Z;
  written : option (list Z)
}.

Definition conn_init : conn := mkConn false 0 [] [] None.

(** Operations that send: the datagrams, in order, and the new state. *)
Definition sends : Type := res (list (list Z) * conn).

Definition sendData (data : list Z) (c : conn) : sends :=
  let block := blockNumber c + 1 in
  op ← pack_h DATA;
  bl ← pack_h block;
  let pkt := op ++ bl ++ data in
  Ret ([pkt], mkConn (length data =? blocksize)%nat block pkt (file c) (written c)).

Definition sendAck (c : conn) : sends :=
  op ← pack_h ACK;
  bl ← pack_h (blockNumber c);
  Ret ([op ++ bl], mkConn (active c) (blockNumber c + 1) (op ++ bl) (file c) (written c)).

Definition sendError (errnum : Z) (errtext : list Z) : res (list (list Z)) :=
  op ← pack_h ERR;
  en ← pack_h errnum;
  Ret [op ++ en ++ errtext ++ [0]].

Definition retransmit (c : conn) : list (list Z) := [lastpkt c].

(** [self.sendData(self.file.read(self.blocksize))]. *)
Definition send_next (c : conn) : sends :=
  sendData (take blocksize (file c))
    (mkConn (active c) (blockNumber c) (lastpkt c) (drop blocksize (file c)) (written c)).

Definition handleACK (c : conn) : sends := if active c then send_next c else Ret ([], c).

Definition recvAck (block : Z) (c : conn) : sends := if block =? blockNumber c then handleACK c else Ret ([], c).

(** What was sent and how it ended, for code that may raise after it has sent. *)
Definition effects : Type := list (list Z) * res conn.

Definition ran (r : sends) : effects :=
  match r with Ret (out, c) => (out, Ret c) | Raise e => ([], Raise e) end.

(** [self.file.write(data)]: a file opened for reading refuses. *)
Definition file_write (data : list Z) (c : conn) : res conn :=
  match written c with
  | Some bs => Ret (mkConn (active c) (blockNumber c) (lastpkt c) (file c) (Some (bs ++ data)))
  | None => Raise IOError
  end.

Definition handleDATA (data : list Z) (c : conn) : effects :=
  match sendAck c with
  | Ret (out, c) => (out, file_write data c)
  | Raise e => ([], Raise e)
  end.

Definition recvData (block : Z) (data : list Z) (c : conn) : effects :=
  if block =? blockNumber c then
    handleDATA data (mkConn (length data =? blocksize)%nat (blockNumber c) (lastpkt c) (file c) (written c))
  else ([], Ret c).

(** The error is printed and the last packet sent again. *)
Definition recvErr (c : conn) : sends := Ret (retransmit c, c).

Section Server.
(** [MyTFTP]: the contents of a file, if it opens; and whether [writeRequest] gives a
    file. *)
Context (readRequest : list Z -> option (list Z)) (writeRequest : bool).

Definition handleRRQ (filename : list Z) (c : conn) : sends :=
  match readRequest filename with
  | None => Raise IOError
  | Some contents => send_next (mkConn (active c) (blockNumber c) (lastpkt c) contents None)
  end.

Definition handleWRQ (c : conn) : sends :=
  if writeRequest then sendAck (mkConn (active c) (blockNumber c) (lastpkt c) [] (Some [])) else Raise AttributeError.

(** The loop of [connect] for a packet received. *)
Definition dispatch (data : list Z) (c : conn) : effects :=
  match parse data with
  | Ret (Data block data) => recvData block data c
  | Ret (Ack block) => ran (recvAck block c)
  | Ret (Err _ _) => ran (recvErr c)
  | Ret (Request _ _ _) => ([], Raise (TFTPError 5 (str "Invalid opcode")))
  | Raise e => ([], Raise e)
  end.

(** Where a connection is: in [recv] with so many tries left, at the end of
    [connect] normally or after an error was sent, or ended by an exception nobody
    catches. *)
Inductive status : Type := Waiting (retry : nat) (c : conn) | Ended (c : conn) | Aborted (num : Z) | Died (e : exn).

(** The test of the loop of [connect], and the start of [recv]. *)
Definition settle (r : effects) : list (list Z) * status :=
  let '(out, r) := r in
  match r with
  | Ret c => (out, if active c then Waiting retries c else Ended c)
  | Raise (TFTPError num text) =>
      match sendError num text with Ret err => (out ++ err, Aborted num) | Raise e => (out, Died e) end
  | Raise e => (out, Died e)
  end.

(** The first datagram comes from the server's socket, which reads as much. *)
Definition connect (data : list Z) : list (list Z) * status :=
  settle (ran (
    pkt ← parse (take 516 data);
    match pkt with
    | Request opcode filename mode =>
        let c := mkConn true (blockNumber conn_init) (lastpkt conn_init) [] None in
        if opcode =? RRQ then handleRRQ filename c else handleWRQ c
    | _ => Raise (TFTPError 4 (str "Bad request"))
    end)).

(** What [recv] meets; it reads no more than a block and its header. *)
Inductive event : Type := Timeout | Datagram (data : list Z) | Stray (data : list Z).

(** The time-out: the last packet again, and when the tries are used up the
    exception of [recv].  A datagram from elsewhere costs no try. *)
Definition step (ev : event) (st : status) : list (list Z) * status :=
  match st with
  | Waiting retry c =>
      match ev with
      | Stray _ => ([], st)
      | Datagram data => settle (dispatch (take (blocksize + 4) data) c)
      | Timeout =>
          match retry with
          | S (S retry') => (retransmit c, Waiting (S retry') c)
          | _ =>
              let '(out, st) := settle ([], Raise (TFTPError 4 (str "Transfer timed out"))) in
              (retransmit c ++ out, st)
          end
      end
  | _ => ([], st)
  end.

End Server.

(** ** BOOTP *)

(** A request of 300 bytes, as [!4B I Hxx 4I 16s 64s 128s 64s] takes it apart; the
    two bytes after [secs] are skipped and come back as zeroes.  [siaddr] is the
    server's own address. *)
Definition KERNEL_IMAGE_BIN : list Z := str "bzImage".

Definition bootp_reply (siaddr data : list Z) : option (list Z) :=
  if negb (length data =? 300)%nat then None
  else
    let hops := field_of data 1 3 in
    let xid := field_of data 4 4 in
    let secs := field_of data 8 2 in
    let ciaddr := field_of data 12 4 in
    let giaddr := field_of data 24 4 in
    let chaddr := field_of data 28 16 in
    let sname := field_of data 44 64 in
    let vend := field_of data 236 64 in
    Some (concat [[2]; hops; xid; secs; [0; 0]; ciaddr; [192; 168; 0; 159]; siaddr; giaddr; chaddr; sname;
                  pad_to 128 0 KERNEL_IMAGE_BIN; vend]).

End Tftp.
