(* ===== verification/TftpSpec.v ===== *)
(** The TFTP server against a client that follows RFC 1350, over a network that
    loses, repeats and reorders datagrams. *)
From Stdlib Require Import ZArith Lia.
From stdpp Require Import base list numbers option strings relations.
From S2P Require Import Prelude Python RawEth Tftp.

Module TftpSpec.
Import Python Tftp.

(** ** The client *)

(** A client that reads a file: what it has, the block it wants next, and whether
    it has seen the last. *)
Record client : Type := mkClient { got : list Z; next : Z; finished : bool }.

Definition client_init : client := mkClient [] 1 false.

(** The wire form of small block numbers. *)
Definition be16 (v : Z) : list Z := [v / 0x100; v mod 0x100].

Definition ack_packet (block : Z) : list Z := [0; 4] ++ be16 block.

(** The block wanted is taken and acknowledged, the one before is acknowledged
    again, anything else is passed over. *)
Definition client_receive (data : list Z) (cl : client) : list (list Z) * client :=
  match parse data with
  | Ret (Data block d) =>
      if (block =? next cl) && negb (finished cl) then
        ([ack_packet block], mkClient (got cl ++ d) (next cl + 1) (length d <? blocksize)%nat)
      else if block =? next cl - 1 then ([ack_packet block], cl)
      else ([], cl)
  | _ => ([], cl)
  end.

(** ** Packets *)

Lemma pack_h_small v : 0 <= v < 0x8000 -> pack_h v = Ret (be16 v).
Proof.
  intros Hv. unfold pack_h, be16. rewrite (proj2 (Z.leb_le _ _)), (proj2 (Z.ltb_lt _ _)) by lia. cbn [andb].
  rewrite (Z.mod_small v 0x10000) by lia. reflexivity.
Qed.

Lemma unpack_be16 v : 0 <= v < 0x8000 -> unpack_h (be16 v) = Ret v.
Proof.
  intros Hv. unfold unpack_h, be16. pose proof (Z.div_mod v 0x100 ltac:(lia)) as E. rewrite <- E.
  rewrite (proj2 (Z.ltb_lt _ _)) by lia. reflexivity.
Qed.

Definition data_packet (block : Z) (d : list Z) : list Z := [0; 3] ++ be16 block ++ d.

Lemma parse_data block d : 0 <= block < 0x8000 -> parse (data_packet block d) = Ret (Data block d).
Proof.
  intros Hb. change (parse (data_packet block d)) with (b ← unpack_h (be16 block); Ret (Data b d)).
  rewrite unpack_be16 by exact Hb. reflexivity.
Qed.

Lemma parse_ack block : 0 <= block < 0x8000 -> parse (ack_packet block) = Ret (Ack block).
Proof.
  intros Hb. change (parse (ack_packet block)) with (b ← unpack_h (be16 block); Ret (Ack b)).
  rewrite unpack_be16 by exact Hb. reflexivity.
Qed.

Lemma parse_error num text : 0 <= num < 0x8000 -> exists t, parse ([0; 5] ++ be16 num ++ text) = Ret (Err num t).
Proof.
  intros Hb. eexists. change (parse ([0; 5] ++ be16 num ++ text)) with (b ← unpack_h (be16 num); Ret (Err b (removelast text))).
  rewrite unpack_be16 by exact Hb. reflexivity.
Qed.

(** ** The file in blocks *)

Section File.
Context (contents : list Z) (Hsize : Z.of_nat (length contents) < 512 * 32767).

(** The block with number [j + 1]. *)
Definition chunk (j : nat) : list Z := take blocksize (drop (blocksize * j) contents).

Definition last_block : nat := length contents / blocksize.

Definition block_packet (j : nat) : list Z := data_packet (Z.of_nat j + 1) (chunk j).

Lemma length_chunk j : length (chunk j) = min blocksize (length contents - blocksize * j).
Proof. unfold chunk. rewrite length_take, length_drop. reflexivity. Qed.

Lemma chunk_full j : (length (chunk j) =? blocksize)%nat = (j <? last_block)%nat.
Proof.
  rewrite length_chunk. unfold last_block.
  pose proof (Nat.div_mod_eq (length contents) blocksize) as E. pose proof (Nat.mod_upper_bound (length contents) blocksize ltac:(discriminate)) as Hm.
  unfold blocksize in *. destruct (Nat.ltb_spec j (length contents / 512)); [apply Nat.eqb_eq|apply Nat.eqb_neq]; lia.
Qed.

Lemma chunk_short j : (j <= last_block)%nat -> (length (chunk j) <? blocksize)%nat = (j =? last_block)%nat.
Proof.
  intros Hj. pose proof (chunk_full j) as E. rewrite length_chunk in *. 
  destruct (Nat.eqb_spec j last_block), (Nat.ltb_spec j last_block); try lia.
  - apply Nat.eqb_neq in E. apply Nat.ltb_lt. lia.
  - apply Nat.eqb_eq in E. apply Nat.ltb_ge. lia.
Qed.

Lemma take_chunk j : take (blocksize * j) contents ++ chunk j = take (blocksize * S j) contents.
Proof. unfold chunk. rewrite take_take_drop. f_equal. lia. Qed.

Lemma take_last : take (blocksize * S last_block) contents = contents.
Proof.
  apply take_ge. unfold last_block. pose proof (Nat.div_mod_eq (length contents) blocksize).
  pose proof (Nat.mod_upper_bound (length contents) blocksize ltac:(discriminate)). lia.
Qed.

Lemma last_block_small : Z.of_nat last_block + 1 < 0x8000.
Proof.
  unfold last_block, blocksize. rewrite Nat2Z.inj_div. pose proof (Z.div_lt_upper_bound (Z.of_nat (length contents)) 512 32767). lia.
Qed.

(** ** The server on this file *)

(** The connection when block [j + 1] has just been sent. *)
Definition conn_at (j : nat) : conn :=
  mkConn (j <? last_block)%nat (Z.of_nat j + 1) (block_packet j) (drop (blocksize * S j) contents) None.

Definition status_at (j : nat) : status :=
  if (j <? last_block)%nat then Waiting retries (conn_at j) else Ended (conn_at j).

Lemma send_next_at j c : file c = drop (blocksize * j) contents -> blockNumber c = Z.of_nat j -> written c = None ->
  (j <= last_block)%nat -> send_next c = Ret ([block_packet j], conn_at j).
Proof.
  intros Hf Hb Hw Hj. unfold send_next, sendData. cbn [file blockNumber written]. rewrite Hb, Hf, Hw. fold (chunk j).
  pose proof last_block_small. rewrite (pack_h_small DATA) by (unfold DATA; lia). rewrite pack_h_small by lia.
  change (be16 DATA) with [0; 3]. cbn [mbind res_bind]. unfold conn_at, block_packet, data_packet. rewrite chunk_full.
  rewrite drop_drop. do 3 f_equal. f_equal. lia.
Qed.

Lemma settle_at j : settle (ran (Ret ([block_packet j], conn_at j))) = ([block_packet j], status_at j).
Proof. unfold settle, ran, status_at, conn_at. cbn [active]. reflexivity. Qed.

Lemma connect_at readRequest writeRequest request filename mode :
  parse (take 516 request) = Ret (Request RRQ filename mode) -> readRequest filename = Some contents ->
  connect readRequest writeRequest request = ([block_packet 0], status_at 0).
Proof.
  intros Hp Hr. unfold connect. rewrite Hp. cbn [mbind res_bind]. cbn [Z.eqb RRQ Pos.eqb]. unfold handleRRQ. rewrite Hr.
  rewrite (send_next_at 0) by (reflexivity || lia). apply settle_at.
Qed.

Lemma ack_whole k : take (blocksize + 4) (ack_packet k) = ack_packet k.
Proof. reflexivity. Qed.

Lemma step_ack j retry k : (j < last_block)%nat -> 0 <= k < 0x8000 ->
  step (Datagram (ack_packet k)) (Waiting retry (conn_at j)) =
    if k =? Z.of_nat j + 1 then ([block_packet (S j)], status_at (S j)) else ([], Waiting retries (conn_at j)).
Proof.
  intros Hj Hk. cbn [step]. unfold dispatch. rewrite ack_whole, parse_ack by exact Hk. cbn [mbind res_bind].
  unfold recvAck, handleACK. assert (Ha : active (conn_at j) = true) by (apply Nat.ltb_lt, Hj).
  change (blockNumber (conn_at j)) with (Z.of_nat j + 1). destruct (k =? Z.of_nat j + 1).
  - rewrite Ha, (send_next_at (S j)) by (reflexivity || (cbn [blockNumber conn_at]; lia)). apply settle_at.
  - unfold settle, ran. rewrite Ha. reflexivity.
Qed.

Definition timed_out : list Z := [0; 5] ++ be16 4 ++ str "Transfer timed out" ++ [0].

Lemma step_timeout j retry : step Timeout (Waiting retry (conn_at j)) =
  match retry with
  | S (S retry') => ([block_packet j], Waiting (S retry') (conn_at j))
  | _ => ([block_packet j; timed_out], Aborted 4)
  end.
Proof. destruct retry as [|[|retry]]; reflexivity. Qed.

(** ** Any network *)

(** Datagrams once sent may arrive at any time, in any order, any number of times
    or never. *)
Record net : Type := mkNet { srv : status; cl : client; to_cl : list (list Z); to_srv : list (list Z) }.

Inductive net_step : net -> net -> Prop :=
  | deliver n p : p ∈ to_cl n ->
      net_step n (mkNet (srv n) (client_receive p (cl n)).2 (to_cl n) (to_srv n ++ (client_receive p (cl n)).1))
  | answer n p : p ∈ to_srv n ->
      net_step n (mkNet (step (Datagram p) (srv n)).2 (cl n) (to_cl n ++ (step (Datagram p) (srv n)).1) (to_srv n))
  | stray n p : net_step n (mkNet (step (Stray p) (srv n)).2 (cl n) (to_cl n ++ (step (Stray p) (srv n)).1) (to_srv n))
  | timeout n : net_step n (mkNet (step Timeout (srv n)).2 (cl n) (to_cl n ++ (step Timeout (srv n)).1) (to_srv n)).

Inductive srv_ok : status -> Prop :=
  | srv_waiting retry j : (j < last_block)%nat -> srv_ok (Waiting retry (conn_at j))
  | srv_ended : srv_ok (Ended (conn_at last_block))
  | srv_aborted num : srv_ok (Aborted num).

Definition from_srv (p : list Z) : Prop :=
  (exists j, (j <= last_block)%nat /\ p = block_packet j) \/
  (exists num text, 0 <= num < 0x8000 /\ p = [0; 5] ++ be16 num ++ text).

Definition from_cl (p : list Z) : Prop := exists k, 0 <= k < 0x8000 /\ p = ack_packet k.

(** The client has the first [m] blocks. *)
Definition client_at (m : nat) (c : client) : Prop :=
  got c = take (blocksize * m) contents /\ next c = Z.of_nat m + 1 /\
  if finished c then m = S last_block else (m <= last_block)%nat.

Record net_ok (n : net) : Prop := mkNetOk {
  ok_srv : srv_ok (srv n);
  ok_to_cl : Forall from_srv (to_cl n);
  ok_to_srv : Forall from_cl (to_srv n);
  ok_cl : exists m, client_at m (cl n)
}.

Lemma srv_ok_at j : (j <= last_block)%nat -> srv_ok (status_at j).
Proof.
  intros Hj. unfold status_at. destruct (Nat.ltb_spec j last_block); [constructor; assumption|].
  replace j with last_block by lia. constructor.
Qed.

Lemma from_srv_block j : (j <= last_block)%nat -> from_srv (block_packet j).
Proof. intros Hj. left. exists j. split; [exact Hj|reflexivity]. Qed.

(** Whatever arrives, the server sends blocks of the file or an error. *)
Lemma step_ok ev st : srv_ok st -> (forall p, ev = Datagram p -> from_cl p) ->
  srv_ok (step ev st).2 /\ Forall from_srv (step ev st).1.
Proof.
  intros Hst Hev. destruct Hst as [retry j Hj| |num]; [|cbn; split; constructor..].
  destruct ev as [|p|p].
  - rewrite step_timeout. assert (Hb : from_srv (block_packet j)) by (apply from_srv_block; lia).
    destruct retry as [|[|retry]]; cbn [fst snd]; (split; [constructor; assumption|]);
      repeat (apply Forall_cons_2; [first [exact Hb|right; exists 4; eexists; split; [lia|reflexivity]]|]); apply Forall_nil_2.
  - destruct (Hev p eq_refl) as (k & Hk & ->). rewrite step_ack by assumption. destruct (k =? Z.of_nat j + 1); cbn [fst snd].
    + split; [apply srv_ok_at; lia|]. apply Forall_cons_2; [apply from_srv_block; lia|apply Forall_nil_2].
    + split; [constructor; assumption|apply Forall_nil_2].
  - cbn. split; constructor; assumption.
Qed.

(** A block of the file takes the client forward or leaves it where it is. *)
Lemma client_block j m c : (j <= last_block)%nat -> client_at m c ->
  client_receive (block_packet j) c =
    if (j =? m)%nat && negb (finished c) then
      ([ack_packet (Z.of_nat j + 1)],
       mkClient (take (blocksize * S m) contents) (Z.of_nat m + 2) (m =? last_block)%nat)
    else if (S j =? m)%nat then ([ack_packet (Z.of_nat j + 1)], c) else ([], c).
Proof.
  intros Hj (Hg & Hn & Hf). pose proof last_block_small. unfold client_receive, block_packet. rewrite parse_data by lia.
  rewrite Hn. replace (Z.of_nat j + 1 =? Z.of_nat m + 1) with (j =? m)%nat by (destruct (Nat.eqb_spec j m), (Z.eqb_spec (Z.of_nat j + 1) (Z.of_nat m + 1)); lia).
  replace (Z.of_nat j + 1 =? Z.of_nat m + 1 - 1) with (S j =? m)%nat by (destruct (Nat.eqb_spec (S j) m), (Z.eqb_spec (Z.of_nat j + 1) (Z.of_nat m + 1 - 1)); lia).
  destruct (Nat.eqb_spec j m) as [->|]; cbn [andb]; [|reflexivity]. destruct (finished c); cbn [negb]; [reflexivity|].
  rewrite Hg, take_chunk, (chunk_short m) by exact Hf. do 2 f_equal. lia.
Qed.

Lemma client_ok p m c : from_srv p -> client_at m c ->
  (exists m', client_at m' (client_receive p c).2) /\ Forall from_cl (client_receive p c).1.
Proof.
  intros [(j & Hj & ->)|(num & text & Hn & ->)] Hc.
  - pose proof last_block_small. rewrite (client_block j m c Hj Hc).
    assert (Ha : from_cl (ack_packet (Z.of_nat j + 1))) by (exists (Z.of_nat j + 1); split; [lia|reflexivity]).
    destruct ((j =? m)%nat && negb (finished c)) eqn:E; cbn [fst snd].
    + rewrite andb_true_iff, Nat.eqb_eq in E. destruct E as [-> _]. split; [exists (S m)|repeat constructor; exact Ha].
      split; [reflexivity|]. split; [cbn [next]; lia|]. cbn [finished]. destruct (Nat.eqb_spec m last_block); lia.
    + destruct (S j =? m)%nat; cbn [fst snd]; (split; [exists m; exact Hc|]); repeat constructor. exact Ha.
  - unfold client_receive. destruct (parse_error num text Hn) as [t ->]. split; [exists m; exact Hc|apply Forall_nil_2].
Qed.

Lemma net_step_ok n n' : net_step n n' -> net_ok n -> net_ok n'.
Proof.
  intros Hs [Hsrv Hcl Hts [m Hc]]. destruct Hs as [n p Hp|n p Hp|n p|n].
  - rewrite Forall_forall in Hcl. destruct (client_ok p m (cl n) (Hcl p Hp) Hc) as [Hm Hf].
    rewrite <- Forall_forall in Hcl. constructor; cbn; [exact Hsrv|exact Hcl|apply Forall_app_2; assumption|exact Hm].
  - rewrite Forall_forall in Hts. destruct (step_ok (Datagram p) (srv n) Hsrv) as [H1 H2]; [intros q [= <-]; apply Hts, Hp|].
    rewrite <- Forall_forall in Hts. constructor; cbn [srv cl to_cl to_srv]; [exact H1|apply Forall_app_2; assumption|exact Hts|exists m; exact Hc].
  - destruct (step_ok (Stray p) (srv n) Hsrv) as [H1 H2]; [discriminate|].
    constructor; cbn [srv cl to_cl to_srv]; [exact H1|apply Forall_app_2; assumption|exact Hts|exists m; exact Hc].
  - destruct (step_ok Timeout (srv n) Hsrv) as [H1 H2]; [discriminate|].
    constructor; cbn [srv cl to_cl to_srv]; [exact H1|apply Forall_app_2; assumption|exact Hts|exists m; exact Hc].
Qed.

(** The network when the server has taken a request. *)
Definition net_init (r : list (list Z) * status) : net := mkNet r.2 client_init r.1 [].

Lemma net_init_ok : net_ok (net_init ([block_packet 0], status_at 0)).
Proof.
  constructor; cbn [net_init srv cl to_cl to_srv fst snd].
  - apply srv_ok_at. lia.
  - apply Forall_cons_2; [apply from_srv_block; lia|apply Forall_nil_2].
  - apply Forall_nil_2.
  - exists 0%nat. split; [reflexivity|]. split; [reflexivity|]. cbn. lia.
Qed.

Lemma reachable_ok n : rtc net_step (net_init ([block_packet 0], status_at 0)) n -> net_ok n.
Proof.
  intros H. pose proof net_init_ok as H0. remember (net_init ([block_packet 0], status_at 0)) as n0 eqn:E. clear E. revert H0.
  induction H as [|n1 n2 n3 Hs _ IH]; [auto|]. intros H0. apply IH, (net_step_ok n1 n2 Hs H0).
Qed.

(** ** One attempt after the other *)

(** Whether the server's datagram gets through, and whether the answer to it does. *)
Definition fate : Type := bool * bool.

(** What is on its way to the client, the server and the client. *)
Definition exchange : Type := list (list Z) * status * client.

(** An attempt: an answer that arrives is handled, and without one the server's
    wait runs out. *)
Definition attempt (x : exchange) (f : fate) : exchange :=
  let '(out, st, c) := x in
  let '(acks, c) :=
    match out with
    | p :: _ => if f.1 then client_receive p c else ([], c)
    | [] => ([], c)
    end in
  match acks with
  | a :: _ => (step (if f.2 then Datagram a else Timeout) st, c)
  | [] => (step Timeout st, c)
  end.

Definition play (x : exchange) (fates : list fate) : exchange := foldl attempt x fates.

(** An attempt that fails. *)
Definition failed (f : fate) : Prop := f <> (true, true).

(** The client has the blocks before block [j + 1], and maybe that one. *)
Definition holding (j : nat) (c : client) : Prop := finished c = false /\ (client_at j c \/ client_at (S j) c).

Lemma client_takes j c : (j <= last_block)%nat -> holding j c ->
  exists c', client_receive (block_packet j) c = ([ack_packet (Z.of_nat j + 1)], c') /\
    client_at (S j) c' /\ finished c' = (j =? last_block)%nat.
Proof.
  intros Hj [Hf [Hc|Hc]]; rewrite (client_block _ _ _ Hj Hc), Hf.
  - rewrite Nat.eqb_refl. cbn [andb negb]. eexists. split; [reflexivity|]. split; [|reflexivity].
    split; [reflexivity|]. split; [cbn [next]; lia|]. cbn [finished]. destruct (Nat.eqb_spec j last_block); lia.
  - rewrite (proj2 (Nat.eqb_neq j (S j))), Nat.eqb_refl by lia. cbn [andb]. eexists. split; [reflexivity|]. split; [exact Hc|].
    destruct Hc as (_ & _ & Hl). rewrite Hf in *. symmetry. apply Nat.eqb_neq. lia.
Qed.

Lemma attempt_failed f retry j c : failed f -> (j < last_block)%nat -> holding j c ->
  exists c', attempt ([block_packet j], Waiting (S (S retry)) (conn_at j), c) f =
               ([block_packet j], Waiting (S retry) (conn_at j), c') /\ holding j c'.
Proof.
  intros Hf Hj Hc. destruct f as [there back]. unfold attempt. cbn [fst snd]. destruct there.
  - destruct back; [congruence|]. destruct (client_takes j c ltac:(lia) Hc) as (c' & -> & Hc' & Hf').
    exists c'. rewrite step_timeout. split; [reflexivity|]. split; [|right; exact Hc']. rewrite Hf'. apply Nat.eqb_neq. lia.
  - exists c. rewrite step_timeout. split; [reflexivity|exact Hc].
Qed.

(** Fewer failures in a row than tries are left leave the block being sent. *)
Lemma play_failed fs : forall retry j c, Forall failed fs -> (length fs < retry)%nat -> (j < last_block)%nat -> holding j c ->
  exists c' retry', play ([block_packet j], Waiting retry (conn_at j), c) fs =
                      ([block_packet j], Waiting retry' (conn_at j), c') /\ holding j c'.
Proof.
  induction fs as [|f fs IH]; intros retry j c Hfs Hr Hj Hc; [exists c, retry; split; [reflexivity|exact Hc]|].
  apply Forall_cons_1 in Hfs as [Hf Hfs]. cbn [length] in Hr. destruct retry as [|[|retry]]; [lia|lia|].
  unfold play. cbn [foldl]. destruct (attempt_failed f retry j c Hf Hj Hc) as (c1 & -> & Hc1).
  apply (IH (S retry)); auto. lia.
Qed.

(** The attempt that succeeds moves both on to the next block. *)
Lemma attempt_good retry j c : (j < last_block)%nat -> holding j c ->
  exists c', attempt ([block_packet j], Waiting retry (conn_at j), c) (true, true) =
               ([block_packet (S j)], status_at (S j), c') /\ finished c' = false /\ client_at (S j) c'.
Proof.
  intros Hj Hc. unfold attempt. cbn [fst snd]. destruct (client_takes j c ltac:(lia) Hc) as (c' & -> & Hc' & Hf').
  exists c'. pose proof last_block_small. rewrite step_ack, Z.eqb_refl by lia. split; [reflexivity|]. split; [|exact Hc'].
  rewrite Hf'. apply Nat.eqb_neq. lia.
Qed.

(** Block after block, each after a few failures. *)
Lemma play_blocks fss : forall j c, Forall (fun fs => Forall failed fs /\ (length fs < retries)%nat) fss ->
  (j + length fss = last_block)%nat -> finished c = false -> client_at j c ->
  exists c', play ([block_packet j], status_at j, c) (concat (map (fun fs => fs ++ [(true, true)]) fss)) =
               ([block_packet last_block], status_at last_block, c') /\ finished c' = false /\ client_at last_block c'.
Proof.
  induction fss as [|fs fss IH]; intros j c Hfss Hl Hf Hc; cbn [length] in Hl.
  - replace last_block with j by lia. exists c. repeat split; assumption || apply Hc.
  - apply Forall_cons_1 in Hfss as [[Hfs Hn] Hfss]. cbn [map concat]. unfold play. rewrite !foldl_app.
    unfold status_at at 1. rewrite (proj2 (Nat.ltb_lt j last_block)) by lia.
    destruct (play_failed fs retries j c Hfs Hn ltac:(lia)) as (c1 & retry & E1 & Hc1); [split; [exact Hf|left; exact Hc]|].
    unfold play in E1. rewrite E1. cbn [foldl]. destruct (attempt_good retry j c1 ltac:(lia) Hc1) as (c2 & -> & Hf2 & Hc2).
    apply IH; auto. lia.
Qed.

End File.

(** ** Claims *)

(** C13: No network can corrupt a transfer. For a file of less than 512 * 32767
    bytes (512 bytes short of 16 MiB; from there on the number of the last block
    does not fit its field) asked of the server, and whatever datagrams are lost,
    repeated, delayed or reordered and whatever arrives from elsewhere, the client
    holds the beginning of the file at every moment, and all of it when it takes
    itself to be finished; and no exception ends the connection. *)
Theorem tftp_safe readRequest writeRequest request filename mode contents n
    (Hsize : Z.of_nat (length contents) < 512 * 32767)
    (Hparse : parse (take 516 request) = Ret (Request RRQ filename mode))
    (Hfile : readRequest filename = Some contents)
    (Hreach : rtc net_step (net_init (connect readRequest writeRequest request)) n) :
  got (cl n) `prefix_of` contents /\ (finished (cl n) = true -> got (cl n) = contents) /\
  forall e, srv n <> Died e.
Proof.
  rewrite (connect_at contents Hsize _ _ _ _ _ Hparse Hfile) in Hreach.
  destruct (reachable_ok contents Hsize n Hreach) as [Hs _ _ [m (Hg & _ & Hf)]]. rewrite Hg. split; [|split].
  - exists (drop (blocksize * m) contents). symmetry. apply take_drop.
  - intros Hfin. rewrite Hfin in Hf. subst m. apply take_last.
  - intros e E. rewrite E in Hs. inversion Hs.
Qed.

(** C17: A transfer that is given a chance completes. The file has less than 512 *
    32767 bytes (512 bytes short of 16 MiB). If of every five attempts at a block
    one gets through in both directions, and the last block, for which the server
    waits for no answer, gets through at once, then the client ends with the whole
    file and the connection is closed. *)
Theorem tftp_completes readRequest writeRequest request filename mode contents fss back
    (Hsize : Z.of_nat (length contents) < 512 * 32767)
    (Hparse : parse (take 516 request) = Ret (Request RRQ filename mode))
    (Hfile : readRequest filename = Some contents)
    (Hblocks : length fss = last_block contents)
    (Hfss : Forall (fun fs => Forall failed fs /\ (length fs < retries)%nat) fss) :
  exists out c k, play (connect readRequest writeRequest request, client_init)
      (concat (map (fun fs => fs ++ [(true, true)]) fss) ++ [(true, back)]) = (out, Ended k, c) /\
    finished c = true /\ got c = contents.
Proof.
  rewrite (connect_at contents Hsize _ _ _ _ _ Hparse Hfile). unfold play. rewrite foldl_app.
  destruct (play_blocks contents Hsize fss 0 client_init Hfss ltac:(lia)) as (c & E & Hf & Hc); [reflexivity| |].
  { split; [reflexivity|]. split; [reflexivity|]. cbn. lia. }
  unfold play in E. rewrite E. cbn [foldl]. unfold attempt. cbn [fst].
  destruct (client_takes contents Hsize (last_block contents) c ltac:(lia) (conj Hf (or_introl Hc))) as (c' & -> & Hc' & Hf').
  unfold status_at. rewrite Nat.ltb_irrefl. rewrite Nat.eqb_refl in Hf'.
  exists [], c', (conn_at contents (last_block contents)). split; [destruct (snd _); reflexivity|]. split; [exact Hf'|].
  destruct Hc' as [-> _]. apply take_last.
Qed.

(** ** Witnesses *)

Definition read_bzImage : list Z := [0; 1] ++ str "bzImage" ++ [0] ++ str "octet" ++ [0].

Definition serves (contents : list Z) (filename : list Z) : option (list Z) :=
  if bool_decide (filename = str "bzImage") then Some contents else None.

Lemma tftp_safe_witness :
  let n := net_init (connect (serves [1; 2; 3]) false read_bzImage) in
  let n' := mkNet (srv n) (client_receive (block_packet [1; 2; 3] 0) (cl n)).2 (to_cl n)
              (to_srv n ++ (client_receive (block_packet [1; 2; 3] 0) (cl n)).1) in
  got (cl n') `prefix_of` [1; 2; 3] /\ (finished (cl n') = true -> got (cl n') = [1; 2; 3]) /\ forall e, srv n' <> Died e.
Proof.
  cbv zeta. apply (tftp_safe (serves [1; 2; 3]) false read_bzImage (str "bzImage") (str "octet") [1; 2; 3]).
  - cbn. lia.
  - vm_compute. reflexivity.
  - vm_compute. reflexivity.
  - apply rtc_once, deliver. vm_compute. left.
Defined.

Lemma tftp_completes_witness :
  exists out c k, play (connect (serves (repeat 7 600)) false read_bzImage, client_init)
      [(false, false); (true, false); (true, true); (true, false)] = (out, Ended k, c) /\
    finished c = true /\ got c = repeat 7 600.
Proof.
  apply (tftp_completes (serves (repeat 7 600)) false read_bzImage (str "bzImage") (str "octet") (repeat 7 600)
           [[(false, false); (true, false)]] false).
  - rewrite repeat_length. lia.
  - vm_compute. reflexivity.
  - vm_compute. reflexivity.
  - vm_compute. reflexivity.
  - apply Forall_cons_2; [|apply Forall_nil_2]. split; [|apply Nat.ltb_lt; reflexivity]. repeat (apply Forall_cons_2; [discriminate|]). apply Forall_nil_2.
Defined.

(** ** What goes wrong *)

(** The last block is sent once: if it is lost, no later attempt brings it. *)
Lemma last_block_lost contents c back rest : finished c = false ->
  exists out st, play ([block_packet contents (last_block contents)], status_at contents (last_block contents), c)
                   ((false, back) :: rest) = (out, st, c).
Proof.
  intros Hf. unfold play, status_at. rewrite Nat.ltb_irrefl. cbn [foldl]. unfold attempt at 2. cbn [fst step].
  induction rest as [|f rest IH]; [do 2 eexists; reflexivity|exact IH].
Qed.

(** A block number does not go past 32767: the 32768th block ends the thread. *)
Lemma block_overflow c : blockNumber c = 32767 -> send_next c = Raise StructError.
Proof. intros Hb. unfold send_next, sendData. cbn [blockNumber]. rewrite Hb. reflexivity. Qed.

(** Data sent to a connection that reads is acknowledged and ends the thread. *)
Lemma data_on_read_dies data c : written c = None -> 0 <= blockNumber c < 0x8000 ->
  settle (recvData (blockNumber c) data c) = ([[0; 4] ++ be16 (blockNumber c)], Died IOError).
Proof.
  intros Hw Hb. unfold recvData, handleDATA, sendAck. cbn [blockNumber active lastpkt file written].
  rewrite Z.eqb_refl, (pack_h_small ACK) by (unfold ACK; lia). rewrite pack_h_small by exact Hb.
  cbn [mbind res_bind]. unfold file_write. cbn [written]. rewrite Hw. reflexivity.
Qed.

(** A file that is not there, and any request to write, end the thread without an
    answer. *)
Lemma missing_file_silent readRequest writeRequest request filename mode :
  parse (take 516 request) = Ret (Request RRQ filename mode) -> readRequest filename = None ->
  connect readRequest writeRequest request = ([], Died IOError).
Proof. intros Hp Hr. unfold connect. rewrite Hp. cbn [mbind res_bind]. unfold handleRRQ. cbn. rewrite Hr. reflexivity. Qed.

Lemma write_request_silent readRequest request filename mode :
  parse (take 516 request) = Ret (Request WRQ filename mode) ->
  connect readRequest false request = ([], Died AttributeError).
Proof. intros Hp. unfold connect. rewrite Hp. reflexivity. Qed.

(** ** BOOTP *)

(** The lengths of the fields place them. *)
Ltac places Hf Hp Hs := cbn [concat take]; rewrite ?length_app, ?Hp, ?Hs; repeat (rewrite Hf by lia); reflexivity.

(** The answer is the request with its type, the two addresses and the file name
    filled in. *)
Lemma bootp_reply_fields siaddr data : length data = 300%nat -> length siaddr = 4%nat ->
  exists reply, bootp_reply siaddr data = Some reply /\ length reply = 300%nat /\
    field_of reply 0 1 = [2] /\ field_of reply 4 4 = field_of data 4 4 /\ field_of reply 16 4 = [192; 168; 0; 159] /\
    field_of reply 20 4 = siaddr /\ field_of reply 28 16 = field_of data 28 16 /\
    field_of reply 108 128 = pad_to 128 0 (str "bzImage") /\ field_of reply 236 64 = field_of data 236 64.
Proof.
  intros Hd Hs. unfold bootp_reply. rewrite Hd. cbn [Nat.eqb negb].
  assert (Hf : forall o l, (o + l <= 300)%nat -> length (field_of data o l) = l)
    by (intros; unfold field_of; rewrite length_take, length_drop; lia).
  assert (Hp : length (pad_to 128 0 KERNEL_IMAGE_BIN) = 128%nat) by reflexivity.
  eexists. split; [reflexivity|].
  split; [places Hf Hp Hs|]. split; [reflexivity|].
  split; [apply (field_concat _ 2); [reflexivity|places Hf Hp Hs..]|].
  split; [apply (field_concat _ 6); [reflexivity|places Hf Hp Hs..]|].
  split; [apply (field_concat _ 7); [reflexivity|places Hf Hp Hs..]|].
  split; [apply (field_concat _ 9); [reflexivity|places Hf Hp Hs..]|].
  split; [apply (field_concat _ 11); [reflexivity|places Hf Hp Hs..]|].
  apply (field_concat _ 12); [reflexivity|places Hf Hp Hs..].
Qed.

End TftpSpec.
