(* ===== verification/HostJtag.v ===== *)
(** The JTAG tools of the host (tools/jtag): the parallel-port cable and the RDC
    debug port (rdc.py), and the scripts dump.py, erase.py, go.py, program.py and
    reset.py.

    The cable works on the ports interface; the debug port works on the interface
    of the class [Xilinx] ([TapOps]), of which the cable is an instance.  What is
    printed is not modelled.  The assembler nasm is a parameter. *)
From Stdlib Require Import ZArith Lia.
From stdpp Require Import base list numbers option strings.
From S2P Require Import Prelude PortIO Python ConfigTools RawEth Jtag.

Module HostJtag.
Import Jtag.

(** The methods of [Xilinx]. *)
Class TapOps (D : Type) : Type := {
  x_any_to_reset : D -> D;
  x_idle_to_shift_ir : D -> D;
  x_idle_to_reset : D -> D;
  x_idle_to_shift_dr : D -> D;
  x_reset_to_idle : D -> D;
  x_update_to_shift_dr : D -> D;
  x_update_to_idle : D -> D;
  x_shift_to_idle : D -> D;
  x_shift_in : Z -> nat -> D -> D;
  x_shift_out : nat -> D -> Z * D;
  x_write_ir : Z -> D -> D;
  x_read_dr : nat -> D -> Z * D;
  x_write_dr : Z -> nat -> D -> D
}.

(** ** The cable *)

Module Xilinx.

Definition BIT_TDI : Z := 1.
Definition BIT_TCK : Z := 2.
Definition BIT_TMS : Z := 4.
Definition BIT_ENABLE : Z := 0x10.
Definition BIT_CABLE : Z := 0x40.

Section Cable.
Context {D : Type} `{Ports D}.

Definition io_outb (b : Z) (d : D) : D := outb (Z.lor (Z.lor (Z.land b 0x7) BIT_CABLE) BIT_ENABLE) 0x378 d.

Definition io_inb (d : D) : Z * D := let '(v, d) := inb 0x379 d in (if anyset v 16 then 1 else 0, d).

Definition levels (val : Z) (tms tdi : bool) : Z :=
  let val := if tms then Z.lor val BIT_TMS else val in
  if tdi then Z.lor val BIT_TDI else val.

Definition set_state (tms tdi : bool) (d : D) : D :=
  let val := levels 0 tms tdi in
  let d := io_outb val d in
  io_outb (Z.lor val BIT_TCK) d.

Definition falling_clock (tms tdi : bool) (d : D) : Z * D :=
  let val := levels BIT_TCK tms tdi in
  let d := io_outb val d in
  let d := io_outb (clear val BIT_TCK) d in
  io_inb d.

Definition any_to_reset (d : D) : D :=
  set_state true false (set_state true false (set_state true false (set_state true false (set_state true false d)))).

Definition idle_to_shift_ir (d : D) : D :=
  set_state false false (set_state false false (set_state true false (set_state true false d))).

Definition idle_to_reset (d : D) : D := set_state true false (set_state true false (set_state true false d)).

Definition idle_to_shift_dr (d : D) : D := set_state false false (set_state false false (set_state true false d)).

Definition reset_to_idle (d : D) : D := set_state false false (set_state true false (set_state true false d)).

Definition shift_to_update (d : D) : D := set_state true false (set_state true false d).

Definition update_to_shift_dr (d : D) : D := set_state false false (set_state false false (set_state true false d)).

Definition update_to_idle (d : D) : D := set_state false false d.

Definition shift_to_idle (d : D) : D := set_state false false (shift_to_update d).

(** [index] is [1 << i]. *)
Fixpoint shift_in_loop (n : nat) (i val : Z) (d : D) : D :=
  match n with
  | O => d
  | S n' => shift_in_loop n' (i + 1) val (set_state false (anyset val (Z.shiftl 1 i)) d)
  end.

Definition shift_in (val : Z) (bits : nat) (d : D) : D := shift_in_loop bits 0 val d.

Fixpoint shift_out_loop (n : nat) (i out : Z) (d : D) : Z * D :=
  match n with
  | O => (out, d)
  | S n' =>
      let '(b, d) := falling_clock false false d in
      shift_out_loop n' (i + 1) (if negb (b =? 0) then Z.lor out (Z.shiftl 1 i) else out) d
  end.

Definition shift_out (bits : nat) (d : D) : Z * D := shift_out_loop bits 0 0 d.

Definition write_ir (command : Z) (d : D) : D := shift_to_idle (shift_in command 8 (idle_to_shift_ir d)).

Definition read_dr (bits : nat) (d : D) : Z * D :=
  let '(tmp, d) := shift_out bits d in (tmp, shift_to_update d).

Definition write_dr (val : Z) (bits : nat) (d : D) : D := shift_to_update (shift_in val bits d).

End Cable.

Definition xilinx {D : Type} `{Ports D} : TapOps D := {|
  x_any_to_reset := any_to_reset;
  x_idle_to_shift_ir := idle_to_shift_ir;
  x_idle_to_reset := idle_to_reset;
  x_idle_to_shift_dr := idle_to_shift_dr;
  x_reset_to_idle := reset_to_idle;
  x_update_to_shift_dr := update_to_shift_dr;
  x_update_to_idle := update_to_idle;
  x_shift_to_idle := shift_to_idle;
  x_shift_in := shift_in;
  x_shift_out := shift_out;
  x_write_ir := write_ir;
  x_read_dr := read_dr;
  x_write_dr := write_dr
|}.

End Xilinx.

(** ** The debug port *)

Module RDC.
Section Port.
Context {D : Type} {TO : TapOps D}.

(** One round of the wait for a status; the count ends it after a million. *)
Definition init_step (p : Z * D) : (Z * D) + (Z * D) :=
  let '(count, d) := p in
  let d := x_reset_to_idle d in
  let d := x_idle_to_shift_ir d in
  let d := x_shift_in 0x01 8 d in
  let d := x_shift_to_idle d in
  let d := x_idle_to_shift_ir d in
  let d := x_shift_in 0x0f 8 d in
  let d := x_shift_to_idle d in
  let d := x_idle_to_shift_dr d in
  let '(ready, d) := x_shift_out 16 d in
  let d := x_shift_to_idle d in
  if negb (ready =? 0) then inr (ready, d)
  else
    let d := x_idle_to_reset d in
    let count := count + 1 in
    if 1000000 <? count then inr (ready, d) else inl (count, d).

Definition init_ready (d : D) : Z * D :=
  match ploop 1000002 init_step (0, x_any_to_reset d) with
  | inl (_, d) => (0, d)
  | inr r => r
  end.

Fixpoint read_loop (toread : nat) (data_bits : nat) (d : D) : list Z * D :=
  match toread with
  | O => ([], d)
  | S n' =>
      let '(v, d) := x_read_dr data_bits d in
      let d := match n' with O => x_update_to_idle d | _ => x_update_to_shift_dr d end in
      let '(out, d) := read_loop n' data_bits d in (v :: out, d)
  end.

Definition ReadData (command : Z) (data_bits toread : nat) (d : D) : list Z * D :=
  let d := x_write_ir command d in
  match toread with
  | O => ([], d)
  | _ => read_loop toread data_bits (x_idle_to_shift_dr d)
  end.

Fixpoint write_loop (data : list Z) (data_bits : nat) (d : D) : D :=
  match data with
  | [] => d
  | v :: data' =>
      let d := x_write_dr v data_bits d in
      let d := match data' with [] => x_update_to_idle d | _ => x_update_to_shift_dr d end in
      write_loop data' data_bits d
  end.

Definition WriteData (command : Z) (data_bits : nat) (data : list Z) (d : D) : D :=
  let d := x_write_ir command d in
  match data with
  | [] => d
  | _ => write_loop data data_bits (x_idle_to_shift_dr d)
  end.

Definition Status (d : D) : Z * D :=
  let '(out, d) := ReadData 0x0f 16 1 d in (nth 0 out 0, d).

Definition ResetFlags (d : D) : D := WriteData 0x0d 32 [0x2; 0xff00; 0x9090f000] d.

(** [false]: the exception. *)
Definition RunCode (code : list Z) (d : D) : bool * D :=
  let d := WriteData 0x06 32 code d in
  let d := WriteData 0x02 32 [] d in
  let '(_, d) := Status d in
  let '(s2, d) := Status d in
  (s2 =? 0x8381, d).

Definition eax (d : D) : Z * D := let '(out, d) := ReadData 0x0e 32 1 d in (nth 0 out 0, d).

Definition Go (d : D) : D := (Status (Status (x_write_ir 0x04 d)).2).2.

Definition Reset (d : D) : D := (Status (Status (x_write_ir 0x05 d)).2).2.

Definition MemAccess (addr code : Z) (d : D) : D :=
  let d := x_write_ir 0x11 d in
  let d := x_idle_to_shift_dr d in
  let d := x_write_dr addr 32 d in
  let d := x_update_to_shift_dr d in
  x_write_dr code 8 d.

Fixpoint dump_loop (count : nat) (d : D) : list Z * D :=
  match count with
  | O => ([], d)
  | S n' =>
      let d := x_update_to_shift_dr d in
      let '(v, d) := x_read_dr 8 d in
      let '(data, d) := dump_loop n' d in (v :: data, d)
  end.

Definition DumpMem (addr count : Z) (d : D) : list Z * D :=
  let d := MemAccess addr 0x18 d in
  let '(data, d) := dump_loop (Z.to_nat count) d in
  (data, x_update_to_idle d).

Definition ReadMem16 (addr : Z) (d : D) : Z * D :=
  let d := MemAccess addr 0x19 d in
  let d := x_update_to_shift_dr d in
  let '(data, d) := x_read_dr 16 d in
  (data, x_update_to_idle d).

Definition WriteMem16 (addr val : Z) (d : D) : D :=
  let d := MemAccess addr 0x1d d in
  let d := x_update_to_shift_dr d in
  let d := x_write_dr val 16 d in
  x_update_to_idle d.

(** The waits have no bound: [fuel] is how often they may look. *)
Fixpoint wait_for (fuel : nat) (v addr : Z) (d : D) : option (unit * D) :=
  match fuel with
  | O => None
  | S fuel' => let '(r, d) := ReadMem16 addr d in if v =? r then Some (tt, d) else wait_for fuel' v addr d
  end.

Definition EonSectorErase (fuel : nat) (addr : Z) (d : D) : option (unit * D) :=
  let d := WriteMem16 0xffffaaaa 0xaaaa d in
  let d := WriteMem16 0xffff5554 0x5555 d in
  let d := WriteMem16 0xffffaaaa 0x8080 d in
  let d := WriteMem16 0xffffaaaa 0xaaaa d in
  let d := WriteMem16 0xffff5554 0x5555 d in
  let d := WriteMem16 addr 0x3030 d in
  wait_for fuel 0xffff addr d.

Definition EonProgram (fuel : nat) (addr byte : Z) (d : D) : option (unit * D) :=
  let d := WriteMem16 0xffffaaaa 0xaaaa d in
  let d := WriteMem16 0xffff5554 0x5555 d in
  let d := WriteMem16 0xffffaaaa 0xa0a0 d in
  let d := WriteMem16 addr byte d in
  wait_for fuel byte addr d.

(** *** Scripts *)

(** The assembler, on the text of a line ([None] when it fails), and the Python
    interpreter ([false] when what it runs raises). *)
Context (nasm : list Z -> option (list Z)) (exec : list Z -> D -> bool * D).

Fixpoint unpack_words (bs : list Z) : list Z :=
  match bs with
  | b0 :: b1 :: b2 :: b3 :: bs' => Python.un_le [b0; b1; b2; b3] :: unpack_words bs'
  | _ => []
  end.

(** [None]: an assembler that failed, whose missing output has no length. *)
Definition Nasm (line : list Z) : option (list Z) :=
  match nasm line with
  | None => None
  | Some machine => Some (unpack_words (machine ++ repeat 0x90 (Z.to_nat ((- Z.of_nat (length machine)) mod 4))))
  end.

Definition exec_line (i : list Z) (d : D) : bool * D :=
  let code := nth 0 (RawEth.split_at 0x23 i) [] in
  match ConfigTools.strip code with
  | [] => (true, d)
  | _ =>
      match Nasm code with
      | None => (false, d)
      | Some [] => exec (ConfigTools.strip i) d
      | Some params => RunCode params (ResetFlags d)
      end
  end.

Fixpoint exec_lines (lines : list (list Z)) (d : D) : bool * D :=
  match lines with
  | [] => (true, d)
  | i :: lines' => let '(ok, d) := exec_line i d in if ok then exec_lines lines' d else (false, d)
  end.

Definition Exec (script : list Z) (d : D) : bool * D := exec_lines (RawEth.split_at 10 script) d.

Definition init_script : list Z := str "
       mov dx, 0xcf8         # PCI cfg adr
       mov eax, 0x80003840   # bus control
       out dx, eax
       mov dx, 0xcfc         # PCI cfg data
       mov eax, 0x87ff0600   # bit 16 == FRR 1 (E0000->FFFFF)
       out dx, eax
       ".

(** [RDC.__init__]: whatever status was read, the script is run. *)
Definition RDC_init (d : D) : bool * D := Exec init_script (init_ready d).2.

Fixpoint sector_loop (n : nat) (address : Z) (d : D) : list Z * D :=
  match n with
  | O => ([], d)
  | S n' =>
      let '(data, d) := DumpMem address 0x80 (ResetFlags d) in
      let '(rest, d) := sector_loop n' (address + 0x80) d in (data ++ rest, d)
  end.

Definition DumpSector (address : Z) (d : D) : list Z * D := sector_loop (Z.to_nat (0x10000 / 0x80)) address d.

(** ** The scripts *)

(** program.py: half-word after half-word; an odd byte at the end raises
    ([Some (false, _)]). *)
Fixpoint program_loop (fuel : nat) (count : Z) (fp : list Z) (d : D) : option (bool * D) :=
  match fp with
  | [] => Some (true, d)
  | [_] => Some (false, d)
  | lo :: hi :: fp' =>
      let dat := lo + 0x100 * hi in
      let addr := 0xffff0000 + count in
      if negb (dat =? 0xffff) then
        match EonProgram fuel addr dat d with
        | Some (_, d) => program_loop fuel (count + 2) fp' d
        | None => None
        end
      else program_loop fuel (count + 2) fp' d
  end.

(** [contents]: of the file named on the command line, if there is one. *)
Definition program_py (fuel : nat) (contents : option (list Z)) (d : D) : option (bool * D) :=
  let '(ok, d) := RDC_init d in
  if ok then
    match contents with
    | None => Some (false, d)
    | Some fp =>
        match EonSectorErase fuel 0xffff0000 d with
        | None => None
        | Some (_, d) =>
            match program_loop fuel 0 fp d with
            | Some (true, d) => Some (true, (DumpMem 0xffff0000 0x80 d).2)
            | r => r
            end
        end
    end
  else Some (false, d).

(** dump.py: what goes into firmware.bin, unless the start raised. *)
Definition dump_py (d : D) : option (list Z) * D :=
  let '(ok, d) := RDC_init d in
  if ok then let '(data, d) := DumpSector 0xffff0000 d in (Some data, d) else (None, d).

Definition erase_py (fuel : nat) (d : D) : option (bool * D) :=
  let '(ok, d) := RDC_init d in
  if ok then match EonSectorErase fuel 0xffff0000 d with Some (_, d) => Some (true, d) | None => None end
  else Some (false, d).

Definition go_py (d : D) : bool * D := let '(ok, d) := RDC_init d in if ok then (true, Go d) else (false, d).

Definition reset_py (d : D) : bool * D := let '(ok, d) := RDC_init d in if ok then (true, Reset d) else (false, d).

End Port.

(** The debug port as the interface of jtag.h. *)
Definition rdc_ops {D : Type} (TO : TapOps D) : JtagOps D := {|
  jtag_init := fun d => Some (init_ready d);
  jtag_MemAccess := MemAccess;
  jtag_ReadMem16 := ReadMem16;
  jtag_WriteMem16 := WriteMem16;
  jtag_write_ir := x_write_ir;
  jtag_idle_to_shift_dr := x_idle_to_shift_dr;
  jtag_read_dr8 := x_read_dr 8;
  jtag_read_dr16 := x_read_dr 16;
  jtag_read_dr32 := x_read_dr 32;
  jtag_update_to_idle := x_update_to_idle;
  jtag_update_to_shift_dr := x_update_to_shift_dr;
  jtag_write_dr32 := fun v => x_write_dr v 32
|}.

End RDC.

End HostJtag.
