(* ===== verification/HostJtagSpec.v ===== *)
(** The host's JTAG tools against the programmer of the board: on the same four
    wires the Python routines are the assembler routines, and a file programmed
    by program.py through a debug port as rdc.py documents it is the one dump.py
    reads back. *)
From Stdlib Require Import ZArith Lia.
From stdpp Require Import base list numbers option strings.
From S2P Require Import Prelude PortIO ConfigTools RawEth Jtag BiffJtag BiffJtagSpec HostJtag.

Module HostJtagSpec.
Import Jtag HostJtag.

(** ** The same wires on two ports *)

(** A target whose pins TCK, TMS and TDI are set and whose TDO is read, either
    through the GPIO port of the board or through the cable on the parallel
    port.  The other bits read are arbitrary. *)
Class Wiring (D : Type) (gpio cable : Ports D) : Type := {
  pins : bool -> bool -> bool -> D -> D;
  tdo : D -> bool;
  gpio_out : forall v d, @outb D gpio v PORT d = pins (Z.testbit v 4) (Z.testbit v 3) (Z.testbit v 5) d;
  gpio_in : forall d, Z.testbit (@inb D gpio PORT d).1 1 = tdo d /\ (@inb D gpio PORT d).2 = d;
  cable_out : forall v d, @outb D cable v 0x378 d = pins (Z.testbit v 1) (Z.testbit v 2) (Z.testbit v 0) d;
  cable_in : forall d, Z.testbit (@inb D cable 0x379 d).1 4 = tdo d /\ (@inb D cable 0x379 d).2 = d
}.

Section Wires.
Context {D : Type} {gpio cable : Ports D} {W : Wiring D gpio cable}.

Lemma anyset_bit v k : 0 <= k -> anyset v (2 ^ k) = Z.testbit v k.
Proof.
  intros Hk. unfold anyset. rewrite land_bit by exact Hk. pose proof (Z.pow_pos_nonneg 2 k ltac:(lia) Hk).
  destruct (Z.testbit v k); cbn [Z.b2z]; [rewrite Z.mul_1_r|rewrite Z.mul_0_r; reflexivity].
  destruct (Z.eqb_spec (2 ^ k) 0); [lia|reflexivity].
Qed.

(** One clock: the levels, then the rising edge. *)
Definition clock (tms tdi : bool) (d : D) : D := pins true tms tdi (pins false tms tdi d).

Lemma cable_clock tms tdi d : @Xilinx.set_state D cable tms tdi d = clock tms tdi d.
Proof. unfold Xilinx.set_state, Xilinx.io_outb. rewrite !cable_out. destruct tms, tdi; reflexivity. Qed.

Lemma gpio_1_0 d : @set_state_1_0 D gpio d = clock true false d.
Proof. unfold set_state_1_0, set_state. rewrite !gpio_out. reflexivity. Qed.

Lemma gpio_0_0 d : @set_state_0_0 D gpio d = clock false false d.
Proof. unfold set_state_0_0, set_state. rewrite !gpio_out. reflexivity. Qed.

Ltac clocks := repeat first [rewrite cable_clock | rewrite gpio_1_0 | rewrite gpio_0_0]; reflexivity.

Lemma same_any_to_reset d : @Xilinx.any_to_reset D cable d = @any_to_reset D gpio d.
Proof. unfold Xilinx.any_to_reset, any_to_reset. clocks. Qed.

Lemma same_idle_to_shift_ir d : @Xilinx.idle_to_shift_ir D cable d = @idle_to_shift_ir D gpio d.
Proof. unfold Xilinx.idle_to_shift_ir, idle_to_shift_ir. clocks. Qed.

Lemma same_idle_to_reset d : @Xilinx.idle_to_reset D cable d = @idle_to_reset D gpio d.
Proof. unfold Xilinx.idle_to_reset, idle_to_reset. clocks. Qed.

Lemma same_idle_to_shift_dr d : @Xilinx.idle_to_shift_dr D cable d = @idle_to_shift_dr D gpio d.
Proof. unfold Xilinx.idle_to_shift_dr, idle_to_shift_dr. clocks. Qed.

Lemma same_reset_to_idle d : @Xilinx.reset_to_idle D cable d = @reset_to_idle D gpio d.
Proof. unfold Xilinx.reset_to_idle, reset_to_idle. clocks. Qed.

Lemma same_shift_to_update d : @Xilinx.shift_to_update D cable d = @shift_to_update D gpio d.
Proof. unfold Xilinx.shift_to_update, shift_to_update. clocks. Qed.

Lemma same_update_to_shift_dr d : @Xilinx.update_to_shift_dr D cable d = @update_to_shift_dr D gpio d.
Proof. unfold Xilinx.update_to_shift_dr, update_to_shift_dr. clocks. Qed.

Lemma same_update_to_idle d : @Xilinx.update_to_idle D cable d = @update_to_idle D gpio d.
Proof. unfold Xilinx.update_to_idle, update_to_idle. clocks. Qed.

Lemma same_shift_to_idle d : @Xilinx.shift_to_idle D cable d = @shift_to_idle D gpio d.
Proof. unfold Xilinx.shift_to_idle, shift_to_idle, Xilinx.shift_to_update, shift_to_update. clocks. Qed.

(** Bits in: the assembler halves the value, Python doubles the mask. *)
Lemma same_shift_in_loop n : forall i v d, 0 <= i ->
  @Xilinx.shift_in_loop D cable n i v d = @shift_in D gpio n (Z.shiftr v i) d.
Proof.
  induction n as [|n IH]; intros i v d Hi; cbn [Xilinx.shift_in_loop shift_in]; [reflexivity|].
  rewrite IH, Z.shiftr_shiftr by lia. f_equal. rewrite cable_clock, Z.shiftl_1_l, anyset_bit, !gpio_out by lia.
  assert (E : Z.land (Z.shiftr v i) 1 = Z.b2z (Z.testbit v i)).
  { change 1 with (Z.ones 1). rewrite Z.land_ones, Z.shiftr_div_pow2 by lia. change (2 ^ 1) with 2.
    symmetry. apply Z.testbit_spec'. exact Hi. }
  rewrite E. destruct (Z.testbit v i); reflexivity.
Qed.

Lemma same_shift_in v n d : @Xilinx.shift_in D cable v n d = @shift_in D gpio n v d.
Proof. unfold Xilinx.shift_in. rewrite same_shift_in_loop by lia. reflexivity. Qed.

(** ** Bits out *)

Definition pulse (d : D) : D := pins false false false (pins true false false d).

Fixpoint pulses (n : nat) (d : D) : D := match n with O => d | S n' => pulses n' (pulse d) end.

(** The bits seen, the first the least significant. *)
Fixpoint seen (n : nat) (d : D) : Z :=
  match n with O => 0 | S n' => Z.lor (Z.b2z (tdo (pulse d))) (Z.shiftl (seen n' (pulse d)) 1) end.

Lemma seen_nonneg n : forall d, 0 <= seen n d.
Proof.
  induction n as [|n IH]; intros d; cbn [seen]; [lia|]. apply Z.lor_nonneg.
  split; [destruct (tdo _); cbn; lia|apply Z.shiftl_nonneg, IH].
Qed.

Lemma seen_range n : forall d, 0 <= seen n d < 2 ^ Z.of_nat n.
Proof.
  induction n as [|n IH]; intros d; cbn [seen]; [cbn; lia|]. apply lor_range; [lia| |].
  - pose proof (Z.pow_pos_nonneg 2 (Z.of_nat n) ltac:(lia) ltac:(lia)). rewrite Nat2Z.inj_succ, Z.pow_succ_r by lia.
    destruct (tdo _); cbn [Z.b2z]; lia.
  - rewrite Z.shiftl_mul_pow2, Nat2Z.inj_succ, Z.pow_succ_r by lia. specialize (IH (pulse d)). lia.
Qed.

Lemma cable_falling d : @Xilinx.falling_clock D cable false false d = (Z.b2z (tdo (pulse d)), pulse d).
Proof.
  unfold Xilinx.falling_clock, Xilinx.io_inb, Xilinx.io_outb. rewrite !cable_out.
  change (pins _ _ _ (pins _ _ _ d)) with (pulse d). destruct (cable_in (pulse d)) as [Hb Hd].
  destruct (inb 0x379 (pulse d)) as [v d']. cbn [fst snd] in *. subst d'.
  change 16 with (2 ^ 4). rewrite anyset_bit, Hb by lia. destruct (tdo (pulse d)); reflexivity.
Qed.

Lemma cable_seen n : forall i out d, 0 <= i ->
  @Xilinx.shift_out_loop D cable n i out d = (Z.lor out (Z.shiftl (seen n d) i), pulses n d).
Proof.
  induction n as [|n IH]; intros i out d Hi; cbn [Xilinx.shift_out_loop seen pulses].
  - rewrite Z.shiftl_0_l, Z.lor_0_r. reflexivity.
  - rewrite cable_falling, IH by lia. f_equal. rewrite Z.shiftl_lor, Z.shiftl_shiftl, (Z.add_comm 1 i) by lia.
    rewrite Z.lor_assoc. f_equal. destruct (tdo (pulse d)); cbn [Z.b2z Z.eqb negb]; [reflexivity|].
    rewrite Z.shiftl_0_l, Z.lor_0_r. reflexivity.
Qed.

Lemma gpio_sample value ebx d : 2 <= value -> @sample D gpio value ebx d =
  (Z.lor (Z.shiftr ebx 1) (Z.shiftl (Z.b2z (tdo (pulse d))) (value - 1)), pulse d).
Proof.
  intros Hv. unfold sample. rewrite !gpio_out. change (pins _ _ _ (pins _ _ _ d)) with (pulse d).
  destruct (gpio_in (pulse d)) as [Hb Hd]. destruct (inb PORT (pulse d)) as [al d']. cbn [fst snd] in *. subst d'.
  f_equal. f_equal. change BIT_TDO with (2 ^ 1). rewrite land_bit, Hb by lia. unfold BIT_TDO_POS.
  rewrite Z.mul_comm, <- Z.shiftl_mul_pow2, Z.shiftl_shiftl by lia. f_equal. lia.
Qed.

Lemma gpio_seen value n : forall ebx d, 2 <= value -> Z.of_nat n <= value ->
  @sample_loop D gpio n value ebx d =
  (Z.lor (Z.shiftr ebx (Z.of_nat n)) (Z.shiftl (seen n d) (value - Z.of_nat n)), pulses n d).
Proof.
  induction n as [|n IH]; intros ebx d Hv Hn; cbn [sample_loop seen pulses].
  - rewrite Z.shiftl_0_l, Z.lor_0_r, Z.shiftr_0_r. reflexivity.
  - rewrite gpio_sample, IH by lia. f_equal.
    rewrite Z.shiftr_lor, Z.shiftr_shiftr, Z.shiftl_lor, Z.shiftl_shiftl, Z.shiftr_shiftl_l, <- Z.lor_assoc by lia.
    f_equal; [f_equal; lia|]. f_equal; f_equal; lia.
Qed.

Lemma same_shift_out n d : (2 <= n)%nat -> @Xilinx.shift_out D cable n d = @shift_out D gpio (Z.of_nat n) d.
Proof.
  intros Hn. unfold Xilinx.shift_out, shift_out. rewrite cable_seen, gpio_seen, Nat2Z.id, Z.sub_diag by lia.
  rewrite !Z.shiftl_0_r, Z.shiftr_0_l. reflexivity.
Qed.

(** ** The routines *)

(** Only the bits shifted matter. *)
Lemma shift_in_low n : forall k v d, Z.of_nat n <= k ->
  @shift_in D gpio n (Z.land v (Z.ones k)) d = @shift_in D gpio n v d.
Proof.
  induction n as [|n IH]; intros k v d Hk; cbn [shift_in]; [reflexivity|].
  assert (E : Z.land (Z.land v (Z.ones k)) 1 = Z.land v 1).
  { rewrite <- Z.land_assoc. f_equal. apply Z.bits_inj'. intros i Hi. rewrite Z.land_spec.
    change 1 with (Z.ones 1). rewrite !Z.testbit_ones_nonneg by lia. repeat zcase; try reflexivity; lia. }
  rewrite E, Z.shiftr_land. replace (Z.shiftr (Z.ones k) 1) with (Z.ones (k - 1)); [apply IH; lia|].
  apply Z.bits_inj'. intros i Hi. rewrite Z.shiftr_spec, !Z.testbit_ones_nonneg by lia. repeat zcase; try reflexivity; lia.
Qed.

Lemma same_write_ir c d : @Xilinx.write_ir D cable c d = @write_ir D gpio c d.
Proof.
  unfold Xilinx.write_ir, write_ir. rewrite same_idle_to_shift_ir, same_shift_in, same_shift_to_idle. f_equal.
  symmetry. apply (shift_in_low 8 8). lia.
Qed.

Lemma same_write_dr v n d : @Xilinx.write_dr D cable v n d = @write_dr D gpio n v d.
Proof. unfold Xilinx.write_dr, write_dr. rewrite same_shift_in. apply same_shift_to_update. Qed.

Lemma same_read_dr n d : (2 <= n)%nat -> @Xilinx.read_dr D cable n d = @read_dr D gpio (Z.of_nat n) d.
Proof.
  intros Hn. unfold Xilinx.read_dr, read_dr. rewrite same_shift_out by exact Hn.
  destruct (shift_out _ d). rewrite same_shift_to_update. reflexivity.
Qed.

Lemma same_MemAccess a c d : @RDC.MemAccess D Xilinx.xilinx a c d = @MemAccess_impl D gpio a c d.
Proof.
  unfold RDC.MemAccess, MemAccess_impl. cbn [x_write_ir x_idle_to_shift_dr x_write_dr x_update_to_shift_dr Xilinx.xilinx].
  rewrite same_write_ir, same_idle_to_shift_dr, same_write_dr, same_update_to_shift_dr, same_write_dr. reflexivity.
Qed.

Lemma same_ReadMem16 a d : @RDC.ReadMem16 D Xilinx.xilinx a d = @ReadMem16_impl D gpio a d.
Proof.
  unfold RDC.ReadMem16, ReadMem16_impl. rewrite same_MemAccess.
  cbn [x_read_dr x_update_to_idle x_update_to_shift_dr Xilinx.xilinx].
  rewrite same_update_to_shift_dr, same_read_dr by lia. change (Z.of_nat 16) with 16.
  destruct (read_dr 16 _). rewrite same_update_to_idle. reflexivity.
Qed.

Lemma same_WriteMem16 a v d : @RDC.WriteMem16 D Xilinx.xilinx a v d = @WriteMem16_impl D gpio a v d.
Proof.
  unfold RDC.WriteMem16, WriteMem16_impl. rewrite same_MemAccess.
  cbn [x_write_dr x_update_to_idle x_update_to_shift_dr Xilinx.xilinx].
  rewrite same_update_to_shift_dr, same_write_dr, same_update_to_idle. reflexivity.
Qed.

(** ** Bringing the port up *)

Lemma delay_same n d : @delay D gpio n d = d.
Proof. induction n as [|n IH]; cbn [delay]; [reflexivity|]. rewrite (proj2 (gpio_in d)). exact IH. Qed.

(** One round of the host is one round of the board, up to the count. *)
Lemma same_init_step count d :
  RDC.init_step (TO := @Xilinx.xilinx D cable) (count, d) =
  let '(ready, d1) := @init_round D gpio d in
  if negb (ready =? 0) then inr (ready, d1)
  else if 1000000 <? count + 1 then inr (ready, @idle_to_reset D gpio d1) else inl (count + 1, @idle_to_reset D gpio d1).
Proof.
  assert (Hir : forall c e, @Xilinx.shift_to_idle D cable (Xilinx.shift_in c 8 (Xilinx.idle_to_shift_ir e)) = @write_ir D gpio c e)
    by (intros c e; exact (same_write_ir c e)).
  unfold RDC.init_step, init_round.
  cbn [x_reset_to_idle x_idle_to_shift_ir x_shift_in x_shift_to_idle x_idle_to_shift_dr x_shift_out x_idle_to_reset
       Xilinx.xilinx].
  rewrite !Hir, !delay_same, same_reset_to_idle, same_idle_to_shift_dr, same_shift_out by lia.
  change (Z.of_nat 16) with 16. destruct (shift_out 16 _) as [ready d1].
  rewrite same_shift_to_idle, same_idle_to_reset. reflexivity.
Qed.

Lemma init_round_range d : 0 <= (@init_round D gpio d).1 < 2 ^ 16.
Proof.
  unfold init_round, shift_out. rewrite gpio_seen by lia. cbn [fst]. rewrite Z.shiftr_0_l. cbn [Z.lor].
  change (16 - Z.of_nat (Z.to_nat 16)) with 0. rewrite Z.shiftl_0_r. exact (seen_range 16 _).
Qed.

(** When the board sees a status in time, so does the host, the same one. *)
Lemma same_init_loop fuel : forall count N d v d', 0 <= count -> count + Z.of_nat fuel <= 1000001 -> (fuel < N)%nat ->
  @init_loop D gpio fuel d = Some (v, d') ->
  nloop N (RDC.init_step (TO := @Xilinx.xilinx D cable)) (count, d) = inr (v, d').
Proof.
  induction fuel as [|fuel IH]; intros count N d v d' Hc Hb HN Hl; cbn [init_loop] in Hl; [discriminate|].
  destruct N as [|N]; [lia|]. cbn [nloop]. rewrite same_init_step. pose proof (init_round_range d) as Hr.
  destruct (init_round d) as [ready d1]. cbn [fst] in Hr.
  change 0xffff with (Z.ones 16) in Hl. rewrite Z.land_ones, Z.mod_small in Hl by lia.
  destruct (Z.eqb_spec ready 0) as [E|E]; cbn [negb]; [|congruence].
  destruct fuel as [|fuel']; [discriminate|].
  rewrite (proj2 (Z.ltb_ge 1000000 (count + 1))) by lia. apply IH; [lia|lia|lia|exact Hl].
Qed.

End Wires.

(** Two implementations of jtag.h that do the same, bringing the port up apart. *)
Definition same_ops {D : Type} (A B : JtagOps D) : Prop :=
  (forall a c d, @jtag_MemAccess D A a c d = @jtag_MemAccess D B a c d) /\
  (forall a d, @jtag_ReadMem16 D A a d = @jtag_ReadMem16 D B a d) /\
  (forall a v d, @jtag_WriteMem16 D A a v d = @jtag_WriteMem16 D B a v d) /\
  (forall c d, @jtag_write_ir D A c d = @jtag_write_ir D B c d) /\
  (forall d, @jtag_idle_to_shift_dr D A d = @jtag_idle_to_shift_dr D B d) /\
  (forall d, @jtag_read_dr8 D A d = @jtag_read_dr8 D B d) /\
  (forall d, @jtag_read_dr16 D A d = @jtag_read_dr16 D B d) /\
  (forall d, @jtag_read_dr32 D A d = @jtag_read_dr32 D B d) /\
  (forall d, @jtag_update_to_idle D A d = @jtag_update_to_idle D B d) /\
  (forall d, @jtag_update_to_shift_dr D A d = @jtag_update_to_shift_dr D B d) /\
  (forall v d, @jtag_write_dr32 D A v d = @jtag_write_dr32 D B v d).

(** C15: the host's JTAG cable does what the board's JTAG pins do.  On one target
    wired both to the parallel port and to the GPIO port, every Python routine
    clocks the same levels, reads the same value and leaves the target in the same
    state as the assembler routine of that name; and when the assembler sees a
    status within the rounds Python waits, Python brings the port up with the same
    status in the same state. *)
Theorem host_cable_same {D : Type} (gpio cable : Ports D) (W : Wiring D gpio cable) (rounds : nat) (d d' : D) (status : Z) :
  Z.of_nat rounds <= 1000001 -> @jtag_init D (@asm_jtag D gpio rounds) d = Some (status, d') ->
  @jtag_init D (RDC.rdc_ops (@Xilinx.xilinx D cable)) d = Some (status, d') /\
  same_ops (RDC.rdc_ops (@Xilinx.xilinx D cable)) (@asm_jtag D gpio rounds).
Proof.
  intros Hn Hi. split.
  - cbn [jtag_init RDC.rdc_ops asm_jtag] in *. unfold RDC.init_ready. rewrite ploop_nloop.
    cbn [x_any_to_reset Xilinx.xilinx]. rewrite same_any_to_reset.
    rewrite (same_init_loop rounds 0 (Pos.to_nat 1000002) _ status d'); [reflexivity|lia|lia|lia|exact Hi].
  - repeat split; intros; cbn [RDC.rdc_ops asm_jtag jtag_MemAccess jtag_ReadMem16 jtag_WriteMem16 jtag_write_ir
      jtag_idle_to_shift_dr jtag_read_dr8 jtag_read_dr16 jtag_read_dr32 jtag_update_to_idle jtag_update_to_shift_dr
      jtag_write_dr32 x_write_ir x_idle_to_shift_dr x_read_dr x_write_dr x_update_to_idle x_update_to_shift_dr Xilinx.xilinx].
    + apply same_MemAccess.
    + apply same_ReadMem16.
    + apply same_WriteMem16.
    + apply same_write_ir.
    + apply same_idle_to_shift_dr.
    + apply (same_read_dr 8); lia.
    + apply (same_read_dr 16); lia.
    + apply (same_read_dr 32); lia.
    + apply same_update_to_idle.
    + apply same_update_to_shift_dr.
    + apply same_write_dr.
Qed.

(** A target that counts the rising edges of its clock and shows a pattern. *)
Record bench : Type := mkBench { level : bool; edges : Z }.

Definition bench_pins (tck tms tdi : bool) (d : bench) : bench :=
  mkBench tck (if tck && negb (level d) then edges d + 1 else edges d).

Definition bench_tdo (d : bench) : bool := edges d mod 3 =? 0.

Definition bench_ports (tck tms tdi tdo : Z) : Ports bench := {|
  inb := fun _ d => (Z.lor 0x80 (Z.shiftl (Z.b2z (bench_tdo d)) tdo), d);
  outb := fun v _ d => bench_pins (Z.testbit v tck) (Z.testbit v tms) (Z.testbit v tdi) d;
  inl_ := fun _ d => (0, d); outl := fun _ _ d => d; ioperm := fun _ _ d => (0, d); nanosleep := fun _ d => d
|}.

Definition bench_gpio : Ports bench := bench_ports 4 3 5 1.

Definition bench_cable : Ports bench := bench_ports 1 2 0 4.

Definition bench_wiring : Wiring bench bench_gpio bench_cable.
Proof.
  refine {| pins := bench_pins; tdo := bench_tdo |}; try reflexivity;
    intros d; (split; [|reflexivity]); cbn; destruct (bench_tdo d); reflexivity.
Defined.

Definition bench_up : Z * bench :=
  default (0, mkBench false 0) (@jtag_init bench (@asm_jtag bench bench_gpio 2) (mkBench false 0)).

Lemma host_cable_same_witness :
  bench_up.1 <> 0 /\
  @jtag_init bench (RDC.rdc_ops (@Xilinx.xilinx bench bench_cable)) (mkBench false 0) = Some (bench_up.1, bench_up.2) /\
  same_ops (RDC.rdc_ops (@Xilinx.xilinx bench bench_cable)) (@asm_jtag bench bench_gpio 2).
Proof.
  split; [vm_compute; discriminate|].
  apply (host_cable_same bench_gpio bench_cable bench_wiring 2 (mkBench false 0) bench_up.2 bench_up.1).
  - lia.
  - vm_compute. reflexivity.
Defined.

(** ** Programming and dumping *)

Import BiffJtag JtagFlash.

(** How the routines of the cable are made of each other; eight bits read are a
    byte. *)
Class CableRoutines (D : Type) `{TapOps D} : Prop := {
  read_byte : forall d, 0 <= (x_read_dr 8 d).1 < 0x100;
  write_ir_steps : forall c d, x_shift_to_idle (x_shift_in c 8 (x_idle_to_shift_ir d)) = x_write_ir c d;
  read_dr_steps : forall n d, (x_shift_out n d).1 = (x_read_dr n d).1 /\
    x_shift_to_idle (x_shift_out n d).2 = x_update_to_idle (x_read_dr n d).2
}.

Lemma shift_out_range {D : Type} `{Ports D} n : forall i out d, 0 <= i -> 0 <= out < 2 ^ i ->
  0 <= (Xilinx.shift_out_loop n i out d).1 < 2 ^ (i + Z.of_nat n).
Proof.
  induction n as [|n IH]; intros i out d Hi Ho; cbn [Xilinx.shift_out_loop].
  - rewrite Z.add_0_r. exact Ho.
  - destruct (Xilinx.falling_clock false false d) as [b d1].
    replace (i + Z.of_nat (S n)) with (i + 1 + Z.of_nat n) by lia.
    assert (Hp : 2 ^ (i + 1) = 2 * 2 ^ i) by (rewrite Z.pow_add_r by lia; lia).
    apply IH; [lia|]. destruct (negb (b =? 0)); [|lia].
    rewrite Z.shiftl_1_l. apply lor_range; lia.
Qed.

(** The class [Xilinx] has them, whatever is on the port. *)
#[export] Instance xilinx_routines {D : Type} `{Ports D} : @CableRoutines D Xilinx.xilinx.
Proof.
  split.
  - intros d. cbn [x_read_dr Xilinx.xilinx]. unfold Xilinx.read_dr, Xilinx.shift_out.
    pose proof (shift_out_range 8 0 0 d ltac:(lia) ltac:(lia)) as Hr.
    destruct (Xilinx.shift_out_loop 8 0 0 d). exact Hr.
  - reflexivity.
  - intros n d. cbn [x_read_dr x_shift_out x_shift_to_idle x_update_to_idle Xilinx.xilinx].
    unfold Xilinx.read_dr. destruct (Xilinx.shift_out n d). split; reflexivity.
Qed.

Section Host.
Context {D : Type} {TO : TapOps D} {BR : CableRoutines D} {EF : @EonFlash D (RDC.rdc_ops TO)}.
Context (fuel : nat) (Hfuel : (@fl_polls D (RDC.rdc_ops TO) EF < fuel)%nat).

#[local] Existing Instance RDC.rdc_ops.

#[local] Notation flash_lo := (@fl_lo D (RDC.rdc_ops TO) EF).

#[local] Notation flash_base := (@fl_sec_base D (RDC.rdc_ops TO) EF).

#[local] Notation flash_len := (@fl_sec_len D (RDC.rdc_ops TO) EF).

Lemma wait_for_ok a v n : forall d d' k, settles a v n d d' -> (n < k)%nat -> RDC.wait_for k v a d = Some (tt, d').
Proof.
  induction n as [|n IH]; intros d d' k Hs Hk; (destruct k as [|k]; [lia|]); cbn [RDC.wait_for];
    inversion Hs as [? ? E|? ? ? ? ? E Hne Hs']; subst; cbn [jtag_ReadMem16 RDC.rdc_ops] in E; rewrite E.
  - rewrite Z.eqb_refl. reflexivity.
  - destruct (Z.eqb_spec v r) as [Er|]; [congruence|]. apply IH; [exact Hs'|lia].
Qed.

Lemma host_erase_ok d a : fl_ready d -> flash_lo <= a < 2 ^ 32 -> a mod 2 = 0 ->
  exists d', RDC.EonSectorErase fuel a d = Some (tt, d') /\ fl_ready d' /\
    fl_mem d' = fill (fl_mem d) (flash_base a) (flash_len a) 0xff.
Proof.
  intros Hr Ha Hev. destruct (fl_erase d a Hr Ha Hev) as (n & d' & Hn & Hs & Hr' & Hm). exists d'.
  unfold RDC.EonSectorErase. split; [|auto]. apply (wait_for_ok _ _ n); [exact Hs|lia].
Qed.

Lemma host_program_ok d a v : fl_ready d -> flash_lo <= a -> a + 2 <= 2 ^ 32 -> a mod 2 = 0 -> 0 <= v < 0x10000 ->
  fl_mem d a = 0xff -> fl_mem d (a + 1) = 0xff ->
  exists d', RDC.EonProgram fuel a v d = Some (tt, d') /\ fl_ready d' /\
    fl_mem d' = store16 (fl_mem d) a v.
Proof.
  intros Hr Ha Ha2 Hev Hv E0 E1. destruct (fl_program d a v Hr Ha Ha2 Hev Hv E0 E1) as (n & d' & Hn & Hs & Hr' & Hm).
  exists d'. unfold RDC.EonProgram. split; [|auto]. apply (wait_for_ok _ _ n); [exact Hs|lia].
Qed.

Lemma store_bytes_two m b lo hi bs x :
  store_bytes m b (lo :: hi :: bs) x = if x =? b then lo else if x =? b + 1 then hi else store_bytes m (b + 2) bs x.
Proof.
  unfold store_bytes. cbn [length]. destruct (Z.eqb_spec x b) as [->|]; [|destruct (Z.eqb_spec x (b + 1)) as [->|]].
  - rewrite Z.sub_diag. repeat zcase; try reflexivity; lia.
  - replace (b + 1 - b) with 1 by lia. repeat zcase; try reflexivity; lia.
  - repeat zcase; try reflexivity; try lia. replace (Z.to_nat (x - b)) with (S (S (Z.to_nat (x - (b + 2))))) by lia. reflexivity.
Qed.

(** A file of whole half-words goes over erased cells. *)
Lemma host_loop_ok n : forall fp count d, length fp = (2 * n)%nat -> Forall (fun b => 0 <= b < 0x100) fp ->
  fl_ready d -> 0 <= count -> (0xffff0000 + count) mod 2 = 0 -> flash_lo <= 0xffff0000 -> count + Z.of_nat (length fp) <= 0x10000 ->
  (forall x, 0xffff0000 + count <= x < 2 ^ 32 -> fl_mem d x = 0xff) ->
  exists d', RDC.program_loop fuel count fp d = Some (true, d') /\ fl_ready d' /\
    forall x, fl_mem d' x = store_bytes (fl_mem d) (0xffff0000 + count) fp x.
Proof.
  induction n as [|n IH]; intros fp count d Hl Hb Hr Hc Hev Hlo Hend Her.
  - destruct fp; [|discriminate]. exists d. split; [reflexivity|]. split; [exact Hr|]. intros x.
    symmetry. apply store_bytes_out. cbn [length]. lia.
  - pose proof (even_next _ Hev) as Hev'. rewrite <- Z.add_assoc in Hev'.
    destruct fp as [|lo [|hi fp]]; cbn [length] in *; try lia.
    apply Forall_cons in Hb as [B0 Hb]. apply Forall_cons in Hb as [B1 Hb]. cbn [RDC.program_loop].
    destruct (Z.eqb_spec (lo + 0x100 * hi) 0xffff) as [E|E]; cbn [negb].
    + destruct (IH fp (count + 2) d) as (d' & E' & Hr' & Hm); auto; try lia; [intros x Hx; apply Her; lia|].
      exists d'. split; [exact E'|]. split; [exact Hr'|]. intros x.
      rewrite Hm, store_bytes_two, Z.add_assoc.
      destruct (Z.eqb_spec x (0xffff0000 + count)); [|destruct (Z.eqb_spec x (0xffff0000 + count + 1)); [|reflexivity]];
        (rewrite store_bytes_out, Her by lia; lia).
    + destruct (host_program_ok d (0xffff0000 + count) (lo + 0x100 * hi)) as (d1 & E1 & R1 & M1); auto; try lia;
        [apply Her; lia|apply Her; lia|].
      rewrite E1. destruct (IH fp (count + 2) d1) as (d' & E' & Hr' & Hm); auto; try lia.
      { intros x Hx. rewrite M1, store16_out by lia. apply Her. lia. }
      exists d'. split; [exact E'|]. split; [exact Hr'|]. intros x.
      rewrite Hm, store_bytes_two, Z.add_assoc.
      destruct (Z.eqb_spec x (0xffff0000 + count)) as [->|]; [|destruct (Z.eqb_spec x (0xffff0000 + count + 1)) as [->|]].
      * rewrite store_bytes_out, M1, store16_lo by lia. unfold u8. rewrite Z.mul_comm, Z.mod_add, Z.mod_small by lia. reflexivity.
      * rewrite store_bytes_out, M1, store16_hi by lia. rewrite Z.mul_comm, Z.div_add, Z.div_small by lia.
        unfold u8. rewrite Z.add_0_l, Z.mod_small by lia. reflexivity.
      * unfold store_bytes. destruct (_ && _); [reflexivity|]. rewrite M1, store16_out by lia. reflexivity.
Qed.

Lemma host_flags d : RDC.ResetFlags d = ResetFlags d.
Proof. reflexivity. Qed.

Lemma host_bytes_ok n : forall a d, fl_stream a d -> flash_lo <= a -> a + Z.of_nat n <= 2 ^ 32 ->
  let '(vs, d') := RDC.dump_loop n d in
  vs = load_bytes (fl_mem d) a (Z.of_nat n) /\ fl_stream (a + Z.of_nat n) d' /\ fl_mem d' = fl_mem d.
Proof.
  intros a d Hs Hlo Hend. pose proof (dump_bytes_ok fuel Hfuel n a d Hs Hlo Hend) as Hd.
  assert (E : forall k e, RDC.dump_loop k e = dump_bytes k e).
  { induction k as [|k IH]; intros e; cbn [RDC.dump_loop dump_bytes]; [reflexivity|].
    cbn [jtag_update_to_shift_dr jtag_read_dr8 RDC.rdc_ops]. pose proof (read_byte (x_update_to_shift_dr e)) as Hv.
    destruct (x_read_dr 8 _) as [v e1]. cbn [fst] in Hv. rewrite IH. destruct (dump_bytes k e1).
    change 0xff with (Z.ones 8). rewrite Z.land_ones, Z.mod_small by lia. reflexivity. }
  rewrite E. exact Hd.
Qed.

Lemma host_dump_ok a c d : fl_ready d -> flash_lo <= a < 2 ^ 32 -> 0 <= c -> a + c <= 2 ^ 32 ->
  let '(vs, d') := RDC.DumpMem a c d in
  vs = load_bytes (fl_mem d) a c /\ fl_ready d' /\ fl_mem d' = fl_mem d.
Proof.
  intros Hr Hlo Hc Hend. unfold RDC.DumpMem. pose proof (@fl_lo_pos D (RDC.rdc_ops TO) EF).
  destruct (fl_start d a Hr ltac:(lia)) as [Hs2 Hm2].
  pose proof (host_bytes_ok (Z.to_nat c) a _ Hs2 ltac:(lia) ltac:(lia)) as Hd. cbn [jtag_MemAccess RDC.rdc_ops] in Hd, Hm2.
  destruct (RDC.dump_loop (Z.to_nat c) (RDC.MemAccess a 0x18 d)) as [vs d3].
  destruct Hd as (-> & Hs3 & Hm3). rewrite Z2Nat.id in * by lia.
  destruct (fl_stop d3 _ Hs3) as [Hr4 Hm4]. cbn [jtag_update_to_idle RDC.rdc_ops] in Hr4, Hm4. rewrite Hm2.
  split; [reflexivity|]. split; [exact Hr4|congruence].
Qed.

Lemma host_sector_ok n : forall a d, fl_ready d -> flash_lo <= a -> a + 0x80 * Z.of_nat n <= 2 ^ 32 ->
  let '(vs, d') := RDC.sector_loop n a d in
  vs = load_bytes (fl_mem d) a (0x80 * Z.of_nat n) /\ fl_ready d' /\ fl_mem d' = fl_mem d.
Proof.
  induction n as [|n IH]; intros a d Hr Hlo Hend; cbn [RDC.sector_loop]; [auto|].
  destruct (fl_flags d Hr) as [Hr1 Hm1]. rewrite host_flags.
  pose proof (host_dump_ok a 0x80 _ Hr1 ltac:(lia) ltac:(lia) ltac:(lia)) as Hd.
  destruct (RDC.DumpMem a 0x80 (ResetFlags d)) as [vs d1]. destruct Hd as (-> & Hr2 & Hm2).
  specialize (IH (a + 0x80) d1 Hr2 ltac:(lia) ltac:(lia)). destruct (RDC.sector_loop n (a + 0x80) d1) as [rest d2].
  destruct IH as (-> & Hr3 & Hm3). rewrite Hm2, Hm1 in *. split; [|auto].
  replace (0x80 * Z.of_nat (S n)) with (0x80 + 0x80 * Z.of_nat n) by lia. rewrite load_bytes_app by lia. reflexivity.
Qed.

(** What is left of the sector reads as erased. *)
Definition padded (contents : list Z) : list Z := contents ++ repeat 0xff (Z.to_nat (0x10000 - Z.of_nat (length contents))).

(** Over sessions that start as they should ([Hinit], which the debug port
    below ensures), program.py and dump.py are inverse. *)
Lemma program_then_dump nasm exec (good : D -> Prop) (contents : list Z) (d : D) :
  (forall e, good e -> exists e', RDC.RDC_init nasm exec e = (true, e') /\ fl_ready e' /\ fl_mem e' = fl_mem e) ->
  (forall e, fl_ready e -> good e) ->
  good d -> Forall (fun b => 0 <= b < 0x100) contents ->
  Nat.even (length contents) = true -> Z.of_nat (length contents) <= 0x10000 ->
  exists d1 d2, RDC.program_py nasm exec fuel (Some contents) d = Some (true, d1) /\
    (forall x, flash_lo <= x < 0xffff0000 -> fl_mem d1 x = fl_mem d x) /\
    RDC.dump_py nasm exec d1 = (Some (padded contents), d2).
Proof.
  intros Hinit Hgood Hr Hb Hev Hlen. destruct (@fl_top D (RDC.rdc_ops TO) EF) as (Hlo & Sb & Sl).
  pose proof (@fl_lo_pos D (RDC.rdc_ops TO) EF) as Hpos.
  destruct (Hinit d Hr) as (d0 & E0 & R0 & M0).
  destruct (host_erase_ok d0 0xffff0000 R0 ltac:(lia) eq_refl) as (da & Ea & Ra & Ma). rewrite Sb, Sl in Ma.
  apply Nat.even_spec in Hev as [n Hn].
  destruct (host_loop_ok n contents 0 da Hn Hb Ra ltac:(lia) eq_refl Hlo ltac:(lia)) as (db & Eb & Rb & Mb).
  { intros x Hx. rewrite Ma by lia. apply fill_in. lia. }
  pose proof (host_dump_ok 0xffff0000 0x80 db Rb ltac:(lia) ltac:(lia) ltac:(lia)) as Hd.
  destruct (RDC.DumpMem 0xffff0000 0x80 db) as [vs dc] eqn:Ed. destruct Hd as (_ & Rc & Mc).
  destruct (Hinit dc (Hgood dc Rc)) as (dd & Edd & Rd & Md).
  pose proof (host_sector_ok (Z.to_nat (0x10000 / 0x80)) 0xffff0000 dd Rd Hlo ltac:(vm_compute; discriminate)) as Hs.
  change (0x80 * Z.of_nat (Z.to_nat (0x10000 / 0x80))) with 0x10000 in Hs.
  destruct (RDC.sector_loop (Z.to_nat (0x10000 / 0x80)) 0xffff0000 dd) as [data de] eqn:Es. destruct Hs as (-> & _ & _).
  exists dc, de. split; [|split].
  - unfold RDC.program_py. rewrite E0, Ea, Eb, Ed. reflexivity.
  - intros x Hx. rewrite Mc, Mb, store_bytes_out, Ma, fill_out, M0 by lia. reflexivity.
  - unfold RDC.dump_py, RDC.DumpSector. rewrite Edd, Es. do 2 f_equal.
    assert (Hpad : Z.of_nat (length (padded contents)) = 0x10000)
      by (unfold padded; rewrite length_app, repeat_length; lia).
    rewrite <- Hpad. apply list_of_bytes. intros i Hi. rewrite Md, Mc, Mb by lia. unfold padded.
    destruct (decide (i < length contents)%nat) as [Hin|Hout].
    + rewrite store_bytes_in by lia. rewrite app_nth1 by exact Hin. f_equal. lia.
    + rewrite store_bytes_out, Ma, fill_in by lia. rewrite app_nth2 by lia. symmetry.
      rewrite (nth_indep _ 0 0xff) by (rewrite repeat_length; lia). apply nth_repeat.
Qed.

End Host.

(** ** The debug port *)

(** The port as the head of rdc.py documents it, seen through the routines of the
    cable: an instruction register, the words written since the instruction
    ([dp_words]) and how many bytes have been read ([dp_reads]).  Instruction 0x01
    resets the processor, 0x02 runs the code loaded with 0x06, 0x0f asks for the
    status, which is 0 [dp_lag] more times and then 0x8381; 0x11 is a memory
    access: an address, a code (0x18 reads bytes, 0x19 a half-word, 0x1d writes a
    half-word) and the data.  [dp_harmless]: code that comes to its end, without
    touching the flash. *)
Class DebugPort (D : Type) `{TapOps D} : Type := {
  dp_lo : Z;
  dp_polls : nat;
  dp_sec_base : Z -> Z;
  dp_sec_len : Z -> Z;
  dp_harmless : list Z -> Prop;
  dp_stage : D -> stage;
  dp_ir : D -> Z;
  dp_words : D -> list Z;
  dp_reads : D -> Z;
  dp_lag : D -> nat;
  dp_chip : D -> eon;
  dp_lo_pos : 0 <= dp_lo;
  dp_lo_even : dp_lo mod 2 = 0;
  dp_top : dp_lo <= 0xffff0000 /\ dp_sec_base 0xffff0000 = 0xffff0000 /\ dp_sec_len 0xffff0000 = 0x10000;
  dp_sector : forall a, dp_lo <= a < 2 ^ 32 -> a mod 2 = 0 ->
    dp_sec_base a <= a /\ a + 2 <= dp_sec_base a + dp_sec_len a;
  dp_patience : Z.of_nat dp_polls <= 10000000;
  dp_prompt : forall d, Z.of_nat (dp_lag d) <= 1000000;
  dp_calm : D -> D -> Prop := fun d d' => dp_lag d' = dp_lag d /\ dp_chip d' = dp_chip d;
  dp_same : D -> D -> Prop := fun d d' =>
    dp_ir d' = dp_ir d /\ dp_words d' = dp_words d /\ dp_reads d' = dp_reads d /\ dp_calm d d';
  (* moves *)
  dp_any : forall d, let d' := x_any_to_reset d in dp_stage d' = AtReset /\ dp_calm d d';
  dp_leave : forall d, dp_stage d = AtReset -> let d' := x_reset_to_idle d in dp_stage d' = AtIdle /\ dp_calm d d';
  dp_enter : forall d, dp_stage d = AtIdle -> let d' := x_idle_to_reset d in dp_stage d' = AtReset /\ dp_calm d d';
  dp_shift : forall d, dp_stage d = AtIdle -> let d' := x_idle_to_shift_dr d in dp_stage d' = AtShift /\ dp_same d d';
  dp_again : forall d, dp_stage d = AtUpdate -> let d' := x_update_to_shift_dr d in dp_stage d' = AtShift /\ dp_same d d';
  dp_done : forall d, dp_stage d = AtUpdate -> let d' := x_update_to_idle d in dp_stage d' = AtIdle /\ dp_same d d';
  (* instructions *)
  dp_instr : forall d c, dp_stage d = AtIdle -> starts_nothing c = true ->
    let d' := x_write_ir c d in
    dp_stage d' = AtIdle /\ dp_ir d' = c /\ dp_words d' = [] /\ dp_reads d' = 0 /\ dp_calm d d';
  dp_cpu_reset : forall d, dp_stage d = AtIdle ->
    let d' := x_write_ir 0x01 d in dp_stage d' = AtIdle /\ (dp_lag d' <= dp_lag d)%nat /\ dp_chip d' = dp_chip d;
  dp_execute : forall d, dp_stage d = AtIdle -> dp_ir d = 0x06 -> dp_harmless (dp_words d) ->
    let d' := x_write_ir 0x02 d in dp_stage d' = AtIdle /\ (dp_lag d' <= 1)%nat /\ dp_chip d' = dp_chip d;
  (* data *)
  dp_word : forall d v n, dp_stage d = AtShift -> (dp_ir d = 0x11 -> (length (dp_words d) < 2)%nat) ->
    let d' := x_write_dr v n d in
    dp_stage d' = AtUpdate /\ dp_ir d' = dp_ir d /\ dp_words d' = dp_words d ++ [v mod 2 ^ Z.of_nat n] /\
    dp_reads d' = dp_reads d /\ dp_calm d d';
  dp_status : forall d, dp_stage d = AtShift -> dp_ir d = 0x0f ->
    let '(v, d') := x_read_dr 16 d in
    v = match dp_lag d with O => 0x8381 | S _ => 0 end /\
    dp_stage d' = AtUpdate /\ dp_lag d' = pred (dp_lag d) /\ dp_chip d' = dp_chip d;
  dp_half_out : forall d a v, dp_stage d = AtShift -> dp_ir d = 0x11 -> dp_words d = [a; 0x1d] ->
    dp_lo <= a < 2 ^ 32 -> a mod 2 = 0 -> 0 <= v < 0x10000 ->
    let d' := x_write_dr v 16 d in
    dp_stage d' = AtUpdate /\ exists n, (n <= dp_polls)%nat /\
      forall e, eon_write dp_sec_base dp_sec_len n a v (dp_chip d) = Some e -> dp_chip d' = e;
  dp_half_in : forall d a, dp_stage d = AtShift -> dp_ir d = 0x11 -> dp_words d = [a; 0x19] ->
    e_cmd (dp_chip d) = CIdle -> dp_lo <= a < 2 ^ 32 -> a mod 2 = 0 ->
    let '(v, d') := x_read_dr 16 d in dp_stage d' = AtUpdate /\ eon_read a v (dp_chip d) (dp_chip d');
  dp_byte_in : forall d a, dp_stage d = AtShift -> dp_ir d = 0x11 -> dp_words d = [a; 0x18] ->
    quiet (dp_chip d) -> dp_lo <= a + dp_reads d < 2 ^ 32 ->
    let '(v, d') := x_read_dr 8 d in
    Z.land v 0xff = e_mem (dp_chip d) (a + dp_reads d) /\ dp_stage d' = AtUpdate /\
    dp_ir d' = dp_ir d /\ dp_words d' = dp_words d /\ dp_reads d' = dp_reads d + 1 /\ dp_calm d d'
}.

Section DebugPort.
Context {D : Type} {TO : TapOps D} {CR : CableRoutines D} {DP : DebugPort D}.

(** *** The memory accesses *)

(** An access set up: the address and the code have been written. *)
Lemma access_ok a c d : dp_stage d = AtIdle -> 0 <= a < 2 ^ 32 -> 0 <= c < 0x100 ->
  let d' := RDC.MemAccess a c d in
  dp_stage d' = AtUpdate /\ dp_ir d' = 0x11 /\ dp_words d' = [a; c] /\ dp_reads d' = 0 /\ dp_chip d' = dp_chip d.
Proof.
  intros Hs Ha Hc. destruct (dp_instr d 0x11 Hs eq_refl) as (S1 & I1 & W1 & R1 & _ & C1).
  destruct (dp_shift _ S1) as (S2 & I2 & W2 & R2 & _ & C2).
  destruct (dp_word _ a 32 S2) as (S3 & I3 & W3 & R3 & _ & C3); [rewrite W2, W1; cbn; lia|].
  destruct (dp_again _ S3) as (S4 & I4 & W4 & R4 & _ & C4).
  destruct (dp_word _ c 8 S4) as (S5 & I5 & W5 & R5 & _ & C5); [rewrite W4, W3, W2, W1; cbn; lia|].
  rewrite W4, W3, W2, W1, (Z.mod_small a), (Z.mod_small c) in W5 by (cbn; lia).
  unfold RDC.MemAccess. split; [exact S5|]. split; [congruence|]. split; [exact W5|]. split; congruence.
Qed.

(** Where a read of bytes has got to. *)
Definition port_ptr (d : D) : option Z :=
  match dp_words d with
  | [a; c] => if (dp_ir d =? 0x11) && (c =? 0x18) then Some (a + dp_reads d) else None
  | _ => None
  end.

Lemma port_ptr_some d b : port_ptr d = Some b ->
  exists a, dp_words d = [a; 0x18] /\ dp_ir d = 0x11 /\ b = a + dp_reads d.
Proof.
  unfold port_ptr. destruct (dp_words d) as [|a [|c [|]]]; try discriminate.
  destruct (Z.eqb_spec (dp_ir d) 0x11); [|discriminate]. destruct (Z.eqb_spec c 0x18) as [->|]; [|discriminate].
  intros E. injection E as <-. exists a. auto.
Qed.

Lemma port_ptr_same d d' : dp_same d d' -> port_ptr d' = port_ptr d.
Proof. intros (I & W & R & _). unfold port_ptr. rewrite I, W, R. reflexivity. Qed.

Lemma port_read d a : dp_stage d = AtIdle -> e_cmd (dp_chip d) = CIdle -> dp_lo <= a < 2 ^ 32 -> a mod 2 = 0 ->
  let '(v, d') := RDC.ReadMem16 a d in dp_stage d' = AtIdle /\ eon_read a v (dp_chip d) (dp_chip d').
Proof.
  intros Hs Hc Ha Hev. pose proof dp_lo_pos. unfold RDC.ReadMem16.
  destruct (access_ok a 0x19 d Hs ltac:(lia) ltac:(lia)) as (S1 & I1 & W1 & _ & C1).
  destruct (dp_again _ S1) as (S2 & I2 & W2 & _ & _ & C2). rewrite C1 in C2. rewrite I1 in I2. rewrite W1 in W2.
  pose proof (dp_half_in _ a S2 I2 W2 ltac:(rewrite C2; exact Hc) Ha Hev) as Hr.
  destruct (x_read_dr 16 _) as [v d3]. destruct Hr as [S3 He]. rewrite C2 in He.
  destruct (dp_done d3 S3) as (S4 & _ & _ & _ & _ & ->). auto.
Qed.

Lemma port_write d a v : dp_stage d = AtIdle -> dp_lo <= a < 2 ^ 32 -> a mod 2 = 0 -> 0 <= v < 0x10000 ->
  let d' := RDC.WriteMem16 a v d in
  dp_stage d' = AtIdle /\ exists n, (n <= dp_polls)%nat /\
    forall e, eon_write dp_sec_base dp_sec_len n a v (dp_chip d) = Some e -> dp_chip d' = e.
Proof.
  intros Hs Ha Hev Hv. pose proof dp_lo_pos. unfold RDC.WriteMem16.
  destruct (access_ok a 0x1d d Hs ltac:(lia) ltac:(lia)) as (S1 & I1 & W1 & _ & C1).
  destruct (dp_again _ S1) as (S2 & I2 & W2 & _ & _ & C2). rewrite C1 in C2. rewrite I1 in I2. rewrite W1 in W2.
  destruct (dp_half_out _ a v S2 I2 W2 Ha Hev Hv) as (S3 & n & Hn & He). rewrite C2 in He.
  destruct (dp_done _ S3) as (S4 & _ & _ & _ & _ & C4). split; [exact S4|]. exists n. split; [exact Hn|].
  intros e E. rewrite C4. auto.
Qed.

Lemma port_byte d b : dp_stage d = AtShift -> port_ptr d = Some b -> quiet (dp_chip d) -> dp_lo <= b < 2 ^ 32 ->
  let '(v, d') := x_read_dr 8 d in
  Z.land v 0xff = e_mem (dp_chip d) b /\ dp_stage d' = AtUpdate /\ port_ptr d' = Some (b + 1) /\
  dp_chip d' = dp_chip d.
Proof.
  intros Hs Hp Hq Hb. destruct (port_ptr_some d b Hp) as (a & W & I & ->).
  pose proof (dp_byte_in d a Hs I W Hq Hb) as Hr. destruct (x_read_dr 8 d) as [v d'].
  destruct Hr as (Hv & S1 & I1 & W1 & R1 & _ & C1). split; [exact Hv|]. split; [exact S1|]. split; [|exact C1].
  unfold port_ptr. rewrite W1, W, I1, I, R1. cbn. f_equal. lia.
Qed.

(** Its memory accesses make the port the one the programmer of the board is
    verified against. *)
#[export] Instance port_flash : @EonFlash D (RDC.rdc_ops TO).
Proof.
  refine (@Build_EonFlash D (RDC.rdc_ops TO) dp_lo dp_polls dp_sec_base dp_sec_len dp_chip dp_stage dp_ir port_ptr
    dp_lo_pos dp_lo_even dp_top dp_sector dp_patience port_read port_write _ _ _ _ _ _ port_byte).
  - intros d c Hs Hc. destruct (dp_instr d c Hs Hc) as (? & ? & _ & _ & _ & ?). auto.
  - intros d Hs. destruct (dp_shift d Hs) as (? & ? & _ & _ & _ & ?). auto.
  - intros d v Hs Hi. destruct (dp_word d v 32 Hs) as (? & ? & _ & _ & _ & ?); [congruence|]. auto.
  - intros d Hs. destruct (dp_again d Hs) as (? & Sm). pose proof (port_ptr_same _ _ Sm).
    destruct Sm as (? & _ & _ & _ & ?). auto.
  - intros d Hs. destruct (dp_done d Hs) as (? & _ & _ & _ & _ & ?). auto.
  - intros d a Hs Ha. destruct (access_ok a 0x18 d Hs Ha ltac:(lia)) as (S1 & I1 & W1 & R1 & C1).
    split; [exact S1|]. split; [|exact C1]. unfold port_ptr. cbn [jtag_MemAccess RDC.rdc_ops].
    rewrite W1, I1, R1. cbn. f_equal. lia.
Defined.

(** *** A session *)

(** The query at the end of a round, or alone. *)
Lemma query_ok d : dp_stage d = AtIdle ->
  let '(v, d') := x_read_dr 16 (x_idle_to_shift_dr (x_write_ir 0x0f d)) in
  v = match dp_lag d with O => 0x8381 | S _ => 0 end /\
  dp_stage (x_update_to_idle d') = AtIdle /\ dp_lag (x_update_to_idle d') = pred (dp_lag d) /\
  dp_chip (x_update_to_idle d') = dp_chip d.
Proof.
  intros Hs. destruct (dp_instr d 0x0f Hs eq_refl) as (S1 & I1 & _ & _ & L1 & C1).
  destruct (dp_shift _ S1) as (S2 & I2 & _ & _ & L2 & C2). rewrite I1 in I2. rewrite L1 in L2. rewrite C1 in C2.
  pose proof (dp_status _ S2 I2) as Hr. destruct (x_read_dr 16 _) as [v d']. rewrite L2, C2 in Hr.
  destruct Hr as (Hv & S3 & L3 & C3). destruct (dp_done d' S3) as (S4 & _ & _ & _ & L4 & C4).
  split; [exact Hv|]. split; [exact S4|]. split; congruence.
Qed.

Lemma Status_ok d : dp_stage d = AtIdle ->
  let '(v, d') := RDC.Status d in
  v = match dp_lag d with O => 0x8381 | S _ => 0 end /\
  dp_stage d' = AtIdle /\ dp_lag d' = pred (dp_lag d) /\ dp_chip d' = dp_chip d.
Proof.
  intros Hs. pose proof (query_ok d Hs) as Hq. unfold RDC.Status, RDC.ReadData. cbn [RDC.read_loop].
  destruct (x_read_dr 16 _) as [v d']. exact Hq.
Qed.

(** The rounds of the start: one more than the status stays away. *)
Lemma init_rounds k : forall count e N, dp_stage e = AtReset -> (dp_lag e <= k)%nat ->
  count + Z.of_nat k <= 1000000 -> (k < N)%nat ->
  exists e', nloop N RDC.init_step (count, e) = inr (0x8381, e') /\
    dp_stage e' = AtIdle /\ dp_chip e' = dp_chip e.
Proof.
  induction k as [k IH] using lt_wf_ind; intros count e N Hs Hk Hc HN. destruct N as [|N]; [lia|].
  cbn [nloop]. unfold RDC.init_step at 1. rewrite !write_ir_steps.
  destruct (dp_leave e Hs) as (S1 & L1 & C1). destruct (dp_cpu_reset _ S1) as (S2 & L2 & C2).
  pose proof (query_ok _ S2) as Hq.
  destruct (read_dr_steps 16 (x_idle_to_shift_dr (x_write_ir 15 (x_write_ir 1 (x_reset_to_idle e))))) as [E1 E2].
  destruct (x_shift_out 16 _) as [v f]. destruct (x_read_dr 16 _) as [v' f']. cbn [fst snd] in E1, E2.
  rewrite E1, E2. destruct Hq as (Hv & S3 & L3 & C3). rewrite Hv. destruct (dp_lag (x_write_ir 1 _)) as [|n] eqn:El.
  - cbn [Z.eqb negb]. eexists. split; [reflexivity|]. split; [exact S3|congruence].
  - cbn [Z.eqb negb]. destruct (dp_enter _ S3) as (S4 & L4 & C4).
    rewrite (proj2 (Z.ltb_ge 1000000 (count + 1))) by lia.
    destruct (IH (pred k) ltac:(lia) (count + 1) _ N S4 ltac:(lia) ltac:(lia) ltac:(lia)) as (e' & E' & S5 & C5).
    exists e'. split; [exact E'|]. split; [exact S5|congruence].
Qed.

Lemma init_ready_ok d : exists d', RDC.init_ready d = (0x8381, d') /\ dp_stage d' = AtIdle /\ dp_chip d' = dp_chip d.
Proof.
  destruct (dp_any d) as (S1 & L1 & C1). pose proof (dp_prompt (x_any_to_reset d)) as Hp.
  destruct (init_rounds (dp_lag (x_any_to_reset d)) 0 _ (Pos.to_nat 1000002) S1 ltac:(lia) ltac:(lia) ltac:(lia))
    as (d' & E & S2 & C2).
  exists d'. unfold RDC.init_ready. rewrite ploop_nloop, E. split; [reflexivity|]. split; [exact S2|congruence].
Qed.

(** Code loaded: every word of it, as 32 bits. *)
Lemma load_code code : forall d, code <> [] -> dp_stage d = AtShift -> dp_ir d = 0x06 ->
  let d' := RDC.write_loop code 32 d in
  dp_stage d' = AtIdle /\ dp_ir d' = 0x06 /\ dp_words d' = dp_words d ++ map u32 code /\ dp_chip d' = dp_chip d.
Proof.
  induction code as [|v code IH]; intros d Hne Hs Hi; [congruence|]. cbn [RDC.write_loop map].
  destruct (dp_word d v 32 Hs) as (S1 & I1 & W1 & _ & _ & C1); [congruence|].
  destruct code as [|v2 code].
  - destruct (dp_done _ S1) as (S2 & I2 & W2 & _ & _ & C2). cbn [RDC.write_loop map].
    split; [exact S2|]. split; [congruence|]. split; [|congruence]. rewrite W2, W1. reflexivity.
  - destruct (dp_again _ S1) as (S2 & I2 & W2 & _ & _ & C2).
    destruct (IH _ ltac:(discriminate) S2 ltac:(congruence)) as (S3 & I3 & W3 & C3).
    split; [exact S3|]. split; [exact I3|]. split; [|congruence].
    rewrite W3, W2, W1, <- app_assoc. reflexivity.
Qed.

Lemma RunCode_ok code d : code <> [] -> dp_harmless (map u32 code) -> dp_stage d = AtIdle ->
  exists d', RDC.RunCode code d = (true, d') /\ dp_stage d' = AtIdle /\ dp_chip d' = dp_chip d.
Proof.
  intros Hne Hh Hs. unfold RDC.RunCode, RDC.WriteData. destruct code as [|v code]; [congruence|].
  destruct (dp_instr d 0x06 Hs eq_refl) as (S1 & I1 & W1 & _ & _ & C1).
  destruct (dp_shift _ S1) as (S2 & I2 & W2 & _ & _ & C2).
  destruct (load_code (v :: code) _ Hne S2 ltac:(congruence)) as (S3 & I3 & W3 & C3).
  rewrite W2, W1, app_nil_l in W3. rewrite <- W3 in Hh.
  destruct (dp_execute _ S3 I3 Hh) as (S4 & L4 & C4).
  pose proof (Status_ok _ S4) as Q1. destruct (RDC.Status _) as [v1 d5]. destruct Q1 as (_ & S5 & L5 & C5).
  pose proof (Status_ok _ S5) as Q2. destruct (RDC.Status d5) as [v2 d6]. destruct Q2 as (-> & S6 & _ & C6).
  replace (dp_lag d5) with 0%nat by lia. exists d6. split; [reflexivity|]. split; [exact S6|congruence].
Qed.

(** The lines of the script of a session, and what is asked of the assembler:
    code for each, which harms nothing. *)
Definition session_code : list (list Z) :=
  [str "       mov dx, 0xcf8         "; str "       mov eax, 0x80003840   "; str "       out dx, eax";
   str "       mov dx, 0xcfc         "; str "       mov eax, 0x87ff0600   "; str "       out dx, eax"].

Definition nop_filled (machine : list Z) : list Z :=
  machine ++ repeat 0x90 (Z.to_nat ((- Z.of_nat (length machine)) mod 4)).

Definition assembles (nasm : list Z -> option (list Z)) : Prop :=
  Forall (fun code => exists machine, nasm code = Some machine /\ machine <> [] /\
    dp_harmless (map u32 (RDC.unpack_words (nop_filled machine)))) session_code.

Lemma nop_filled_words machine : machine <> [] -> RDC.unpack_words (nop_filled machine) <> [].
Proof.
  intros Hne. assert (Hl : (4 <= length (nop_filled machine))%nat).
  { unfold nop_filled. rewrite length_app, repeat_length. destruct machine as [|b m]; [congruence|].
    cbn [length]. set (l := Z.of_nat (S (length m))) in *. assert (0 < l) by lia.
    pose proof (Z.mod_pos_bound (- l) 4 ltac:(lia)). pose proof (Z.div_mod (- l) 4 ltac:(lia)). lia. }
  destruct (nop_filled machine) as [|b0 [|b1 [|b2 [|b3 bs]]]]; cbn [length] in Hl; try lia. discriminate.
Qed.

Definition harmless_line (nasm : list Z -> option (list Z)) (line : list Z) : Prop :=
  let code := nth 0 (RawEth.RawEth.split_at 0x23 line) [] in
  ConfigTools.ConfigTools.strip code = [] \/
  exists words, RDC.Nasm nasm code = Some words /\ words <> [] /\ dp_harmless (map u32 words).

#[local] Existing Instance RDC.rdc_ops.

Lemma run_line_ok code d : code <> [] -> dp_harmless (map u32 code) -> fl_ready d ->
  exists d', RDC.RunCode code (RDC.ResetFlags d) = (true, d') /\ fl_ready d' /\ fl_mem d' = fl_mem d.
Proof.
  intros Hne Hh Hr. destruct (fl_flags d Hr) as [[S1 Q1] M1].
  destruct (RunCode_ok code (RDC.ResetFlags d) Hne Hh S1) as (d' & E & S2 & C2). exists d'.
  split; [exact E|]. unfold fl_ready, fl_mem. cbn [fl_chip fl_stage port_flash]. rewrite C2. split; [split; assumption|exact M1].
Qed.

Lemma exec_lines_ok nasm exec lines : forall d, Forall (harmless_line nasm) lines -> fl_ready d ->
  exists d', RDC.exec_lines nasm exec lines d = (true, d') /\ fl_ready d' /\ fl_mem d' = fl_mem d.
Proof.
  induction lines as [|line lines IH]; intros d Hl Hr; cbn [RDC.exec_lines]; [eauto|].
  apply Forall_cons in Hl as [Hline Hl].
  assert (Hone : exists d', RDC.exec_line nasm exec line d = (true, d') /\ fl_ready d' /\ fl_mem d' = fl_mem d).
  { unfold RDC.exec_line. destruct Hline as [-> | (ws & En & Hne & Hh)]; [eauto|].
    destruct (ConfigTools.ConfigTools.strip _); [eauto|]. rewrite En.
    destruct (run_line_ok ws d Hne Hh Hr) as (d' & E & H'). destruct ws as [|w ws]; [congruence|]. eauto. }
  destruct Hone as (d1 & E1 & R1 & M1). rewrite E1. destruct (IH d1 Hl R1) as (d' & E' & R' & M').
  exists d'. split; [exact E'|]. split; [exact R'|congruence].
Qed.

(** A session starts from wherever the TAP is. *)
Lemma RDC_init_ok nasm exec d : assembles nasm -> quiet (dp_chip d) ->
  exists d', RDC.RDC_init nasm exec d = (true, d') /\ fl_ready d' /\ fl_mem d' = fl_mem d.
Proof.
  intros Ha Hq. destruct (init_ready_ok d) as (d1 & E1 & S1 & C1). unfold RDC.RDC_init, RDC.Exec. rewrite E1.
  destruct (exec_lines_ok nasm exec (RawEth.RawEth.split_at 10 RDC.init_script) d1) as (d' & E & R & M).
  - assert (El : map (fun l => nth 0 (RawEth.RawEth.split_at 0x23 l) []) (RawEth.RawEth.split_at 10 RDC.init_script) =
             [] :: session_code ++ [str "       "]) by (vm_compute; reflexivity).
    apply (Forall_map (fun l => nth 0 (RawEth.RawEth.split_at 0x23 l) []) (fun code =>
      ConfigTools.ConfigTools.strip code = [] \/
      exists words, RDC.Nasm nasm code = Some words /\ words <> [] /\ dp_harmless (map u32 words))).
    rewrite El. constructor; [left; reflexivity|]. apply Forall_app. split; [|repeat constructor].
    eapply Forall_impl; [exact Ha|]. intros code (machine & En & Hne & Hh). right.
    exists (RDC.unpack_words (nop_filled machine)). unfold RDC.Nasm. rewrite En.
    split; [reflexivity|]. split; [apply nop_filled_words, Hne|exact Hh].
  - split; [exact S1|]. cbn [fl_chip port_flash]. rewrite C1. exact Hq.
  - exists d'. split; [exact E|]. split; [exact R|]. rewrite M. unfold fl_mem. cbn [fl_chip port_flash]. rewrite C1. reflexivity.
Qed.

(** C16: program.py and dump.py are inverse.  The target is a debug port with the
    instructions rdc.py documents, its TAP anywhere, that answers a status query
    within a million rounds of a reset and on the second query after a run of
    code; behind it is a flash with the documented Eon commands and a 64 KiB top
    sector, which waits for a command and ends an operation within fewer looks
    than [fuel].  nasm gives, for each line of the script of a session, code that
    is not empty and leaves the flash alone.  Then program.py with a file of
    whole half-words, of 64 KiB at most, terminates without an exception and
    leaves the flash below the top sector as it was, and a later session of
    dump.py writes out the file, filled with 0xff. *)
Theorem host_program_dump nasm exec fuel (contents : list Z) (d : D) :
  (dp_polls < fuel)%nat -> assembles nasm -> quiet (dp_chip d) -> Forall (fun b => 0 <= b < 0x100) contents ->
  Nat.even (length contents) = true -> Z.of_nat (length contents) <= 0x10000 ->
  exists d1 d2, RDC.program_py nasm exec fuel (Some contents) d = Some (true, d1) /\
    (forall x, dp_lo <= x < 0xffff0000 -> e_mem (dp_chip d1) x = e_mem (dp_chip d) x) /\
    RDC.dump_py nasm exec d1 = (Some (padded contents), d2).
Proof.
  intros Hfuel Ha Hq. apply (program_then_dump (EF := port_flash) fuel Hfuel nasm exec (fun e => quiet (dp_chip e))).
  - intros e He. apply RDC_init_ok; assumption.
  - intros e [_ He]. exact He.
  - exact Hq.
Qed.

End DebugPort.

(** ** An instance *)

(** A debug port in front of the chip, whose status stays away three times. *)
Record rig : Type := mkRig {
  r_stage : stage; r_ir : Z; r_words : list Z; r_reads : Z; r_lag : nat; chip : eon
}.

Definition r_at (st : stage) (d : rig) : rig := mkRig st (r_ir d) (r_words d) (r_reads d) (r_lag d) (chip d).

Definition lag (d : rig) : nat := Nat.min 3 (r_lag d).

Definition rig_ir (c : Z) (d : rig) : rig :=
  mkRig AtIdle c [] 0 (if c =? 0x02 then 1%nat else lag d) (chip d).

Definition rig_write (v : Z) (n : nat) (d : rig) : rig :=
  let e := match r_words d with
           | [a; c] => if (r_ir d =? 0x11) && (c =? 0x1d) then eon_put a v (chip d) else chip d
           | _ => chip d
           end in
  mkRig AtUpdate (r_ir d) (r_words d ++ [v mod 2 ^ Z.of_nat n]) (r_reads d) (lag d) e.

(** What is read, the status it leaves and the chip after it. *)
Definition rig_out (d : rig) : Z * nat * eon :=
  if r_ir d =? 0x0f then (match lag d with O => 0x8381 | S _ => 0 end, pred (lag d), chip d)
  else match r_words d with
       | [a; c] => if c =? 0x19 then let '(v, e) := eon_look a (chip d) in (v, lag d, e)
                   else (e_mem (chip d) (a + r_reads d), lag d, chip d)
       | _ => (0, lag d, chip d)
       end.

Definition rig_read (st : stage) (n : nat) (d : rig) : Z * rig :=
  let '(v, l, e) := rig_out d in
  (if (n =? 8)%nat then Z.land v 0xff else v, mkRig st (r_ir d) (r_words d) (r_reads d + 1) l e).

#[export] Instance rig_ops : TapOps rig := {|
  x_any_to_reset := r_at AtReset; x_idle_to_shift_ir := fun d => d; x_idle_to_reset := r_at AtReset;
  x_idle_to_shift_dr := r_at AtShift; x_reset_to_idle := r_at AtIdle; x_update_to_shift_dr := r_at AtShift;
  x_update_to_idle := r_at AtIdle; x_shift_to_idle := r_at AtIdle;
  x_shift_in := fun c _ => rig_ir c; x_shift_out := rig_read AtShift; x_write_ir := rig_ir;
  x_read_dr := rig_read AtUpdate; x_write_dr := rig_write
|}.

#[export] Instance rig_routines : @CableRoutines rig rig_ops.
Proof.
  split.
  - intros d. cbn [x_read_dr rig_ops]. unfold rig_read. destruct (rig_out d) as [[v l] e]. cbn [fst Nat.eqb].
    change 0xff with (Z.ones 8). rewrite Z.land_ones by lia. apply Z.mod_pos_bound. lia.
  - reflexivity.
  - intros n d. cbn [x_read_dr x_shift_out x_shift_to_idle x_update_to_idle rig_ops]. unfold rig_read.
    destruct (rig_out d) as [[v l] e]. split; reflexivity.
Qed.

Lemma lag_idem n : Nat.min 3 (Nat.min 3 n) = Nat.min 3 n.
Proof. lia. Qed.

#[export] Instance rig_port : DebugPort rig.
Proof.
  refine {| dp_lo := j_lo; dp_polls := 2; dp_sec_base := j_sec_base; dp_sec_len := j_sec_len;
            dp_harmless := fun code => code <> []; dp_stage := r_stage; dp_ir := r_ir; dp_words := r_words;
            dp_reads := r_reads; dp_lag := lag; dp_chip := chip |};
    try (intros; repeat split; fail).
  - vm_compute. discriminate.
  - vm_compute. repeat split; discriminate.
  - intros a Ha. apply j_sector. lia.
  - vm_compute. discriminate.
  - intros d. unfold lag. lia.
  - intros d c _ Hc. repeat split. cbn [x_write_ir rig_ops rig_ir]. unfold lag. cbn [r_lag rig_ir].
    destruct (Z.eqb_spec c 2) as [->|]; [discriminate|]. apply lag_idem.
  - intros d _. split; [reflexivity|]. split; [|reflexivity]. unfold lag. cbn [x_write_ir rig_ops rig_ir r_lag Z.eqb Pos.eqb]. unfold lag. lia.
  - intros d _ _ _. repeat split. unfold lag. cbn. lia.
  - intros d v n _ Hw. cbn [x_write_dr rig_ops]. unfold rig_write. cbn [r_stage r_ir r_words r_reads]. repeat split.
    + unfold lag at 1. cbn [r_lag]. apply lag_idem.
    + cbn [chip]. destruct (r_words d) as [|a [|c [|]]]; try reflexivity.
      destruct (Z.eqb_spec (r_ir d) 0x11) as [E|]; [|reflexivity]. specialize (Hw E). cbn [length] in Hw. lia.
  - intros d _ Hi. cbn [x_read_dr rig_ops]. unfold rig_read, rig_out. rewrite Hi. cbn [Z.eqb Pos.eqb Nat.eqb].
    repeat split. unfold lag. cbn [r_lag]. unfold lag. lia.
  - intros d a v _ Hi Hw _ _ _. split; [reflexivity|]. exists 2%nat. split; [lia|]. intros e E.
    cbn [x_write_dr rig_ops]. unfold rig_write. cbn [chip]. rewrite Hi, Hw. cbn [Z.eqb Pos.eqb andb]. apply eon_put_ok, E.
  - intros d a _ Hi Hw _ _ _. cbn [x_read_dr rig_ops]. unfold rig_read, rig_out. rewrite Hi, Hw. cbn [Z.eqb Pos.eqb Nat.eqb].
    pose proof (eon_look_read a (chip d)) as Hr. destruct (eon_look a (chip d)) as [v e]. split; [reflexivity|exact Hr].
  - intros d a _ Hi Hw (_ & _ & Hb) _. cbn [x_read_dr rig_ops]. unfold rig_read, rig_out. rewrite Hi, Hw.
    cbn [Z.eqb Pos.eqb Nat.eqb]. split.
    + rewrite <- Z.land_assoc. change (Z.land 0xff 0xff) with (Z.ones 8).
      rewrite Z.land_ones, Z.mod_small by (try lia; apply Hb). reflexivity.
    + repeat split. unfold lag at 1. cbn [r_lag]. apply lag_idem.
Defined.

(** An assembler that gives two no-operations for any line. *)
Definition sample_nasm (line : list Z) : option (list Z) := Some [0x90; 0x90].

Definition no_exec (line : list Z) (d : rig) : bool * rig := (false, d).

Lemma sample_assembles : assembles sample_nasm.
Proof. apply Forall_forall. intros code _. eexists. split; [reflexivity|]. split; discriminate. Qed.

Definition rig0 : rig := mkRig AtUpdate 0 [] 0 3 eon0.

Definition small_file : list Z := [0x42; 0x69; 0xff; 0xff; 0x62; 0x62].

Lemma host_program_dump_witness : exists d1 d2,
  RDC.program_py sample_nasm no_exec 3 (Some small_file) rig0 = Some (true, d1) /\
  (forall x, j_lo <= x < 0xffff0000 -> e_mem (chip d1) x = e_mem (chip rig0) x) /\
  RDC.dump_py sample_nasm no_exec d1 = (Some (padded small_file), d2).
Proof.
  apply (host_program_dump (DP := rig_port) sample_nasm no_exec 3 small_file rig0).
  - cbn. lia.
  - exact sample_assembles.
  - exact eon0_quiet.
  - unfold small_file. repeat constructor; discriminate.
  - reflexivity.
  - discriminate.
Defined.

(** ** Where the tools fall short *)

(** A line the assembler refuses is not run as Python, as the interpreter means
    to: the missing output has no length, which raises. *)
Lemma refused_line_raises {D : Type} {TO : TapOps D} nasm exec line (d : D) :
  ConfigTools.ConfigTools.strip (nth 0 (RawEth.RawEth.split_at 0x23 line) []) <> [] ->
  nasm (nth 0 (RawEth.RawEth.split_at 0x23 line) []) = None ->
  RDC.exec_line nasm exec line d = (false, d).
Proof. intros Hs Hn. unfold RDC.exec_line, RDC.Nasm. rewrite Hn. destruct (ConfigTools.ConfigTools.strip _); [congruence|reflexivity]. Qed.

Definition odd_end (r : option (bool * rig)) : option (bool * list Z) :=
  match r with Some (ok, d) => Some (ok, load_bytes (e_mem (chip d)) 0xffff0000 4) | None => None end.

(** A file of odd length: the sector is erased, the half-words are programmed and
    the last byte raises; it is not in the flash. *)
Lemma odd_file_raises :
  odd_end (RDC.program_py sample_nasm no_exec 3 (Some [0x42; 0x69; 0x62]) rig0) = Some (false, [0x42; 0x69; 0xff; 0xff]).
Proof. vm_compute. reflexivity. Qed.

End HostJtagSpec.
