(* ===== verification/GpioCustom.v ===== *)
(** The modules that register platform devices for GPIO drivers from their
    module parameters (w1-gpio-custom.c, pwm-gpio-custom.c, rotary-gpio-custom.c
    and i2c-gpio-custom.c), on the platform bus (drivers/base/platform.c).

    The four modules are one program that differs in the name of the device, the
    number of parameters and the data passed on ([module_desc]).  [device_add] of
    the driver core and the allocator are parameters. *)
From Stdlib Require Import ZArith Lia.
From stdpp Require Import base list numbers option strings.
From S2P Require Import Prelude.

Module GpioCustom.

Definition EINVAL : Z := 22.
Definition ENOMEM : Z := 12.
Definition ENODEV : Z := 19.

(** ** Platform devices *)

(** What the modules pass on. *)
Inductive platform_data : Type :=
| w1_gpio_platform_data (pin is_open_drain enable_external_pullup : Z)
| gpio_pwm_platform_data (gpio : Z)
| rotary_encoder_platform_data (steps axis gpio_a gpio_b inverted_a inverted_b relative_axis rollover : Z)
| i2c_gpio_platform_data (sda_pin scl_pin udelay timeout sda_is_open_drain scl_is_open_drain scl_is_output_only : Z).

(** A device with its reference count; [added] once it is in the hierarchy. *)
Record platform_device : Type := mkPdev {
  name : list Z; id : Z; data : option platform_data; refs : Z; added : bool
}.

(** Every device ever allocated, by handle, and the number of allocations tried. *)
Record kernel : Type := mkK { pdevs : list platform_device; allocs : nat }.

Section Platform.
(** Whether the n-th allocation succeeds; how adding a device with this name and
    id ends, among the devices there are. *)
Context (kmalloc : nat -> bool) (device_add : list platform_device -> list Z -> Z -> Z).
(** The references the driver core's own lists take of a device added. *)
Context (held : Z).

Definition update (h : nat) (f : platform_device -> platform_device) (k : kernel) : kernel :=
  mkK (alter f h (pdevs k)) (allocs k).

Definition platform_device_alloc (nm : list Z) (i : Z) (k : kernel) : option nat * kernel :=
  if kmalloc (allocs k)
  then (Some (length (pdevs k)), mkK (pdevs k ++ [mkPdev nm i None 1 false]) (S (allocs k)))
  else (None, mkK (pdevs k) (S (allocs k))).

Definition platform_device_add_data (h : nat) (d : platform_data) (k : kernel) : Z * kernel :=
  let k' := mkK (pdevs k) (S (allocs k)) in
  if kmalloc (allocs k)
  then (0, update h (fun p => mkPdev (name p) (id p) (Some d) (refs p) (added p)) k')
  else (- ENOMEM, k').

(** The devices of the modules have no resources: the loops over them do nothing. *)
Definition platform_device_add (h : nat) (k : kernel) : Z * kernel :=
  match pdevs k !! h with
  | None => (- EINVAL, k)
  | Some p =>
      let ret := device_add (pdevs k) (name p) (id p) in
      if ret =? 0
      then (ret, update h (fun p => mkPdev (name p) (id p) (data p) (refs p + held) true) k)
      else (ret, k)
  end.

(** Dropping a reference, nothing else. *)
Definition platform_device_put (h : nat) (k : kernel) : kernel :=
  update h (fun p => mkPdev (name p) (id p) (data p) (refs p - 1) (added p)) k.

(** ** A module *)

Record module_desc : Type := mkDesc {
  m_name : list Z; m_required : nat; m_count_max : nat; m_data : (nat -> Z) -> platform_data
}.

(** The handles in [devices], up to [nr_devices]. *)
Record custom : Type := mkC { devices : list nat; kern : kernel }.

Fixpoint cleanup_loop (hs : list nat) (k : kernel) : kernel :=
  match hs with [] => k | h :: hs' => cleanup_loop hs' (platform_device_put h k) end.

Definition cleanup (s : custom) : custom := mkC (devices s) (cleanup_loop (devices s) (kern s)).

Context (m : module_desc).

(** A bus by the values given for it: the rest of its array is zero. *)
Definition add_one (params : list Z) (s : custom) : Z * custom :=
  let p := fun i => nth i params 0 in
  if (length params =? 0)%nat then (0, s)
  else if (length params <? m_required m)%nat then (- EINVAL, s)
  else
    match platform_device_alloc (m_name m) (s32 (p 0%nat)) (kern s) with
    | (None, k) => (- ENOMEM, mkC (devices s) k)
    | (Some pdev, k) =>
        let '(err, k) := platform_device_add_data pdev (m_data m p) k in
        if negb (err =? 0) then (err, mkC (devices s) (platform_device_put pdev k))
        else
          let '(err, k) := platform_device_add pdev k in
          if negb (err =? 0) then (err, mkC (devices s) (platform_device_put pdev k))
          else (0, mkC (devices s ++ [pdev]) k)
    end.

Fixpoint add_all (buses : list (list Z)) (s : custom) : Z * custom :=
  match buses with
  | [] => (0, s)
  | params :: buses' =>
      let '(err, s) := add_one params s in
      if negb (err =? 0) then (err, s) else add_all buses' s
  end.

(** [buses]: one list of values for each bus parameter of the module. *)
Definition probe (buses : list (list Z)) (k : kernel) : Z * custom :=
  let '(err, s) := add_all (take (m_count_max m) buses) (mkC [] k) in
  if negb (err =? 0) then (err, cleanup s)
  else match devices s with [] => (- ENODEV, cleanup s) | _ => (0, s) end.

End Platform.

(** ** The four modules *)

Definition flag (b : bool) : Z := if b then 1 else 0.

Definition w1_gpio_custom : module_desc := {|
  m_name := str "w1-gpio"; m_required := 3; m_count_max := 4;
  m_data := fun p => w1_gpio_platform_data (p 1%nat) (flag (negb (p 2%nat =? 0))) 0
|}.

Definition pwm_gpio_custom : module_desc := {|
  m_name := str "gpio_pwm"; m_required := 2; m_count_max := 10;
  m_data := fun p => gpio_pwm_platform_data (p 1%nat)
|}.

Definition rotary_gpio_custom : module_desc := {|
  m_name := str "rotary-gpio"; m_required := 5; m_count_max := 4;
  m_data := fun p =>
    let inv := flag (p 5%nat =? 1) in
    rotary_encoder_platform_data (p 1%nat) (p 2%nat) (p 3%nat) (p 4%nat) inv inv 0 0
|}.

Definition i2c_gpio_custom : module_desc := {|
  m_name := str "i2c-gpio"; m_required := 3; m_count_max := 4;
  m_data := fun p => i2c_gpio_platform_data (p 1%nat) (p 2%nat) (p 3%nat) (p 4%nat)
    (flag (negb (p 5%nat =? 0))) (flag (negb (p 6%nat =? 0))) (flag (negb (p 7%nat =? 0)))
|}.

End GpioCustom.
