(* ===== verification/GpioCustomSpec.v ===== *)
(** What the GPIO platform-data modules register, how they fail and what they
    leave behind. *)
From Stdlib Require Import ZArith Lia.
From stdpp Require Import base list numbers option strings.
From S2P Require Import Prelude GpioCustom.

Module GpioCustomSpec.
Import GpioCustom.

Section Spec.
Context (kmalloc : nat -> bool) (device_add : list platform_device -> list Z -> Z -> Z) (held : Z) (m : module_desc).

(** The buses given, and those before the first with too few parameters. *)
Definition given (buses : list (list Z)) : list (list Z) :=
  List.filter (fun b => negb (length b =? 0)%nat) (take (m_count_max m) buses).

Definition short (b : list Z) : bool := (length b <? m_required m)%nat.

Fixpoint reached (bs : list (list Z)) : list (list Z) :=
  match bs with [] => [] | b :: bs' => if short b then [] else b :: reached bs' end.

Definition bus_id (b : list Z) : Z := s32 (nth 0 b 0).

(** The device of a bus, in the hierarchy, with a reference count. *)
Definition device (r : Z) (b : list Z) : platform_device :=
  mkPdev (m_name m) (bus_id b) (Some (m_data m (fun i => nth i b 0))) r true.

(** No device of this name and id is in the hierarchy. *)
Definition fresh (l : list platform_device) (i : Z) : Prop :=
  forall p, p ∈ l -> added p = true -> name p = m_name m -> id p <> i.

Definition probe_result (gs : list (list Z)) : Z :=
  if existsb short gs then - EINVAL else match gs with [] => - ENODEV | _ => 0 end.

Context (Hmem : forall n, kmalloc n = true).
Context (Hadd : forall l i, fresh l i -> device_add l (m_name m) i = 0).

Lemma alter_middle {A} (f : A -> A) l x l' : alter f (length l) (l ++ x :: l') = l ++ f x :: l'.
Proof. rewrite alter_app_r_alt, Nat.sub_diag by lia. reflexivity. Qed.

Lemma fresh_last l i p : added p = false -> fresh l i -> fresh (l ++ [p]) i.
Proof.
  intros Hp Hf q Hq Ha Hn. apply elem_of_app in Hq as [Hq|Hq]; [exact (Hf q Hq Ha Hn)|].
  apply list_elem_of_singleton in Hq. congruence.
Qed.

Lemma add_one_ok b s : length b <> 0%nat -> short b = false -> fresh (pdevs (kern s)) (bus_id b) ->
  add_one kmalloc device_add held m b s =
  (0, mkC (devices s ++ [length (pdevs (kern s))])
        (mkK (pdevs (kern s) ++ [device (1 + held) b]) (S (S (allocs (kern s)))))).
Proof.
  intros Hl Hs Hf. unfold add_one. rewrite (proj2 (Nat.eqb_neq _ _) Hl). unfold short in Hs. rewrite Hs.
  unfold platform_device_alloc, platform_device_add_data. rewrite !Hmem. cbn [pdevs allocs Z.eqb negb].
  unfold platform_device_add, update. cbn [pdevs allocs]. rewrite alter_middle. cbn [name id refs added].
  rewrite list_lookup_middle by reflexivity. cbn [name id]. fold (bus_id b). rewrite Hadd by (apply fresh_last; [reflexivity|exact Hf]).
  cbn [Z.eqb negb]. unfold update. cbn [pdevs allocs]. rewrite alter_middle. reflexivity.
Qed.

Lemma fresh_device l b c r : bus_id b <> bus_id c -> fresh l (bus_id c) -> fresh (l ++ [device r b]) (bus_id c).
Proof.
  intros Hne Hf q Hq Ha Hn. apply elem_of_app in Hq as [Hq|Hq]; [exact (Hf q Hq Ha Hn)|].
  apply list_elem_of_singleton in Hq. subst q. exact Hne.
Qed.

(** The loop over the buses that are given. *)
Lemma add_all_ok bs : forall s, let gs := List.filter (fun b => negb (length b =? 0)%nat) bs in
  NoDup (map bus_id gs) -> Forall (fun b => fresh (pdevs (kern s)) (bus_id b)) gs ->
  exists a, add_all kmalloc device_add held m bs s =
    (if existsb short gs then - EINVAL else 0,
     mkC (devices s ++ seq (length (pdevs (kern s))) (length (reached gs)))
       (mkK (pdevs (kern s) ++ map (device (1 + held)) (reached gs)) a)).
Proof.
  induction bs as [|b bs IH]; intros s; cbn [List.filter add_all].
  - intros _ _. exists (allocs (kern s)). cbn. rewrite !app_nil_r. destruct s as [ds [ps a]]. reflexivity.
  - destruct (Nat.eqb_spec (length b) 0) as [E|E]; cbn [negb].
    + intros Hn Hf. replace (add_one kmalloc device_add held m b s) with (0, s)
        by (unfold add_one; rewrite (proj2 (Nat.eqb_eq _ _) E); reflexivity).
      cbn [Z.eqb negb]. apply IH; assumption.
    + cbn [map existsb reached]. intros Hn Hf. apply NoDup_cons in Hn as [Hnotin Hn].
      apply Forall_cons in Hf as [Hb Hf]. destruct (short b) eqn:Hs; cbn [orb].
      * exists (allocs (kern s)). unfold add_one. rewrite (proj2 (Nat.eqb_neq _ _) E). unfold short in Hs. rewrite Hs.
        cbn. rewrite !app_nil_r. destruct s as [ds [ps a]]. reflexivity.
      * rewrite add_one_ok by assumption. cbn [Z.eqb negb].
        destruct (IH (mkC (devices s ++ [length (pdevs (kern s))])
          (mkK (pdevs (kern s) ++ [device (1 + held) b]) (S (S (allocs (kern s))))))) as (a & Ea); [exact Hn| |].
        { apply List.Forall_forall. intros c Hc. rewrite List.Forall_forall in Hf. cbn [kern pdevs]. apply fresh_device; [|apply Hf, Hc].
          intros Heq. apply Hnotin. rewrite Heq. apply list_elem_of_In, in_map, Hc. }
        exists a. rewrite Ea. cbn [kern pdevs devices]. rewrite length_app, <- !app_assoc, Nat.add_comm. reflexivity.
Qed.

Lemma cleanup_ok a bs : forall l r,
  cleanup_loop (seq (length l) (length bs)) (mkK (l ++ map (device r) bs) a) = mkK (l ++ map (device (r - 1)) bs) a.
Proof.
  induction bs as [|b bs IH]; intros l r; cbn [length seq map cleanup_loop]; [reflexivity|].
  unfold platform_device_put, update. cbn [pdevs allocs].
  rewrite alter_middle.
  specialize (IH (l ++ [device (r - 1) b]) r). rewrite length_app, Nat.add_comm, <- !app_assoc in IH. exact IH.
Qed.

(** C19: what a GPIO platform-data module registers.  With memory, and ids that no
    device has, probing registers one device for each bus given, in order, with
    its id and data; it is refused when a bus has too few parameters or when none
    is given.  A refusal drops one reference of each device made before, and
    leaves it registered. *)
Theorem custom_probe_spec buses k :
  NoDup (map bus_id (given buses)) -> Forall (fun b => fresh (pdevs k) (bus_id b)) (given buses) ->
  let '(err, s) := probe kmalloc device_add held m buses k in
  err = probe_result (given buses) /\
  pdevs (kern s) = pdevs k ++ map (device (if err =? 0 then 1 + held else held)) (reached (given buses)).
Proof.
  intros Hn Hf. destruct (add_all_ok (take (m_count_max m) buses) (mkC [] k) Hn Hf) as (a & Ea).
  fold (given buses) in Ea. unfold probe. rewrite Ea. cbn [devices kern app]. unfold probe_result.
  pose proof (cleanup_ok a (reached (given buses)) (pdevs k) (1 + held)) as Hc.
  replace (1 + held - 1) with held in Hc by lia.
  destruct (existsb short (given buses)) eqn:Ex.
  - cbn [Z.eqb negb EINVAL Z.opp]. split; [reflexivity|]. unfold cleanup. cbn [devices kern]. rewrite Hc. reflexivity.
  - cbn [Z.eqb negb]. destruct (given buses) as [|b gs]; [cbn; rewrite app_nil_r; auto|].
    cbn [existsb] in Ex. apply orb_false_iff in Ex as [Eb _]. cbn [reached]. rewrite Eb. cbn [length seq]. auto.
Qed.

(** Unloading the module leaves its devices in the hierarchy. *)
Theorem unload_keeps buses k :
  NoDup (map bus_id (given buses)) -> Forall (fun b => fresh (pdevs k) (bus_id b)) (given buses) ->
  let '(err, s) := probe kmalloc device_add held m buses k in
  err = 0 -> pdevs (kern (cleanup s)) = pdevs k ++ map (device held) (given buses).
Proof.
  intros Hn Hf. destruct (add_all_ok (take (m_count_max m) buses) (mkC [] k) Hn Hf) as (a & Ea).
  fold (given buses) in Ea. unfold probe. rewrite Ea. cbn [devices kern app].
  destruct (existsb short (given buses)) eqn:Ex; [discriminate|]. cbn [Z.eqb negb].
  assert (Er : forall gs, existsb short gs = false -> reached gs = gs).
  { induction gs as [|b gs IH]; cbn [existsb reached]; [reflexivity|]. intros H. apply orb_false_iff in H as [-> H]. f_equal. auto. }
  rewrite Er by exact Ex. pose proof (cleanup_ok a (given buses) (pdevs k) (1 + held)) as Hc.
  replace (1 + held - 1) with held in Hc by lia.
  destruct (given buses) as [|b gs] eqn:Eg; [discriminate|]. cbn [length seq]. intros _.
  unfold cleanup. cbn [devices kern]. cbn [length seq] in Hc. rewrite Hc. reflexivity.
Qed.

End Spec.

(** ** An instance *)

(** A driver core that refuses a second device of the same name and id. *)
Definition core_add (l : list platform_device) (n : list Z) (i : Z) : Z :=
  if existsb (fun p => added p && bool_decide (name p = n) && (id p =? i)) l then -17 else 0.

Lemma core_add_fresh m l i : fresh m l i -> core_add l (m_name m) i = 0.
Proof.
  intros Hf. unfold core_add. destruct (existsb _ l) eqn:E; [|reflexivity]. exfalso.
  apply existsb_exists in E as (p & Hp & H). apply andb_true_iff in H as [H Hi]. apply andb_true_iff in H as [Ha Hn].
  apply bool_decide_eq_true in Hn. apply Z.eqb_eq in Hi. apply (Hf p); [apply list_elem_of_In, Hp|exact Ha|exact Hn|exact Hi].
Qed.

Definition two_buses : list (list Z) := [[0; 16; 1]; []; [1; 17]].

Lemma custom_probe_spec_witness :
  let '(err, s) := probe (fun _ => true) core_add 2 w1_gpio_custom two_buses (mkK [] 0) in
  err = -22 /\ pdevs (kern s) = [device w1_gpio_custom 2 [0; 16; 1]].
Proof.
  apply (custom_probe_spec (fun _ => true) core_add 2 w1_gpio_custom (fun _ => eq_refl)
           (core_add_fresh w1_gpio_custom) two_buses (mkK [] 0)).
  - apply (bool_decide_unpack _). vm_compute. exact I.
  - apply List.Forall_forall. intros b _ p Hp. apply elem_of_nil in Hp. destruct Hp.
Defined.

(** Loading, unloading and loading again with the same bus. *)
Definition reload : Z :=
  let s := (probe (fun _ => true) core_add 2 pwm_gpio_custom [[0; 5]] (mkK [] 0)).2 in
  (probe (fun _ => true) core_add 2 pwm_gpio_custom [[0; 5]] (kern (cleanup s))).1.

(** The second time is refused: the device is still there. *)
Lemma reload_refused : reload = -17.
Proof. vm_compute. reflexivity. Qed.

End GpioCustomSpec.
