(* ===== verification/RtaiLed.v ===== *)
(** The real-time LED demonstration (rtai-led-demo.c): the blinking and the
    pulsating task, the setting up of the pin, and the three threads of control
    (main, the task, the signal handler) that share [exec_end].

    RTAI's scheduler is not modelled: a task runs one round of its loop at each
    of its periods, whenever the scheduler lets it. *)
From Stdlib Require Import ZArith Lia.
From stdpp Require Import base list numbers option strings relations.
From S2P Require Import Prelude PortIO.

Module RtaiLed.

Definition CONTROL : Z := 0x80003848.
Definition DATA : Z := 0x8000384c.
Definition BIT_LED : Z := Z.shiftl 1 16.

(** ** The tasks *)

Section Tasks.
Context {D : Type} `{Ports D}.

Definition LED_LOW (d : D) : D := outl 0 0xcfc d.
Definition LED_HIGH (d : D) : D := outl BIT_LED 0xcfc d.

(** One round of [blink_task]; the state is [led_state]. *)
Definition blink_round (led_state : Z) (d : D) : Z * D :=
  if negb (led_state =? 0) then (0, LED_LOW d) else (1, LED_HIGH d).

Definition pulsate_set_brightness (level : Z) : list Z :=
  map (fun i => if Z.of_nat i <? level then 1 else 0) (seq 0 10).

Record pulsate_state : Type := mkP {
  duty_step : nat; brightness : Z; bright_count : Z; bright_inc : Z; pulsate_duty : list Z
}.

Definition pulsate_init : pulsate_state := mkP 0 0 0 1 (pulsate_set_brightness 0).

(** The brightness moves by one every 51 rounds. *)
Definition pulsate_level (p : pulsate_state) : pulsate_state :=
  let bright_count := bright_count p + 1 in
  if 50 <? bright_count then
    let brightness := brightness p + bright_inc p in
    let inc := if 9 <? brightness then -1 else bright_inc p in
    let inc := if brightness <? 0 then 1 else inc in
    mkP (duty_step p) brightness 0 inc (pulsate_set_brightness brightness)
  else mkP (duty_step p) (brightness p) bright_count (bright_inc p) (pulsate_duty p).

Definition pulsate_round (p : pulsate_state) (d : D) : pulsate_state * D :=
  let d := if negb (nth (duty_step p) (pulsate_duty p) 0 =? 0) then LED_LOW d else LED_HIGH d in
  let step := S (duty_step p) in
  let step := if (10 <=? step)%nat then 0%nat else step in
  (pulsate_level (mkP step (brightness p) (bright_count p) (bright_inc p) (pulsate_duty p)), d).

Definition set_lines (d : D) : D :=
  let d := (ioperm 0xcf8 8 d).2 in
  let d := (ioperm 0x80 1 d).2 in
  let d := outl CONTROL 0xcf8 d in
  let '(tmp, d) := inl_ 0xcfc d in
  let d := outl (Z.lor tmp BIT_LED) 0xcfc d in
  outl DATA 0xcf8 d.

End Tasks.

Inductive Operation : Type := blink | pulsate.

(** [None]: the usage message and exit. *)
Definition parse (argv : list (list Z)) : option Operation :=
  match argv with
  | [_; a] =>
      if bool_decide (a = str "blink") then Some blink
      else if bool_decide (a = str "pulsate") then Some pulsate else None
  | _ => None
  end.

(** ** The threads *)

(** Main: in its first loop, in its second, waiting for the task, returned. *)
Inductive main_pc : Type := Starting | Running | Joining | Exited.

(** The task: being set up, in its loop, returned. *)
Inductive task_pc : Type := TInit | TLoop | TEnd.

Record world : Type := mkW { exec_end : Z; mpc : main_pc; tpc : task_pc; rounds : nat }.

Definition start : world := mkW 1 Starting TInit 0.

Inductive step : world -> world -> Prop :=
| task_up e m n : step (mkW e m TInit n) (mkW 0 m TLoop n)
| task_round m n : step (mkW 0 m TLoop n) (mkW 0 m TLoop (S n))
| task_leaves e m n : e <> 0 -> step (mkW e m TLoop n) (mkW e m TEnd n)
| main_up t n : step (mkW 0 Starting t n) (mkW 0 Running t n)
| main_leaves e t n : e <> 0 -> step (mkW e Running t n) (mkW e Joining t n)
| main_joins e n : step (mkW e Joining TEnd n) (mkW e Exited TEnd n)
| signal e m t n : step (mkW e m t n) (mkW 1 m t n).

(** ** What holds of them *)

(** The brightness stays between -1 and 10, the step within the duty cycle, and
    the duty cycle shows the brightness. *)
Definition pulsate_ok (p : pulsate_state) : Prop :=
  (duty_step p < 10)%nat /\ -1 <= brightness p <= 10 /\ 0 <= bright_count p <= 50 /\
  (bright_inc p = 1 /\ brightness p < 10 \/ bright_inc p = -1 /\ 0 <= brightness p) /\
  pulsate_duty p = pulsate_set_brightness (brightness p).

Theorem pulsate_keeps {D : Type} `{Ports D} p (d : D) : pulsate_ok p -> pulsate_ok (pulsate_round p d).1.
Proof.
  intros (Hs & Hb & Hc & Hi & Hd). unfold pulsate_round, pulsate_level, pulsate_ok. cbn [fst duty_step brightness bright_count bright_inc pulsate_duty].
  destruct (Z.ltb_spec 50 (bright_count p + 1)); cbn [duty_step brightness bright_count bright_inc pulsate_duty];
    (split; [destruct (Nat.leb_spec 10 (S (duty_step p))); lia|]).
  - repeat split; try lia. destruct (Z.ltb_spec 9 (brightness p + bright_inc p)), (Z.ltb_spec (brightness p + bright_inc p) 0); lia.
  - repeat split; try lia. exact Hd.
Qed.

Lemma pulsate_init_ok : pulsate_ok pulsate_init.
Proof. unfold pulsate_ok, pulsate_init. cbn [duty_step brightness bright_count bright_inc pulsate_duty]. repeat split; lia. Qed.

(** In a duty cycle the LED is driven as often as the brightness says. *)
Theorem duty_cycle level : -1 <= level <= 10 ->
  length (List.filter (fun v => negb (v =? 0)) (pulsate_set_brightness level)) = Z.to_nat level.
Proof.
  intros H. assert (Hl : In level (map (fun i => Z.of_nat i - 1) (seq 0 12))).
  { apply in_map_iff. exists (Z.to_nat (level + 1)). rewrite in_seq. lia. }
  clear H. revert level Hl. apply List.Forall_forall. repeat constructor.
Qed.

Definition steps : world -> world -> Prop := rtc step.

Lemma rounds_up n : steps start (mkW 0 Running TLoop n).
Proof.
  induction n as [|n IH].
  - eapply rtc_l; [apply task_up|]. apply rtc_once, main_up.
  - eapply rtc_r; [exact IH|]. apply task_round.
Qed.

(** A signal that comes once main is in its second loop ends the program: from
    then on, whatever happens, main can still return, and nothing undoes it. *)
Theorem signal_ends w w' : steps start w -> mpc w = Running -> steps (mkW 1 Running (tpc w) (rounds w)) w' ->
  exec_end w' <> 0 /\ exists w'', steps w' w'' /\ mpc w'' = Exited.
Proof.
  intros Hs Hr Hw.
  assert (Ht : mpc w <> Starting -> tpc w <> TInit).
  { clear Hr Hw. assert (H : (mpc w <> Starting -> tpc w <> TInit) /\ (tpc w = TInit -> exec_end w <> 0)).
    { revert Hs. apply (rtc_ind_r (fun w => (mpc w <> Starting -> tpc w <> TInit) /\ (tpc w = TInit -> exec_end w <> 0))).
      - cbn. split; [congruence|lia].
      - intros y z _ Hyz [IH1 IH2]. destruct Hyz; cbn in *; (split; [intros ?|intros ?]); try congruence; try lia; auto; intros E; specialize (IH2 E); congruence. }
    apply H. }
  specialize (Ht ltac:(congruence)).
  assert (Hinv : exec_end w' <> 0 /\ tpc w' <> TInit /\ mpc w' <> Starting).
  { revert Hw. apply (rtc_ind_r (fun v => exec_end v <> 0 /\ tpc v <> TInit /\ mpc v <> Starting)).
    - cbn. split; [lia|]. split; [exact Ht|discriminate].
    - intros y z _ Hyz (I1 & I2 & I3). destruct Hyz; cbn in *; repeat split; try congruence; try lia. }
  destruct Hinv as (He & Hti & Hms). split; [exact He|].
  destruct w' as [e m t n]. cbn in *.
  assert (Hend : exists m', steps (mkW e m t n) (mkW e m' TEnd n) /\ m' <> Starting).
  { exists m. split; [|exact Hms]. destruct t; [congruence|apply rtc_once, task_leaves, He|apply rtc_refl]. }
  destruct Hend as (m' & Hm' & Hns). exists (mkW e Exited TEnd n). split; [|reflexivity].
  etransitivity; [exact Hm'|]. destruct m'; [congruence| | |apply rtc_refl].
  - eapply rtc_l; [apply main_leaves, He|]. apply rtc_once, main_joins.
  - apply rtc_once, main_joins.
Qed.

(** A signal while the task is being set up is forgotten: it changes nothing, and
    the task starts all the same. *)
Theorem early_signal_lost w : steps start w -> tpc w = TInit -> mkW 1 (mpc w) (tpc w) (rounds w) = w.
Proof.
  revert w. apply (rtc_ind_r (fun w => tpc w = TInit -> mkW 1 (mpc w) (tpc w) (rounds w) = w)); [reflexivity|].
  intros y z _ Hyz IH Ht. destruct Hyz; cbn in *; try discriminate; try reflexivity; subst; specialize (IH eq_refl); congruence.
Qed.

(** A signal between the task's start and main's next look makes the task leave
    while main is in its first loop, which it never leaves. *)
Theorem signal_hangs : exists w, steps start w /\ forall w', steps w w' -> mpc w' = Starting.
Proof.
  exists (mkW 1 Starting TEnd 0). split.
  - eapply rtc_l; [apply task_up|]. eapply rtc_l; [apply signal|]. apply rtc_once, task_leaves. lia.
  - intros w'. enough (H : forall w', steps (mkW 1 Starting TEnd 0) w' -> w' = mkW 1 Starting TEnd 0)
      by (intros Hw; rewrite (H _ Hw); reflexivity).
    apply (rtc_ind_r (fun v => v = mkW 1 Starting TEnd 0)); [reflexivity|].
    intros y z _ Hyz ->. inversion Hyz; subst; reflexivity.
Qed.

End RtaiLed.
