(* ===== verification/Sound.v ===== *)
(** The BusyBox sound applets (miscutils/wavplay.c and miscutils/mixer.c).

    What the sound devices answer is a parameter; the programs are functions to
    the list of what they do.  A WAV file is a regular file, given by its bytes;
    the line wavplay prints about it is not modelled. *)
From Stdlib Require Import ZArith Lia.
From stdpp Require Import base list numbers option strings.
From S2P Require Import Prelude Python Panel.

Module Sound.

(** What the applets do to the devices, and how they end. *)
Inductive action : Type :=
| Open (path : list Z)
| SetBits (v : Z) | SetChannels (v : Z) | SetRate (v : Z)
| Write (bs : list Z)
| ReadMask | ReadLevel (dev : Z) | WriteLevel (dev v : Z)
| Print (text : list Z)
| Exit (status : Z).

(** An [ioctl] or [xopen] that fails ends the program with status 1. *)
Definition or_die (ok : action -> bool) (a : action) (k : list action) : list action :=
  a :: if ok a then k else [Exit 1].

(** ** wavplay.c *)

Section Wavplay.
(** Whether a call succeeds, and how much of a write the device takes. *)
Context (ok : action -> bool) (accepts : list Z -> Z).

Definition sizeof_wav_header : nat := 44.

Definition h_field (h : list Z) (off len : nat) : list Z := take len (drop off h).

Definition recognised (h : list Z) : bool :=
  (length h =? sizeof_wav_header)%nat && bool_decide (h_field h 0 4 = str "RIFF") &&
  bool_decide (h_field h 8 14 = str "WAVEfmt " ++ [0x10; 0; 0; 0; 1; 0]) && bool_decide (h_field h 36 4 = str "data").

(** [while (read_result)]: the read that gives nothing is written too.  [fuel]
    bounds the number of reads. *)
Fixpoint play_loop (fuel buffer_len : nat) (rest : list Z) : list action :=
  match fuel with
  | O => []
  | S fuel' =>
      let buffer := take buffer_len rest in
      Write buffer ::
        if negb (accepts buffer =? Z.of_nat (length buffer)) then [Exit 1]
        else match buffer with
             | [] => [Exit 0]
             | _ => play_loop fuel' buffer_len (drop buffer_len rest)
             end
  end.

Definition wavplay_main (device : option (list Z)) (wavfile contents : list Z) : list action :=
  or_die ok (Open wavfile) (
  or_die ok (Open (default (str "/dev/dsp") device)) (
  let h := take sizeof_wav_header contents in
  if negb (recognised h) then [Exit 1]
  else
    or_die ok (SetBits (Python.un_le (h_field h 34 2))) (
    or_die ok (SetChannels (Python.un_le (h_field h 22 2))) (
    or_die ok (SetRate (Python.un_le (h_field h 24 4))) (
    let buffer_len := Z.to_nat (Python.un_le (h_field h 28 4) / 4) in
    play_loop (S (length contents)) buffer_len (drop sizeof_wav_header contents)))))).

End Wavplay.

(** ** mixer.c *)

Definition m_names : list (list Z) :=
  map str ["vol"; "bass"; "treble"; "synth"; "pcm"; "speaker"; "line"; "mic"; "cd"; "mix"; "pcm2"; "rec"; "igain";
           "ogain"; "line1"; "line2"; "line3"; "dig1"; "dig2"; "dig3"; "phin"; "phout"; "video"; "radio"; "monitor"]%string.

(** How the device was given on the command line: not at all, as [-d DEVICE] or
    as [-dDEVICE]. *)
Inductive dopt : Type := NoDevice | Separate (dev : list Z) | Joined (dev : list Z).

Definition dopt_args (o : dopt) : list (list Z) :=
  match o with NoDevice => [] | Separate dev => [str "-d"; dev] | Joined dev => [str "-d" ++ dev] end.

Definition pr_level_exit (level : Z) : list action :=
  [Print (str "Level (L/R): " ++ Panel.print_d 10 (Z.land level 0xff) ++ str "/" ++
          Panel.print_d 10 (Z.shiftr (Z.land level 0xff00) 8) ++ [10]); Exit 0].

Section Mixer.
(** The device's answers, and the library's number parser. *)
Context (ok : action -> bool) (devmask : Z) (level_of : Z -> Z).
Context (xatou_range : list Z -> Z -> Z -> option Z).

(** The mixers of the mask with their numbers. *)
Definition present : list (Z * list Z) :=
  List.filter (fun p => anyset devmask (Z.shiftl 1 p.1)) (imap (fun i n => (Z.of_nat i, n)) m_names).

(** The last one of that name, or 0. *)
Definition find_mixer (mixer : list Z) : Z :=
  fold_left (fun dev p => if bool_decide (p.2 = mixer) then p.1 else dev) present 0.

Definition mixer_main (o : dopt) (rest : list (list Z)) : list action :=
  let argv := str "mixer" :: dopt_args o ++ rest in
  let argc := length argv in
  let extra_args := u32 (Z.of_nat argc - 1 - match o with NoDevice => 0 | _ => 2 end) in
  let device := match o with NoDevice => str "/dev/mixer" | Separate dev | Joined dev => dev end in
  or_die ok (Open device) (
  or_die ok ReadMask (
  if extra_args =? 0 then
    [Print (str "Mixer:" ++ concat (map (fun p => 32 :: p.2) present) ++ [10]); Exit 0]
  else
    let mixer := nth (argc - if extra_args =? 1 then 1 else 2) argv [] in
    let mixer_device := find_mixer mixer in
    or_die ok (ReadLevel mixer_device) (
    if extra_args =? 1 then pr_level_exit (level_of mixer_device)
    else
      match xatou_range (nth (argc - 1) argv []) 0 100 with
      | None => [Exit 1]
      | Some v =>
          let write_level := u32 (Z.shiftl v 8 + v) in
          or_die ok (WriteLevel mixer_device write_level) (pr_level_exit write_level)
      end))).

End Mixer.

(** ** What they do *)

Definition played (l : list action) : list Z := concat (omap (fun a => match a with Write bs => Some bs | _ => None end) l).

(** All of the data goes out, in order, and the program ends. *)
Lemma play_loop_all accepts n : (0 < n)%nat -> (forall bs, accepts bs = Z.of_nat (length bs)) ->
  forall fuel rest, (length rest < fuel)%nat ->
  played (play_loop accepts fuel n rest) = rest /\ last (play_loop accepts fuel n rest) = Some (Exit 0).
Proof.
  intros Hn Ha. induction fuel as [|fuel IH]; intros rest Hf; [lia|]. cbn [play_loop]. rewrite Ha, Z.eqb_refl. cbn [negb].
  destruct rest as [|b rest]; [rewrite take_nil; auto|]. destruct n as [|n]; [lia|].
  cbn [take]. destruct (IH (drop (S n) (b :: rest))) as [IH1 IH2].
  { rewrite length_drop. cbn [length] in *. lia. }
  split.
  - unfold played in *. cbn [omap list_omap concat]. rewrite IH1. cbn [drop app]. f_equal. apply take_drop.
  - destruct (play_loop accepts fuel (S n) _) eqn:E; [discriminate|exact IH2].
Qed.

(** A recognised file is played to the device whole: with calls that succeed and
    a byte rate of four at least, what is written is what follows the header. *)
Theorem wavplay_plays ok accepts device wavfile contents :
  (forall a, ok a = true) -> (forall bs, accepts bs = Z.of_nat (length bs)) ->
  recognised (take sizeof_wav_header contents) = true ->
  4 <= Python.un_le (h_field (take sizeof_wav_header contents) 28 4) ->
  played (wavplay_main ok accepts device wavfile contents) = drop sizeof_wav_header contents /\
  last (wavplay_main ok accepts device wavfile contents) = Some (Exit 0).
Proof.
  intros Hok Ha Hr Hb. unfold wavplay_main, or_die. rewrite !Hok, Hr. cbn [negb].
  destruct (play_loop_all accepts (Z.to_nat (Python.un_le (h_field (take sizeof_wav_header contents) 28 4) / 4))
    ltac:(Z.to_euclidean_division_equations; lia) Ha (S (length contents)) (drop sizeof_wav_header contents)) as [H1 H2].
  { rewrite length_drop. lia. }
  split; [exact H1|]. rewrite !last_cons. cbv zeta. rewrite H2. reflexivity.
Qed.

(** Both channels get the level asked for. *)
Theorem mixer_both v : 0 <= v <= 100 -> let w := u32 (Z.shiftl v 8 + v) in
  Z.land w 0xff = v /\ Z.shiftr (Z.land w 0xff00) 8 = v.
Proof.
  intros H w. assert (Hl : In v (map Z.of_nat (seq 0 101))).
  { apply in_map_iff. exists (Z.to_nat v). rewrite in_seq. lia. }
  clear H. subst w. revert v Hl. apply List.Forall_forall. repeat constructor.
Qed.

(** A name that is no mixer's sets the first one's level instead. *)
Theorem mixer_unknown ok mask level_of parse name arg v :
  (forall a, ok a = true) -> (forall p, In p (present mask) -> p.2 <> name) -> parse arg 0 100 = Some v ->
  In (WriteLevel 0 (u32 (Z.shiftl v 8 + v))) (mixer_main ok mask level_of parse NoDevice [name; arg]).
Proof.
  intros Hok Hn Hp. unfold mixer_main, or_die. cbn [dopt_args app length]. rewrite !Hok. cbn [Z.of_nat].
  change (u32 _ =? 0) with false. change (u32 _ =? 1) with false. cbn [nth Nat.sub]. rewrite Hp.
  assert (E : find_mixer mask name = 0).
  { unfold find_mixer. revert Hn. generalize (present mask). induction l as [|p l IH]; intros Hn; [reflexivity|].
    cbn [fold_left]. rewrite bool_decide_eq_false_2 by (apply Hn; left; reflexivity). apply IH. intros q Hq. apply Hn. right. exact Hq. }
  rewrite E. do 3 right. left. reflexivity.
Qed.

(** With the device joined to its option the arguments are miscounted: the mixers
    are listed instead of the level of the one named. *)
Theorem mixer_joined ok mask level_of parse dev name :
  mixer_main ok mask level_of parse (Joined dev) [name] =
  mixer_main ok mask level_of parse (Separate dev) [].
Proof. unfold mixer_main. cbn [dopt_args app length]. reflexivity. Qed.

End Sound.
