(* ===== verification/SerialUpload.v ===== *)
(** The uploads over the serial console (tools/bb_upload8.py and
    tools/bb_upload.py): cutting an image into packets and back, and the
    conversation with the boot loader's menu.

    The boot loader is not in the sources: whether each [expect] of the terminal
    library finds its text is a parameter.  The serial line's settings, the power
    switch and the terminal at the end are not modelled. *)
From Stdlib Require Import ZArith Lia.
From stdpp Require Import base list numbers option strings.
From S2P Require Import Prelude Md5 Python ConfigToolsSpec Panel.

Module SerialUpload.
Import Python.

(** ** Packets *)

Definition csize : nat := Z.to_nat 8192.

Definition packet (payload : list Z) : list Z := str "----" ++ Md5.rfc_md5 payload ++ payload.

(** [for index in xrange(0, len(data), csize)]: the packets and the padding. *)
Fixpoint packets_loop (fuel : nat) (data : list Z) (padding : nat) : list (list Z) * nat :=
  match fuel with
  | O => ([], padding)
  | S fuel' =>
      match data with
      | [] => ([], padding)
      | _ =>
          let chunk := take csize data in
          let '(out, p) := packets_loop fuel' (drop csize data) (padding + (csize - length chunk)) in
          (packet (pad_to csize 0xff chunk) :: out, p)
      end
  end.

(** [None]: a length that does not fit in 32 bits raises. *)
Definition FirmwareToPackets (data : list Z) : option (list (list Z) * nat) :=
  match pack 4 (Z.of_nat (length data)) with
  | None => None
  | Some _ => Some (packets_loop (length data) data 0)
  end.

(** [data[:-padding]]: nothing at all when the padding is zero. *)
Definition PacketsToFirmware (parts : list (list Z)) (padding : nat) : list Z :=
  let data := concat (map (drop 20) parts) in
  match padding with O => [] | _ => take (length data - padding) data end.

(** ** The conversation *)

(** What was sent so far, and what the coming [expect]s will find. *)
Record console : Type := mkCon { sent : list Z; finds : list bool }.

Definition send (bs : list Z) (c : console) : console := mkCon (sent c ++ bs) (finds c).

(** [false]: the text did not come, which raises. *)
Definition expect (c : console) : bool * console :=
  match finds c with
  | true :: fs => (true, mkCon (sent c) fs)
  | false :: fs => (false, mkCon (sent c) fs)
  | [] => (false, c)
  end.

(** A part of the conversation: what is sent, or a wait. *)
Inductive talk : Type := Say (bs : list Z) | Wait.

Fixpoint converse (ts : list talk) (c : console) : bool * console :=
  match ts with
  | [] => (true, c)
  | Say bs :: ts' => converse ts' (send bs c)
  | Wait :: ts' => let '(ok, c) := expect c in if ok then converse ts' c else (false, c)
  end.

(** [for i in xrange(0, len(chunk), 256): m.write(chunk[i:i+256])]. *)
Fixpoint pieces (fuel : nat) (chunk : list Z) : list talk :=
  match fuel, chunk with
  | S fuel', _ :: _ => Say (take 256 chunk) :: pieces fuel' (drop 256 chunk)
  | _, _ => []
  end.

(** ["%03d" % offset]. *)
Definition print_03d (offset : nat) : list Z :=
  let s := Panel.print_d 20 (Z.of_nat offset) in repeat 48 (3 - length s) ++ s.

Definition Flash (chunk : list Z) (offset : nat) : list talk :=
  [Say (str "2"); Wait] ++ pieces (length chunk) chunk ++
  [Wait; Say (str "3"); Wait; Say (print_03d offset); Wait; Wait].

Fixpoint flash_loop (parts : list (list Z)) (offset : nat) : list talk :=
  match parts with [] => [] | chunk :: parts' => Flash chunk offset ++ flash_loop parts' (S offset) end.

(** [limit]: the largest image, if there is one.  [None]: refused before anything
    is sent. *)
Definition UploadBinary (limit : option Z) (data : list Z) (c : console) : option (bool * console) :=
  if match limit with Some l => l <? Z.of_nat (length data) | None => false end then None
  else
    match FirmwareToPackets data with
    | None => None
    | Some (parts, _) => Some (converse ([Wait; Say [0x1b]; Wait; Say (str "1"); Wait] ++ flash_loop parts 0) c)
    end.

Definition bb_upload8 : list Z -> console -> option (bool * console) := UploadBinary None.

Definition bb_upload : list Z -> console -> option (bool * console) := UploadBinary (Some 0xee000).

(** ** What they guarantee *)

Lemma csize_pos : (0 < csize)%nat.
Proof. unfold csize. lia. Qed.

Lemma packet_payload s : drop 20 (packet s) = s.
Proof.
  unfold packet. rewrite app_assoc. rewrite drop_app_length'; [reflexivity|].
  rewrite length_app, ConfigToolsSpec.length_md5. reflexivity.
Qed.

(** The payloads are the image followed by the padding. *)
Lemma packets_loop_data fuel : forall data p, (length data <= fuel)%nat ->
  let '(out, q) := packets_loop fuel data p in
  concat (map (drop 20) out) = data ++ repeat 0xff (q - p) /\ (p <= q)%nat /\
  Forall (fun e => length e = (20 + csize)%nat) out.
Proof.
  induction fuel as [|fuel IH]; intros data p Hf.
  - destruct data; [|cbn in Hf; lia]. cbn. rewrite Nat.sub_diag. auto.
  - destruct data as [|b data]; [cbn; rewrite Nat.sub_diag; auto|]. cbn [packets_loop]. pose proof csize_pos as Hc.
    set (chunk := take csize (b :: data)).
    assert (Hl : (length (drop csize (b :: data)) <= fuel)%nat) by (rewrite length_drop; cbn [length] in *; lia).
    specialize (IH (drop csize (b :: data)) (p + (csize - length chunk))%nat Hl).
    destruct (packets_loop fuel _ _) as [out q]. destruct IH as (Hd & Hp & Hlen). cbn [map concat].
    assert (Hpad : length (pad_to csize 0xff chunk) = csize).
    { unfold pad_to. rewrite length_app, repeat_length. unfold chunk. rewrite length_take. lia. }
    rewrite packet_payload, Hd. split; [|split; [lia|]].
    + destruct (decide (csize <= length (b :: data))%nat) as [Hge|Hlt].
      * assert (Hch : length chunk = csize) by (unfold chunk; rewrite length_take; lia).
        unfold pad_to. rewrite Hch, !Nat.sub_diag. cbn [repeat]. rewrite app_nil_r, Nat.add_0_r, app_assoc. f_equal. apply take_drop.
      * assert (Hch : chunk = b :: data) by (unfold chunk; apply take_ge; lia).
        rewrite drop_ge by lia. unfold pad_to. rewrite Hch in *. rewrite <- app_assoc. f_equal. cbn [app]. rewrite <- repeat_app. f_equal. lia.
    + constructor; [|exact Hlen]. unfold packet. rewrite !length_app, ConfigToolsSpec.length_md5, Hpad. reflexivity.
Qed.

(** An image cut into packets: every packet carries 8 KiB, the payloads are the
    image and its padding, and putting them together gives the image back, unless
    it needed no padding: then nothing comes back. *)
Theorem packets_roundtrip data : Z.of_nat (length data) < 2 ^ 32 ->
  exists parts padding, FirmwareToPackets data = Some (parts, padding) /\
    concat (map (drop 20) parts) = data ++ repeat 0xff padding /\
    Forall (fun e => length e = (20 + csize)%nat) parts /\
    PacketsToFirmware parts padding = match padding with O => [] | _ => data end.
Proof.
  intros Hl. unfold FirmwareToPackets. rewrite pack_ok by lia.
  pose proof (packets_loop_data (length data) data 0 ltac:(lia)) as H.
  destruct (packets_loop (length data) data 0) as [parts padding]. destruct H as (Hd & _ & Hlen).
  rewrite Nat.sub_0_r in Hd. exists parts, padding. split; [reflexivity|]. split; [exact Hd|]. split; [exact Hlen|].
  unfold PacketsToFirmware. rewrite Hd. destruct padding as [|padding]; [reflexivity|].
  rewrite take_app_length'; [reflexivity|]. rewrite length_app, repeat_length. lia.
Qed.

Definition said (ts : list talk) : list Z := concat (omap (fun t => match t with Say bs => Some bs | Wait => None end) ts).

Definition waits (ts : list talk) : nat := length (List.filter (fun t => match t with Wait => true | _ => false end) ts).

(** Whatever the boot loader answers, what was sent is the beginning of the
    script; it is all of it exactly when every wait was answered. *)
Lemma converse_prefix ts : forall c, let '(ok, c') := converse ts c in
  (exists pre, sent c' = sent c ++ pre /\ pre `prefix_of` said ts) /\
  (ok = true -> sent c' = sent c ++ said ts) /\
  (ok = true <-> take (waits ts) (finds c) = repeat true (waits ts)).
Proof.
  induction ts as [|[bs|] ts IH]; intros c; cbn [converse].
  - split; [exists []; rewrite app_nil_r; split; [reflexivity|apply prefix_nil]|]. cbn. rewrite app_nil_r, take_0. tauto.
  - specialize (IH (send bs c)). destruct (converse ts (send bs c)) as [ok c'].
    destruct IH as ((pre & E & Hp) & Hok & Hw). cbn [sent send finds] in *. split; [|split; [|exact Hw]].
    + exists (bs ++ pre). rewrite E, app_assoc. split; [reflexivity|]. apply prefix_app, Hp.
    + intros H. rewrite Hok, <- app_assoc by exact H. reflexivity.
  - unfold expect. change (waits (Wait :: ts)) with (S (waits ts)). change (said (Wait :: ts)) with (said ts).
    assert (Hno : forall c', sent c' = sent c -> take (S (waits ts)) (finds c) <> repeat true (S (waits ts)) ->
      (exists pre, sent c' = sent c ++ pre /\ pre `prefix_of` said ts) /\
      (false = true -> sent c' = sent c ++ said ts) /\ (false = true <-> take (S (waits ts)) (finds c) = repeat true (S (waits ts)))).
    { intros c' E Hne. split; [exists []; rewrite app_nil_r; split; [exact E|apply prefix_nil]|]. split; [discriminate|].
      split; [discriminate|]. intros H. destruct (Hne H). }
    destruct (finds c) as [|[] fs] eqn:Ef; [apply Hno; [reflexivity|discriminate]| |apply Hno; [reflexivity|discriminate]].
    specialize (IH (mkCon (sent c) fs)). destruct (converse ts _) as [ok c']. destruct IH as (H1 & H2 & H3).
    cbn [sent finds] in *. split; [exact H1|]. split; [exact H2|]. cbn [take repeat]. rewrite H3. split; [intros ->; reflexivity|].
    intros H. injection H as H. exact H.
Qed.

Lemma said_app a b : said (a ++ b) = said a ++ said b.
Proof. unfold said. rewrite omap_app, concat_app. reflexivity. Qed.

(** The pieces of a chunk are the chunk. *)
Lemma said_pieces fuel : forall chunk, (length chunk <= fuel)%nat -> said (pieces fuel chunk) = chunk.
Proof.
  induction fuel as [|fuel IH]; intros [|b chunk] Hf; try reflexivity; [cbn in Hf; lia|]. cbn [pieces].
  change (take 256 (b :: chunk) ++ said (pieces fuel (drop 256 (b :: chunk))) = b :: chunk).
  rewrite IH; [apply take_drop|]. rewrite length_drop. cbn [length] in *. lia.
Qed.

Lemma said_flash parts : forall k, said (flash_loop parts k) =
  concat (imap (fun i e => str "2" ++ e ++ str "3" ++ print_03d (k + i)) parts).
Proof.
  induction parts as [|e parts IH]; intros k; [reflexivity|]. cbn [flash_loop imap concat].
  unfold Flash. rewrite !said_app, IH, said_pieces, Nat.add_0_r by lia. unfold said. cbn [omap list_omap concat app].
  rewrite !app_nil_r, <- !app_assoc. cbn [app]. do 4 f_equal. f_equal. apply imap_ext. intros i x _. cbn. do 3 f_equal.
  rewrite Nat.add_succ_r. reflexivity.
Qed.

(** The whole of what is typed at the console for an image in packets. *)
Definition transcript (parts : list (list Z)) : list Z :=
  [0x1b] ++ str "1" ++ concat (imap (fun i e => str "2" ++ e ++ str "3" ++ print_03d i) parts).

(** Whatever the boot loader answers, the upload types the beginning of the
    transcript of its packets and stops at the first answer that does not come;
    when it succeeds it has typed all of it. *)
Theorem upload_types data c : Z.of_nat (length data) < 2 ^ 32 ->
  exists parts padding ok c', FirmwareToPackets data = Some (parts, padding) /\ bb_upload8 data c = Some (ok, c') /\
    (exists pre, sent c' = sent c ++ pre /\ pre `prefix_of` transcript parts) /\
    (ok = true -> sent c' = sent c ++ transcript parts).
Proof.
  intros Hl. destruct (packets_roundtrip data Hl) as (parts & padding & E & _). exists parts, padding.
  unfold bb_upload8, UploadBinary. rewrite E.
  pose proof (converse_prefix ([Wait; Say [0x1b]; Wait; Say (str "1"); Wait] ++ flash_loop parts 0) c) as H.
  destruct (converse _ c) as [ok c']. exists ok, c'. destruct H as (H1 & H2 & _).
  rewrite said_app, said_flash in H1, H2. auto.
Qed.

End SerialUpload.
